(* ===== verification/_CoqProject ===== *)
-Q . S2P
Prelude.v
StdMap.v
Terms.v
Etf.v
Roaring.v
PostingHash.v
PostingMerge.v
PostingNif.v
Erl.v
ErlPosting.v
CompactionFilter.v
ScalarMerge.v
Util.v
ErlangMerge.v
RefObjects.v
RefInv.v
RefSystem.v
CloseThreads.v
CloseSpec.v
HandleNif.v
HandleGrow.v
WriteBatchLib.v
Batch.v
ErlWrite.v
TransactionLog.v
Options.v
DbLib.v
DbNif.v
DbSpec.v
DbOpen.v
DbSafe.v
Iter.v
IterSpec.v
ErlFold.v
Txn.v
TxnSpec.v
TxnLife.v
Backup.v
Sst.v
SstSpec.v
SstLife.v
Ingest.v
Shared.v
SharedLife.v
OpenShared.v
ErlDb.v
NifTable.v
NifLoad.v
