(* ===== verification/Prelude.v ===== *)
(** * erlang-rocksdb: a verification of its native code

    erlang-rocksdb gives Erlang programs a RocksDB database through native
    functions (NIFs) written in C++ ([c_src/]).  RocksDB itself, CRoaring and the
    compression libraries are vendored under [deps/]; [src/rocksdb.erl] has the
    Erlang stubs, the documentation of the functions and a few functions with a body.
    This library models the repository's own C++ code, and the Erlang code that
    composes it, and proves what they promise.

    ** Parts of the program and where they are modelled

    - Erlang terms, the accessors of [erl_nif.h], [rocksdb::Status] and the
      helpers of [util.cc] that build replies: [Terms].  The runtime (external
      term format, allocation) is the class [NifEnv] with the laws [NifLaws];
      [Etf] is an instance with a concrete codec, used by the witnesses.
    - [std::map]/[std::set] over strings: [StdMap], canonical sorted lists.
    - Posting lists: a merge operator that keeps a set of keys under one RocksDB
      key, and NIFs that read its values.  [PostingHash] has the V1 and V2 formats
      and the hash, [PostingMerge] the operator
      ([posting_list_merge_operator.{h,cc}]), [PostingNif] the native functions
      ([posting_list_nif.cc]), whose parsers are a second copy of the same code.
      CRoaring is the class [Roaring] with [RoaringLaws], in [Roaring], with an
      instance.
    - Compaction filter ([compaction_filter.{h,cc}] and the option branch of
      [erocksdb_db.cc]): [CompactionFilter].  Rules, the callback to an Erlang
      process with its shared response slot, the reply function, and the parsing
      of the option.
    - Counter and bitset merge operators: [ScalarMerge]
      ([counter_merge_operator.cc], [bitset_merge_operator.cc]), with [std::stoi]
      and [std::to_string], and RocksDB's drivers of associative operators.
    - The Erlang-term merge operator ([erlang_merge.cc]): [ErlangMerge].
    - Reference-counted handles ([refobjects.{h,cc}], [util.cc]): [RefObjects] has
      the objects and operations, [RefInv] the invariant and its preservation,
      [RefSystem] the transition system of interleaved calls and cleanups, in which
      finding an object and taking a reference on it are two steps, with its
      theorems, [HandleNif] the native functions that create, release and close
      handles ([erocksdb_snapshot.cc], [erocksdb_column_family.cc],
      [transaction_log.cc], [transaction.cc], [pessimistic_transaction.cc],
      [erocksdb_iter.cc], [backup.cc], [Close] of [erocksdb_db.cc]), and [HandleGrow]
      that none of them takes an object off the heap.
    - The close protocol at the grain of its atomic operations ([RefInc], [RefDec],
      [InitiateCloseRequest], [AwaitCloseAndDestructor], [~ErlRefObject] of
      [refobjects.cc], [compare_and_swap] of [detail.hpp]): [CloseThreads] has the
      threads, their steps and the invariant, [CloseSpec] safety, termination, the
      two races and the agreement with [RefObjects].
    - Write batches ([batch.cc], [parse_write_option] of [erocksdb_db.cc], [fold]
      of [atoms.h]): [WriteBatchLib] has the interface of [rocksdb::WriteBatch]
      with its laws, an instance, and the handler of [transaction_log.h]; [Batch]
      the native functions, the documented calls as a specification, the refinement
      and where the code departs from the documentation.
    - Transaction log ([transaction_log.cc]): [TransactionLog].
    - Options ([parse_db_option], [parse_cf_option], [parse_bbt_option],
      [parse_compaction_options_fifo] and [parse_cf_descriptor] of
      [erocksdb_db.cc], [fold] of [atoms.h]): [Options], tables of keys and the
      fields of the C++ structures they assign.
    - Databases ([erocksdb_db.cc], [erocksdb_column_family.cc],
      [erocksdb_snapshot.cc]): [DbLib] is the interface of [rocksdb::DB] with its
      laws and an instance over maps; [DbNif] has the functions that read, write
      and maintain an open database; [DbSpec] their specification as maps of
      entries, [DbSafe] what they do to handles, [DbOpen] opening, destruction,
      repair, time-to-live databases, and creation and listing of column families, with
      the class of a database and the RocksDB handle each column-family object holds.
    - Iterators ([erocksdb_iter.cc] and the loop of [rocksdb:fold/4]): [Iter] has
      the functions, with the bound slices as cells of a heap; [IterSpec] the laws
      of [rocksdb::Iterator], the cursor they implement and the theorems.
    - Transactions ([transaction.cc], [pessimistic_transaction.cc]): [Txn] has the
      functions of both kinds, [TxnSpec] the laws of [rocksdb::Transaction], the
      specification with pending writes and save points, and the theorems.
      [TxnLife] follows an iterator of a transaction past its end.
    - Backups ([backup.cc]): [Backup].
    - SST files ([sst_file_writer.cc], [sst_file_reader.cc]): [Sst] has the
      functions and the objects as resources of the runtime, [SstSpec] the laws of
      writers and readers and the round trip, [SstLife] the transition system of
      calls and garbage collection with the lifetime of readers and iterators.
      [Ingest] composes the writer with [IngestExternalFile] and the reads of a
      database.
    - Objects that databases share ([cache.cc], [rate_limiter.cc], [env.cc],
      [sst_file_manager.cc], [write_buffer_manager.cc], [statistics.cc]): [Shared]
      has the functions, the tables of tickers and histograms and the shared
      pointers with their use counts, [SharedLife] the transition system of calls,
      garbage collection and databases, and the exactness of the counts.
      [OpenShared] composes them with [DbOpen], [Options] and the handles: databases
      are opened with options that name shared objects, and destroyed.
    - The function table and the atoms ([erocksdb.cc], [atoms.h], the [-export] of
      [rocksdb.erl]): [NifTable] has the tables, [NifLoad] the registration of the
      resource types, [on_load], [on_upgrade], and calls by name and arity.
    - The functions with a body of [rocksdb.erl]: [Erl] has values and exceptions,
      [ErlWrite] [write/3] and the encoding of merge values, [ErlPosting] the
      posting-list functions, [ErlFold] [fold] and [fold_keys] with the closing of
      their iterator (their loop is in [IterSpec]), [ErlDb] [merge/4,5], [count],
      [stats] and the names for other functions.
    - Helpers ([util.cc], [mutex.h]): the terms they make and the handles they get are
      in [Terms] and [RefObjects]; [Util] has the readers of strings and of numbers
      with a unit, and the mutex with its scopes.

    How they interact: RocksDB calls the merge operators and the compaction filter
    with bytes; native functions call into the handle system to pin what they use
    ([Batch], [TransactionLog] and [HandleNif] are clients of [RefObjects]); the
    batch and log functions share [TransactionLogHandler]; [PostingNif] reads what
    [PostingMerge] writes.  Iterators, transactions and backups are clients of
    [DbLib]: transactions are specified together with direct calls on their
    database, [counter_over_database] runs the counter operator of [ScalarMerge]
    under the merge function of the database, the iterators of SST readers satisfy
    the same laws as those of a database, and an ingested file is a list of updates
    of its map.  [ErlWrite] runs over [Batch], [ErlPosting] over [PostingNif],
    [ErlFold] over [Iter] and the handle system, [ErlDb] over [DbNif], and
    [posting_over_database] puts the posting-list operator, its full and its partial
    merges in any grouping, under the merge function of the database.  [NifLoad] routes a call of Erlang to the functions of [HandleNif] and
    [DbNif].  All read options go through [parse_read_option] and the snapshots of
    [RefObjects].

    ** Conventions

    - [outcome]: [Ok a] is a normal return, [Undef] an execution that reaches
      undefined behaviour (null or freed pointer, read or write outside a buffer,
      overflow of a signed [int]).  A theorem that a call equals [Ok _] excludes
      it; the monad's bind is [let! x := m in k].
    - Unsigned machine integers are [Z] with [wrap w] ([u32], [u64]) written where
      the C++ type truncates; buffers are [list Byte.byte]; C++ objects that are
      shared are kept in [gmap] heaps and passed explicitly.
    - A failing C++ function is an [option] or a [Status]; what a native function
      returns is a [reply], badarg or a term.
    - Third-party code is a type class of operations and a class of laws that
      state its documented behaviour; each has an instance, and the witness of a
      property uses it.
    - Concurrency: calls interleave at the granularity of [RefSystem.step], where the
      regions under a mutex and the atomic counters are single steps and a retrieval
      ([step_retrieve]) and the reference it leads to ([step_assign]) are apart, and in
      [CloseThreads] at that of the atomic operations, under any schedule.
    - The merge function of a database ([full_merge] of [DbLaws]) is what RocksDB makes
      of a stored value and operands by whatever full and partial merges it performs;
      theorems about one operator say which merges they cover.
    - What a function of [rocksdb.erl] returns is an [erl]: a value or a raised reason;
      its bind is [let? x := m in k].

    ** Fuel and bounds

    - The posting parsers ([ParseV1Loop], [ParseV2Loop]) get the length of their
      buffer as fuel; each iteration consumes at least four bytes, and the lemmas
      that relate them to the records of the buffer show no record is lost.
    - [drain], the loops of [DbObject::Shutdown], get the length of the list; each
      iteration removes its front, and running out would be [Undef], which
      [handles_never_undefined] excludes.
    - [decimal] in [ScalarMerge] has fuel 10: an [int] has at most ten digits; a
      [uint64_t] is written with fuel 20.
    - [replay] in [TransactionLog] takes the number of rounds; any number not less
      than the batches left gives the same result.
    - [fold_loop] in [IterSpec], the loop of [rocksdb:fold/4], takes fuel;
      [ErlFold.fold_correct] shows that one more than the number of entries between
      the bounds is enough.
    - [decode_loop] in [ErlPosting] gets the length of its binary; a clause consumes
      five bytes at least.
    - [alone] in [CloseSpec] takes seven steps for a [RefDec] and nine for a close: the
      lemmas show the thread is done.  A schedule of [close_protocol_ends] has at most
      twenty-one steps for each thread.
    - [get_c_string 4096]: paths and names are read into buffers of that size and
      cut there, as in the code.
    - Reference counts are 32-bit: the theorems about handles assume fewer than
      2^32 objects and pins ([small], [room], [ample], [usable]).
    - The V2 posting format has 32-bit lengths: [fits_v2] states when a merged list
      can be written.

    ** What the theorems show

    - Posting lists: full merges implement a set with add and delete, write
      well-formed values, and can be split; a partial merge is transparent unless
      it hides a deletion (and then loses it); the native functions agree with the
      operator's reading of a value, and the set operations, counts and searches
      are the mathematical ones.
    - Compaction filter: a list of rules of the documented type deletes exactly the
      entries its rules describe, stated apart from the parser; in callback mode an entry
      is removed or changed exactly when the handler asked for it in time and in the
      documented form, and every failure keeps it; a TTL near 2^64 wraps around.
    - Merge operators: the counter adds, the bitset sets and clears single bits,
      the Erlang operator applies integer and list operations and appends as the guide
      says where the code agrees with it ([erlang_merge_refines]; [erlang_merge_observed]
      is exact on all operands), and ranges of binaries in bytes; with the inputs on which
      each leaves its buffers or throws.
    - Handles: in every execution that takes references in time the reference counts are
      exact, a database outlives its children, no retrieval or close touches freed memory,
      closing an unused object destroys it at once and invalidates what was opened on it;
      with the windows that remain (a destructor between retrieval and reference, which the
      code does not exclude, [retrieve_races_with_close]; a child created after the close
      request).
    - Threads: under every schedule that takes references in time and does not find the
      destructor done before it has unlocked, no step of the close protocol is
      undefined, none deadlocks, no wake-up is lost, and the database is deleted and the
      resource freed exactly once; the two orders are needed and not kept by the code;
      a thread alone does what the sequential model says.
    - Batches and logs: documented sequences of batch calls behave as a list of updates
      with save points, and what the others do; the list of a batch reads back as its
      updates unless it has a range deletion; a log replayed through binary updates applies its batches
      in order; a released batch may not be used again.
    - Options: the field of a documented boolean, integer or handle option is the value of
      the last item with its key and nothing else writes it; which lists are undefined to
      parse, and which documented options have no effect.
    - Databases: any sequence of reads and writes answers as maps of entries do,
      reads through a snapshot see the maps of the snapshot, what is written is
      read back, and every function leaves the handles as it found them; opening
      with column families links one object per descriptor, which holds the handle of the
      family the descriptor names.
    - Iterators: moves follow a cursor over the entries between the bounds, and lose their
      place only where the status of the RocksDB iterator is an error; a fold
      ends with all of them, at a failed read or with the exception of its function,
      and closes its iterator in each case, the handles and bounds being as before;
      iterators of
      [rocksdb:iterators/3] keep pointers to freed bounds.
    - Transactions: calls on a transaction, mixed with direct calls on its
      database, follow a specification with pending writes; a commit answered with ok
      applies all of them and a failed one none; rolling back to a save point restores it; an iterator of a transaction
      outlives it.
    - Backups: the functions follow a list of backups (deletions that answer an error may
      have deleted what they were asked to); a restore of the latest backup gives the
      contents of the database when it was made.
    - SST files: what is written is what a reader's iterator visits, in key order;
      column-family options are ignored; an open iterator has its reader alive, with
      the one close that destroys them in the wrong order, and the reader an
      unclosed iterator leaves behind.  An ingested file is read back from the
      database over what it held, and leaves the other families and the snapshots.
    - Shared objects: every use count is exact, so an object is destroyed when and
      only when nothing uses it; only handles whose destructor a release function
      ran are undefined to use; which levels of statistics read back.  A database keeps
      alive what its options named until it is destroyed, whatever Erlang releases.
    - Loading: every atom variable is declared, defined and set once, the kinds of
      handles are never confused, the table matches the exports of the module, and a
      call of any name and arity that reaches a handle or data function is defined and
      keeps the reference counts (transaction/2 needs an optimistic transaction database,
      checkpoint a [Checkpoint::Create] that succeeds).
    - Erlang code: [write/3] is one atomic write of the updates RocksDB takes, or
      nothing; the set operations on posting lists are the mathematical ones on any mix
      of binaries and resources; [posting_list_decode/1] reads V1 and no value the
      merge operator writes; posting operations merged into a database are read back as
      the set they describe, however RocksDB groups the merges, where partial merges are
      covered for additions only: they lose deletions.
    - Helpers: numbers with a unit are read modulo 2^64 (2^32 for [int]); scopes of a
      mutex exclude each other.

    ** Not modelled

    RocksDB, CRoaring and the compression libraries under [deps/] are third-party code
    behind interfaces.  Of [rocksdb.erl] the stubs of native functions have no
    behaviour, and [on_load/0] only looks for the library file.  The C++ of [c_src] is
    modelled whole but for empty callbacks ([on_unload]) and forwarding declarations.
    Memory allocation fails only where the code tests it.  In [SstLife]
    and [SharedLife] a call is one step: races between calls on one SST iterator or one
    statistics handle are not explored.  [CloseThreads] has one object: its children are
    the references they hold.  [OpenShared] opens with [open/2] and [open_readonly/2]:
    the forms with column families parse the same options. *)

(** The rest of this file is the prelude: outcomes, bytes and machine words, and
    the fixed-width fields the formats share. *)

From stdpp Require Import base list numbers strings countable.
From Stdlib Require Import ZArith Lia.
From Stdlib Require Import Strings.Byte.

Declare Scope nif_scope.
Delimit Scope nif_scope with nif.
Open Scope Z_scope.

(** ** Outcomes of C++ code

    [Ok a]: the code returns normally with [a].  [Undef]: the execution reaches
    undefined behaviour of C++ (a null dereference, an access outside an
    object, a signed overflow), after which the language promises nothing. *)
Inductive outcome (A : Type) : Type :=
| Ok (a : A)
| Undef.
Arguments Ok {A} _.
Arguments Undef {A}.

Definition obind {A B} (m : outcome A) (k : A -> outcome B) : outcome B :=
  match m with Ok a => k a | Undef => Undef end.

Notation "'let!' x ':=' m 'in' k" := (obind m (fun x => k))
  (at level 10, x pattern, m at level 100, k at level 200) : nif_scope.
Open Scope nif_scope.

(** One bind, or one test, of a call that returned. *)
Ltac bind_step H :=
  match type of H with
  | obind ?m _ = Ok _ => let E := fresh "E" in destruct m eqn:E; [cbn [obind] in H | discriminate H]
  | (let '(_, _) := ?m in _) = Ok _ => let E := fresh "E" in destruct m eqn:E
  | match ?m with _ => _ end = Ok _ => let E := fresh "E" in destruct m eqn:E; try discriminate H
  end.

Definition defined {A} (m : outcome A) : bool :=
  match m with Ok _ => true | Undef => false end.

(** ** Bytes and machine words *)

Abbreviation bytes := (list Byte.byte).

#[export] Instance byte_eq_decision : EqDecision Byte.byte := Byte.byte_eq_dec.

#[export] Instance byte_countable : Countable Byte.byte :=
  inj_countable Byte.to_N Byte.of_N Byte.of_to_N.

Definition byte_val (b : Byte.byte) : Z := Z.of_N (Byte.to_N b).

(** Conversion of an integer to [unsigned char]: reduction modulo 256. *)
Definition byte_of_Z (z : Z) : Byte.byte :=
  match Byte.of_N (Z.to_N (z `mod` 256)) with Some b => b | None => Byte.x00 end.

Definition wrap (w z : Z) : Z := z `mod` 2 ^ w.
Abbreviation u32 := (wrap 32).
Abbreviation u64 := (wrap 64).

(** [static_cast<int>] and the arithmetic of a signed 32-bit [int]. *)
Definition INT_MIN : Z := - 2 ^ 31.
Definition INT_MAX : Z := 2 ^ 31 - 1.
Definition in_int (z : Z) : bool := (INT_MIN <=? z) && (z <=? INT_MAX).

(** Length of a buffer as a [size_t]. *)
Abbreviation zlen l := (Z.of_nat (length l)).

Lemma byte_val_range b : 0 <= byte_val b < 256.
Proof. unfold byte_val. pose proof (Byte.to_N_bounded b). lia. Qed.

Lemma byte_val_of_Z z : byte_val (byte_of_Z z) = z `mod` 256.
Proof.
  unfold byte_val, byte_of_Z. pose proof (Z.mod_pos_bound z 256 ltac:(lia)).
  destruct (Byte.of_N _) eqn:E.
  - apply Byte.to_of_N in E. lia.
  - apply Byte.of_N_None_iff in E. lia.
Qed.

Lemma byte_val_inj b c : byte_val b = byte_val c -> b = c.
Proof.
  unfold byte_val. intros H.
  assert (HN : Byte.to_N b = Byte.to_N c) by lia.
  pose proof (Byte.of_to_N b) as Hb. rewrite HN, Byte.of_to_N in Hb. congruence.
Qed.

Lemma byte_of_Z_val b : byte_of_Z (byte_val b) = b.
Proof.
  apply byte_val_inj. rewrite byte_val_of_Z.
  apply Z.mod_small, byte_val_range.
Qed.

Lemma wrap_range w z : 0 <= w -> 0 <= wrap w z < 2 ^ w.
Proof. intros. unfold wrap. apply Z.mod_pos_bound. lia. Qed.

Lemma wrap_small w z : 0 <= z < 2 ^ w -> wrap w z = z.
Proof. apply Z.mod_small. Qed.

Lemma wrap_idemp w z : 0 <= w -> wrap w (wrap w z) = wrap w z.
Proof. intros. unfold wrap. apply Z.mod_mod. lia. Qed.

(** ** Big-endian 32-bit fields *)

(** [(p[0] << 24) | (p[1] << 16) | (p[2] << 8) | p[3]] as a [uint32_t]. *)
Definition be32 (b0 b1 b2 b3 : Byte.byte) : Z :=
  Z.lor (Z.lor (Z.lor (Z.shiftl (byte_val b0) 24) (Z.shiftl (byte_val b1) 16))
               (Z.shiftl (byte_val b2) 8)) (byte_val b3).

(** The four [push_back((v >> k) & 0xFF)] of the writers. *)
Definition put_be32 (v : Z) : bytes :=
  [ byte_of_Z (Z.land (Z.shiftr v 24) 255); byte_of_Z (Z.land (Z.shiftr v 16) 255);
    byte_of_Z (Z.land (Z.shiftr v 8) 255); byte_of_Z (Z.land v 255) ].

(** The field at the front of a buffer and what follows it; [None] when fewer
    than four bytes are left. *)
Definition get_be32 (s : bytes) : option (Z * bytes) :=
  match s with
  | b0 :: b1 :: b2 :: b3 :: r => Some (be32 b0 b1 b2 b3, r)
  | _ => None
  end.

Lemma lor_shiftl_add a b n :
  0 <= n -> 0 <= b < 2 ^ n -> Z.lor (Z.shiftl a n) b = a * 2 ^ n + b.
Proof.
  intros Hn Hb. rewrite <- Z.shiftl_mul_pow2 by lia.
  rewrite <- Z.lxor_lor, <- Z.add_nocarry_lxor; [done | |].
  all: apply Z.bits_inj'; intros i Hi; rewrite Z.land_spec, Z.bits_0, Z.shiftl_spec by lia.
  all: destruct (decide (i < n)); [rewrite Z.testbit_neg_r by lia; done |].
  all: assert (Hbi : Z.testbit b i = false); [| by rewrite Hbi, andb_false_r].
  all: destruct (decide (b = 0)) as [-> | Hnz]; [apply Z.bits_0 |].
  all: apply Z.bits_above_log2; [lia |].
  all: apply Z.log2_lt_pow2; [lia |].
  all: apply Z.lt_le_trans with (2 ^ n); [lia | apply Z.pow_le_mono_r; lia].
Qed.

Lemma be32_sum b0 b1 b2 b3 :
  be32 b0 b1 b2 b3 =
  byte_val b0 * 2 ^ 24 + byte_val b1 * 2 ^ 16 + byte_val b2 * 2 ^ 8 + byte_val b3.
Proof.
  pose proof (byte_val_range b0). pose proof (byte_val_range b1).
  pose proof (byte_val_range b2). pose proof (byte_val_range b3).
  unfold be32. rewrite <- !Z.lor_assoc.
  rewrite (lor_shiftl_add (byte_val b2)) by lia.
  rewrite (lor_shiftl_add (byte_val b1)) by lia.
  rewrite lor_shiftl_add by lia. lia.
Qed.

Lemma be32_range b0 b1 b2 b3 : 0 <= be32 b0 b1 b2 b3 < 2 ^ 32.
Proof.
  rewrite be32_sum.
  pose proof (byte_val_range b0). pose proof (byte_val_range b1).
  pose proof (byte_val_range b2). pose proof (byte_val_range b3). lia.
Qed.

Lemma length_put_be32 v : length (put_be32 v) = 4%nat.
Proof. done. Qed.

Lemma byte_land_255 z : byte_of_Z (Z.land z 255) = byte_of_Z z.
Proof.
  apply byte_val_inj. rewrite !byte_val_of_Z.
  change 255 with (Z.ones 8). rewrite Z.land_ones by lia.
  change (2 ^ 8) with 256. apply Z.mod_mod. lia.
Qed.

Lemma get_put_be32 v r : get_be32 (put_be32 v ++ r) = Some (u32 v, r).
Proof.
  unfold put_be32. cbn [app get_be32]. do 2 f_equal.
  rewrite be32_sum, !byte_land_255, !byte_val_of_Z, !Z.shiftr_div_pow2 by lia.
  unfold wrap. change (2 ^ 24) with 16777216. change (2 ^ 16) with 65536.
  change (2 ^ 8) with 256. change (2 ^ 32) with 4294967296.
  Z.div_mod_to_equations. lia.
Qed.

Lemma get_be32_Some s v r :
  get_be32 s = Some (v, r) -> 0 <= v < 2 ^ 32 /\ length s = (4 + length r)%nat.
Proof.
  destruct s as [|b0 [|b1 [|b2 [|b3 s]]]]; cbn; intros; simplify_eq.
  split; [apply be32_range | done].
Qed.

Lemma get_be32_None s : get_be32 s = None <-> (length s < 4)%nat.
Proof.
  destruct s as [|b0 [|b1 [|b2 [|b3 s]]]]; cbn; split; intros; try done; lia.
Qed.

(** ** Little-endian fields *)

Fixpoint le_bytes (n : nat) (z : Z) : bytes :=
  match n with O => [] | S n => byte_of_Z z :: le_bytes n (z / 256) end.

Fixpoint le_val (s : bytes) : Z :=
  match s with [] => 0 | b :: r => byte_val b + 256 * le_val r end.

Lemma le_val_bytes n z : le_val (le_bytes n z) = z `mod` 256 ^ Z.of_nat n.
Proof.
  revert z. induction n as [|n IH]; intros z; cbn [le_bytes le_val].
  - by rewrite Z.mod_1_r.
  - rewrite IH, byte_val_of_Z, Nat2Z.inj_succ, Z.pow_succ_r by lia.
    rewrite Z.rem_mul_r by lia. lia.
Qed.

Lemma length_le_bytes n z : length (le_bytes n z) = n.
Proof. revert z. induction n; cbn; auto. Qed.

Lemma le_val_range s : 0 <= le_val s < 256 ^ zlen s.
Proof.
  induction s as [|b s IH]; cbn [le_val length]; [cbn; lia |].
  rewrite Nat2Z.inj_succ, Z.pow_succ_r by lia. pose proof (byte_val_range b). nia.
Qed.
