(* ===== verification/StdMap.v ===== *)
(** * Ordered containers of the C++ standard library

    [std::map<std::string, V>] and [std::set<std::string>] as the sources use
    them: an association list sorted by the order of [std::string] (bytes
    compared as [unsigned char], a proper prefix first).  The representation is
    canonical: two well-formed maps with the same lookups are equal. *)

From stdpp Require Import base sets list numbers sorting.
From Stdlib Require Import ZArith Lia.
From S2P Require Import Prelude.

(** ** The order of [std::string] *)

Fixpoint bytes_cmp (a b : bytes) : comparison :=
  match a, b with
  | [], [] => Eq
  | [], _ :: _ => Lt
  | _ :: _, [] => Gt
  | x :: a', y :: b' =>
      match byte_val x ?= byte_val y with Eq => bytes_cmp a' b' | c => c end
  end.

Definition bytes_lt (a b : bytes) : Prop := bytes_cmp a b = Lt.

Lemma bytes_cmp_eq a b : bytes_cmp a b = Eq <-> a = b.
Proof.
  revert b; induction a as [|x a IH]; intros [|y b]; cbn; try done.
  destruct (Z.compare_spec (byte_val x) (byte_val y)) as [E | E | E].
  - rewrite IH. apply byte_val_inj in E. split; congruence.
  - split; [done |]. intros; simplify_eq. lia.
  - split; [done |]. intros; simplify_eq. lia.
Qed.

Lemma bytes_cmp_refl a : bytes_cmp a a = Eq.
Proof. by apply bytes_cmp_eq. Qed.

Lemma bytes_cmp_antisym a b : bytes_cmp b a = CompOpp (bytes_cmp a b).
Proof.
  revert b; induction a as [|x a IH]; intros [|y b]; cbn; try done.
  rewrite (Z.compare_antisym (byte_val x) (byte_val y)).
  destruct (byte_val x ?= byte_val y); cbn; auto.
Qed.

Lemma bytes_cmp_gt a b : bytes_cmp a b = Gt <-> bytes_lt b a.
Proof.
  unfold bytes_lt. rewrite (bytes_cmp_antisym a b).
  by destruct (bytes_cmp a b).
Qed.

#[export] Instance bytes_lt_trans : Transitive bytes_lt.
Proof.
  unfold bytes_lt. intros a; induction a as [|x a IH]; intros [|y b] [|z c]; cbn; try done.
  destruct (Z.compare_spec (byte_val x) (byte_val y)),
    (Z.compare_spec (byte_val y) (byte_val z)),
    (Z.compare_spec (byte_val x) (byte_val z)); try done; try lia.
  apply IH.
Qed.

#[export] Instance bytes_lt_irrefl : Irreflexive bytes_lt.
Proof. intros a. red. unfold bytes_lt. by rewrite bytes_cmp_refl. Qed.

#[export] Instance bytes_lt_strict : StrictOrder bytes_lt.
Proof. split; apply _. Qed.

(** ** Maps *)

Abbreviation smap V := (list (bytes * V)).

Fixpoint map_get {V} (k : bytes) (m : smap V) : option V :=
  match m with
  | [] => None
  | (k', v) :: r => match bytes_cmp k k' with Eq => Some v | _ => map_get k r end
  end.

(** [m[k] = v]: insert or overwrite, keeping the order. *)
Fixpoint map_set {V} (k : bytes) (v : V) (m : smap V) : smap V :=
  match m with
  | [] => [(k, v)]
  | (k', v') :: r =>
      match bytes_cmp k k' with
      | Lt => (k, v) :: (k', v') :: r
      | Eq => (k, v) :: r
      | Gt => (k', v') :: map_set k v r
      end
  end.

(** The representation invariant: strictly increasing keys. *)
Definition map_wf {V} (m : smap V) : Prop := StronglySorted bytes_lt m.*1.

Section maps.
Context {V : Type}.
Implicit Types (m : smap V) (k : bytes) (v : V).

Lemma map_get_set k v m k' :
  map_wf m -> map_get k' (map_set k v m) = if decide (k' = k) then Some v else map_get k' m.
Proof.
  induction m as [|[k0 v0] m IH]; cbn; intros Hwf.
  - case_decide as Hk.
    + by rewrite (proj2 (bytes_cmp_eq _ _) Hk).
    + destruct (bytes_cmp k' k) eqn:E; try done. by apply bytes_cmp_eq in E.
  - inversion_clear Hwf as [|? ? Hs Hall].
    destruct (bytes_cmp k k0) eqn:Ek; cbn.
    + apply bytes_cmp_eq in Ek as ->. case_decide as Hk.
      * by rewrite (proj2 (bytes_cmp_eq _ _) Hk).
      * destruct (bytes_cmp k' k0) eqn:E; try done. by apply bytes_cmp_eq in E.
    + case_decide as Hk.
      * by rewrite (proj2 (bytes_cmp_eq _ _) Hk).
      * destruct (bytes_cmp k' k) eqn:E; try done. by apply bytes_cmp_eq in E.
    + rewrite IH by done. destruct (bytes_cmp k' k0) eqn:E; try done.
      apply bytes_cmp_eq in E as ->. case_decide as Hk; [|done].
      subst. by rewrite bytes_cmp_refl in Ek.
Qed.

Lemma elem_of_map_set_keys k v m k' :
  k' ∈ (map_set k v m).*1 <-> k' = k \/ k' ∈ m.*1.
Proof.
  induction m as [|[k0 v0] m IH]; cbn; [set_solver |].
  destruct (bytes_cmp k k0) eqn:E; cbn; [apply bytes_cmp_eq in E as ->|..]; set_solver.
Qed.

Lemma map_set_wf k v m : map_wf m -> map_wf (map_set k v m).
Proof.
  unfold map_wf. induction m as [|[k0 v0] m IH]; cbn; intros Hwf.
  - repeat constructor.
  - inversion_clear Hwf as [|? ? Hs Hall]. destruct (bytes_cmp k k0) eqn:E; cbn.
    + apply bytes_cmp_eq in E as ->. by constructor.
    + constructor; [by constructor |]. constructor; [done |].
      apply Forall_forall. intros x Hx. etransitivity; [exact E |].
      rewrite Forall_forall in Hall. by apply Hall.
    + constructor; [by apply IH |]. apply Forall_forall. intros x Hx.
      apply elem_of_map_set_keys in Hx as [-> | Hx]; [by apply bytes_cmp_gt |].
      rewrite Forall_forall in Hall. by apply Hall.
Qed.

Lemma map_wf_nil : map_wf (@nil (bytes * V)).
Proof. constructor. Qed.

Lemma map_get_is_Some k m : is_Some (map_get k m) <-> k ∈ m.*1.
Proof.
  induction m as [|[k0 v0] m IH]; cbn.
  - split; [by intros [? ?] | set_solver].
  - destruct (bytes_cmp k k0) eqn:E.
    + apply bytes_cmp_eq in E as ->. split; [set_solver | eauto].
    + rewrite IH, elem_of_cons. split; [auto |]. intros [-> |]; [|done].
      by rewrite bytes_cmp_refl in E.
    + rewrite IH, elem_of_cons. split; [auto |]. intros [-> |]; [|done].
      by rewrite bytes_cmp_refl in E.
Qed.

Lemma map_get_None_lt k m : Forall (bytes_lt k) m.*1 -> map_get k m = None.
Proof.
  intros Hall. destruct (map_get k m) eqn:E; [|done].
  assert (Hin : k ∈ m.*1) by (apply map_get_is_Some; eauto).
  rewrite Forall_forall in Hall. apply Hall in Hin.
  by apply bytes_lt_irrefl in Hin.
Qed.

Lemma map_head_same k1 v1 m1 k2 v2 m2 :
  map_wf ((k1, v1) :: m1) -> map_wf ((k2, v2) :: m2) ->
  (forall k, map_get k ((k1, v1) :: m1) = map_get k ((k2, v2) :: m2)) -> ~ bytes_lt k1 k2.
Proof.
  intros H1 H2 Hget Hlt. specialize (Hget k1). cbn in Hget.
  rewrite bytes_cmp_refl, Hlt in Hget.
  rewrite (map_get_None_lt k1 m2) in Hget; [done |].
  inversion_clear H2 as [|? ? _ Hall]. cbn in Hall.
  eapply Forall_impl; [exact Hall |]. intros x Hx. by transitivity k2.
Qed.

(** Extensionality: the representation is canonical. *)
Lemma map_ext m1 m2 :
  map_wf m1 -> map_wf m2 -> (forall k, map_get k m1 = map_get k m2) -> m1 = m2.
Proof.
  revert m2. induction m1 as [|[k1 v1] m1 IH]; intros [|[k2 v2] m2] H1 H2 Hget.
  - done.
  - specialize (Hget k2). cbn in Hget. by rewrite bytes_cmp_refl in Hget.
  - specialize (Hget k1). cbn in Hget. by rewrite bytes_cmp_refl in Hget.
  - assert (k1 = k2) as <-.
    { destruct (bytes_cmp k1 k2) eqn:E; [by apply bytes_cmp_eq | |].
      - exfalso. by eapply (map_head_same k1 v1 m1 k2 v2 m2).
      - apply bytes_cmp_gt in E. exfalso.
        by eapply (map_head_same k2 v2 m2 k1 v1 m1); [..|exact E]. }
    pose proof (Hget k1) as Hk. cbn in Hk. rewrite bytes_cmp_refl in Hk.
    simplify_eq. f_equal. inversion_clear H1 as [|? ? Hs1 Ha1].
    inversion_clear H2 as [|? ? Hs2 Ha2]. apply IH; [done | done |].
    intros k. specialize (Hget k). cbn in Hget.
    destruct (bytes_cmp k k1) eqn:E; [|done|done].
    apply bytes_cmp_eq in E as ->. by rewrite !map_get_None_lt.
Qed.

Lemma elem_of_map_get k v m : map_wf m -> (k, v) ∈ m <-> map_get k m = Some v.
Proof.
  unfold map_wf. induction m as [|[k0 v0] m IH]; cbn; intros Hwf; [set_solver |].
  inversion_clear Hwf as [|? ? Hs Hall]. rewrite elem_of_cons, IH by done.
  destruct (bytes_cmp k k0) eqn:E.
  - apply bytes_cmp_eq in E as ->. rewrite (map_get_None_lt k0 m) by done. naive_solver.
  - split; [|auto]. intros [? | ?]; simplify_eq; [|done]. by rewrite bytes_cmp_refl in E.
  - split; [|auto]. intros [? | ?]; simplify_eq; [|done]. by rewrite bytes_cmp_refl in E.
Qed.
End maps.

(** ** Sets *)

Abbreviation sset := (list (bytes * unit)).

Definition set_insert (k : bytes) (s : sset) : sset := map_set k tt s.

(** [s.count(k) > 0] *)
Definition set_count (k : bytes) (s : sset) : bool :=
  match map_get k s with Some _ => true | None => false end.

(** Iteration order of the container. *)
Definition set_elems (s : sset) : list bytes := s.*1.

Definition set_of_list (l : list bytes) : sset :=
  foldl (fun s k => set_insert k s) [] l.

Lemma set_count_elem k s : set_count k s = true <-> k ∈ set_elems s.
Proof.
  unfold set_count, set_elems. rewrite <- map_get_is_Some.
  destruct (map_get k s); split; eauto; done.
Qed.

Lemma set_count_insert k k' s :
  map_wf s -> set_count k' (set_insert k s) = bool_decide (k' = k) || set_count k' s.
Proof.
  intros. unfold set_count, set_insert. rewrite map_get_set by done.
  case_decide; case_bool_decide; done.
Qed.

Lemma set_ext s1 s2 :
  map_wf s1 -> map_wf s2 -> (forall k, set_count k s1 = set_count k s2) -> s1 = s2.
Proof.
  intros H1 H2 Hc. apply map_ext; [done.. |]. intros k. specialize (Hc k).
  unfold set_count in Hc. by destruct (map_get k s1) as [[]|], (map_get k s2) as [[]|].
Qed.

Lemma set_fold_insert l s :
  map_wf s ->
  map_wf (foldl (fun s k => set_insert k s) s l) /\
  forall k, set_count k (foldl (fun s k => set_insert k s) s l) =
            bool_decide (k ∈ l) || set_count k s.
Proof.
  revert s. induction l as [|x l IH]; intros s Hs; cbn.
  - split; [done |]. intros k. by rewrite bool_decide_eq_false_2 by set_solver.
  - destruct (IH (set_insert x s)) as [Hwf Hc]; [by apply map_set_wf |].
    split; [done |]. intros k. rewrite Hc, set_count_insert by done.
    rewrite (bool_decide_ext (k ∈ x :: l) (k = x \/ k ∈ l)) by set_solver.
    rewrite bool_decide_or. by rewrite orb_assoc, (orb_comm (bool_decide (k ∈ l))).
Qed.

Lemma set_of_list_wf l : map_wf (set_of_list l).
Proof. apply set_fold_insert, map_wf_nil. Qed.

Lemma set_count_of_list k l : set_count k (set_of_list l) = bool_decide (k ∈ l).
Proof.
  unfold set_of_list. rewrite (proj2 (set_fold_insert l [] map_wf_nil)).
  apply orb_false_r.
Qed.

Lemma set_of_list_elems s : map_wf s -> set_of_list (set_elems s) = s.
Proof.
  intros Hs. apply set_ext; [apply set_of_list_wf | done |]. intros k.
  rewrite set_count_of_list. apply eq_true_iff_eq.
  by rewrite bool_decide_eq_true, set_count_elem.
Qed.

(** ** Sorted lists of keys *)

Lemma sorted_keys_NoDup l : StronglySorted bytes_lt l -> NoDup l.
Proof.
  induction 1 as [|k l Hs IH Hall]; constructor; [|done]. intros Hin.
  rewrite Forall_forall in Hall. apply Hall in Hin. by apply bytes_lt_irrefl in Hin.
Qed.

Lemma sorted_keys_ext l1 l2 :
  StronglySorted bytes_lt l1 -> StronglySorted bytes_lt l2 ->
  (forall k, k ∈ l1 <-> k ∈ l2) -> l1 = l2.
Proof.
  intros H1 H2 Hk. apply (StronglySorted_unique_strong bytes_lt); [|done..|].
  - intros x y _ _ Hxy Hyx. destruct (irreflexivity bytes_lt x). by transitivity y.
  - apply NoDup_Permutation; auto using sorted_keys_NoDup.
Qed.

Lemma sorted_lookup_lt l i j x y :
  StronglySorted bytes_lt l -> l !! i = Some x -> l !! j = Some y -> (i < j)%nat -> bytes_lt x y.
Proof.
  intros Hs. revert i j. induction Hs as [|k l Hs IH Hall]; intros i j Hi Hj Hij; [done |].
  destruct j as [|j]; [lia |]. cbn in Hj. destruct i as [|i]; cbn in Hi; simplify_eq.
  - rewrite Forall_forall in Hall. apply Hall, list_elem_of_lookup. eauto.
  - eapply (IH i j); [done.. | lia].
Qed.

Create HintDb stdmap.
#[export] Hint Resolve map_wf_nil map_set_wf set_of_list_wf : stdmap.
