(* ===== verification/Terms.v ===== *)
(** * Erlang terms and the native-function interface

    [ERL_NIF_TERM] values and the accessors of [erl_nif.h] the sources call,
    the results a native function can return, [rocksdb::Status], and the
    helpers of [c_src/util.cc] that build replies.

    The parts of the runtime that are not in the repository (the external term
    format codec, the success of allocations, the standard term order) are the
    fields of the class [NifEnv]; what the code relies on is the class
    [NifLaws]. *)

From stdpp Require Import base list numbers strings.
From Stdlib Require Import ZArith Lia Ascii.
From S2P Require Import Prelude.

(** ** Terms *)

(** The resource types the module opens at load time. *)
Inductive res_kind :=
| RDb | RColumnFamily | RSnapshot | RItr | RTLogItr | RBackupEngine | RTransaction
| RBatch | RCompactionBatch | RPostings
| RCache | REnv | RRateLimiter | RSstFileManager | RWriteBufferManager | RStatistics
| RSstFileReader | RSstFileReaderItr | RSstFileWriter.

#[export] Instance res_kind_eq_dec : EqDecision res_kind.
Proof. solve_decision. Defined.

Inductive term :=
| Tatom (a : string)
| Tint (z : Z)
| Tfloat (bits : Z)
| Tbin (b : bytes)
| Tnil
| Tcons (h t : term)
| Ttuple (l : list term)
| Tmap (l : list (term * term))
| Tres (k : res_kind) (id : nat)
| Tpid (p : nat).

#[export] Instance term_eq_dec : EqDecision term.
Proof.
  unfold EqDecision. fix go 1. intros x y.
  destruct x as [a|a|a|a| |a a'|a|a|k a|a], y as [b|b|b|b| |b b'|b|b|k' b|b]; try (right; discriminate).
  1-4,10: destruct (decide (a = b)); [left; congruence | right; congruence].
  - by left.
  - destruct (go a b); [| right; congruence]. destruct (go a' b'); [left | right]; congruence.
  - assert (D : Decision (a = b)).
    { revert b. induction a as [|x l IH]; intros [|y k]; [by left | by right | by right |].
      destruct (go x y); [| right; congruence]. destruct (IH k); [left | right]; congruence. }
    destruct D; [left | right]; congruence.
  - assert (D : Decision (a = b)).
    { revert b. induction a as [|[x x'] l IH]; intros [|[y y'] k]; [by left | by right | by right |].
      destruct (go x y); [| right; congruence]. destruct (go x' y'); [| right; congruence].
      destruct (IH k); [left | right]; congruence. }
    destruct D; [left | right]; congruence.
  - destruct (decide (k = k')); [| right; congruence].
    destruct (decide (a = b)); [left | right]; congruence.
Defined.

(** Atoms of [c_src/atoms.h] used by the modelled functions. *)
Definition ATOM_OK := Tatom "ok".
Definition ATOM_ERROR := Tatom "error".
Definition ATOM_TRUE := Tatom "true".
Definition ATOM_FALSE := Tatom "false".
Definition ATOM_EINVAL := Tatom "einval".
Definition ATOM_NOT_FOUND := Tatom "not_found".
Definition ATOM_ERROR_INCOMPLETE := Tatom "incomplete".
Definition ATOM_INVALID_ITERATOR := Tatom "invalid_iterator".
Definition ATOM_ACTIVE := Tatom "active".
Definition ATOM_TOMBSTONE := Tatom "tombstone".
Definition ATOM_PUT := Tatom "put".
Definition ATOM_MERGE := Tatom "merge".
Definition ATOM_DELETE := Tatom "delete".
Definition ATOM_SINGLE_DELETE := Tatom "single_delete".
Definition ATOM_BADARG := Tatom "badarg".
Definition ATOM_CORRUPTION := Tatom "corruption".
Definition ATOM_UNKNOWN_STATUS_ERROR := Tatom "unknown_status".
Definition ATOM_ERROR_DB_OPEN := Tatom "db_open".
Definition ATOM_ERROR_DB_DESTROY := Tatom "error_db_destroy".
Definition ATOM_ERROR_DB_REPAIR := Tatom "error_db_repair".

(** [term == ATOM_X]: atoms are immediate words, so the comparison of the words
    holds exactly for the same atom. *)
Definition is_atom (a : string) (t : term) : bool :=
  match t with Tatom b => bool_decide (a = b) | _ => false end.

(** Evaluate the comparisons of literal atoms in the goal. *)
Ltac eval_atoms :=
  repeat match goal with
  | |- context [is_atom ?a (Tatom ?b)] =>
      let v := eval vm_compute in (is_atom a (Tatom b)) in
      change (is_atom a (Tatom b)) with v
  end; cbv iota; cbn [negb].

(** ** Accessors *)

Definition enif_get_tuple (t : term) : option (list term) :=
  match t with Ttuple l => Some l | _ => None end.

Definition enif_inspect_binary (t : term) : option bytes :=
  match t with Tbin b => Some b | _ => None end.

Definition enif_get_list_cell (t : term) : option (term * term) :=
  match t with Tcons h r => Some (h, r) | _ => None end.

Definition enif_is_list (t : term) : bool :=
  match t with Tnil | Tcons _ _ => true | _ => false end.

Definition enif_is_binary (t : term) : bool :=
  match t with Tbin _ => true | _ => false end.

Definition enif_is_number (t : term) : bool :=
  match t with Tint _ | Tfloat _ => true | _ => false end.

(** The elements seen by [while (enif_get_list_cell(env, tail, &head, &tail))]:
    the cells of the list, whatever its last tail. *)
Fixpoint list_cells (t : term) : list term :=
  match t with Tcons h r => h :: list_cells r | _ => [] end.

(** [enif_get_list_length]: fails on an improper list. *)
Fixpoint enif_get_list_length (t : term) : option nat :=
  match t with
  | Tnil => Some 0%nat
  | Tcons _ r => match enif_get_list_length r with Some n => Some (S n) | None => None end
  | _ => None
  end.

Definition enif_get_int64 (t : term) : option Z :=
  match t with
  | Tint z => if (- 2 ^ 63 <=? z) && (z <? 2 ^ 63) then Some z else None
  | _ => None
  end.

Definition enif_get_int (t : term) : option Z :=
  match t with Tint z => if in_int z then Some z else None | _ => None end.

Definition enif_get_uint (t : term) : option Z :=
  match t with
  | Tint z => if (0 <=? z) && (z <? 2 ^ 32) then Some z else None
  | _ => None
  end.

Definition enif_get_uint64 (t : term) : option Z :=
  match t with
  | Tint z => if (0 <=? z) && (z <? 2 ^ 64) then Some z else None
  | _ => None
  end.

Definition enif_is_atom (t : term) : bool :=
  match t with Tatom _ => true | _ => false end.

(** [enif_get_double]: the bits of a float; an integer is refused. *)
Definition enif_get_double (t : term) : option Z :=
  match t with Tfloat bits => Some bits | _ => None end.

(** [enif_get_string] into a buffer of a given size: the characters read when the
    list and its NUL fit, the characters that fit when it is too long (a negative
    return value), or nothing when the term is not a list of Latin-1 characters
    (zero). *)
Inductive string_result :=
| GString (s : bytes)
| GTruncated (s : bytes)
| GNone.

Fixpoint get_string_loop (room : nat) (t : term) (acc : bytes) : string_result :=
  match t with
  | Tnil => GString acc
  | Tcons (Tint c) r =>
      if (0 <=? c) && (c <? 256) then
        match room with
        | S (S _ as room') => get_string_loop room' r (acc ++ [byte_of_Z c])
        | _ => GTruncated acc
        end
      else GNone
  | _ => GNone
  end.

Definition enif_get_string (size : nat) (t : term) : string_result := get_string_loop size t [].

(** The C string in a buffer ends at its first NUL. *)
Fixpoint c_string (s : bytes) : bytes :=
  match s with
  | [] => []
  | b :: r => if byte_val b =? 0 then [] else b :: c_string r
  end.

(** [if (enif_get_string(env, t, buf, size, ERL_NIF_LATIN1)) ... std::string(buf)]:
    a truncated string is accepted too. *)
Definition get_c_string (size : nat) (t : term) : option bytes :=
  match enif_get_string size t with
  | GString s | GTruncated s => Some (c_string s)
  | GNone => None
  end.

(** [enif_get_resource] of a given resource type. *)
Definition enif_get_resource (k : res_kind) (t : term) : option nat :=
  match t with Tres k' id => if decide (k = k') then Some id else None | _ => None end.

(** [arr[i]] for the element array of a tuple or the [argv] of a call: reading
    past its end is undefined. *)
Definition elem (l : list term) (i : nat) : outcome term :=
  match l !! i with Some t => Ok t | None => Undef end.

Fixpoint make_list (l : list term) : term :=
  match l with [] => Tnil | t :: r => Tcons t (make_list r) end.

(** [enif_make_string(..., ERL_NIF_LATIN1)] *)
Definition enif_make_string (s : string) : term :=
  make_list (map (fun c => Tint (Z.of_N (N_of_ascii c))) (String.list_ascii_of_string s)).

(** [enif_make_map_put]: replaces the value of a key of the map or adds it. *)
Fixpoint map_put (k : bytes) (v : term) (m : list (term * term)) : list (term * term) :=
  match m with
  | [] => [(Tbin k, v)]
  | (Tbin k', v') :: r =>
      if decide (k = k') then (Tbin k, v) :: r else (Tbin k', v') :: map_put k v r
  | e :: r => e :: map_put k v r
  end.

(** What a native function returns to the caller. *)
Inductive reply :=
| Badarg                      (* enif_make_badarg(env): raises badarg *)
| Reply (t : term).

(** ** The runtime *)

Class NifEnv := {
  binary_to_term : bytes -> option term;        (* enif_binary_to_term *)
  term_to_binary : term -> option bytes;        (* enif_term_to_binary *)
  compare_eq : term -> term -> bool;            (* enif_compare(a, b) == 0 *)
  new_binary_ok : nat -> bool;                  (* enif_make_new_binary of that size succeeds *)
  alloc_env_ok : bool;                          (* enif_alloc_env succeeds *)
  alloc_resource_ok : bool;                     (* enif_alloc_resource succeeds *)
}.

(** Documented behaviour of the external term format: decoding undoes encoding,
    and every encoding starts with the version magic 131; a term compares equal
    to itself. *)
Class NifLaws (E : NifEnv) : Prop := {
  decode_encode : forall t b, term_to_binary t = Some b -> binary_to_term b = Some t;
  decode_magic : forall b t, binary_to_term b = Some t -> exists r, b = Byte.x83 :: r;
  compare_eq_refl : forall t, compare_eq t t = true;
}.

(** [enif_make_new_binary] followed by the [memcpy] of the contents. *)
Definition make_new_binary `{NifEnv} (b : bytes) : option term :=
  if new_binary_ok (length b) then Some (Tbin b) else None.

(** ** rocksdb::Status *)

Inductive status_code :=
| kOk | kNotFound | kCorruption | kNotSupported | kInvalidArgument | kIOError
| kMergeInProgress | kIncomplete | kShutdownInProgress | kTimedOut | kAborted
| kBusy | kExpired | kTryAgain | kCompactionTooLarge | kColumnFamilyDropped.

#[export] Instance status_code_eq_dec : EqDecision status_code.
Proof. solve_decision. Defined.

(** A status is its code and the text [ToString()] gives. *)
Record Status := { code : status_code; to_text : string }.

Definition StatusOK : Status := {| code := kOk; to_text := "OK" |}.
Definition status_ok (s : Status) : bool := bool_decide (code s = kOk).
Definition IsIncomplete (s : Status) : bool := bool_decide (code s = kIncomplete).
Definition IsNotFound (s : Status) : bool := bool_decide (code s = kNotFound).
Definition IsCorruption (s : Status) : bool := bool_decide (code s = kCorruption).

(** ** Reply helpers of util.cc *)

Definition error_einval : term := Ttuple [ATOM_ERROR; ATOM_EINVAL].

Definition error_tuple (error : term) (status : Status) : term :=
  if IsIncomplete status then Ttuple [ATOM_ERROR; ATOM_ERROR_INCOMPLETE]
  else Ttuple [ATOM_ERROR; Ttuple [error; enif_make_string (to_text status)]].

Definition error_tuple_msg (error : term) (msg : string) : term :=
  Ttuple [ATOM_ERROR; Ttuple [error; enif_make_string msg]].

Definition slice_to_binary (s : bytes) : term := Tbin s.

Definition binary_to_slice (t : term) : option bytes := enif_inspect_binary t.

(** ** Lemmas *)

Lemma list_cells_make_list l : list_cells (make_list l) = l.
Proof. induction l; cbn; congruence. Qed.

Lemma list_length_make_list l : enif_get_list_length (make_list l) = Some (length l).
Proof. induction l as [|t l IH]; cbn; [done |]. by rewrite IH. Qed.

Lemma list_length_cells t n :
  enif_get_list_length t = Some n -> length (list_cells t) = n.
Proof.
  revert n. induction t; cbn; intros; simplify_eq; try done.
  case_match; simplify_eq. f_equal. auto.
Qed.

Lemma is_atom_true a t : is_atom a t = true <-> t = Tatom a.
Proof.
  destruct t; cbn; try (split; done). rewrite bool_decide_eq_true.
  split; intros; simplify_eq; done.
Qed.

Lemma get_int64_Some t z : enif_get_int64 t = Some z -> t = Tint z /\ - 2 ^ 63 <= z < 2 ^ 63.
Proof. destruct t; cbn; intros; try done. case_match; simplify_eq. split; [done | lia]. Qed.

Lemma get_uint_Some t z : enif_get_uint t = Some z -> t = Tint z /\ 0 <= z < 2 ^ 32.
Proof. destruct t; cbn; intros; try done. case_match; simplify_eq. split; [done | lia]. Qed.

Lemma get_uint64_Some t z : enif_get_uint64 t = Some z -> t = Tint z /\ 0 <= z < 2 ^ 64.
Proof. destruct t; cbn; intros; try done. case_match; simplify_eq. split; [done | lia]. Qed.
