(* ===== verification/Etf.v ===== *)
(** * A concrete runtime: the external term format

    An instance of [NifEnv] that satisfies [NifLaws]: encoder and decoder for
    the tags of the external term format that atoms, integers, binaries, lists
    and tuples need.  The theorems of the other files are proved against the
    class; this instance shows that its laws can hold and lets the witnesses
    compute.  Terms outside the supported tags are not encodable. *)

From stdpp Require Import base list numbers strings.
From Stdlib Require Import ZArith Lia.
From S2P Require Import Prelude Terms.

Definition SMALL_BIG_EXT := Byte.x6e.
Definition SMALL_TUPLE_EXT := Byte.x68.
Definition NIL_EXT := Byte.x6a.
Definition LIST_EXT := Byte.x6c.
Definition BINARY_EXT := Byte.x6d.
Definition SMALL_ATOM_UTF8_EXT := Byte.x77.

Definition append2 (a b : option bytes) : option bytes :=
  match a, b with Some x, Some y => Some (x ++ y) | _, _ => None end.

Fixpoint enc (t : term) : option bytes :=
  match t with
  | Tatom a =>
      let s := String.list_byte_of_string a in
      if zlen s <? 256 then Some (SMALL_ATOM_UTF8_EXT :: byte_of_Z (zlen s) :: s) else None
  | Tint z =>
      if Z.abs z <? 2 ^ 64
      then Some (SMALL_BIG_EXT :: Byte.x08 :: (if z <? 0 then Byte.x01 else Byte.x00)
                 :: le_bytes 8 (Z.abs z))
      else None
  | Tbin b => if zlen b <? 2 ^ 32 then Some (BINARY_EXT :: put_be32 (zlen b) ++ b) else None
  | Tnil => Some [NIL_EXT]
  | Tcons h r => append2 (Some (LIST_EXT :: put_be32 1)) (append2 (enc h) (enc r))
  | Ttuple l =>
      if zlen l <? 256
      then append2 (Some [SMALL_TUPLE_EXT; byte_of_Z (zlen l)])
             ((fix encs l := match l with [] => Some [] | x :: r => append2 (enc x) (encs r) end) l)
      else None
  | _ => None
  end.

Fixpoint enc_list (l : list term) : option bytes :=
  match l with [] => Some [] | x :: r => append2 (enc x) (enc_list r) end.

(** [n] bytes off the front of a buffer. *)
Definition split_bytes (n : Z) (s : bytes) : option (bytes * bytes) :=
  if zlen s <? n then None else Some (take (Z.to_nat n) s, drop (Z.to_nat n) s).

Fixpoint dec (fuel : nat) (s : bytes) : option (term * bytes) :=
  match fuel with
  | O => None
  | S fuel =>
      match s with
      | Byte.x77 :: n :: r =>
          match split_bytes (byte_val n) r with
          | Some (a, r) => Some (Tatom (String.string_of_list_byte a), r)
          | None => None
          end
      | Byte.x6e :: Byte.x08 :: sg :: r =>
          match split_bytes 8 r with
          | Some (d, r) =>
              Some (Tint (if decide (sg = Byte.x00) then le_val d else - le_val d), r)
          | None => None
          end
      | Byte.x6d :: r =>
          match get_be32 r with
          | Some (n, r) =>
              match split_bytes n r with Some (b, r) => Some (Tbin b, r) | None => None end
          | None => None
          end
      | Byte.x6a :: r => Some (Tnil, r)
      | Byte.x6c :: r =>
          match get_be32 r with
          | Some (1, r) =>
              match dec fuel r with
              | Some (h, r) =>
                  match dec fuel r with Some (t, r) => Some (Tcons h t, r) | None => None end
              | None => None
              end
          | _ => None
          end
      | Byte.x68 :: n :: r =>
          match (fix decs k s :=
                   match k with
                   | O => Some ([], s)
                   | S k =>
                       match dec fuel s with
                       | Some (x, s) =>
                           match decs k s with
                           | Some (xs, s) => Some (x :: xs, s)
                           | None => None
                           end
                       | None => None
                       end
                   end) (Z.to_nat (byte_val n)) r with
          | Some (l, r) => Some (Ttuple l, r)
          | None => None
          end
      | _ => None
      end
  end.

Definition etf_encode (t : term) : option bytes := append2 (Some [Byte.x83]) (enc t).

Definition etf_decode (s : bytes) : option term :=
  match s with
  | Byte.x83 :: r => match dec (length r) r with Some (t, _) => Some t | None => None end
  | _ => None
  end.

(** ** Decoding undoes encoding *)

Section term_induction.
Variable P : term -> Prop.
Hypothesis Hatom : forall a, P (Tatom a).
Hypothesis Hint : forall z, P (Tint z).
Hypothesis Hbin : forall b, P (Tbin b).
Hypothesis Hnil : P Tnil.
Hypothesis Hcons : forall h t, P h -> P t -> P (Tcons h t).
Hypothesis Htuple : forall l, Forall P l -> P (Ttuple l).
Hypothesis Hother : forall t, enc t = None -> P t.

Fixpoint term_nested_ind (t : term) : P t :=
  match t with
  | Tatom a => Hatom a
  | Tint z => Hint z
  | Tbin b => Hbin b
  | Tnil => Hnil
  | Tcons h r => Hcons h r (term_nested_ind h) (term_nested_ind r)
  | Ttuple l =>
      Htuple l ((fix go l : Forall P l :=
                   match l with
                   | [] => Forall_nil_2 P
                   | x :: r => Forall_cons_2 P x r (term_nested_ind x) (go r)
                   end) l)
  | Tfloat z => Hother (Tfloat z) eq_refl
  | Tmap l => Hother (Tmap l) eq_refl
  | Tres k i => Hother (Tres k i) eq_refl
  | Tpid p => Hother (Tpid p) eq_refl
  end.
End term_induction.

Lemma split_bytes_app a r : split_bytes (zlen a) (a ++ r) = Some (a, r).
Proof.
  unfold split_bytes. rewrite length_app.
  rewrite (proj2 (Z.ltb_ge _ _)) by lia. rewrite Nat2Z.id.
  by rewrite take_app_length, drop_app_length.
Qed.

Lemma split_bytes_app' n a r : n = zlen a -> split_bytes n (a ++ r) = Some (a, r).
Proof. intros ->. apply split_bytes_app. Qed.

Lemma append2_Some a b x :
  append2 a b = Some x <-> exists y z, a = Some y /\ b = Some z /\ x = y ++ z.
Proof. destruct a, b; cbn; naive_solver. Qed.

Lemma enc_tuple l : enc (Ttuple l) =
  if zlen l <? 256 then append2 (Some [SMALL_TUPLE_EXT; byte_of_Z (zlen l)]) (enc_list l) else None.
Proof. done. Qed.

Section dec_list.
Variable fuel : nat.
Fixpoint dec_list (k : nat) (s : bytes) : option (list term * bytes) :=
  match k with
  | O => Some ([], s)
  | S k =>
      match dec fuel s with
      | Some (x, s) =>
          match dec_list k s with Some (xs, s) => Some (x :: xs, s) | None => None end
      | None => None
      end
  end.
End dec_list.

Lemma dec_tuple fuel n r :
  dec (S fuel) (SMALL_TUPLE_EXT :: n :: r) =
  match dec_list fuel (Z.to_nat (byte_val n)) r with
  | Some (l, r) => Some (Ttuple l, r)
  | None => None
  end.
Proof. reflexivity. Qed.

Definition dec_inverts (t : term) : Prop :=
  forall b r fuel, enc t = Some b -> (length b <= fuel)%nat -> dec fuel (b ++ r) = Some (t, r).

Lemma dec_list_inverts l b r fuel :
  Forall dec_inverts l -> enc_list l = Some b -> (length b <= fuel)%nat ->
  dec_list fuel (length l) (b ++ r) = Some (l, r).
Proof.
  intros Hl. revert b. induction Hl as [|t l Ht _ IH]; intros b; cbn [enc_list dec_list length].
  - intros; simplify_eq. done.
  - intros (y & z & Hy & Hz & ->)%append2_Some. rewrite length_app. intros Hlen.
    rewrite <- app_assoc, (Ht y) by (done || lia). by rewrite IH by (done || lia).
Qed.

Lemma dec_enc t : dec_inverts t.
Proof.
  induction t using term_nested_ind; intros bs r fuel; cbn [enc].
  - case_match; intros; simplify_eq. destruct fuel; [cbn in *; lia |]. cbn [app dec].
    rewrite byte_val_of_Z, Z.mod_small by lia.
    rewrite split_bytes_app. by rewrite String.string_of_list_byte_of_string.
  - case_match; intros; simplify_eq. destruct fuel; [cbn in *; lia |]. cbn [app dec].
    rewrite split_bytes_app' by (by rewrite length_le_bytes). rewrite le_val_bytes.
    change (256 ^ Z.of_nat 8) with (2 ^ 64). rewrite Z.mod_small by lia.
    do 3 f_equal. destruct (Z.ltb_spec z 0); case_decide; try done; lia.
  - case_match; intros; simplify_eq. destruct fuel; [cbn in *; lia |].
    change (dec (S fuel) ((BINARY_EXT :: put_be32 (zlen b) ++ b) ++ r)) with
      (match get_be32 ((put_be32 (zlen b) ++ b) ++ r) with
       | Some (n, r) =>
           match split_bytes n r with Some (b, r) => Some (Tbin b, r) | None => None end
       | None => None end).
    rewrite <- app_assoc, get_put_be32, wrap_small by lia. by rewrite split_bytes_app.
  - intros; simplify_eq. destruct fuel; [cbn in *; lia |]. done.
  - intros (y & z & Hy & (u & v & Hu & Hv & ->)%append2_Some & ->)%append2_Some.
    simplify_eq. intros Hlen. rewrite !length_app in Hlen. cbn in Hlen.
    destruct fuel; [lia |]. rewrite <- app_assoc.
    change (dec (S fuel) ((LIST_EXT :: put_be32 1) ++ (u ++ v) ++ r)) with
      (match dec fuel ((u ++ v) ++ r) with
       | Some (h, r) =>
           match dec fuel r with Some (t, r) => Some (Tcons h t, r) | None => None end
       | None => None end).
    rewrite <- app_assoc, IHt1 by (done || lia). by rewrite IHt2 by (done || lia).
  - case_match; [|done]. change (append2 _ _) with (append2 (Some [SMALL_TUPLE_EXT; byte_of_Z (zlen l)]) (enc_list l)).
    intros (y & z & Hy & Hz & ->)%append2_Some. simplify_eq. intros Hlen.
    rewrite length_app in Hlen. cbn in Hlen. destruct fuel; [lia |].
    cbn [app]. rewrite dec_tuple, byte_val_of_Z, Z.mod_small, Nat2Z.id by lia.
    by rewrite (dec_list_inverts l z) by (done || lia).
  - intros Henc. congruence.
Qed.

Lemma etf_decode_encode t b : etf_encode t = Some b -> etf_decode b = Some t.
Proof.
  unfold etf_encode. intros (y & z & Hy & Hz & ->)%append2_Some. simplify_eq. cbn.
  pose proof (dec_enc t z [] (length z) Hz ltac:(lia)) as Hd.
  rewrite app_nil_r in Hd. by rewrite Hd.
Qed.

Definition etf_env : NifEnv := {|
  binary_to_term := etf_decode;
  term_to_binary := etf_encode;
  compare_eq := fun a b => bool_decide (enc a = enc b);
  new_binary_ok := fun _ => true;
  alloc_env_ok := true;
  alloc_resource_ok := true;
|}.

Lemma etf_laws : NifLaws etf_env.
Proof.
  split.
  - exact etf_decode_encode.
  - intros b t. destruct b as [|[] r]; cbn; intros; try done. eauto.
  - intros t. by apply bool_decide_eq_true.
Qed.
