(* ===== verification/Roaring.v ===== *)
(** * The bitmap library

    The functions of CRoaring ([deps/CRoaring], [roaring64_bitmap_*]) the
    posting lists call, as a class: a set of 64-bit values with a portable
    serialization.  [RoaringLaws] states the documented behaviour the code
    relies on.  [list_roaring] is a concrete instance. *)

From stdpp Require Import base sets list numbers.
From Stdlib Require Import ZArith Lia.
From S2P Require Import Prelude.

Definition is_u64 (x : Z) : Prop := 0 <= x < 2 ^ 64.

Class Roaring := {
  bitmap : Type;
  bitmap_create : bitmap;
  bitmap_add : bitmap -> Z -> bitmap;
  bitmap_contains : bitmap -> Z -> bool;
  bitmap_and_cardinality : bitmap -> bitmap -> Z;
  bitmap_serialize : bitmap -> bytes;
  bitmap_deserialize_safe : bytes -> option bitmap;
}.

Section equivalence.
Context `{Roaring}.

(** Two bitmaps are interchangeable when they hold the same values. *)
Definition bitmap_equiv (a b : bitmap) : Prop :=
  forall x, is_u64 x -> bitmap_contains a x = bitmap_contains b x.

#[export] Instance bitmap_equiv_equivalence : Equivalence bitmap_equiv.
Proof.
  split; unfold bitmap_equiv.
  - by intros a x.
  - intros a b Hab x Hx. by rewrite Hab.
  - intros a b c Hab Hbc x Hx. by rewrite Hab, Hbc.
Qed.
End equivalence.

Class RoaringLaws (R : Roaring) : Prop := {
  contains_create : forall x, is_u64 x -> bitmap_contains bitmap_create x = false;
  contains_add : forall b x y, is_u64 x -> is_u64 y ->
    bitmap_contains (bitmap_add b x) y = bool_decide (x = y) || bitmap_contains b y;
  deserialize_serialize : forall b, exists b',
    bitmap_deserialize_safe (bitmap_serialize b) = Some b' /\ bitmap_equiv b' b;
  serialize_nonempty : forall b, bitmap_serialize b <> [];
  and_cardinality_spec : forall a b l, NoDup l ->
    (forall x, x ∈ l <-> is_u64 x /\ bitmap_contains a x = true /\ bitmap_contains b x = true) ->
    bitmap_and_cardinality a b = zlen l;
}.

Section laws.
Context {R : Roaring} {RL : RoaringLaws R}.

#[export] Instance bitmap_add_proper :
  Proper (bitmap_equiv ==> (fun x y => x = y /\ is_u64 x) ==> bitmap_equiv) bitmap_add.
Proof.
  intros a b Hab x ? [<- Hx] y Hy. rewrite !contains_add by done. by rewrite Hab.
Qed.

(** A bitmap filled by a loop of [roaring64_bitmap_add]. *)
Lemma contains_fold l b y :
  Forall is_u64 l -> is_u64 y ->
  bitmap_contains (foldl bitmap_add b l) y = bool_decide (y ∈ l) || bitmap_contains b y.
Proof.
  intros Hl Hy. revert b. induction Hl as [|x l Hx Hl IH]; intros b; cbn.
  - by rewrite bool_decide_eq_false_2 by set_solver.
  - rewrite IH, contains_add by done.
    rewrite (bool_decide_ext (y ∈ x :: l) (y ∈ l \/ x = y)) by set_solver.
    rewrite bool_decide_or. by rewrite orb_assoc.
Qed.

Lemma contains_of_list l y :
  Forall is_u64 l -> is_u64 y ->
  bitmap_contains (foldl bitmap_add bitmap_create l) y = bool_decide (y ∈ l).
Proof.
  intros. rewrite contains_fold, contains_create by done. apply orb_false_r.
Qed.
End laws.

(** ** A concrete instance: values in insertion order *)

Definition list_contains (b : list Z) (x : Z) : bool := bool_decide (u64 x ∈ u64 <$> b).

(** A count byte for the format, then eight bytes per value. *)
Definition list_serialize (b : list Z) : bytes := Byte.x01 :: b ≫= le_bytes 8.

Fixpoint list_values (fuel : nat) (s : bytes) : list Z :=
  match fuel, s with
  | S fuel, _ :: _ => le_val (take 8 s) :: list_values fuel (drop 8 s)
  | _, _ => []
  end.

Definition list_deserialize (s : bytes) : option (list Z) :=
  match s with Byte.x01 :: r => Some (list_values (length r) r) | _ => None end.

Definition list_roaring : Roaring := {|
  bitmap := list Z;
  bitmap_create := [];
  bitmap_add := fun b x => x :: b;
  bitmap_contains := list_contains;
  bitmap_and_cardinality := fun a b =>
    zlen (remove_dups (filter (fun x => x ∈ u64 <$> b) (u64 <$> a)));
  bitmap_serialize := list_serialize;
  bitmap_deserialize_safe := list_deserialize;
|}.

Lemma list_values_bind b fuel :
  (length (b ≫= le_bytes 8) <= fuel)%nat ->
  list_values fuel (b ≫= le_bytes 8) = u64 <$> b.
Proof.
  revert fuel. induction b as [|x b IH]; intros fuel Hf; [by destruct fuel |].
  change ((x :: b) ≫= le_bytes 8) with (le_bytes 8 x ++ (b ≫= le_bytes 8)) in *.
  rewrite length_app, length_le_bytes in Hf. destruct fuel as [|fuel]; [lia |].
  assert (Hn : exists c r, le_bytes 8 x ++ (b ≫= le_bytes 8) = c :: r) by (cbn; eauto).
  destruct Hn as (c & r & Hcr). cbn [list_values]. rewrite Hcr. cbn [list_values]. rewrite <- Hcr.
  rewrite (take_app_length' _ _ 8), (drop_app_length' _ _ 8) by (by rewrite length_le_bytes).
  rewrite IH by lia. by rewrite le_val_bytes.
Qed.

Lemma list_roaring_laws : RoaringLaws list_roaring.
Proof.
  assert (Hid : forall x, is_u64 x -> u64 x = x) by (intros; by apply wrap_small).
  split; cbn; unfold list_contains.
  - intros x Hx. apply bool_decide_eq_false. set_solver.
  - intros b x y Hx Hy. rewrite fmap_cons, !Hid by done.
    rewrite (bool_decide_ext (y ∈ x :: (u64 <$> b)) (x = y \/ y ∈ u64 <$> b)) by set_solver.
    by rewrite bool_decide_or.
  - intros b. eexists. split; [done |]. intros x Hx. cbn. unfold list_contains.
    rewrite list_values_bind by done. apply bool_decide_ext.
    rewrite <- list_fmap_compose. erewrite list_fmap_ext; [done |].
    intros ? y _. apply wrap_idemp. lia.
  - done.
  - intros a b l Hnd Hl. f_equal. apply Permutation_length, NoDup_Permutation.
    + apply NoDup_remove_dups.
    + done.
    + intros x. rewrite Hl, !bool_decide_eq_true, elem_of_remove_dups, list_elem_of_filter.
      split.
      * intros [Hb Ha]. assert (is_u64 x).
        { apply list_elem_of_fmap in Ha as (? & -> & _). apply wrap_range. lia. }
        rewrite Hid by done. done.
      * intros (Hx & Ha & Hb). by rewrite Hid in Ha, Hb.
Qed.
