(* ===== verification/PostingHash.v ===== *)
(** * Posting lists: formats shared by the merge operator and the NIFs

    The pieces of [posting_list_merge_operator.{h,cc}] that define the binary
    formats: the version bytes, the 64-bit key hash, and the encodings of the
    V1 and V2 records; with the decompositions of a buffer into records that
    the theorems about both parsers share. *)

From stdpp Require Import base sets gmap list numbers.
From Stdlib Require Import ZArith Lia.
From S2P Require Import Prelude StdMap Roaring.

Definition POSTING_LIST_V1 : Z := 1.
Definition POSTING_LIST_V2 : Z := 2.

(** ** The hash *)

(** MurmurHash3 64-bit finalizer. *)
Definition fmix64 (k : Z) : Z :=
  let k := Z.lxor k (Z.shiftr k 33) in
  let k := u64 (k * 0xff51afd7ed558ccd) in
  let k := Z.lxor k (Z.shiftr k 33) in
  let k := u64 (k * 0xc4ceb9fe1a85ec53) in
  Z.lxor k (Z.shiftr k 33).

(** The loop over the [nblocks] 8-byte blocks; [memcpy] into a [uint64_t] reads
    the bytes in little-endian order on the supported targets. *)
Fixpoint hash_blocks (nblocks : nat) (data : bytes) (h : Z) : Z :=
  match nblocks with
  | O => h
  | S n =>
      let k := le_val (take 8 data) in
      let h := Z.lxor h (fmix64 k) in
      let h := Z.lor (u64 (Z.shiftl h 27)) (Z.shiftr h 37) in
      let h := u64 (h * 5 + 0x52dce729) in
      hash_blocks n (drop 8 data) h
  end.

(** The [switch (len & 7)] with its fall-through cases 7 to 1. *)
Fixpoint hash_tail (r : nat) (tail : bytes) (k : Z) : Z :=
  match r with
  | O => k
  | S r => hash_tail r tail (Z.lxor k (Z.shiftl (byte_val (nth r tail Byte.x00)) (8 * Z.of_nat r)))
  end.

Definition HashKey (key : bytes) : Z :=
  let h := 0x9e3779b97f4a7c15 in
  let len := length key in
  let nblocks := (len / 8)%nat in
  let h := hash_blocks nblocks key h in
  let tail := drop (nblocks * 8) key in
  let r := (len mod 8)%nat in
  let h := match r with O => h | _ => Z.lxor h (fmix64 (hash_tail r tail 0)) end in
  fmix64 (Z.lxor h (u64 (Z.of_nat len))).

Lemma u64_lxor a b : is_u64 a -> is_u64 b -> is_u64 (Z.lxor a b).
Proof.
  unfold is_u64. intros Ha Hb.
  assert (Hnn : 0 <= Z.lxor a b) by (apply Z.lxor_nonneg; lia). split; [done |].
  destruct (Z.eq_dec (Z.lxor a b) 0) as [-> | Hnz]; [lia |].
  apply Z.log2_lt_pow2; [lia |].
  eapply Z.le_lt_trans; [apply Z.log2_lxor; lia |].
  apply Z.max_lub_lt;
    [destruct (Z.eq_dec a 0) as [-> |] | destruct (Z.eq_dec b 0) as [-> |]];
    try (cbn; lia); apply Z.log2_lt_pow2; lia.
Qed.

Lemma u64_shiftr a n : 0 <= n -> is_u64 a -> is_u64 (Z.shiftr a n).
Proof.
  unfold is_u64. intros Hn Ha. rewrite Z.shiftr_div_pow2 by done.
  split; [apply Z.div_pos; lia |].
  eapply Z.le_lt_trans; [|apply Ha].
  apply Z.div_le_upper_bound; [lia |]. nia.
Qed.

Lemma u64_wrap a : is_u64 (u64 a).
Proof. unfold is_u64. apply wrap_range. lia. Qed.

Lemma fmix64_u64 k : is_u64 k -> is_u64 (fmix64 k).
Proof.
  intros. unfold fmix64. apply u64_lxor; [apply u64_wrap |].
  apply u64_shiftr; [lia | apply u64_wrap].
Qed.

Lemma hash_blocks_u64 n data h : is_u64 h -> is_u64 (hash_blocks n data h).
Proof.
  revert data h. induction n as [|n IH]; intros data h Hh; cbn [hash_blocks]; [done |].
  apply IH, u64_wrap.
Qed.

Lemma hash_tail_u64 r tail k : (r <= 7)%nat -> is_u64 k -> is_u64 (hash_tail r tail k).
Proof.
  revert k. induction r as [|r IH]; intros k Hr Hk; cbn [hash_tail]; [done |].
  apply IH; [lia |]. apply u64_lxor; [done |]. unfold is_u64.
  rewrite Z.shiftl_mul_pow2 by lia. pose proof (byte_val_range (nth r tail Byte.x00)).
  assert (1 <= 2 ^ (8 * Z.of_nat r) <= 2 ^ 48).
  { split; [|apply Z.pow_le_mono_r; lia]. lia. }
  nia.
Qed.

(** The hash is always a 64-bit value. *)
Lemma HashKey_u64 key : is_u64 (HashKey key).
Proof.
  unfold HashKey. apply fmix64_u64, u64_lxor; [|apply u64_wrap].
  assert (Hb : is_u64 (hash_blocks (length key / 8) key 0x9e3779b97f4a7c15))
    by (apply hash_blocks_u64; by compute).
  destruct (length key mod 8)%nat eqn:E; [done |].
  apply u64_lxor; [done |]. apply fmix64_u64, hash_tail_u64; [|by compute].
  pose proof (Nat.mod_upper_bound (length key) 8 ltac:(lia)). lia.
Qed.

(** ** Records of the two formats *)

(** The V1 entries of a buffer, [<Len:32><Flag:8><Key:Len>]*, up to the first
    one that does not fit. *)
Fixpoint v1_scan (fuel : nat) (s : bytes) : list (bytes * bool) :=
  match fuel with
  | O => []
  | S fuel =>
      match s with
      | b0 :: b1 :: b2 :: b3 :: flag :: r =>
          let len := be32 b0 b1 b2 b3 in
          if zlen r <? len then []
          else (take (Z.to_nat len) r, negb (byte_val flag =? 0))
               :: v1_scan fuel (drop (Z.to_nat len) r)
      | _ => []
      end
  end.

Definition v1_entries (s : bytes) : list (bytes * bool) := v1_scan (length s) s.

(** At most [n] length-prefixed keys of a buffer. *)
Fixpoint key_scan (fuel : nat) (n : Z) (s : bytes) : list bytes :=
  match fuel with
  | O => []
  | S fuel =>
      if n <=? 0 then []
      else match get_be32 s with
           | None => []
           | Some (len, r) =>
               if zlen r <? len then []
               else take (Z.to_nat len) r :: key_scan fuel (n - 1) (drop (Z.to_nat len) r)
           end
  end.

(** The keys section of a V2 buffer: after the version byte, the bitmap and
    the key count. *)
Definition v2_body (s : bytes) : option (bytes * Z * bytes) :=
  match s with
  | [] => None
  | _ :: r =>
      match get_be32 r with
      | None => None
      | Some (bitmap_size, r) =>
          if zlen r <? bitmap_size then None
          else match get_be32 (drop (Z.to_nat bitmap_size) r) with
               | None => None
               | Some (key_count, r') => Some (take (Z.to_nat bitmap_size) r, key_count, r')
               end
      end
  end.

Definition v2_keys (s : bytes) : list bytes :=
  match v2_body s with Some (_, n, r) => key_scan (length r) n r | None => [] end.

(** One key of the V2 keys section as the writers emit it. *)
Definition put_key (key : bytes) : bytes := put_be32 (u32 (zlen key)) ++ key.

(** ** Fuel is enough *)

Lemma v1_scan_fuel f1 f2 s :
  (length s <= f1)%nat -> (length s <= f2)%nat -> v1_scan f1 s = v1_scan f2 s.
Proof.
  revert f2 s. induction f1 as [|f1 IH]; intros [|f2] s H1 H2; cbn; try done.
  - destruct s as [|? [|? [|? [|? [|? ?]]]]]; cbn in *; done || lia.
  - destruct s as [|? [|? [|? [|? [|? ?]]]]]; cbn in *; done || lia.
  - destruct s as [|b0 [|b1 [|b2 [|b3 [|fl r]]]]]; try done. cbn in *.
    case_match; [done |]. f_equal. apply IH; rewrite length_drop; lia.
Qed.

Lemma key_scan_fuel f1 f2 n s :
  (length s <= f1)%nat -> (length s <= f2)%nat -> key_scan f1 n s = key_scan f2 n s.
Proof.
  assert (Hnil : forall f n s, (length s <= 0)%nat -> key_scan f n s = []).
  { intros [|f] m [|? ?] Hs; cbn in *; try done || lia. by destruct (m <=? 0). }
  revert f2 n s. induction f1 as [|f1 IH]; intros f2 n s H1 H2; [by rewrite !Hnil |].
  destruct f2 as [|f2]; [by rewrite !Hnil |]. cbn.
  destruct (n <=? 0); [done |]. destruct (get_be32 s) as [[len r]|] eqn:E; [|done].
  apply get_be32_Some in E as [_ E]. case_match; [done |].
  f_equal. apply IH; rewrite length_drop; lia.
Qed.

(** ** Reading back what the writers wrote *)

Lemma key_scan_put keys r fuel :
  Forall (fun k => zlen k < 2 ^ 32) keys ->
  (length (keys ≫= put_key) <= fuel)%nat ->
  key_scan fuel (zlen keys) ((keys ≫= put_key) ++ r) = keys.
Proof.
  intros Hk. revert fuel. induction Hk as [|k keys Hk Hks IH]; intros fuel Hf.
  - destruct fuel; done.
  - change ((k :: keys) ≫= put_key) with (put_key k ++ (keys ≫= put_key)) in *.
    rewrite length_app in Hf. unfold put_key at 1 in Hf.
    rewrite length_app, length_put_be32 in Hf. destruct fuel as [|fuel]; [lia |].
    cbn [key_scan length]. rewrite Nat2Z.inj_succ.
    rewrite (proj2 (Z.leb_gt _ _)) by lia.
    unfold put_key at 1. rewrite <- !app_assoc, get_put_be32.
    rewrite wrap_idemp, wrap_small by lia.
    rewrite (proj2 (Z.ltb_ge _ _)) by (rewrite length_app; lia).
    rewrite Nat2Z.id, take_app_length, drop_app_length.
    f_equal. replace (Z.succ _ - 1) with (zlen keys) by lia. apply IH. lia.
Qed.

Lemma v2_body_put bm n r :
  zlen bm < 2 ^ 32 ->
  v2_body (Byte.x02 :: put_be32 (u32 (zlen bm)) ++ bm ++ put_be32 n ++ r) =
  Some (bm, u32 n, r).
Proof.
  intros Hbm. unfold v2_body. rewrite get_put_be32, wrap_idemp, wrap_small by lia.
  rewrite (proj2 (Z.ltb_ge _ _)) by (rewrite length_app; lia).
  by rewrite Nat2Z.id, drop_app_length, take_app_length, get_put_be32.
Qed.

Lemma v2_keys_put bm keys :
  zlen bm < 2 ^ 32 -> zlen keys < 2 ^ 32 -> Forall (fun k => zlen k < 2 ^ 32) keys ->
  v2_keys (Byte.x02 :: put_be32 (u32 (zlen bm)) ++ bm ++ put_be32 (u32 (zlen keys))
           ++ (keys ≫= put_key)) = keys.
Proof.
  intros Hbm Hn Hk. unfold v2_keys. rewrite v2_body_put, wrap_idemp, wrap_small by lia.
  rewrite <- (app_nil_r (keys ≫= put_key)).
  apply key_scan_put; [done |]. rewrite app_nil_r. lia.
Qed.

Lemma key_scan_bound fuel n s : Forall (fun k => zlen k < 2 ^ 32) (key_scan fuel n s).
Proof.
  revert n s. induction fuel as [|fuel IH]; intros n s; cbn; [done |].
  destruct (n <=? 0); [done |]. destruct (get_be32 s) as [[len r]|] eqn:E; [|done].
  apply get_be32_Some in E as [E _]. case_match; [done |].
  constructor; [|apply IH]. rewrite length_take. lia.
Qed.

Lemma v2_keys_bound s : Forall (fun k => zlen k < 2 ^ 32) (v2_keys s).
Proof. unfold v2_keys. destruct (v2_body s) as [[[? ?] ?]|]; [apply key_scan_bound | done]. Qed.

Lemma v1_scan_bound fuel s : Forall (fun e => zlen e.1 < 2 ^ 32) (v1_scan fuel s).
Proof.
  revert s. induction fuel as [|fuel IH]; intros s; cbn; [done |].
  destruct s as [|b0 [|b1 [|b2 [|b3 [|fl r]]]]]; try done. case_match; [done |].
  constructor; [|apply IH]. cbn. rewrite length_take. pose proof (be32_range b0 b1 b2 b3). lia.
Qed.
