(* ===== verification/PostingMerge.v ===== *)
(** * The posting-list merge operator

    [c_src/posting_list_merge_operator.cc]: [PostingListMergeOperator] with its
    parsers, its serializer, [FullMergeV2] and [PartialMergeMulti].

    The abstract specification is a finite set of keys with two operations,
    [posting_add] and [posting_delete]; [FullMergeV2] refines folding the
    operations over the set the existing value stands for. *)

From stdpp Require Import base sets gmap list numbers strings sorting.
From Stdlib Require Import ZArith Lia.
From S2P Require Import Prelude StdMap Terms Etf Roaring PostingHash.

Section operator.
Context {N : NifEnv} {R : Roaring}.

(** Whether the module is built with [-DWITH_CROARING]. *)
Variable with_croaring : bool.

(** ** Parsing *)

Definition DetectVersion (data : bytes) : Z :=
  match data with
  | [] => POSTING_LIST_V1
  | first_byte :: _ =>
      if byte_val first_byte =? POSTING_LIST_V2 then POSTING_LIST_V2 else POSTING_LIST_V1
  end.

(** [while (ptr + 5 <= end)]: each iteration consumes at least five bytes. *)
Fixpoint ParseV1Loop (fuel : nat) (ptr : bytes) (key_states : smap bool) : smap bool :=
  match fuel with
  | O => key_states
  | S fuel =>
      match ptr with
      | b0 :: b1 :: b2 :: b3 :: flag :: ptr =>
          let len := be32 b0 b1 b2 b3 in
          let is_tombstone := negb (byte_val flag =? 0) in
          if zlen ptr <? len then key_states          (* ptr + len > end: break *)
          else
            let key := take (Z.to_nat len) ptr in
            ParseV1Loop fuel (drop (Z.to_nat len) ptr) (map_set key is_tombstone key_states)
      | _ => key_states
      end
  end.

Definition ParseV1Value (value : bytes) (key_states : smap bool) : smap bool :=
  ParseV1Loop (length value) value key_states.

(** [for (i = 0; i < key_count && ptr + 4 <= end; i++)], with [n] the iterations
    left; each consumes at least four bytes. *)
Fixpoint ParseV2Loop (fuel : nat) (n : Z) (ptr : bytes) (key_states : smap bool) : smap bool :=
  match fuel with
  | O => key_states
  | S fuel =>
      if n <=? 0 then key_states
      else match get_be32 ptr with
           | None => key_states
           | Some (len, ptr) =>
               if zlen ptr <? len then key_states
               else
                 let key := take (Z.to_nat len) ptr in
                 ParseV2Loop fuel (n - 1) (drop (Z.to_nat len) ptr) (map_set key false key_states)
           end
  end.

Definition ParseV2Value (value : bytes) (key_states : smap bool) : smap bool :=
  match value with
  | [] => key_states
  | _version :: ptr =>
      match get_be32 ptr with
      | None => key_states
      | Some (bitmap_size, ptr) =>
          if zlen ptr <? bitmap_size then key_states
          else match get_be32 (drop (Z.to_nat bitmap_size) ptr) with
               | None => key_states
               | Some (key_count, ptr) => ParseV2Loop (length ptr) key_count ptr key_states
               end
      end
  end.

Definition ParseExistingValue (value : bytes) (key_states : smap bool) : smap bool :=
  if DetectVersion value =? POSTING_LIST_V2
  then ParseV2Value value key_states
  else ParseV1Value value key_states.

(** [{posting_add, Binary}] or [{posting_delete, Binary}] in external term
    format: the key and whether it is a tombstone. *)
Definition ParseOperand (operand : bytes) : option (bytes * bool) :=
  if negb alloc_env_ok then None
  else match binary_to_term operand with
       | None => None
       | Some t =>
           match enif_get_tuple t with
           | Some [tag; v] =>
               if is_atom "posting_add" tag then
                 match enif_inspect_binary v with Some k => Some (k, false) | None => None end
               else if is_atom "posting_delete" tag then
                 match enif_inspect_binary v with Some k => Some (k, true) | None => None end
               else None
           | _ => None
           end
       end.

(** ** Serialization *)

(** The bitmap of the hashes of a list of keys, filled in their order. *)
Definition bitmap_of_keys (keys : list bytes) : bitmap :=
  foldl (fun b k => bitmap_add b (HashKey k)) bitmap_create keys.

(** The keys of the map that are not tombstones, in its order. *)
Definition active_keys (key_states : smap bool) : list bytes :=
  (filter (fun e => e.2 = false) key_states).*1.

Definition SerializeV2 (key_states : smap bool) : bytes :=
  let active := active_keys key_states in
  let header :=
    if with_croaring then
      let bitmap_data := bitmap_serialize (bitmap_of_keys active) in
      Byte.x02 :: put_be32 (u32 (zlen bitmap_data)) ++ bitmap_data
    else [Byte.x02; Byte.x00; Byte.x00; Byte.x00; Byte.x00] in
  header ++ put_be32 (u32 (zlen active)) ++ (active ≫= put_key).

(** [AppendEntryV1]: the legacy writer of one V1 entry. *)
Definition AppendEntryV1 (result key : bytes) (is_tombstone : bool) : bytes :=
  result ++ put_be32 (u32 (zlen key)) ++ [if is_tombstone then Byte.x01 else Byte.x00] ++ key.

(** ** Merging *)

(** The loop body shared by both merges. *)
Definition merge_operand (key_states : smap bool) (operand : bytes) : smap bool :=
  match ParseOperand operand with
  | Some (key, is_tombstone) => map_set key is_tombstone key_states
  | None => ParseExistingValue operand key_states
  end.

(** Returns [merge_out->new_value]; the function itself always returns true. *)
Definition FullMergeV2 (existing_value : option bytes) (operand_list : list bytes) : bytes :=
  let key_states :=
    match existing_value with
    | Some v => match v with [] => [] | _ :: _ => ParseExistingValue v [] end
    | None => []
    end in
  SerializeV2 (foldl merge_operand key_states operand_list).

(** [None] is the return value false. *)
Definition PartialMergeMulti (operand_list : list bytes) : option bytes :=
  if (length operand_list <? 2)%nat then None
  else Some (SerializeV2 (foldl merge_operand [] operand_list)).

(** ** Both parsers in terms of the records of the buffer *)

Definition set_entries (key_states : smap bool) (l : list (bytes * bool)) : smap bool :=
  foldl (fun m e => map_set e.1 e.2 m) key_states l.

(** The entries a value of either format stands for. *)
Definition value_entries (value : bytes) : list (bytes * bool) :=
  if DetectVersion value =? POSTING_LIST_V2
  then (fun k => (k, false)) <$> v2_keys value
  else v1_entries value.

Lemma ParseV1Loop_entries fuel ptr ks :
  ParseV1Loop fuel ptr ks = set_entries ks (v1_scan fuel ptr).
Proof.
  revert ptr ks. induction fuel as [|fuel IH]; intros ptr ks; cbn; [done |].
  destruct ptr as [|b0 [|b1 [|b2 [|b3 [|fl r]]]]]; try done.
  case_match; [done |]. by rewrite IH.
Qed.

Lemma ParseV2Loop_entries fuel n ptr ks :
  ParseV2Loop fuel n ptr ks = set_entries ks ((fun k => (k, false)) <$> key_scan fuel n ptr).
Proof.
  revert n ptr ks. induction fuel as [|fuel IH]; intros n ptr ks; cbn; [done |].
  destruct (n <=? 0); [done |]. destruct (get_be32 ptr) as [[len r]|]; [|done].
  case_match; [done |]. by rewrite IH.
Qed.

Lemma ParseExistingValue_entries value ks :
  ParseExistingValue value ks = set_entries ks (value_entries value).
Proof.
  unfold ParseExistingValue, value_entries. case_match; [|apply ParseV1Loop_entries].
  unfold ParseV2Value, v2_keys, v2_body. destruct value as [|b value]; [done |].
  destruct (get_be32 value) as [[bs r]|]; [|done]. case_match; [done |].
  destruct (get_be32 (drop (Z.to_nat bs) r)) as [[n r']|]; [|done].
  apply ParseV2Loop_entries.
Qed.

Lemma value_entries_bound value : Forall (fun e => zlen e.1 < 2 ^ 32) (value_entries value).
Proof.
  unfold value_entries. case_match; [|apply v1_scan_bound].
  apply Forall_fmap. eapply Forall_impl; [apply v2_keys_bound |]. done.
Qed.

(** ** The abstract specification *)

Inductive op := Add (k : bytes) | Del (k : bytes).

Definition op_key (o : op) : bytes := match o with Add k | Del k => k end.
Definition op_entry (o : op) : bytes * bool :=
  match o with Add k => (k, false) | Del k => (k, true) end.
Definition op_term (o : op) : term :=
  match o with
  | Add k => Ttuple [Tatom "posting_add"; Tbin k]
  | Del k => Ttuple [Tatom "posting_delete"; Tbin k]
  end.

Definition apply_op (s : gset bytes) (o : op) : gset bytes :=
  match o with Add k => {[k]} ∪ s | Del k => s ∖ {[k]} end.

(** The set of keys a map of states, a stored value, or an optional existing
    value stands for. *)
Definition state_keys (ks : smap bool) : gset bytes := list_to_set (active_keys ks).
Definition posting_keys (value : bytes) : gset bytes :=
  state_keys (ParseExistingValue value []).
Definition existing_keys (existing : option bytes) : gset bytes :=
  match existing with Some v => posting_keys v | None => ∅ end.

(** What the 32-bit fields of the V2 format can carry. *)
Definition fits_v2 (keys : list bytes) : Prop :=
  Forall (fun k => zlen k < 2 ^ 32) keys /\ zlen keys < 2 ^ 32 /\
  zlen (bitmap_serialize (bitmap_of_keys keys)) < 2 ^ 32.

(** The executable form of [fits_v2]. *)
Definition fits_v2b (keys : list bytes) : bool :=
  forallb (fun k => zlen k <? 2 ^ 32) keys && (zlen keys <? 2 ^ 32) &&
  (zlen (bitmap_serialize (bitmap_of_keys keys)) <? 2 ^ 32).

Lemma fits_v2b_true keys : fits_v2b keys = true -> fits_v2 keys.
Proof.
  unfold fits_v2b, fits_v2. rewrite !andb_true_iff, forallb_forall. intros [[Hk Hn] Hb].
  split; [|lia]. apply List.Forall_forall. intros k Hin. specialize (Hk k Hin). lia.
Qed.

(** ** Lemmas on maps of key states *)

Lemma set_entries_wf ks l : map_wf ks -> map_wf (set_entries ks l).
Proof.
  revert ks. induction l as [|e l IH]; intros ks Hks; cbn; [done |].
  apply IH. by apply map_set_wf.
Qed.

Lemma set_entries_cons ks e l :
  set_entries ks (e :: l) = set_entries (map_set e.1 e.2 ks) l.
Proof. done. Qed.

Lemma set_entries_app ks l1 l2 :
  set_entries ks (l1 ++ l2) = set_entries (set_entries ks l1) l2.
Proof. apply foldl_app. Qed.

Lemma elem_of_active_keys ks k :
  map_wf ks -> k ∈ active_keys ks <-> map_get k ks = Some false.
Proof.
  intros Hwf. unfold active_keys. rewrite list_elem_of_fmap.
  setoid_rewrite list_elem_of_filter. rewrite <- elem_of_map_get by done.
  split; [intros ([k' t] & -> & Ht & ?); cbn in *; by subst | intros; by eexists (_, _)].
Qed.

Lemma elem_of_state_keys ks k :
  map_wf ks -> k ∈ state_keys ks <-> map_get k ks = Some false.
Proof. intros. unfold state_keys. by rewrite elem_of_list_to_set, elem_of_active_keys. Qed.

Lemma active_keys_sorted ks : map_wf ks -> StronglySorted bytes_lt (active_keys ks).
Proof.
  unfold map_wf, active_keys. induction ks as [|[k t] ks IH]; intros Hs; [constructor |].
  rewrite fmap_cons in Hs. inversion_clear Hs as [|? ? Hs' Hall]. destruct (decide (t = false)) as [-> | Ht].
  - rewrite filter_cons_True by done. cbn. constructor; [auto |].
    apply Forall_fmap, Forall_forall. intros e [_ He]%list_elem_of_filter.
    rewrite Forall_forall in Hall. apply Hall. by apply list_elem_of_fmap_2.
  - rewrite filter_cons_False by done. auto.
Qed.

Lemma active_keys_false l :
  active_keys ((fun k => (k, false)) <$> l) = l.
Proof.
  unfold active_keys. induction l as [|k l IH]; [done |].
  rewrite fmap_cons, filter_cons_True, fmap_cons by done. by rewrite IH.
Qed.

Lemma state_keys_set ks k t :
  map_wf ks -> state_keys (map_set k t ks) =
  if t then state_keys ks ∖ {[k]} else {[k]} ∪ state_keys ks.
Proof.
  intros Hwf. apply set_eq. intros x.
  rewrite elem_of_state_keys, map_get_set by auto with stdmap.
  destruct t; rewrite ?elem_of_difference, ?elem_of_union, elem_of_singleton,
    elem_of_state_keys by done; case_decide; naive_solver.
Qed.

Lemma get_set_entries ks l k :
  map_wf ks -> map_get k (set_entries ks l) =
  match map_get k (set_entries [] l) with Some t => Some t | None => map_get k ks end.
Proof.
  intros Hks. induction l as [|e l IH] using rev_ind; [done |].
  rewrite !set_entries_app. cbn.
  rewrite !map_get_set by (apply set_entries_wf; auto with stdmap).
  case_decide; [done | apply IH].
Qed.

(** ** Serialize, then parse *)

Lemma SerializeV2_shape ks :
  exists bm, SerializeV2 ks =
    Byte.x02 :: put_be32 (u32 (zlen bm)) ++ bm
      ++ put_be32 (u32 (zlen (active_keys ks))) ++ (active_keys ks ≫= put_key) /\
    (if with_croaring
     then bm = bitmap_serialize (bitmap_of_keys (active_keys ks))
     else bm = []).
Proof.
  unfold SerializeV2. destruct with_croaring.
  - eexists. split; [|done]. cbn [app]. by rewrite <- app_assoc.
  - exists []. done.
Qed.

Lemma SerializeV2_keys ks :
  fits_v2 (active_keys ks) -> v2_keys (SerializeV2 ks) = active_keys ks.
Proof.
  intros (Hk & Hn & Hb). destruct (SerializeV2_shape ks) as (bm & -> & Hbm).
  apply v2_keys_put; [|done|done]. destruct with_croaring; subst bm; [done | cbn; lia].
Qed.

Lemma SerializeV2_version ks : DetectVersion (SerializeV2 ks) = POSTING_LIST_V2.
Proof. by destruct (SerializeV2_shape ks) as (bm & -> & _). Qed.

Lemma SerializeV2_entries ks :
  fits_v2 (active_keys ks) ->
  value_entries (SerializeV2 ks) = (fun k => (k, false)) <$> active_keys ks.
Proof.
  intros. unfold value_entries. rewrite SerializeV2_version. cbn.
  by rewrite SerializeV2_keys.
Qed.

(** What the parser rebuilds from a list of keys without tombstones. *)
Lemma set_entries_lookup l k :
  map_get k (set_entries [] ((fun k => (k, false)) <$> l)) =
  if bool_decide (k ∈ l) then Some false else None.
Proof.
  induction l as [|x l IH] using rev_ind; [done |].
  rewrite fmap_app, set_entries_app. cbn.
  rewrite map_get_set by (apply set_entries_wf; auto with stdmap). rewrite IH.
  rewrite (bool_decide_ext (k ∈ l ++ [x]) (k = x \/ k ∈ l)) by set_solver.
  rewrite bool_decide_or. destruct (decide (k = x)) as [E | E];
    [by rewrite (bool_decide_eq_true_2 _ E) | by rewrite (bool_decide_eq_false_2 _ E)].
Qed.

Lemma SerializeV2_lookup ks k :
  map_wf ks -> fits_v2 (active_keys ks) ->
  map_get k (ParseExistingValue (SerializeV2 ks) []) =
  if bool_decide (map_get k ks = Some false) then Some false else None.
Proof.
  intros Hwf Hfit. rewrite ParseExistingValue_entries, SerializeV2_entries by done.
  rewrite set_entries_lookup.
  by rewrite (bool_decide_ext _ _ (elem_of_active_keys ks k Hwf)).
Qed.

Lemma posting_keys_SerializeV2 ks :
  map_wf ks -> fits_v2 (active_keys ks) ->
  posting_keys (SerializeV2 ks) = state_keys ks.
Proof.
  intros Hwf Hfit. unfold posting_keys. apply set_eq. intros x.
  rewrite !elem_of_state_keys; [|done|
    rewrite ParseExistingValue_entries; apply set_entries_wf; auto with stdmap].
  rewrite SerializeV2_lookup by done. case_bool_decide; naive_solver.
Qed.

(** ** Operands *)

Definition operand_entries (operand : bytes) : list (bytes * bool) :=
  match ParseOperand operand with
  | Some e => [e]
  | None => value_entries operand
  end.

Lemma merge_operand_entries ks o :
  merge_operand ks o = set_entries ks (operand_entries o).
Proof.
  unfold merge_operand, operand_entries.
  destruct (ParseOperand o) as [[k t]|]; [done |]. apply ParseExistingValue_entries.
Qed.

Lemma merge_operands_entries ks l :
  foldl merge_operand ks l = set_entries ks (l ≫= operand_entries).
Proof.
  revert ks. induction l as [|o l IH]; intros ks; cbn; [done |].
  rewrite set_entries_app, <- merge_operand_entries. apply IH.
Qed.

Definition existing_entries (existing : option bytes) : list (bytes * bool) :=
  match existing with Some v => value_entries v | None => [] end.

Lemma FullMergeV2_entries existing l :
  FullMergeV2 existing l =
  SerializeV2 (set_entries [] (existing_entries existing ++ (l ≫= operand_entries))).
Proof.
  unfold FullMergeV2. rewrite merge_operands_entries, set_entries_app. do 2 f_equal.
  destruct existing as [[|b v]|]; [done | apply ParseExistingValue_entries | done].
Qed.

(** The keys [FullMergeV2] keeps, in the order it writes them. *)
Definition merged_keys (existing : option bytes) (operands : list bytes) : list bytes :=
  active_keys (set_entries [] (existing_entries existing ++ (operands ≫= operand_entries))).

Lemma SerializeV2_ext ks1 ks2 :
  map_wf ks1 -> map_wf ks2 ->
  (forall k, map_get k ks1 = Some false <-> map_get k ks2 = Some false) ->
  SerializeV2 ks1 = SerializeV2 ks2.
Proof.
  intros H1 H2 Hk. unfold SerializeV2.
  assert (active_keys ks1 = active_keys ks2) as ->; [|done].
  apply sorted_keys_ext; [by apply active_keys_sorted.. |].
  intros k. by rewrite !elem_of_active_keys.
Qed.

Context {NL : NifLaws N}.

Lemma ParseOperand_op o b :
  alloc_env_ok = true -> term_to_binary (op_term o) = Some b ->
  ParseOperand b = Some (op_entry o).
Proof.
  intros Henv Hb. unfold ParseOperand. rewrite Henv, (decode_encode _ _ Hb).
  destruct o; done.
Qed.

(** A V2 value is never an operand term: it does not start with the magic. *)
Lemma ParseOperand_V2 ks : ParseOperand (SerializeV2 ks) = None.
Proof.
  unfold ParseOperand. case_match; [done |].
  destruct (binary_to_term (SerializeV2 ks)) as [t|] eqn:E; [|done].
  apply decode_magic in E as [r Hr]. destruct (SerializeV2_shape ks) as (bm & Hs & _).
  rewrite Hs in Hr. done.
Qed.

Lemma operand_entries_ops ops l :
  alloc_env_ok = true ->
  Forall2 (fun o b => term_to_binary (op_term o) = Some b) ops l ->
  l ≫= operand_entries = op_entry <$> ops.
Proof.
  intros Henv H. induction H as [|o b ops l Hb H IH]; [done |]. cbn.
  unfold operand_entries at 1. rewrite (ParseOperand_op o b) by done. cbn. f_equal. apply IH.
Qed.

Lemma state_keys_ops ks ops :
  map_wf ks ->
  state_keys (set_entries ks (op_entry <$> ops)) = foldl apply_op (state_keys ks) ops.
Proof.
  revert ks. induction ops as [|o ops IH]; intros ks Hks; [done |].
  rewrite fmap_cons, set_entries_cons, IH by auto with stdmap. cbn. f_equal.
  destruct o; cbn; by rewrite state_keys_set.
Qed.
End operator.

(** ** Well-formed V2 values *)

Section wellformed.
Context {R : Roaring} {RL : RoaringLaws R}.
Variable with_croaring : bool.

(** The invariant of a V2 value: the version byte, keys strictly increasing,
    and a bitmap section that holds exactly the hashes of the keys. *)
Record wf_v2 (value : bytes) : Prop := {
  wf_version : DetectVersion value = POSTING_LIST_V2;
  wf_sorted : StronglySorted bytes_lt (v2_keys value);
  wf_bitmap : with_croaring = true -> exists bm n r b,
    v2_body value = Some (bm, n, r) /\ bm <> [] /\
    bitmap_deserialize_safe bm = Some b /\ bitmap_equiv b (bitmap_of_keys (v2_keys value));
}.

Lemma SerializeV2_wf ks :
  map_wf ks -> fits_v2 (active_keys ks) -> wf_v2 (SerializeV2 with_croaring ks).
Proof.
  intros Hwf Hfit. split.
  - apply SerializeV2_version.
  - rewrite SerializeV2_keys by done. by apply active_keys_sorted.
  - intros Hc. rewrite SerializeV2_keys by done.
    destruct (SerializeV2_shape with_croaring ks) as (bm & -> & Hbm). rewrite Hc in Hbm. subst bm.
    destruct (deserialize_serialize (bitmap_of_keys (active_keys ks))) as (b & Hb & Heq).
    destruct Hfit as (_ & _ & Hsz). do 4 eexists. split; [by apply v2_body_put |].
    split; [apply serialize_nonempty |]. done.
Qed.
End wellformed.

(** ** Properties *)

Section properties.
Context {N : NifEnv} {NL : NifLaws N} {R : Roaring} {RL : RoaringLaws R}.
Variable with_croaring : bool.

Abbreviation FullMerge := (FullMergeV2 with_croaring).
Abbreviation PartialMerge := (PartialMergeMulti with_croaring).

Lemma full_merge_refines_aux existing ops operands :
  alloc_env_ok = true ->
  Forall2 (fun o b => term_to_binary (op_term o) = Some b) ops operands ->
  fits_v2 (merged_keys existing operands) ->
  posting_keys (FullMerge existing operands) = foldl apply_op (existing_keys existing) ops.
Proof.
  intros Henv Hops Hfit. rewrite FullMergeV2_entries.
  rewrite posting_keys_SerializeV2 by (done || apply set_entries_wf; auto with stdmap).
  rewrite (operand_entries_ops ops), set_entries_app by done.
  rewrite state_keys_ops by (apply set_entries_wf; auto with stdmap). f_equal.
  destruct existing as [v|]; [|done]. cbn. unfold posting_keys.
  by rewrite ParseExistingValue_entries.
Qed.

(** C1.  [FullMergeV2] refines the abstract posting list: the keys of the value
    it produces are the keys of the existing value (either format, or none)
    with the decoded operations applied in order, provided the merged keys fit
    the 32-bit fields of the format. *)
Theorem full_merge_refines existing ops operands :
  alloc_env_ok = true ->
  Forall2 (fun o b => term_to_binary (op_term o) = Some b) ops operands ->
  fits_v2 (merged_keys existing operands) ->
  posting_keys (FullMerge existing operands) = foldl apply_op (existing_keys existing) ops.
Proof. apply full_merge_refines_aux. Qed.

(** C17.  Every value the operator writes, by a full or a partial merge, is
    well-formed: version 2, strictly increasing keys, and a bitmap of exactly
    the hashes of its keys. *)
Theorem merge_output_wf existing operands :
  fits_v2 (merged_keys existing operands) ->
  fits_v2 (merged_keys None operands) ->
  wf_v2 with_croaring (FullMerge existing operands) /\
  forall p, PartialMerge operands = Some p -> wf_v2 with_croaring p.
Proof.
  intros H1 H2. split.
  - rewrite FullMergeV2_entries. apply SerializeV2_wf; [|done].
    apply set_entries_wf; auto with stdmap.
  - intros p. unfold PartialMergeMulti. case_match; [done |]. intros; simplify_eq.
    rewrite merge_operands_entries. apply SerializeV2_wf; [|done].
    apply set_entries_wf; auto with stdmap.
Qed.

(** C19.  Merging is incremental: merging a first batch of operands and then a
    second one over the stored result writes the same bytes as one merge of
    both batches. *)
Theorem full_merge_incremental existing l1 l2 :
  fits_v2 (merged_keys existing l1) ->
  FullMerge (Some (FullMerge existing l1)) l2 = FullMerge existing (l1 ++ l2).
Proof.
  intros Hfit. rewrite !FullMergeV2_entries. cbn [existing_entries].
  rewrite SerializeV2_entries by done. fold (merged_keys existing l1).
  apply SerializeV2_ext; [apply set_entries_wf; auto with stdmap.. |]. intros k.
  rewrite bind_app, app_assoc, !(set_entries_app _ _ (l2 ≫= _)).
  rewrite (get_set_entries (set_entries [] ((fun k => (k, false)) <$> _)))
    by (apply set_entries_wf; auto with stdmap).
  rewrite (get_set_entries (set_entries [] (_ ++ _)))
    by (apply set_entries_wf; auto with stdmap).
  destruct (map_get k (set_entries [] (l2 ≫= operand_entries))); [done |].
  rewrite set_entries_lookup.
  unfold merged_keys. case_bool_decide as Hin;
    rewrite elem_of_active_keys in Hin by (apply set_entries_wf; auto with stdmap); naive_solver.
Qed.

(** The merged operands as one V2 operand. *)
Lemma partial_operand_entries operands p :
  PartialMerge operands = Some p -> fits_v2 (merged_keys None operands) ->
  operand_entries p = (fun k => (k, false)) <$> merged_keys None operands.
Proof.
  unfold PartialMergeMulti. case_match; [done |]. intros ? Hfit; simplify_eq.
  unfold operand_entries. rewrite ParseOperand_V2, merge_operands_entries by done.
  by rewrite SerializeV2_entries.
Qed.

Lemma get_merge_partial existing operands p k :
  PartialMerge operands = Some p -> fits_v2 (merged_keys None operands) ->
  map_get k (set_entries [] (existing_entries existing ++ ([p] ≫= operand_entries))) =
  match map_get k (set_entries [] (operands ≫= operand_entries)) with
  | Some false => Some false
  | _ => map_get k (set_entries [] (existing_entries existing))
  end.
Proof.
  intros Hp Hfit. cbn. rewrite app_nil_r, (partial_operand_entries operands p) by done.
  rewrite set_entries_app, get_set_entries by (apply set_entries_wf; auto with stdmap).
  rewrite set_entries_lookup.
  unfold merged_keys. cbn [existing_entries app]. case_bool_decide as Hin;
    rewrite elem_of_active_keys in Hin by (apply set_entries_wf; auto with stdmap).
  - by rewrite Hin.
  - by destruct (map_get k (set_entries [] (operands ≫= operand_entries))) as [[]|].
Qed.

(** C20.  A partial merge is transparent exactly when it hides no live key: if no
    key the operands leave deleted is live in the existing value, merging the
    combined operand writes the same bytes as merging the operands
    themselves. *)
Theorem partial_merge_transparent existing operands p :
  PartialMerge operands = Some p ->
  fits_v2 (merged_keys None operands) ->
  (forall k, map_get k (set_entries [] (operands ≫= operand_entries)) = Some true ->
             k ∉ existing_keys existing) ->
  FullMerge existing [p] = FullMerge existing operands.
Proof.
  intros Hp Hfit Hdel. rewrite !FullMergeV2_entries.
  apply SerializeV2_ext; [apply set_entries_wf; auto with stdmap.. |]. intros k.
  rewrite (get_merge_partial _ operands) by done.
  rewrite set_entries_app, (get_set_entries (set_entries [] (existing_entries existing)))
    by (apply set_entries_wf; auto with stdmap).
  destruct (map_get k (set_entries [] (operands ≫= operand_entries))) as [[]|] eqn:E;
    [|done|done].
  specialize (Hdel k E). split; [|done]. intros Hk. exfalso. apply Hdel.
  destruct existing as [v|]; [|done]. unfold existing_keys, posting_keys.
  rewrite ParseExistingValue_entries.
  by rewrite elem_of_state_keys by (apply set_entries_wf; auto with stdmap).
Qed.

(** A partial merge of operands that delete a key of the stored value loses
    the deletion: merging the combined operand keeps the key, merging the
    operands themselves removes it. *)
Theorem partial_merge_loses_delete v k k2 o1 o2 p :
  alloc_env_ok = true ->
  term_to_binary (op_term (Del k)) = Some o1 ->
  term_to_binary (op_term (Add k2)) = Some o2 ->
  k <> k2 -> k ∈ posting_keys v ->
  PartialMerge [o1; o2] = Some p ->
  fits_v2 (merged_keys None [o1; o2]) ->
  fits_v2 (merged_keys (Some v) [p]) -> fits_v2 (merged_keys (Some v) [o1; o2]) ->
  k ∈ posting_keys (FullMerge (Some v) [p]) /\
  k ∉ posting_keys (FullMerge (Some v) [o1; o2]).
Proof.
  intros Henv Ho1 Ho2 Hne Hk Hp Hf1 Hf2 Hf3.
  assert (Hops : Forall2 (fun o b => term_to_binary (op_term o) = Some b) [Del k; Add k2] [o1; o2])
    by (repeat constructor; done).
  split.
  - rewrite FullMergeV2_entries.
    rewrite posting_keys_SerializeV2 by (done || apply set_entries_wf; auto with stdmap).
    rewrite elem_of_state_keys, (get_merge_partial _ [o1; o2])
      by (done || apply set_entries_wf; auto with stdmap).
    rewrite (operand_entries_ops [Del k; Add k2]) by done. cbn.
    unfold posting_keys in Hk. rewrite ParseExistingValue_entries in Hk.
    apply elem_of_state_keys in Hk; [|apply set_entries_wf; auto with stdmap].
    destruct (bytes_cmp k2 k) eqn:E2; cbn; rewrite ?bytes_cmp_refl;
      destruct (bytes_cmp k k2) eqn:E1; try done; by apply bytes_cmp_eq in E1.
  - rewrite (full_merge_refines_aux (Some v) [Del k; Add k2]) by done. cbn. set_solver.
Qed.
End properties.

(** ** The legacy format *)

(** A V1 value written entry by entry. *)
Definition write_v1 (l : list (bytes * bool)) : bytes :=
  foldl (fun r e => AppendEntryV1 r e.1 e.2) [] l.

Definition v1_record (e : bytes * bool) : bytes := AppendEntryV1 [] e.1 e.2.

Lemma write_v1_records l : write_v1 l = l ≫= v1_record.
Proof.
  unfold write_v1. enough (H : forall r, foldl (fun r e => AppendEntryV1 r e.1 e.2) r l =
                                         r ++ (l ≫= v1_record)) by apply H.
  induction l as [|e l IH]; intros r; cbn; [by rewrite app_nil_r |].
  rewrite IH. unfold AppendEntryV1. by rewrite <- !app_assoc.
Qed.

Lemma v1_scan_records l fuel :
  Forall (fun e => zlen e.1 < 2 ^ 32) l -> (length (l ≫= v1_record) <= fuel)%nat ->
  v1_scan fuel (l ≫= v1_record) = l.
Proof.
  intros Hl. revert fuel. induction Hl as [|[k t] l Hk Hl IH]; intros fuel Hf.
  - by destruct fuel.
  - cbn [fst] in Hk.
    change (((k, t) :: l) ≫= v1_record) with (v1_record (k, t) ++ (l ≫= v1_record)) in *.
    rewrite length_app in Hf. unfold v1_record at 1, AppendEntryV1 in Hf.
    rewrite !length_app in Hf. cbn in Hf. destruct fuel as [|fuel]; [lia |].
    unfold v1_record at 1, AppendEntryV1. rewrite app_nil_l, <- !app_assoc. unfold put_be32.
    cbn [app v1_scan fst snd].
    pose proof (get_put_be32 (u32 (zlen k)) []) as Hbe. unfold put_be32 in Hbe.
    cbn [app get_be32] in Hbe. injection Hbe as Hbe. rewrite Hbe, wrap_idemp, wrap_small by lia.
    rewrite (proj2 (Z.ltb_ge _ _)) by (rewrite length_app; lia).
    rewrite Nat2Z.id, take_app_length, drop_app_length, IH by lia.
    by destruct t.
Qed.

(** The legacy V1 writer and both readers agree: parsing the entries
    written one by one gives back each key with the flag of its last entry,
    and the value is recognized as V1 when its first key is shorter than
    2^25 bytes. *)
Theorem v1_roundtrip l :
  Forall (fun e => zlen e.1 < 2 ^ 32) l ->
  match l with [] => True | e :: _ => zlen e.1 < 2 ^ 25 end ->
  DetectVersion (write_v1 l) = POSTING_LIST_V1 /\
  forall k, map_get k (ParseExistingValue (write_v1 l) []) =
            list_find (fun e => e.1 = k) (rev l) ≫= fun p => Some p.2.2.
Proof.
  intros Hl Hfirst.
  assert (Hv : DetectVersion (write_v1 l) = POSTING_LIST_V1).
  { rewrite write_v1_records. destruct l as [|[k t] l]; [done |]. cbn [fst] in Hfirst.
    cbn. rewrite byte_land_255, byte_val_of_Z, Z.shiftr_div_pow2, wrap_small by lia.
    rewrite Z.mod_small; rewrite Z.div_small_iff || idtac.
    all: change (2 ^ 24) with 16777216; change (2 ^ 25) with 33554432 in Hfirst.
    all: Z.div_mod_to_equations; try lia.
    rewrite (proj2 (Z.eqb_neq _ _)); [done |]. unfold POSTING_LIST_V2. lia. }
  split; [done |]. intros k. rewrite ParseExistingValue_entries. unfold value_entries.
  rewrite Hv. cbn [Z.eqb]. change (POSTING_LIST_V1 =? POSTING_LIST_V2) with false. cbn iota.
  unfold v1_entries. rewrite write_v1_records, v1_scan_records by done.
  clear. induction l as [|e l IH] using rev_ind; [done |].
  rewrite set_entries_app, rev_app_distr. cbn.
  rewrite map_get_set by (apply set_entries_wf; auto with stdmap).
  destruct (decide (e.1 = k)) as [<- | Hne].
  - rewrite decide_True by done. done.
  - rewrite decide_False by congruence. rewrite IH.
    by destruct (list_find (fun e => e.1 = k) (rev l)) as [[? ?]|].
Qed.

(** ** Witnesses: a posting list over the concrete runtime and bitmap *)

Module PostingMergeWitness.
#[local] Existing Instances etf_env etf_laws list_roaring list_roaring_laws.

Definition doc1 : bytes := [Byte.x64; Byte.x31].
Definition doc2 : bytes := [Byte.x64; Byte.x32].
Definition doc3 : bytes := [Byte.x64; Byte.x33; Byte.x33; Byte.x33; Byte.x33; Byte.x33; Byte.x33;
                            Byte.x33; Byte.x33; Byte.x33].
Definition operand (o : op) : bytes := match etf_encode (op_term o) with Some b => b | None => [] end.

(** A V1 value: [doc1] live, [doc2] deleted. *)
Definition stored_v1 : bytes := AppendEntryV1 (AppendEntryV1 [] doc1 false) doc2 true.

Ltac fits := apply fits_v2b_true; vm_compute; reflexivity.
Ltac encodes := repeat first [apply List.Forall2_nil | apply List.Forall2_cons]; vm_compute; reflexivity.

Lemma v1_roundtrip_witness :
  DetectVersion (write_v1 [(doc1, false); (doc2, true); (doc1, true)]) = POSTING_LIST_V1 /\
  forall k, map_get k (ParseExistingValue (write_v1 [(doc1, false); (doc2, true); (doc1, true)]) []) =
            list_find (fun e => e.1 = k) (rev [(doc1, false); (doc2, true); (doc1, true)])
              ≫= fun p => Some p.2.2.
Proof.
  apply (v1_roundtrip [(doc1, false); (doc2, true); (doc1, true)]).
  - repeat constructor.
  - reflexivity.
Defined.

Lemma full_merge_refines_witness :
  posting_keys (FullMergeV2 true (Some stored_v1)
                  [operand (Add doc3); operand (Add doc2); operand (Del doc1)]) =
  foldl apply_op (existing_keys (Some stored_v1)) [Add doc3; Add doc2; Del doc1].
Proof.
  apply (full_merge_refines true (Some stored_v1) [Add doc3; Add doc2; Del doc1]).
  - reflexivity.
  - encodes.
  - fits.
Defined.

Lemma merge_output_wf_witness :
  wf_v2 true (FullMergeV2 true (Some stored_v1) [operand (Add doc3); operand (Del doc1)]) /\
  forall p, PartialMergeMulti true [operand (Add doc3); operand (Del doc1)] = Some p -> wf_v2 true p.
Proof. apply (merge_output_wf true (Some stored_v1)); fits. Defined.

Lemma full_merge_incremental_witness :
  FullMergeV2 true (Some (FullMergeV2 true (Some stored_v1) [operand (Add doc3)])) [operand (Del doc1)] =
  FullMergeV2 true (Some stored_v1) ([operand (Add doc3)] ++ [operand (Del doc1)]).
Proof. apply (full_merge_incremental true (Some stored_v1)); fits. Defined.

Lemma partial_merge_transparent_witness :
  exists p, PartialMergeMulti true [operand (Add doc3); operand (Del doc2)] = Some p /\
  FullMergeV2 true (Some stored_v1) [p] =
  FullMergeV2 true (Some stored_v1) [operand (Add doc3); operand (Del doc2)].
Proof.
  eexists. split; [reflexivity |].
  apply (partial_merge_transparent true (Some stored_v1)).
  - reflexivity.
  - fits.
  - intros k Hk. vm_compute in Hk.
    assert (Hd : k = doc2).
    { apply bytes_cmp_eq. change (bytes_cmp k doc2 = Eq).
      destruct (bytes_cmp k doc2) eqn:E; [done | |]; exfalso;
        revert Hk; unfold doc2 in E; vm_compute in E; rewrite E; by repeat case_match. }
    subst k. by vm_compute.
Defined.

Lemma partial_merge_loses_delete_witness :
  exists p, PartialMergeMulti true [operand (Del doc1); operand (Add doc3)] = Some p /\
  doc1 ∈ posting_keys (FullMergeV2 true (Some stored_v1) [p]) /\
  doc1 ∉ posting_keys (FullMergeV2 true (Some stored_v1) [operand (Del doc1); operand (Add doc3)]).
Proof.
  eexists. split; [reflexivity |].
  apply (partial_merge_loses_delete true stored_v1 doc1 doc3).
  - reflexivity.
  - reflexivity.
  - reflexivity.
  - done.
  - apply elem_of_list_to_set, list_elem_of_here.
  - reflexivity.
  - fits.
  - fits.
  - fits.
Defined.
End PostingMergeWitness.
