(* ===== verification/PostingNif.v ===== *)
(** * Posting-list native functions

    [c_src/posting_list_nif.cc]: the second copy of the parsers, the binary
    search over a V2 value, the [posting_list_*] functions on binaries and the
    [postings_*] functions on parsed resources.

    A native function takes its [argv]; those that allocate a resource pass the
    heap of live resources. *)

From stdpp Require Import base sets gmap list numbers strings sorting.
From Stdlib Require Import ZArith Lia.
From S2P Require Import Prelude StdMap Terms Etf Roaring PostingHash PostingMerge.

Section nif.
Context {N : NifEnv} {R : Roaring}.
Variable with_croaring : bool.

(** ** Parsers *)

Definition hash_key (key : bytes) : Z :=
  let h := 0x9e3779b97f4a7c15 in
  let len := length key in
  let nblocks := (len / 8)%nat in
  let h := hash_blocks nblocks key h in
  let tail := drop (nblocks * 8) key in
  let r := (len mod 8)%nat in
  let h := match r with O => h | _ => Z.lxor h (fmix64 (hash_tail r tail 0)) end in
  fmix64 (Z.lxor h (u64 (Z.of_nat len))).

Definition detect_version (data : bytes) : Z :=
  match data with
  | [] => POSTING_LIST_V1
  | b :: _ => if byte_val b =? POSTING_LIST_V2 then POSTING_LIST_V2 else POSTING_LIST_V1
  end.

(** The loop that fills [states]; it also appears in [PostingListFind] and
    [PostingListToMap]. *)
Fixpoint v1_states_loop (fuel : nat) (ptr : bytes) (states : smap bool) : smap bool :=
  match fuel with
  | O => states
  | S fuel =>
      match ptr with
      | b0 :: b1 :: b2 :: b3 :: flag :: ptr =>
          let len := be32 b0 b1 b2 b3 in
          let is_tombstone := negb (byte_val flag =? 0) in
          if zlen ptr <? len then states
          else v1_states_loop fuel (drop (Z.to_nat len) ptr)
                 (map_set (take (Z.to_nat len) ptr) is_tombstone states)
      | _ => states
      end
  end.

Definition v1_states (data : bytes) : smap bool := v1_states_loop (length data) data [].

Definition parse_posting_list_v1 (data : bytes) : sset :=
  foldl (fun result e => if e.2 : bool then result else set_insert e.1 result) []
        (v1_states data).

Fixpoint parse_v2_loop (fuel : nat) (n : Z) (ptr : bytes) (result : sset) : sset :=
  match fuel with
  | O => result
  | S fuel =>
      if n <=? 0 then result
      else match get_be32 ptr with
           | None => result
           | Some (len, ptr) =>
               if zlen ptr <? len then result
               else parse_v2_loop fuel (n - 1) (drop (Z.to_nat len) ptr)
                      (set_insert (take (Z.to_nat len) ptr) result)
           end
  end.

Definition parse_posting_list_v2 (data : bytes) : sset :=
  match data with
  | [] => []
  | _version :: ptr =>
      match get_be32 ptr with
      | None => []
      | Some (bitmap_size, ptr) =>
          if zlen ptr <? bitmap_size then []
          else match get_be32 (drop (Z.to_nat bitmap_size) ptr) with
               | None => []
               | Some (key_count, ptr) => parse_v2_loop (length ptr) key_count ptr []
               end
      end
  end.

Definition parse_posting_list (data : bytes) : sset :=
  if detect_version data =? POSTING_LIST_V2
  then parse_posting_list_v2 data else parse_posting_list_v1 data.

(** [None] is the null pointer. *)
Definition extract_bitmap_v2 (data : bytes) : option bitmap :=
  if negb (detect_version data =? POSTING_LIST_V2) then None
  else match data with
       | [] => None
       | _version :: ptr =>
           match get_be32 ptr with
           | None => None
           | Some (bitmap_size, ptr) =>
               if bitmap_size =? 0 then None
               else if zlen ptr <? bitmap_size then None
               else bitmap_deserialize_safe (take (Z.to_nat bitmap_size) ptr)
           end
       end.

Definition build_bitmap_from_keys (keys : sset) : bitmap :=
  foldl (fun b k => bitmap_add b (hash_key k)) bitmap_create (set_elems keys).

Definition serialize_v2 (keys : sset) : bytes :=
  let elems := set_elems keys in
  let header :=
    if with_croaring then
      let bm := foldl (fun b k => bitmap_add b (hash_key k)) bitmap_create elems in
      let bitmap_data := bitmap_serialize bm in
      Byte.x02 :: put_be32 (u32 (zlen bitmap_data)) ++ bitmap_data
    else [Byte.x02; Byte.x00; Byte.x00; Byte.x00; Byte.x00] in
  header ++ put_be32 (u32 (zlen elems)) ++ (elems ≫= put_key).

(** ** Binary search in the keys section *)

(** [memcmp] of the common prefix, then the lengths. *)
Definition key_cmp (key search : bytes) : comparison :=
  let cmp_len := Nat.min (length key) (length search) in
  match bytes_cmp (take cmp_len key) (take cmp_len search) with
  | Eq => Nat.compare (length key) (length search)
  | c => c
  end.

(** The loop that records pointer and length of every key. *)
Fixpoint key_offsets_loop (fuel : nat) (n : Z) (scan : bytes) : list bytes :=
  match fuel with
  | O => []
  | S fuel =>
      if n <=? 0 then []
      else match get_be32 scan with
           | None => []
           | Some (len, scan) =>
               if zlen scan <? len then []
               else take (Z.to_nat len) scan
                    :: key_offsets_loop fuel (n - 1) (drop (Z.to_nat len) scan)
           end
  end.

(** [while (lo < hi)]; each iteration shrinks [hi - lo]. *)
Fixpoint search_loop (fuel : nat) (key_offsets : list bytes) (search : bytes) (lo hi : nat) : bool :=
  match fuel with
  | O => false
  | S fuel =>
      if (lo <? hi)%nat then
        let mid := (lo + (hi - lo) / 2)%nat in
        match key_offsets !! mid with
        | None => false
        | Some key =>
            match key_cmp key search with
            | Eq => true
            | Lt => search_loop fuel key_offsets search (mid + 1) hi
            | Gt => search_loop fuel key_offsets search lo mid
            end
        end
      else false
  end.

Definition binary_search_v2_keys (data search : bytes) : bool :=
  match data with
  | [] => false
  | b :: ptr =>
      if negb (byte_val b =? POSTING_LIST_V2) then false
      else match get_be32 ptr with
           | None => false
           | Some (bitmap_size, ptr) =>
               if zlen ptr <? bitmap_size + 4 then false       (* ptr + 4 > end *)
               else match get_be32 (drop (Z.to_nat bitmap_size) ptr) with
                    | None => false
                    | Some (key_count, ptr) =>
                        if key_count =? 0 then false
                        else
                          let key_offsets := key_offsets_loop (length ptr) key_count ptr in
                          search_loop (length key_offsets) key_offsets search 0 (length key_offsets)
                    end
           end
  end.

(** ** Functions on binaries *)

Definition atom_bool (b : bool) : term := if b then ATOM_TRUE else ATOM_FALSE.

(** Cons the keys, given in reverse order, onto a list. *)
Fixpoint build_key_list (rkeys : list bytes) (acc : term) : reply :=
  match rkeys with
  | [] => Reply acc
  | k :: r =>
      match make_new_binary k with
      | None => Badarg
      | Some key_bin => build_key_list r (Tcons key_bin acc)
      end
  end.

Definition PostingListKeys (argv : list term) : reply :=
  match argv with
  | [a] =>
      match enif_inspect_binary a with
      | None => Badarg
      | Some bin => build_key_list (rev (set_elems (parse_posting_list bin))) Tnil
      end
  | _ => Badarg
  end.

Definition PostingListContains (argv : list term) : reply :=
  match argv with
  | [a; b] =>
      match enif_inspect_binary a, enif_inspect_binary b with
      | Some bin, Some search_key =>
          if detect_version bin =? POSTING_LIST_V2
          then Reply (atom_bool (binary_search_v2_keys bin search_key))
          else Reply (atom_bool (set_count search_key (parse_posting_list_v1 bin)))
      | _, _ => Badarg
      end
  | _ => Badarg
  end.

Definition PostingListFind (argv : list term) : reply :=
  match argv with
  | [a; b] =>
      match enif_inspect_binary a, enif_inspect_binary b with
      | Some bin, Some key_str =>
          if detect_version bin =? POSTING_LIST_V2 then
            if set_count key_str (parse_posting_list_v2 bin)
            then Reply (Ttuple [ATOM_OK; ATOM_FALSE]) else Reply ATOM_NOT_FOUND
          else
            match map_get key_str (v1_states bin) with
            | None => Reply ATOM_NOT_FOUND
            | Some is_tombstone => Reply (Ttuple [ATOM_OK; atom_bool is_tombstone])
            end
      | _, _ => Badarg
      end
  | _ => Badarg
  end.

Definition PostingListCount (argv : list term) : reply :=
  match argv with
  | [a] =>
      match enif_inspect_binary a with
      | None => Badarg
      | Some bin => Reply (Tint (zlen (parse_posting_list bin)))
      end
  | _ => Badarg
  end.

(** The loop of [enif_make_map_put]. *)
Fixpoint build_map (l : list (bytes * bool)) (m : list (term * term)) : reply :=
  match l with
  | [] => Reply (Tmap m)
  | (key, is_tombstone) :: r =>
      match make_new_binary key with
      | None => Badarg
      | Some _ => build_map r (map_put key (if is_tombstone : bool then ATOM_TOMBSTONE else ATOM_ACTIVE) m)
      end
  end.

Definition PostingListToMap (argv : list term) : reply :=
  match argv with
  | [a] =>
      match enif_inspect_binary a with
      | None => Badarg
      | Some bin =>
          if detect_version bin =? POSTING_LIST_V2
          then build_map ((fun k => (k, false)) <$> set_elems (parse_posting_list_v2 bin)) []
          else build_map (v1_states bin) []
      end
  | _ => Badarg
  end.

Definition PostingListVersion (argv : list term) : reply :=
  match argv with
  | [a] =>
      match enif_inspect_binary a with
      | None => Badarg
      | Some bin => Reply (Tint (detect_version bin))
      end
  | _ => Badarg
  end.

(** Both arguments of the binary set operations. *)
Definition two_binaries (argv : list term) : option (bytes * bytes) :=
  match argv with
  | [a; b] =>
      match enif_inspect_binary a, enif_inspect_binary b with
      | Some x, Some y => Some (x, y)
      | _, _ => None
      end
  | _ => None
  end.

Definition binary_reply (output : bytes) : reply :=
  match make_new_binary output with None => Badarg | Some t => Reply t end.

(** The loops that compute the three set operations. *)
Definition intersect_keys (keys1 keys2 : sset) : sset :=
  foldl (fun r k => if set_count k keys2 then set_insert k r else r) [] (set_elems keys1).

Definition unite_keys (keys1 keys2 : sset) : sset :=
  foldl (fun r k => set_insert k r) keys1 (set_elems keys2).

Definition subtract_keys (keys1 keys2 : sset) : sset :=
  foldl (fun r k => if set_count k keys2 then r else set_insert k r) [] (set_elems keys1).

Definition PostingListIntersection (argv : list term) : reply :=
  match two_binaries argv with
  | None => Badarg
  | Some (bin1, bin2) =>
      let keys1 := parse_posting_list bin1 in
      let keys2 := parse_posting_list bin2 in
      binary_reply (serialize_v2 (intersect_keys keys1 keys2))
  end.

Definition PostingListUnion (argv : list term) : reply :=
  match two_binaries argv with
  | None => Badarg
  | Some (bin1, bin2) =>
      let keys1 := parse_posting_list bin1 in
      let keys2 := parse_posting_list bin2 in
      binary_reply (serialize_v2 (unite_keys keys1 keys2))
  end.

Definition PostingListDifference (argv : list term) : reply :=
  match two_binaries argv with
  | None => Badarg
  | Some (bin1, bin2) =>
      let keys1 := parse_posting_list bin1 in
      let keys2 := parse_posting_list bin2 in
      binary_reply (serialize_v2 (subtract_keys keys1 keys2))
  end.

(** The exact count of the fallback path. *)
Definition count_common (keys1 keys2 : sset) : Z :=
  foldl (fun c k => if set_count k keys2 then c + 1 else c) 0 (set_elems keys1).

Definition PostingListIntersectionCount (argv : list term) : reply :=
  match two_binaries argv with
  | None => Badarg
  | Some (bin1, bin2) =>
      let fallback := Reply (Tint (count_common (parse_posting_list bin1) (parse_posting_list bin2))) in
      if with_croaring && (detect_version bin1 =? POSTING_LIST_V2)
         && (detect_version bin2 =? POSTING_LIST_V2)
      then match extract_bitmap_v2 bin1, extract_bitmap_v2 bin2 with
           | Some bitmap1, Some bitmap2 => Reply (Tint (bitmap_and_cardinality bitmap1 bitmap2))
           | _, _ => fallback
           end
      else fallback
  end.

Definition PostingListBitmapContains (argv : list term) : reply :=
  match two_binaries argv with
  | None => Badarg
  | Some (bin, key_str) =>
      let fallback := Reply (atom_bool (set_count key_str (parse_posting_list bin))) in
      if with_croaring && (detect_version bin =? POSTING_LIST_V2)
      then match extract_bitmap_v2 bin with
           | Some bm => Reply (atom_bool (bitmap_contains bm (hash_key key_str)))
           | None => fallback
           end
      else fallback
  end.

(** ** Parsed resources *)

Record PostingListResource := {
  keys : sset;
  sorted_keys : list bytes;
  res_bitmap : option bitmap;
}.

Abbreviation heap := (gmap nat PostingListResource).

(** [posting_list_resource_dtor]: the resource is gone once collected. *)
Definition posting_list_resource_dtor (h : heap) (id : nat) : heap := delete id h.

Definition PostingsOpen (h : heap) (argv : list term) : heap * reply :=
  match argv with
  | [a] =>
      match enif_inspect_binary a with
      | None => (h, Badarg)
      | Some bin =>
          if negb alloc_resource_ok
          then (h, Reply (Ttuple [ATOM_ERROR; Tatom "alloc_failed"]))
          else
            let ks := parse_posting_list bin in
            let bm :=
              if with_croaring then
                let b := if detect_version bin =? POSTING_LIST_V2
                         then extract_bitmap_v2 bin else None in
                match b with Some b => Some b | None => Some (build_bitmap_from_keys ks) end
              else None in
            let id := fresh (dom h) in
            (<[id := {| keys := ks; sorted_keys := set_elems ks; res_bitmap := bm |}]> h,
             Reply (Ttuple [ATOM_OK; Tres RPostings id]))
      end
  | _ => (h, Badarg)
  end.

(** [enif_get_resource(env, argv[0], posting_list_resource_type, &res)] *)
Definition get_postings (h : heap) (t : term) : option PostingListResource :=
  match enif_get_resource RPostings t with Some id => h !! id | None => None end.

Definition PostingsContains (h : heap) (argv : list term) : reply :=
  match argv with
  | [a; b] =>
      match get_postings h a, enif_inspect_binary b with
      | Some res, Some key_str => Reply (atom_bool (set_count key_str (keys res)))
      | _, _ => Badarg
      end
  | _ => Badarg
  end.

Definition PostingsBitmapContains (h : heap) (argv : list term) : reply :=
  match argv with
  | [a; b] =>
      match get_postings h a, enif_inspect_binary b with
      | Some res, Some key_str =>
          let fallback := Reply (atom_bool (set_count key_str (keys res))) in
          if with_croaring then
            match res_bitmap res with
            | Some bm => Reply (atom_bool (bitmap_contains bm (hash_key key_str)))
            | None => fallback
            end
          else fallback
      | _, _ => Badarg
      end
  | _ => Badarg
  end.

Definition PostingsCount (h : heap) (argv : list term) : reply :=
  match argv with
  | [a] =>
      match get_postings h a with
      | Some res => Reply (Tint (zlen (keys res)))
      | None => Badarg
      end
  | _ => Badarg
  end.

Definition PostingsKeys (h : heap) (argv : list term) : reply :=
  match argv with
  | [a] =>
      match get_postings h a with
      | Some res => build_key_list (rev (set_elems (keys res))) Tnil
      | None => Badarg
      end
  | _ => Badarg
  end.

Definition PostingsToBinary (h : heap) (argv : list term) : reply :=
  match argv with
  | [a] =>
      match get_postings h a with
      | Some res => binary_reply (serialize_v2 (keys res))
      | None => Badarg
      end
  | _ => Badarg
  end.
End nif.

(** ** The two parsers agree *)

Lemma hash_key_HashKey k : hash_key k = HashKey k.
Proof. reflexivity. Qed.

Lemma detect_version_DetectVersion v : detect_version v = DetectVersion v.
Proof. reflexivity. Qed.

Lemma v1_states_entries v : v1_states v = set_entries [] (v1_entries v).
Proof.
  unfold v1_states, v1_entries. generalize (@nil (bytes * bool)) as ks.
  generalize (length v) as fuel. intros fuel. revert v.
  induction fuel as [|fuel IH]; intros v ks; cbn; [done |].
  destruct v as [|b0 [|b1 [|b2 [|b3 [|fl r]]]]]; try done.
  case_match; [done |]. by rewrite IH.
Qed.

Lemma parse_v2_loop_scan fuel n ptr s :
  parse_v2_loop fuel n ptr s = foldl (fun s k => set_insert k s) s (key_scan fuel n ptr).
Proof.
  revert n ptr s. induction fuel as [|fuel IH]; intros n ptr s; cbn; [done |].
  destruct (n <=? 0); [done |]. destruct (get_be32 ptr) as [[len r]|]; [|done].
  case_match; [done |]. by rewrite IH.
Qed.

Lemma parse_v2_keys v : parse_posting_list_v2 v = set_of_list (v2_keys v).
Proof.
  unfold parse_posting_list_v2, v2_keys, v2_body. destruct v as [|b v]; [done |].
  destruct (get_be32 v) as [[bs r]|]; [|done]. case_match; [done |].
  destruct (get_be32 (drop (Z.to_nat bs) r)) as [[n r']|]; [|done].
  apply parse_v2_loop_scan.
Qed.

Lemma fold_active ks s :
  foldl (fun r e => if e.2 : bool then r else set_insert e.1 r) s ks =
  foldl (fun s k => set_insert k s) s (active_keys ks).
Proof.
  unfold active_keys. revert s. induction ks as [|[k t] ks IH]; intros s; [done |].
  destruct t; [rewrite filter_cons_False by done | rewrite filter_cons_True by done]; apply IH.
Qed.

Lemma parse_count_spec v k :
  set_count k (parse_posting_list v) = bool_decide (k ∈ posting_keys v).
Proof.
  assert (Hwf : map_wf (set_entries [] (value_entries v)))
    by (apply set_entries_wf; auto with stdmap).
  unfold posting_keys. rewrite ParseExistingValue_entries.
  rewrite (bool_decide_ext _ _ (elem_of_state_keys _ k Hwf)).
  unfold parse_posting_list. rewrite detect_version_DetectVersion.
  unfold value_entries in *. case_match.
  - rewrite parse_v2_keys, set_count_of_list, set_entries_lookup. by repeat case_bool_decide.
  - unfold parse_posting_list_v1. rewrite fold_active, v1_states_entries.
    change (foldl _ [] ?l) with (set_of_list l). rewrite set_count_of_list.
    by rewrite (bool_decide_ext _ _ (elem_of_active_keys _ k Hwf)).
Qed.

Lemma parse_wf v : map_wf (parse_posting_list v).
Proof.
  unfold parse_posting_list. case_match.
  - rewrite parse_v2_keys. apply set_of_list_wf.
  - unfold parse_posting_list_v1. rewrite fold_active. apply set_of_list_wf.
Qed.

Lemma parse_elems v :
  set_elems (parse_posting_list v) = active_keys (ParseExistingValue v []).
Proof.
  assert (Hwf : map_wf (ParseExistingValue v []))
    by (rewrite ParseExistingValue_entries; apply set_entries_wf; auto with stdmap).
  apply sorted_keys_ext; [apply parse_wf | by apply active_keys_sorted |]. intros k.
  rewrite <- set_count_elem, parse_count_spec, bool_decide_eq_true.
  unfold posting_keys, state_keys. by rewrite elem_of_list_to_set.
Qed.

(** ** The binary search *)

Lemma key_cmp_bytes_cmp a b : key_cmp a b = bytes_cmp a b.
Proof.
  unfold key_cmp. revert b. induction a as [|x a IH]; intros [|y b]; cbn; try done.
  by destruct (byte_val x ?= byte_val y).
Qed.

Lemma key_offsets_scan fuel n s : key_offsets_loop fuel n s = key_scan fuel n s.
Proof.
  revert n s. induction fuel as [|fuel IH]; intros n s; cbn; [done |].
  destruct (n <=? 0); [done |]. destruct (get_be32 s) as [[len r]|]; [|done].
  case_match; [done |]. by rewrite IH.
Qed.

Section search.
Variables (l : list bytes) (search : bytes).
Hypothesis l_sorted : StronglySorted bytes_lt l.

(** Everything left of [lo] is smaller than the key, everything from [hi] on
    is larger. *)
Definition bracketed (lo hi : nat) : Prop :=
  (forall i k, l !! i = Some k -> (i < lo)%nat -> bytes_lt k search) /\
  (forall i k, l !! i = Some k -> (hi <= i)%nat -> bytes_lt search k).

Lemma bracketed_empty lo hi : bracketed lo hi -> (hi <= lo)%nat -> search ∉ l.
Proof.
  intros [Hl Hr] Hle [i Hi]%list_elem_of_lookup.
  destruct (decide (i < lo)%nat) as [Hlt | Hge].
  - apply (irreflexivity bytes_lt search). eauto.
  - apply (irreflexivity bytes_lt search). eapply Hr; [done | lia].
Qed.

Lemma bracketed_right mid lo hi k :
  bracketed lo hi -> l !! mid = Some k -> bytes_lt k search -> bracketed (mid + 1) hi.
Proof.
  intros [_ Hr] Hk Hlt. split; [|done]. intros i k' Hi Hle.
  destruct (decide (i = mid)) as [-> |]; [by simplify_eq |].
  transitivity k; [|done]. eapply sorted_lookup_lt; [done.. | lia].
Qed.

Lemma bracketed_left mid lo hi k :
  bracketed lo hi -> l !! mid = Some k -> bytes_lt search k -> bracketed lo mid.
Proof.
  intros [Hl _] Hk Hlt. split; [done |]. intros i k' Hi Hle.
  destruct (decide (i = mid)) as [-> |]; [by simplify_eq |].
  transitivity k; [done |]. eapply sorted_lookup_lt; [done.. | lia].
Qed.

Lemma search_loop_spec fuel lo hi :
  bracketed lo hi -> (hi <= length l)%nat -> (hi - lo <= fuel)%nat ->
  search_loop fuel l search lo hi = bool_decide (search ∈ l).
Proof.
  revert lo hi. induction fuel as [|fuel IH]; intros lo hi Hb Hhi Hf; cbn [search_loop].
  - rewrite bool_decide_eq_false_2; [done |]. eapply bracketed_empty; [done | lia].
  - destruct (Nat.ltb_spec lo hi) as [Hlt | Hge].
    2: { rewrite bool_decide_eq_false_2; [done |]. by eapply bracketed_empty. }
    assert ((hi - lo) / 2 < hi - lo)%nat by (apply Nat.div_lt; lia).
    destruct (lookup_lt_is_Some_2 l (lo + (hi - lo) / 2)) as [k Hk]; [lia |].
    rewrite Hk, key_cmp_bytes_cmp. destruct (bytes_cmp k search) eqn:E.
    + apply bytes_cmp_eq in E as <-. rewrite bool_decide_eq_true_2; [done |].
      by eapply list_elem_of_lookup_2.
    + apply IH; [by eapply bracketed_right | lia..].
    + apply bytes_cmp_gt in E. apply IH; [by eapply bracketed_left | lia..].
Qed.
End search.

Lemma binary_search_spec v k :
  DetectVersion v = POSTING_LIST_V2 -> StronglySorted bytes_lt (v2_keys v) ->
  binary_search_v2_keys v k = bool_decide (k ∈ v2_keys v).
Proof.
  intros Hv Hs. unfold binary_search_v2_keys, v2_keys, v2_body in *.
  assert (Hno : false = bool_decide (k ∈ @nil bytes))
    by (symmetry; apply bool_decide_eq_false_2; set_solver).
  destruct v as [|b v]; [done |]. cbn in Hv. destruct (byte_val b =? _); [|done]. cbn [negb].
  destruct (get_be32 v) as [[bs r]|]; [|exact Hno].
  destruct (Z.ltb_spec (zlen r) (bs + 4)) as [Hlt | Hge].
  - destruct (Z.ltb_spec (zlen r) bs); [exact Hno |].
    rewrite (proj2 (get_be32_None _)); [exact Hno |]. rewrite length_drop. lia.
  - rewrite (proj2 (Z.ltb_ge _ _)) in * by lia.
    destruct (get_be32 (drop (Z.to_nat bs) r)) as [[n r']|] eqn:E; [|exact Hno].
    rewrite key_offsets_scan.
    destruct (Z.eqb_spec n 0) as [-> | Hn]; [by destruct (length r') |].
    apply search_loop_spec; [done | | lia | lia]. split.
    + lia.
    + intros i x Hi Hle. apply lookup_lt_Some in Hi. lia.
Qed.

(** ** Serialization and set operations *)

Lemma serialize_v2_SerializeV2 `{Roaring} wc s :
  serialize_v2 wc s = SerializeV2 wc ((fun k => (k, false)) <$> set_elems s).
Proof. unfold serialize_v2, SerializeV2. by rewrite active_keys_false. Qed.

Lemma false_states_wf s : map_wf s -> map_wf ((fun k => (k, false)) <$> set_elems s).
Proof. unfold map_wf, set_elems. by rewrite <- list_fmap_compose, list_fmap_id. Qed.

Lemma serialize_v2_keys `{Roaring} wc s :
  map_wf s -> fits_v2 (set_elems s) ->
  posting_keys (serialize_v2 wc s) = list_to_set (set_elems s).
Proof.
  intros Hs Hf. rewrite serialize_v2_SerializeV2.
  rewrite posting_keys_SerializeV2; [|by apply false_states_wf | by rewrite active_keys_false].
  unfold state_keys. by rewrite active_keys_false.
Qed.

Lemma serialize_v2_wf `{RL : !RoaringLaws R} wc s :
  map_wf s -> fits_v2 (set_elems s) -> wf_v2 wc (serialize_v2 wc s).
Proof.
  intros Hs Hf. rewrite serialize_v2_SerializeV2.
  apply SerializeV2_wf; [by apply false_states_wf | by rewrite active_keys_false].
Qed.

Lemma fold_insert_if (P : bytes -> bool) l s :
  map_wf s ->
  map_wf (foldl (fun r k => if P k then set_insert k r else r) s l) /\
  forall k, set_count k (foldl (fun r k => if P k then set_insert k r else r) s l) =
            bool_decide (k ∈ l) && P k || set_count k s.
Proof.
  revert s. induction l as [|x l IH]; intros s Hs; cbn; [done |].
  destruct (P x) eqn:EP.
  - destruct (IH (set_insert x s)) as [Hw Hc]; [by apply map_set_wf |]. split; [done |].
    intros k. rewrite Hc, set_count_insert by done.
    rewrite (bool_decide_ext (k ∈ x :: l) (k ∈ l \/ k = x)) by set_solver.
    rewrite bool_decide_or.
    destruct (P k) eqn:EPk; repeat case_bool_decide; cbn; congruence.
  - destruct (IH s Hs) as [Hw Hc]. split; [done |]. intros k. rewrite Hc.
    rewrite (bool_decide_ext (k ∈ x :: l) (k ∈ l \/ k = x)) by set_solver.
    rewrite bool_decide_or.
    destruct (P k) eqn:EPk; repeat case_bool_decide; cbn; congruence.
Qed.

Lemma subtract_as_insert_if keys1 keys2 :
  subtract_keys keys1 keys2 =
  foldl (fun r k => if negb (set_count k keys2) then set_insert k r else r) [] (set_elems keys1).
Proof.
  unfold subtract_keys. generalize (@nil (bytes * unit)) as s.
  induction (set_elems keys1) as [|x l IH]; intros s; cbn; [done |].
  destruct (set_count x keys2); apply IH.
Qed.

Lemma count_intersect keys1 keys2 k :
  set_count k (intersect_keys keys1 keys2) = set_count k keys1 && set_count k keys2.
Proof.
  unfold intersect_keys. rewrite (proj2 (fold_insert_if _ _ [] map_wf_nil)). cbn.
  rewrite orb_false_r. f_equal. apply eq_true_iff_eq.
  by rewrite bool_decide_eq_true, set_count_elem.
Qed.

Lemma count_unite keys1 keys2 k :
  map_wf keys1 -> set_count k (unite_keys keys1 keys2) = set_count k keys1 || set_count k keys2.
Proof.
  intros Hw. unfold unite_keys. rewrite (proj2 (set_fold_insert _ _ Hw)).
  rewrite orb_comm. f_equal. apply eq_true_iff_eq.
  by rewrite bool_decide_eq_true, set_count_elem.
Qed.

Lemma count_subtract keys1 keys2 k :
  set_count k (subtract_keys keys1 keys2) = set_count k keys1 && negb (set_count k keys2).
Proof.
  rewrite subtract_as_insert_if, (proj2 (fold_insert_if _ _ [] map_wf_nil)). cbn.
  rewrite orb_false_r. f_equal. apply eq_true_iff_eq.
  by rewrite bool_decide_eq_true, set_count_elem.
Qed.

Lemma set_op_wf keys1 keys2 :
  map_wf keys1 -> map_wf (intersect_keys keys1 keys2) /\ map_wf (unite_keys keys1 keys2) /\
  map_wf (subtract_keys keys1 keys2).
Proof.
  intros H1. split_and!.
  - apply (fold_insert_if _ _ [] map_wf_nil).
  - by apply set_fold_insert.
  - rewrite subtract_as_insert_if. apply (fold_insert_if _ _ [] map_wf_nil).
Qed.

Lemma set_elems_to_set (s : sset) (X : gset bytes) :
  (forall k : bytes, set_count k s = bool_decide (k ∈ X)) -> list_to_set (set_elems s) = X.
Proof.
  intros Hc. apply set_eq. intros k.
  by rewrite elem_of_list_to_set, <- set_count_elem, Hc, bool_decide_eq_true.
Qed.

Lemma parse_set v : list_to_set (set_elems (parse_posting_list v)) = posting_keys v.
Proof. apply set_elems_to_set. intros. apply parse_count_spec. Qed.

Lemma build_key_list_ok `{NifEnv} rkeys acc :
  (forall n, new_binary_ok n = true) ->
  build_key_list rkeys (make_list acc) = Reply (make_list ((Tbin <$> rev rkeys) ++ acc)).
Proof.
  intros Hok. revert acc. induction rkeys as [|k r IH]; intros acc; cbn; [done |].
  unfold make_new_binary. rewrite Hok.
  change (Tcons (Tbin k) (make_list acc)) with (make_list (Tbin k :: acc)).
  rewrite IH. by rewrite fmap_app, <- app_assoc.
Qed.

Lemma extract_bitmap_wf `{RL : !RoaringLaws R} v :
  wf_v2 true v -> exists b, extract_bitmap_v2 v = Some b /\
    bitmap_equiv b (bitmap_of_keys (v2_keys v)).
Proof.
  intros [Hv Hs Hb]. destruct (Hb eq_refl) as (bm & n & r & b & Hbody & Hne & Hdes & Heq).
  exists b. split; [|done]. unfold extract_bitmap_v2. rewrite detect_version_DetectVersion, Hv.
  cbn. unfold v2_body in Hbody. destruct v as [|x v]; [done |].
  destruct (get_be32 v) as [[bs s]|] eqn:E; [|done].
  destruct (Z.ltb_spec (zlen s) bs); [done |]. apply get_be32_Some in E as [Hbs _].
  destruct (get_be32 (drop (Z.to_nat bs) s)) as [[? ?]|]; [|done]. simplify_eq.
  destruct (Z.eqb_spec bs 0) as [-> |]; [done | done].
Qed.

Lemma bitmap_of_keys_contains `{RL : !RoaringLaws R} l x :
  is_u64 x -> bitmap_contains (bitmap_of_keys l) x = bool_decide (x ∈ HashKey <$> l).
Proof.
  intros Hx. assert (Hf : bitmap_of_keys l = foldl bitmap_add bitmap_create (HashKey <$> l)).
  { unfold bitmap_of_keys. generalize bitmap_create.
    induction l as [|y l IH]; intros b; cbn; [done | apply IH]. }
  rewrite Hf, contains_of_list; [done | | done].
  apply Forall_fmap, Forall_forall. intros. apply HashKey_u64.
Qed.

Lemma wf_v2_posting_keys wc v `{Roaring} :
  wf_v2 wc v -> posting_keys v = list_to_set (v2_keys v).
Proof.
  intros [Hv _ _]. unfold posting_keys. rewrite ParseExistingValue_entries.
  unfold value_entries. rewrite Hv, Z.eqb_refl. apply set_eq. intros k.
  rewrite elem_of_state_keys by (apply set_entries_wf; auto with stdmap).
  rewrite set_entries_lookup, elem_of_list_to_set. case_bool_decide; naive_solver.
Qed.

(** The common keys, as the sorted list of the first operand's keys filtered. *)
Definition common_keys (keys1 keys2 : sset) : list bytes :=
  filter (fun k => set_count k keys2 = true) (set_elems keys1).

Lemma count_common_length keys1 keys2 : count_common keys1 keys2 = zlen (common_keys keys1 keys2).
Proof.
  unfold count_common, common_keys.
  enough (Hg : forall l c, foldl (fun c k => if set_count k keys2 then c + 1 else c) c l =
                           c + zlen (filter (fun k => set_count k keys2 = true) l))
    by (rewrite Hg; lia).
  induction l as [|x l IH]; intros c; cbn [foldl]; [cbn; lia |]. rewrite IH.
  destruct (set_count x keys2) eqn:E.
  - rewrite filter_cons_True by done. cbn [length]. lia.
  - rewrite filter_cons_False by congruence. lia.
Qed.

Lemma common_keys_spec v1 v2 :
  NoDup (common_keys (parse_posting_list v1) (parse_posting_list v2)) /\
  list_to_set (common_keys (parse_posting_list v1) (parse_posting_list v2)) =
  posting_keys v1 ∩ posting_keys v2.
Proof.
  unfold common_keys. split.
  - apply NoDup_filter, sorted_keys_NoDup, parse_wf.
  - apply set_eq. intros k.
    rewrite elem_of_list_to_set, list_elem_of_filter, elem_of_intersection.
    rewrite <- set_count_elem, !parse_count_spec, !bool_decide_eq_true. tauto.
Qed.

Lemma common_keys_size v1 v2 :
  zlen (common_keys (parse_posting_list v1) (parse_posting_list v2)) =
  Z.of_nat (size (posting_keys v1 ∩ posting_keys v2)).
Proof.
  destruct (common_keys_spec v1 v2) as [Hnd <-]. by rewrite size_list_to_set.
Qed.

(** ** Properties *)

Section nif_properties.
Context {N : NifEnv} {R : Roaring} {RL : RoaringLaws R}.
Variable with_croaring : bool.

(** The keys of a value as the [posting_list_keys] list: increasing order. *)
Definition sorted_posting_keys (v : bytes) : list bytes := active_keys (ParseExistingValue v []).

(** [posting_list_keys/1] and [posting_list_count/1] agree with the merge
    operator on every binary, well-formed or not: the list holds exactly the
    keys the operator's parser leaves active, in strictly increasing order,
    and the count is the size of that set. *)
Theorem nif_keys_agree v :
  (forall n, new_binary_ok n = true) ->
  PostingListKeys [Tbin v] = Reply (make_list (Tbin <$> sorted_posting_keys v)) /\
  StronglySorted bytes_lt (sorted_posting_keys v) /\
  PostingListCount [Tbin v] = Reply (Tint (Z.of_nat (size (posting_keys v)))).
Proof.
  intros Hok. split_and!.
  - cbn. change Tnil with (make_list []). rewrite build_key_list_ok by done.
    by rewrite rev_involutive, app_nil_r, parse_elems.
  - unfold sorted_posting_keys. apply active_keys_sorted. rewrite ParseExistingValue_entries.
    apply set_entries_wf; auto with stdmap.
  - cbn. do 3 f_equal. rewrite <- parse_set.
    rewrite size_list_to_set by (apply sorted_keys_NoDup, parse_wf).
    unfold set_elems. by rewrite length_fmap.
Qed.

(** C16.  [posting_list_contains/2] is exact: on a V1 binary always, on a V2
    binary whose keys are sorted the binary search finds a key exactly when it
    is in the list. *)
Theorem contains_correct v k :
  (DetectVersion v = POSTING_LIST_V2 -> StronglySorted bytes_lt (v2_keys v)) ->
  PostingListContains [Tbin v; Tbin k] = Reply (atom_bool (bool_decide (k ∈ posting_keys v))).
Proof.
  intros Hs. cbn. rewrite detect_version_DetectVersion.
  destruct (Z.eqb_spec (DetectVersion v) POSTING_LIST_V2) as [Hv | Hv].
  - rewrite binary_search_spec by auto. do 2 f_equal. apply bool_decide_ext.
    unfold posting_keys. rewrite ParseExistingValue_entries.
    rewrite elem_of_state_keys by (apply set_entries_wf; auto with stdmap).
    unfold value_entries. rewrite Hv, Z.eqb_refl, set_entries_lookup.
    case_bool_decide; naive_solver.
  - rewrite <- parse_count_spec. unfold parse_posting_list.
    rewrite detect_version_DetectVersion. by rewrite (proj2 (Z.eqb_neq _ _) Hv).
Qed.

(** C13.  The set operations on two posting lists of any format return a
    well-formed V2 binary whose keys are the intersection, the union and the
    difference of the operands' keys. *)
Theorem set_operations_correct v1 v2 :
  (forall n, new_binary_ok n = true) ->
  fits_v2 (set_elems (intersect_keys (parse_posting_list v1) (parse_posting_list v2))) ->
  fits_v2 (set_elems (unite_keys (parse_posting_list v1) (parse_posting_list v2))) ->
  fits_v2 (set_elems (subtract_keys (parse_posting_list v1) (parse_posting_list v2))) ->
  exists i u d,
    PostingListIntersection with_croaring [Tbin v1; Tbin v2] = Reply (Tbin i) /\
    PostingListUnion with_croaring [Tbin v1; Tbin v2] = Reply (Tbin u) /\
    PostingListDifference with_croaring [Tbin v1; Tbin v2] = Reply (Tbin d) /\
    wf_v2 with_croaring i /\ wf_v2 with_croaring u /\ wf_v2 with_croaring d /\
    posting_keys i = posting_keys v1 ∩ posting_keys v2 /\
    posting_keys u = posting_keys v1 ∪ posting_keys v2 /\
    posting_keys d = posting_keys v1 ∖ posting_keys v2.
Proof.
  intros Hok Hi Hu Hd. pose proof (parse_wf v1) as Hw1.
  destruct (set_op_wf _ (parse_posting_list v2) Hw1) as (Hwi & Hwu & Hwd).
  do 3 eexists. cbn. unfold binary_reply, make_new_binary. rewrite !Hok.
  split_and!; [done.. | | | | | |];
    try (by apply serialize_v2_wf); rewrite serialize_v2_keys by done;
    apply set_elems_to_set; intros k.
  - rewrite count_intersect, !parse_count_spec, <- bool_decide_and. apply bool_decide_ext. set_solver.
  - rewrite count_unite, !parse_count_spec, <- bool_decide_or by done.
    apply bool_decide_ext. set_solver.
  - rewrite count_subtract, !parse_count_spec, <- bool_decide_not, <- bool_decide_and.
    apply bool_decide_ext. set_solver.
Qed.

(** [posting_list_bitmap_contains/2] on a well-formed V2 binary answers
    whether some key of the list has the hash of the searched key: it never
    misses a key of the list, and a false positive needs a hash collision. *)
Theorem bitmap_contains_spec v k :
  wf_v2 true v ->
  PostingListBitmapContains true [Tbin v; Tbin k] =
    Reply (atom_bool (bool_decide (exists k', k' ∈ posting_keys v /\ HashKey k' = HashKey k))) /\
  (k ∈ posting_keys v -> PostingListBitmapContains true [Tbin v; Tbin k] = Reply ATOM_TRUE).
Proof.
  intros Hwf.
  assert (Hmain : PostingListBitmapContains true [Tbin v; Tbin k] =
    Reply (atom_bool (bool_decide (HashKey k ∈ HashKey <$> v2_keys v)))).
  { cbn. rewrite detect_version_DetectVersion, (wf_version _ _ Hwf). cbn.
    destruct (extract_bitmap_wf v Hwf) as (b & -> & Heq).
    rewrite hash_key_HashKey, (Heq _ (HashKey_u64 k)).
    by rewrite bitmap_of_keys_contains by apply HashKey_u64. }
  assert (Hiff : HashKey k ∈ HashKey <$> v2_keys v <->
                 exists k', k' ∈ posting_keys v /\ HashKey k' = HashKey k).
  { rewrite list_elem_of_fmap, (wf_v2_posting_keys _ _ Hwf).
    setoid_rewrite elem_of_list_to_set. naive_solver. }
  split.
  - rewrite Hmain. do 2 f_equal. by apply bool_decide_ext.
  - intros Hk. rewrite Hmain, bool_decide_eq_true_2; [done |]. apply Hiff. eauto.
Qed.

(** [posting_list_intersection_count/2] on well-formed values is the size
    of the intersection when no two keys of the operands collide in the hash;
    the build without bitmaps needs no such assumption. *)
Theorem intersection_count_exact v1 v2 :
  (with_croaring = true -> wf_v2 true v1 /\ wf_v2 true v2 /\
     forall k1 k2, k1 ∈ posting_keys v1 ∪ posting_keys v2 ->
       k2 ∈ posting_keys v1 ∪ posting_keys v2 -> HashKey k1 = HashKey k2 -> k1 = k2) ->
  PostingListIntersectionCount with_croaring [Tbin v1; Tbin v2] =
  Reply (Tint (Z.of_nat (size (posting_keys v1 ∩ posting_keys v2)))).
Proof.
  intros Hwf. cbn. rewrite count_common_length, common_keys_size.
  destruct with_croaring; [|done]. destruct (Hwf eq_refl) as (H1 & H2 & Hinj).
  rewrite (detect_version_DetectVersion v1), (detect_version_DetectVersion v2).
  rewrite (wf_version _ _ H1), (wf_version _ _ H2). cbn.
  destruct (extract_bitmap_wf v1 H1) as (b1 & -> & E1).
  destruct (extract_bitmap_wf v2 H2) as (b2 & -> & E2).
  set (l := common_keys (parse_posting_list v1) (parse_posting_list v2)).
  destruct (common_keys_spec v1 v2) as [Hnd Hset]. fold l in Hnd, Hset.
  assert (Hl : forall k, k ∈ l <-> k ∈ posting_keys v1 /\ k ∈ posting_keys v2).
  { intros k. rewrite <- (elem_of_list_to_set (C := gset bytes)), Hset. apply elem_of_intersection. }
  rewrite (and_cardinality_spec b1 b2 (HashKey <$> l)).
  - rewrite length_fmap. unfold l. by rewrite common_keys_size.
  - apply NoDup_fmap_2_strong; [|done]. intros x y Hx Hy. apply Hinj; set_solver.
  - intros x. rewrite list_elem_of_fmap. setoid_rewrite Hl. split.
    + intros (k & -> & Hk1 & Hk2). pose proof (HashKey_u64 k) as Hu.
      rewrite (wf_v2_posting_keys _ _ H1), elem_of_list_to_set in Hk1.
      rewrite (wf_v2_posting_keys _ _ H2), elem_of_list_to_set in Hk2.
      rewrite (E1 _ Hu), (E2 _ Hu), !bitmap_of_keys_contains, !bool_decide_eq_true by done.
      split_and!; [done | by apply list_elem_of_fmap_2..].
    + intros (Hu & Hc1 & Hc2). rewrite (E1 _ Hu) in Hc1. rewrite (E2 _ Hu) in Hc2.
      rewrite bitmap_of_keys_contains, bool_decide_eq_true in Hc1, Hc2 by done.
      apply list_elem_of_fmap in Hc1 as (k1 & -> & Hk1), Hc2 as (k2 & Heq & Hk2).
      assert (k1 ∈ posting_keys v1)
        by (by rewrite (wf_v2_posting_keys _ _ H1), elem_of_list_to_set).
      assert (k2 ∈ posting_keys v2)
        by (by rewrite (wf_v2_posting_keys _ _ H2), elem_of_list_to_set).
      assert (k1 = k2) as -> by (apply Hinj; set_solver). eauto.
Qed.

(** Opening a binary as a resource changes no other resource, and every
    query of the resource agrees with the binary it was opened from: lookup,
    count, the list of keys, and the conversion back to a binary. *)
Theorem postings_resource_correct h v :
  alloc_resource_ok = true -> (forall n, new_binary_ok n = true) ->
  fits_v2 (sorted_posting_keys v) ->
  exists h' id out,
    PostingsOpen with_croaring h [Tbin v] = (h', Reply (Ttuple [ATOM_OK; Tres RPostings id])) /\
    h !! id = None /\ (forall j, j <> id -> h' !! j = h !! j) /\
    (forall k, PostingsContains h' [Tres RPostings id; Tbin k] =
               Reply (atom_bool (bool_decide (k ∈ posting_keys v)))) /\
    PostingsCount h' [Tres RPostings id] = Reply (Tint (Z.of_nat (size (posting_keys v)))) /\
    PostingsKeys h' [Tres RPostings id] = PostingListKeys [Tbin v] /\
    PostingsToBinary with_croaring h' [Tres RPostings id] = Reply (Tbin out) /\
    posting_keys out = posting_keys v.
Proof.
  intros Hres Hok Hfit. unfold PostingsOpen. cbn [enif_inspect_binary]. rewrite Hres. cbn [negb].
  do 3 eexists. split; [done |].
  assert (Hfresh : h !! fresh (dom h) = None) by (apply not_elem_of_dom, is_fresh).
  split; [done |]. split; [intros j Hj; by rewrite lookup_insert_ne|].
  unfold PostingsContains, PostingsCount, PostingsKeys, PostingsToBinary, get_postings,
    enif_get_resource. rewrite decide_True by done. rewrite lookup_insert_eq. cbn.
  split_and!.
  - intros k. by rewrite parse_count_spec.
  - rewrite <- parse_set. rewrite size_list_to_set by (apply sorted_keys_NoDup, parse_wf).
    unfold set_elems. by rewrite length_fmap.
  - done.
  - unfold binary_reply, make_new_binary. by rewrite Hok.
  - rewrite serialize_v2_keys; [apply parse_set | apply parse_wf | by rewrite parse_elems].
Qed.
End nif_properties.

(** ** Witnesses *)

Module PostingNifWitness.
Import PostingMergeWitness.
#[local] Existing Instances etf_env etf_laws list_roaring list_roaring_laws.

Definition stored_v2 : bytes := FullMergeV2 true (Some stored_v1) [operand (Add doc3)].
Definition other_v2 : bytes := FullMergeV2 true None [operand (Add doc2); operand (Add doc3)].

Lemma stored_v2_wf : wf_v2 true stored_v2.
Proof.
  unfold stored_v2. rewrite FullMergeV2_entries. apply SerializeV2_wf; [|fits].
  apply set_entries_wf, map_wf_nil.
Qed.

Lemma other_v2_wf : wf_v2 true other_v2.
Proof.
  unfold other_v2. rewrite FullMergeV2_entries. apply SerializeV2_wf; [|fits].
  apply set_entries_wf, map_wf_nil.
Qed.

Lemma nif_keys_agree_witness :
  PostingListKeys [Tbin stored_v1] = Reply (make_list (Tbin <$> sorted_posting_keys stored_v1)) /\
  StronglySorted bytes_lt (sorted_posting_keys stored_v1) /\
  PostingListCount [Tbin stored_v1] = Reply (Tint (Z.of_nat (size (posting_keys stored_v1)))).
Proof. apply (nif_keys_agree stored_v1). reflexivity. Defined.

Lemma contains_correct_witness :
  PostingListContains [Tbin stored_v2; Tbin doc3] =
  Reply (atom_bool (bool_decide (doc3 ∈ posting_keys stored_v2))).
Proof. apply (contains_correct stored_v2 doc3). intros _. apply stored_v2_wf. Defined.

Lemma set_operations_correct_witness :
  exists i u d,
    PostingListIntersection true [Tbin stored_v2; Tbin other_v2] = Reply (Tbin i) /\
    PostingListUnion true [Tbin stored_v2; Tbin other_v2] = Reply (Tbin u) /\
    PostingListDifference true [Tbin stored_v2; Tbin other_v2] = Reply (Tbin d) /\
    wf_v2 true i /\ wf_v2 true u /\ wf_v2 true d /\
    posting_keys i = posting_keys stored_v2 ∩ posting_keys other_v2 /\
    posting_keys u = posting_keys stored_v2 ∪ posting_keys other_v2 /\
    posting_keys d = posting_keys stored_v2 ∖ posting_keys other_v2.
Proof. apply (set_operations_correct true stored_v2 other_v2); [reflexivity | fits | fits | fits]. Defined.

Lemma bitmap_contains_spec_witness :
  PostingListBitmapContains true [Tbin stored_v2; Tbin doc1] =
    Reply (atom_bool (bool_decide (exists k', k' ∈ posting_keys stored_v2 /\ HashKey k' = HashKey doc1))) /\
  (doc1 ∈ posting_keys stored_v2 ->
   PostingListBitmapContains true [Tbin stored_v2; Tbin doc1] = Reply ATOM_TRUE).
Proof. apply (bitmap_contains_spec stored_v2 doc1), stored_v2_wf. Defined.

Lemma no_collision k1 k2 :
  k1 ∈ posting_keys stored_v2 ∪ posting_keys other_v2 ->
  k2 ∈ posting_keys stored_v2 ∪ posting_keys other_v2 -> HashKey k1 = HashKey k2 -> k1 = k2.
Proof.
  assert (Hk1 : sorted_posting_keys stored_v2 = [doc1; doc3]) by (vm_compute; reflexivity).
  assert (Hk2 : sorted_posting_keys other_v2 = [doc2; doc3]) by (vm_compute; reflexivity).
  assert (Hin : forall k, k ∈ posting_keys stored_v2 ∪ posting_keys other_v2 -> In k [doc1; doc2; doc3]).
  { intros k. unfold posting_keys, state_keys. unfold sorted_posting_keys in Hk1, Hk2.
    rewrite Hk1, Hk2, <- list_elem_of_In. set_solver. }
  intros H1%Hin H2%Hin He.
  assert (Hall : forallb (fun a => forallb (fun b => implb (HashKey a =? HashKey b) (bool_decide (a = b)))
                   [doc1; doc2; doc3]) [doc1; doc2; doc3] = true) by (vm_compute; reflexivity).
  rewrite forallb_forall in Hall. specialize (Hall k1 H1).
  rewrite forallb_forall in Hall. specialize (Hall k2 H2).
  rewrite He, Z.eqb_refl in Hall. by apply bool_decide_eq_true in Hall.
Qed.

Lemma intersection_count_exact_witness :
  PostingListIntersectionCount true [Tbin stored_v2; Tbin other_v2] =
  Reply (Tint (Z.of_nat (size (posting_keys stored_v2 ∩ posting_keys other_v2)))).
Proof.
  apply (intersection_count_exact true stored_v2 other_v2). intros _.
  split; [apply stored_v2_wf | split; [apply other_v2_wf | apply no_collision]].
Defined.

Lemma postings_resource_correct_witness :
  exists h' id out,
    PostingsOpen true ∅ [Tbin stored_v1] = (h', Reply (Ttuple [ATOM_OK; Tres RPostings id])) /\
    (∅ : gmap nat PostingListResource) !! id = None /\
    (forall j, j <> id -> h' !! j = (∅ : gmap nat PostingListResource) !! j) /\
    (forall k, PostingsContains h' [Tres RPostings id; Tbin k] =
               Reply (atom_bool (bool_decide (k ∈ posting_keys stored_v1)))) /\
    PostingsCount h' [Tres RPostings id] = Reply (Tint (Z.of_nat (size (posting_keys stored_v1)))) /\
    PostingsKeys h' [Tres RPostings id] = PostingListKeys [Tbin stored_v1] /\
    PostingsToBinary true h' [Tres RPostings id] = Reply (Tbin out) /\
    posting_keys out = posting_keys stored_v1.
Proof.
  apply (postings_resource_correct true ∅ stored_v1); [reflexivity | reflexivity | fits].
Defined.
End PostingNifWitness.
