(* ===== verification/Erl.v ===== *)
(** * Values and exceptions of the Erlang module

    The functions of [src/rocksdb.erl] that are written in Erlang call native ones
    and may raise: a computation yields a value or an exception ([erl]).  The
    fragment of the language and of [lists] that they use: the guards on terms,
    [lists:foldl/3] with a function that may raise, and [lists:sort/2], a stable
    sort, with the lemmas about it. *)

From stdpp Require Import base list sorting strings.
From Stdlib Require Import ZArith Lia.
From S2P Require Import Prelude Terms.

Inductive erl (A : Type) : Type :=
| Val (a : A)
| Err (reason : term).
Arguments Val {A} _.
Arguments Err {A} _.

Definition ebind {A B} (m : erl A) (k : A -> erl B) : erl B :=
  match m with Val a => k a | Err r => Err r end.

Notation "'let?' x ':=' m 'in' k" := (ebind m (fun x => k))
  (at level 10, x pattern, m at level 100, k at level 200) : nif_scope.

(** The value of a native call: [enif_make_badarg] raises. *)
Definition nif_result (r : reply) : erl term :=
  match r with Reply t => Val t | Badarg => Err ATOM_BADARG end.

Definition function_clause : term := Tatom "function_clause".
Definition badmatch (t : term) : term := Ttuple [Tatom "badmatch"; t].

Definition is_binary (t : term) : bool := match t with Tbin _ => true | _ => false end.
Definition is_reference (t : term) : bool := match t with Tres _ _ => true | _ => false end.

(** [lists:foldl(Fun, Acc, List)]: [Fun(Elem, Acc)], left to right. *)
Fixpoint erl_foldl {A B : Type} (f : A -> B -> erl B) (acc : B) (l : list A) : erl B :=
  match l with
  | [] => Val acc
  | x :: r => let? acc' := f x acc in erl_foldl f acc' r
  end.

(** [[f(X) || X <- List]] *)
Fixpoint erl_map {A B : Type} (f : A -> erl B) (l : list A) : erl (list B) :=
  match l with
  | [] => Val []
  | x :: r => let? y := f x in let? ys := erl_map f r in Val (y :: ys)
  end.

(** ** [lists:sort/2] *)

Section Sort.
Context {A : Type} (le : A -> A -> bool).

Fixpoint sort_insert (x : A) (l : list A) : list A :=
  match l with
  | [] => [x]
  | y :: r => if le x y then x :: l else y :: sort_insert x r
  end.

Definition lists_sort (l : list A) : list A := foldr sort_insert [] l.

Lemma sort_insert_perm x l : sort_insert x l ≡ₚ x :: l.
Proof.
  induction l as [|y r IH]; cbn [sort_insert]; [done |]. destruct (le x y); [done |].
  rewrite IH. apply Permutation_swap.
Qed.

Lemma lists_sort_perm l : lists_sort l ≡ₚ l.
Proof.
  induction l as [|x l IH]; cbn [lists_sort foldr]; [done |].
  etransitivity; [apply sort_insert_perm |]. by apply Permutation_cons.
Qed.

Lemma lists_sort_elem x l : x ∈ lists_sort l <-> x ∈ l.
Proof. by rewrite lists_sort_perm. Qed.

Lemma lists_sort_nonempty x l : exists y r, lists_sort (x :: l) = y :: r.
Proof.
  pose proof (Permutation_length (lists_sort_perm (x :: l))) as H.
  destruct (lists_sort (x :: l)); [done | by eexists _, _].
Qed.
End Sort.

(** [Fun] keeping an invariant along [lists:foldl/3], which then returns. *)
Lemma erl_foldl_inv {A B : Type} (P : list A -> B -> Prop) (f : A -> B -> erl B) (done_ l : list A) acc :
  (forall d x acc, x ∈ l -> P d acc -> exists acc', f x acc = Val acc' /\ P (d ++ [x]) acc') ->
  P done_ acc -> exists acc', erl_foldl f acc l = Val acc' /\ P (done_ ++ l) acc'.
Proof.
  intros Hf. revert done_ acc. induction l as [|x l IH]; intros d acc HP; cbn [erl_foldl].
  { exists acc. by rewrite app_nil_r. }
  destruct (Hf d x acc) as (acc1 & -> & HP1); [by left | done |]. cbn [ebind].
  destruct (IH ltac:(intros d' y a Hy; apply Hf; by right) (d ++ [x]) acc1 HP1) as (acc' & E & HP').
  exists acc'. by rewrite <- app_assoc in HP'.
Qed.
