(* ===== verification/ErlPosting.v ===== *)
(** * The posting-list functions of the Erlang module

    The part of the posting-list API that [src/rocksdb.erl] writes in Erlang over
    the native functions of [PostingNif]: the V1 decoder and fold, the
    intersection of many lists, and the set operations on posting resources.

    The theorems compose the Erlang code with the native functions: the operations
    on any mix of binaries and resources compute the sets they name, and the
    decoder agrees with the V1 parser of the C++ code. *)

From stdpp Require Import base list numbers gmap strings sets sorting.
From Stdlib Require Import ZArith Lia.
From S2P Require Import Prelude StdMap Terms Etf Roaring PostingHash PostingMerge PostingNif Erl.

(** ** V1 decoding *)

(** [posting_list_decode/1]; the binary shrinks at every entry, so its length is
    fuel enough. *)
Fixpoint decode_loop (fuel : nat) (bin : bytes) : erl (list (bytes * bool)) :=
  match bin, fuel with
  | [], _ => Val []
  | b0 :: b1 :: b2 :: b3 :: flag :: r, S fuel =>
      let len := be32 b0 b1 b2 b3 in
      if zlen r <? len then Err function_clause
      else
        let? rest := decode_loop fuel (drop (Z.to_nat len) r) in
        Val ((take (Z.to_nat len) r, negb (byte_val flag =? 0)) :: rest)
  | _, _ => Err function_clause
  end.

Definition posting_list_decode (bin : bytes) : erl (list (bytes * bool)) :=
  decode_loop (length bin) bin.

Definition posting_list_fold {A : Type} (f : bytes -> bool -> A -> erl A) (acc : A) (bin : bytes) : erl A :=
  let? entries := posting_list_decode bin in
  erl_foldl (fun e a => f e.1 e.2 a) acc entries.

Section api.
Context {N : NifEnv} {R : Roaring}.
Variable with_croaring : bool.

Abbreviation heap := (gmap nat PostingListResource).

(** ** Many lists *)

(** [<<2, 0, 0, 0, 0, 0, 0, 0, 0>>] *)
Definition empty_v2 : bytes :=
  [Byte.x02; Byte.x00; Byte.x00; Byte.x00; Byte.x00; Byte.x00; Byte.x00; Byte.x00; Byte.x00].

Definition posting_list_intersection (a b : term) : erl term :=
  nif_result (PostingListIntersection with_croaring [a; b]).

(** [byte_size/1] of a term that is not a binary raises. *)
Definition byte_size (t : term) : nat := match t with Tbin b => length b | _ => 0 end.

Definition size_le (a b : term) : bool := (byte_size a <=? byte_size b)%nat.

Definition posting_list_intersect_all (lists : list term) : erl term :=
  match lists with
  | [] => Val (Tbin empty_v2)
  | [single] => Val single
  | _ =>
      if negb (forallb is_binary lists) then Err ATOM_BADARG
      else
        match lists_sort size_le lists with
        | hd :: tl => erl_foldl posting_list_intersection hd tl
        | [] => Err ATOM_BADARG
        end
  end.

(** ** Resources *)

Definition postings_open (h : heap) (t : term) : heap * erl term :=
  let '(h', r) := PostingsOpen with_croaring h [t] in (h', nif_result r).

Definition to_posting_binary (h : heap) (t : term) : erl term :=
  if is_binary t then Val t
  else if is_reference t then nif_result (PostingsToBinary with_croaring h [t])
  else Err function_clause.

(** [postings_open] of a computation that may raise. *)
Definition open_result (h : heap) (m : erl term) : heap * erl term :=
  match m with Val t => postings_open h t | Err r => (h, Err r) end.

Definition postings_binary (op : list term -> reply) (h : heap) (a b : term) : heap * erl term :=
  open_result h
    (let? bin_a := to_posting_binary h a in
     let? bin_b := to_posting_binary h b in
     nif_result (op [bin_a; bin_b])).

Definition postings_intersection : heap -> term -> term -> heap * erl term :=
  postings_binary (PostingListIntersection with_croaring).
Definition postings_union : heap -> term -> term -> heap * erl term :=
  postings_binary (PostingListUnion with_croaring).
Definition postings_difference : heap -> term -> term -> heap * erl term :=
  postings_binary (PostingListDifference with_croaring).

Definition postings_intersection_count (h : heap) (a b : term) : erl term :=
  let? bin_a := to_posting_binary h a in
  let? bin_b := to_posting_binary h b in
  nif_result (PostingListIntersectionCount with_croaring [bin_a; bin_b]).

Definition postings_intersect_all (h : heap) (l : list term) : heap * erl term :=
  match l with
  | [] => postings_open h (Tbin empty_v2)
  | [single] => if is_reference single then (h, Val (Ttuple [ATOM_OK; single])) else postings_open h single
  | _ =>
      open_result h
        (let? bins := erl_map (to_posting_binary h) l in posting_list_intersect_all bins)
  end.
End api.

(** ** The decoder and the C++ parser *)

Lemma decode_loop_scan fuel bin es :
  decode_loop fuel bin = Val es -> v1_scan fuel bin = es.
Proof.
  revert bin es. induction fuel as [|fuel IH]; intros bin es.
  { destruct bin as [|? [|? [|? [|? [|? ?]]]]]; cbn [decode_loop v1_scan]; congruence. }
  destruct bin as [|b0 [|b1 [|b2 [|b3 [|flag r]]]]]; cbn [decode_loop v1_scan]; try congruence.
  destruct (zlen r <? be32 b0 b1 b2 b3); [congruence |].
  destruct (decode_loop fuel _) as [rest|] eqn:E; cbn [ebind]; [| congruence].
  intros [= <-]. by rewrite (IH _ _ E).
Qed.

Lemma decode_loop_records l fuel :
  Forall (fun e => zlen e.1 < 2 ^ 32) l -> (length (l ≫= v1_record) <= fuel)%nat ->
  decode_loop fuel (l ≫= v1_record) = Val l.
Proof.
  intros Hl. revert fuel. induction Hl as [|[k t] l Hk Hl IH]; intros fuel Hf.
  - by destruct fuel.
  - cbn [fst] in Hk.
    change (((k, t) :: l) ≫= v1_record) with (v1_record (k, t) ++ (l ≫= v1_record)) in *.
    rewrite length_app in Hf. unfold v1_record at 1, AppendEntryV1 in Hf.
    rewrite !length_app in Hf. cbn in Hf. destruct fuel as [|fuel]; [lia |].
    unfold v1_record at 1, AppendEntryV1. rewrite app_nil_l, <- !app_assoc. unfold put_be32.
    cbn [app decode_loop fst snd].
    pose proof (get_put_be32 (u32 (zlen k)) []) as Hbe. unfold put_be32 in Hbe.
    cbn [app get_be32] in Hbe. injection Hbe as Hbe. rewrite Hbe, wrap_idemp, wrap_small by lia.
    rewrite (proj2 (Z.ltb_ge _ _)) by (rewrite length_app; lia).
    rewrite Nat2Z.id, take_app_length, drop_app_length, IH by lia.
    by destruct t.
Qed.

(** The first four bytes of a V2 value read as a length of at least 2^25. *)
Lemma decode_v2 bin :
  DetectVersion bin = POSTING_LIST_V2 -> zlen bin < 2 ^ 25 -> posting_list_decode bin = Err function_clause.
Proof.
  unfold posting_list_decode. intros Hv Hlen.
  destruct bin as [|b0 [|b1 [|b2 [|b3 [|flag r]]]]]; cbn [DetectVersion] in Hv; [done .. |].
  assert (Hb : byte_val b0 = 2) by (destruct (Z.eqb_spec (byte_val b0) POSTING_LIST_V2); done).
  cbn [length decode_loop].
  rewrite (proj2 (Z.ltb_lt _ _)); [done |].
  rewrite be32_sum, Hb. pose proof (byte_val_range b1). pose proof (byte_val_range b2).
  pose proof (byte_val_range b3). cbn [length] in Hlen. lia.
Qed.

(** ** Denotations *)

Section denotations.
Context {N : NifEnv} {R : Roaring}.
Variable with_croaring : bool.

Abbreviation heap := (gmap nat PostingListResource).

(** The set of keys a binary or a resource stands for. *)
Definition denotes (h : heap) (t : term) (X : gset bytes) : Prop :=
  match t with
  | Tbin v => posting_keys v = X
  | Tres RPostings id =>
      exists r, h !! id = Some r /\ map_wf (keys r) /\ list_to_set (set_elems (keys r)) = X
  | _ => False
  end.

(** The fields of the V2 format can carry the set. *)
Definition fits (X : gset bytes) : Prop :=
  forall l, StronglySorted bytes_lt l -> list_to_set l = X -> fits_v2 l.

Lemma fits_elems s X : map_wf s -> list_to_set (set_elems s) = X -> fits X -> fits_v2 (set_elems s).
Proof. intros Hs Hl HX. by apply HX. Qed.

Lemma reply_binary v : (forall n, new_binary_ok n = true) -> binary_reply v = Reply (Tbin v).
Proof. intros Hok. unfold binary_reply, make_new_binary. by rewrite Hok. Qed.

Lemma to_binary_ok h t X :
  (forall n, new_binary_ok n = true) -> denotes h t X -> fits X ->
  exists v, to_posting_binary with_croaring h t = Val (Tbin v) /\ posting_keys v = X.
Proof.
  intros Hok Ht HX. destruct t as [| | |v| | | | |[] id|]; try done; [by exists v |].
  destruct Ht as (r & Hr & Hwf & Hk). exists (serialize_v2 with_croaring (keys r)).
  unfold to_posting_binary, PostingsToBinary, get_postings. cbn [is_binary is_reference enif_get_resource].
  rewrite decide_True by done. rewrite Hr, reply_binary by done. split; [done |].
  rewrite serialize_v2_keys; [done | done | by apply (fits_elems _ X)].
Qed.

Lemma open_ok h v :
  alloc_resource_ok = true ->
  exists h' id, postings_open with_croaring h (Tbin v) = (h', Val (Ttuple [ATOM_OK; Tres RPostings id])) /\
    h !! id = None /\ denotes h' (Tres RPostings id) (posting_keys v) /\
    (forall t X, denotes h t X -> denotes h' t X).
Proof.
  intros Hres. unfold postings_open, PostingsOpen. cbn [enif_inspect_binary]. rewrite Hres. cbn [negb nif_result].
  assert (Hfresh : h !! fresh (dom h) = None) by (apply not_elem_of_dom, is_fresh).
  do 2 eexists. split; [done |]. split; [done |]. split.
  - cbn [denotes]. eexists. rewrite lookup_insert_eq. split; [done |]. cbn [keys].
    split; [apply parse_wf | apply parse_set].
  - intros t X. destruct t as [| | |v'| | | | |[] id|]; cbn [denotes]; try done.
    intros (r & Hr & Hrest). exists r. split; [| done]. rewrite lookup_insert_ne; [done | congruence].
Qed.

Lemma denotes_contains h id X k :
  denotes h (Tres RPostings id) X ->
  PostingsContains h [Tres RPostings id; Tbin k] = Reply (atom_bool (bool_decide (k ∈ X))).
Proof.
  intros (r & Hr & Hwf & <-). unfold PostingsContains, get_postings. cbn [enif_get_resource enif_inspect_binary].
  rewrite decide_True by done. rewrite Hr. do 2 f_equal. apply eq_true_iff_eq.
  by rewrite set_count_elem, bool_decide_eq_true, elem_of_list_to_set.
Qed.

(** A native set operation on two binaries, given by its loop over the key sets. *)
Lemma binary_op_ok (loop : sset -> sset -> sset) (v1 v2 : bytes) (Y : gset bytes) :
  (forall n, new_binary_ok n = true) ->
  map_wf (loop (parse_posting_list v1) (parse_posting_list v2)) ->
  (forall k, set_count k (loop (parse_posting_list v1) (parse_posting_list v2)) = bool_decide (k ∈ Y)) ->
  fits Y ->
  exists v, nif_result (binary_reply (serialize_v2 with_croaring
              (loop (parse_posting_list v1) (parse_posting_list v2)))) = Val (Tbin v) /\ posting_keys v = Y.
Proof.
  intros Hok Hwf Hc HZ. rewrite reply_binary by done. eexists. split; [done |].
  rewrite serialize_v2_keys; [by apply set_elems_to_set | done |].
  apply (fits_elems _ Y); [done | by apply set_elems_to_set | done].
Qed.

Lemma intersection_ok (v1 v2 : bytes) :
  (forall n, new_binary_ok n = true) -> fits (posting_keys v1 ∩ posting_keys v2) ->
  exists v, nif_result (PostingListIntersection with_croaring [Tbin v1; Tbin v2]) = Val (Tbin v) /\
    posting_keys v = posting_keys v1 ∩ posting_keys v2.
Proof.
  intros Hok HZ. apply (binary_op_ok intersect_keys); [done | apply set_op_wf, parse_wf | | done].
  intros k. rewrite count_intersect, !parse_count_spec, <- bool_decide_and. apply bool_decide_ext. set_solver.
Qed.

Lemma union_ok (v1 v2 : bytes) :
  (forall n, new_binary_ok n = true) -> fits (posting_keys v1 ∪ posting_keys v2) ->
  exists v, nif_result (PostingListUnion with_croaring [Tbin v1; Tbin v2]) = Val (Tbin v) /\
    posting_keys v = posting_keys v1 ∪ posting_keys v2.
Proof.
  intros Hok HZ. apply (binary_op_ok unite_keys); [done | apply set_op_wf, parse_wf | | done].
  intros k. rewrite count_unite, !parse_count_spec, <- bool_decide_or by apply parse_wf.
  apply bool_decide_ext. set_solver.
Qed.

Lemma difference_ok (v1 v2 : bytes) :
  (forall n, new_binary_ok n = true) -> fits (posting_keys v1 ∖ posting_keys v2) ->
  exists v, nif_result (PostingListDifference with_croaring [Tbin v1; Tbin v2]) = Val (Tbin v) /\
    posting_keys v = posting_keys v1 ∖ posting_keys v2.
Proof.
  intros Hok HZ. apply (binary_op_ok subtract_keys); [done | apply set_op_wf, parse_wf | | done].
  intros k. rewrite count_subtract, !parse_count_spec, <- bool_decide_not, <- bool_decide_and.
  apply bool_decide_ext. set_solver.
Qed.

(** ** Theorems *)

(** The result of an operation that opens a resource for the set [Y]: a resource of
    its own, which answers membership in [Y]; every operand keeps its meaning. *)
Definition opens_set (h : heap) (m : heap * erl term) (Y : gset bytes) : Prop :=
  exists h' id, m = (h', Val (Ttuple [ATOM_OK; Tres RPostings id])) /\
    h !! id = None /\ denotes h' (Tres RPostings id) Y /\
    (forall k, PostingsContains h' [Tres RPostings id; Tbin k] = Reply (atom_bool (bool_decide (k ∈ Y)))) /\
    (forall t X, denotes h t X -> denotes h' t X).

Lemma opens_set_open h v :
  alloc_resource_ok = true -> opens_set h (postings_open with_croaring h (Tbin v)) (posting_keys v).
Proof.
  intros Hres. destruct (open_ok h v Hres) as (h' & id & E & Hn & Hd & Hkeep).
  exists h', id. split_and!; try done. intros k. by apply denotes_contains.
Qed.

Lemma postings_binary_ok (op : list term -> reply) (h : heap) (a b : term) (A B Y : gset bytes) :
  alloc_resource_ok = true -> (forall n, new_binary_ok n = true) ->
  denotes h a A -> denotes h b B -> fits A -> fits B ->
  (forall v1 v2, posting_keys v1 = A -> posting_keys v2 = B ->
     exists v, nif_result (op [Tbin v1; Tbin v2]) = Val (Tbin v) /\ posting_keys v = Y) ->
  opens_set h (postings_binary with_croaring op h a b) Y.
Proof.
  intros Hres Hok Ha Hb HA HB Hop. unfold postings_binary.
  destruct (to_binary_ok h a A Hok Ha HA) as (v1 & -> & E1).
  destruct (to_binary_ok h b B Hok Hb HB) as (v2 & -> & E2). cbn [ebind].
  destruct (Hop v1 v2 E1 E2) as (v & -> & <-). by apply opens_set_open.
Qed.

(** C27.  [postings_intersection/2], [postings_union/2] and [postings_difference/2], on
    any mix of binaries and open resources standing for the sets [A] and [B], open a
    resource of their own for the intersection, the union and the difference, which
    answers [postings_contains/2] exactly, and leave every other list as it was. *)
Theorem postings_operations_correct (h : heap) (a b : term) (A B : gset bytes) :
  alloc_resource_ok = true -> (forall n, new_binary_ok n = true) ->
  denotes h a A -> denotes h b B -> (forall X, X ⊆ A ∪ B -> fits X) ->
  opens_set h (postings_intersection with_croaring h a b) (A ∩ B) /\
  opens_set h (postings_union with_croaring h a b) (A ∪ B) /\
  opens_set h (postings_difference with_croaring h a b) (A ∖ B).
Proof.
  intros Hres Hok Ha Hb Hfit.
  assert (HA : fits A) by (apply Hfit; set_solver). assert (HB : fits B) by (apply Hfit; set_solver).
  split_and!; (apply (postings_binary_ok _ h a b A B); try done); intros v1 v2 <- <-.
  - apply intersection_ok; [done |]. apply Hfit. set_solver.
  - apply union_ok; [done |]. by apply Hfit.
  - apply difference_ok; [done |]. apply Hfit. set_solver.
Qed.

(** [posting_list_intersect_all/1] on binaries. *)
Lemma intersect_binaries (vs : list bytes) :
  (forall n, new_binary_ok n = true) -> vs <> [] ->
  (forall v X, v ∈ vs -> X ⊆ posting_keys v -> fits X) ->
  exists v, posting_list_intersect_all with_croaring (Tbin <$> vs) = Val (Tbin v) /\
    forall k, k ∈ posting_keys v <-> Forall (fun w => k ∈ posting_keys w) vs.
Proof.
  intros Hok Hne Hfit. destruct vs as [|v0 [|v1 vs]]; [done | |].
  { exists v0. split; [done |]. intros k. by rewrite Forall_singleton. }
  unfold posting_list_intersect_all. rewrite !fmap_cons.
  change (Tbin v0 :: Tbin v1 :: (Tbin <$> vs)) with (Tbin <$> v0 :: v1 :: vs).
  assert (Hbin : forallb is_binary (Tbin <$> v0 :: v1 :: vs) = true).
  { apply forallb_forall. intros t (w & -> & _)%list_elem_of_In%list_elem_of_fmap. done. }
  rewrite Hbin. cbn [negb].
  pose proof (lists_sort_perm size_le (Tbin <$> v0 :: v1 :: vs)) as Hp.
  destruct (lists_sort size_le (Tbin <$> v0 :: v1 :: vs)) as [|t ts];
    [by apply Permutation_length in Hp |].
  apply (Permutation_map_inv Tbin) in Hp as ([|w ws] & [= -> ->] & Hperm).
  destruct (erl_foldl_inv (fun d acc => exists ds v, d = Tbin <$> ds /\ acc = Tbin v /\
       forall k, k ∈ posting_keys v <-> Forall (fun x => k ∈ posting_keys x) (w :: ds))
     (posting_list_intersection with_croaring) [] (map Tbin ws) (Tbin w))
    as (acc & E & ds & v & Hds & -> & Hv).
  - intros d x acc Hx (ds & v & -> & -> & Hv).
    apply list_elem_of_In, in_map_iff in Hx as (x' & <- & Hx').
    destruct (intersection_ok x' v Hok) as (v' & E' & Hv').
    { apply (Hfit x'); [| set_solver]. rewrite Hperm. right. by apply list_elem_of_In. }
    exists (Tbin v'). split; [done |]. exists (ds ++ [x']), v'. split_and!; [by rewrite fmap_app | done |].
    intros k. rewrite Hv', elem_of_intersection, Hv, app_comm_cons, Forall_app, Forall_singleton. tauto.
  - exists [], w. split_and!; [done | done |]. intros k. by rewrite Forall_singleton.
  - exists v. split; [done |]. intros k. rewrite Hv, Hperm. cbn [app] in Hds.
    apply (list_fmap_eq_inj Tbin) in Hds; [by subst ds | by intros ? ? [= ->]].
Qed.

Lemma intersect_all_many h l :
  (2 <= length l)%nat ->
  postings_intersect_all with_croaring h l =
  open_result with_croaring h
    (let? bins := erl_map (to_posting_binary with_croaring h) l in
     posting_list_intersect_all with_croaring bins).
Proof. destruct l as [|? [|? ?]]; cbn [length]; [lia | lia | done]. Qed.

Lemma empty_v2_keys : posting_keys empty_v2 = ∅.
Proof. reflexivity. Qed.

Lemma to_binaries_ok (h : heap) (l : list term) (Xs : list (gset bytes)) :
  (forall n, new_binary_ok n = true) -> Forall2 (denotes h) l Xs -> (forall X, X ∈ Xs -> fits X) ->
  exists vs, erl_map (to_posting_binary with_croaring h) l = Val (Tbin <$> vs) /\
    Forall2 (fun X v => posting_keys v = X) Xs vs.
Proof.
  intros Hok Hl. induction Hl as [|t X l Xs Ht Hl IH]; intros Hfit; cbn [erl_map].
  { exists []. split; [done | constructor]. }
  destruct (to_binary_ok h t X Hok Ht) as (v & -> & Hv); [apply Hfit; by left |].
  destruct IH as (vs & -> & Hvs); [intros X' HX'; apply Hfit; by right |].
  cbn [ebind]. exists (v :: vs). split; [done | by constructor].
Qed.

Lemma keys_common (k : bytes) (Xs : list (gset bytes)) (vs : list bytes) :
  Forall2 (fun X v => posting_keys v = X) Xs vs ->
  Forall (fun w => k ∈ posting_keys w) vs <-> Forall (fun X => k ∈ X) Xs.
Proof.
  induction 1 as [|X v Xs vs <- _ IH]; [by rewrite !Forall_nil |]. by rewrite !Forall_cons, IH.
Qed.

Lemma intersect_single (h : heap) (t : term) (X : gset bytes) :
  alloc_resource_ok = true -> denotes h t X ->
  exists h' id Y, postings_intersect_all with_croaring h [t] =
      (h', Val (Ttuple [ATOM_OK; Tres RPostings id])) /\
    denotes h' (Tres RPostings id) Y /\
    (forall k, k ∈ Y <-> [t] <> [] /\ Forall (fun X => k ∈ X) [X]) /\
    (forall t X, denotes h t X -> denotes h' t X).
Proof.
  intros Hres Ht.
  assert (HX : forall k, k ∈ X <-> [t] <> [] /\ Forall (fun X => k ∈ X) [X])
    by (intros k; rewrite Forall_singleton; naive_solver).
  destruct t as [| | |v| | | | |[] id|]; try done; cbn [postings_intersect_all is_reference].
  - destruct (open_ok h v Hres) as (h' & id & E & _ & Hd & Hk). cbn [denotes] in Ht. rewrite Ht in Hd.
    by exists h', id, X.
  - by exists h, id, X.
Qed.

(** C34.  [postings_intersect_all/1], on any mix of binaries and open resources, gives a
    resource that stands for the keys common to all of them, in whatever order they
    are given and sorted (a single resource is given back as it is), and the empty
    list gives an empty resource; every other list keeps its meaning. *)
Theorem intersect_all_correct (h : heap) (l : list term) (Xs : list (gset bytes)) :
  alloc_resource_ok = true -> (forall n, new_binary_ok n = true) ->
  Forall2 (denotes h) l Xs -> (forall X Y, X ∈ Xs -> Y ⊆ X -> fits Y) ->
  exists h' id Y, postings_intersect_all with_croaring h l =
      (h', Val (Ttuple [ATOM_OK; Tres RPostings id])) /\
    denotes h' (Tres RPostings id) Y /\
    (forall k, k ∈ Y <-> l <> [] /\ Forall (fun X => k ∈ X) Xs) /\
    (forall t X, denotes h t X -> denotes h' t X).
Proof.
  intros Hres Hok Hl Hfit.
  destruct Hl as [|t X [|t' l] Xs Ht Hl].
  - destruct (open_ok h empty_v2 Hres) as (h' & id & E & _ & Hd & Hk). exists h', id, ∅.
    split_and!; [done | | set_solver | done]. by rewrite empty_v2_keys in Hd.
  - apply Forall2_nil_inv_l in Hl as ->. apply (intersect_single h t X Hres Ht).
  - destruct (to_binaries_ok h (t :: t' :: l) (X :: Xs)) as (vs & Hvs & HX); [done | by constructor | |].
    { intros X' HX'. by apply (Hfit X'). }
    rewrite intersect_all_many by (cbn; lia). rewrite Hvs. cbn [ebind].
    destruct (intersect_binaries vs Hok) as (v & -> & Hv).
    { intros ->. apply Forall2_length in HX. done. }
    { intros w Y Hw HY. apply list_elem_of_lookup in Hw as [i Hi].
      destruct (Forall2_lookup_r _ _ _ _ _ HX Hi) as (X' & HX'%list_elem_of_lookup_2 & E).
      apply (Hfit X' Y HX'). set_solver. }
    cbn [open_result]. destruct (open_ok h v Hres) as (h' & id & E & _ & Hd & Hk).
    exists h', id, (posting_keys v). split_and!; try done. intros k. rewrite Hv.
    rewrite (keys_common k _ _ HX). naive_solver.
Qed.
End denotations.

(** [posting_list_decode/1] gives back the entries a V1 list was written from,
    and what it returns on any binary is what the C++ parser of V1 lists reads; but
    on every value the merge operator writes (always V2) it raises
    [function_clause], for a value under 32 MiB. *)
Theorem decode_correct `{NifEnv} `{Roaring} (bin : bytes) :
  (forall l, Forall (fun e => zlen e.1 < 2 ^ 32) l -> posting_list_decode (write_v1 l) = Val l) /\
  (forall es, posting_list_decode bin = Val es -> v1_entries bin = es) /\
  (forall wc existing operands, zlen (FullMergeV2 wc existing operands) < 2 ^ 25 ->
     posting_list_decode (FullMergeV2 wc existing operands) = Err function_clause).
Proof.
  split_and!.
  - intros l Hl. rewrite write_v1_records. by apply decode_loop_records.
  - intros es. apply decode_loop_scan.
  - intros wc existing operands. apply decode_v2. rewrite FullMergeV2_entries. apply SerializeV2_version.
Qed.

(** ** Witnesses *)

Module ErlPostingWitness.
Import PostingMergeWitness PostingNifWitness.
#[local] Existing Instances etf_env etf_laws list_roaring list_roaring_laws.

(** Any set of a few short keys fits. *)
Lemma fits_small (X : gset bytes) :
  (size X <= 1000)%nat -> (forall k, k ∈ X -> zlen k < 1000) -> fits X.
Proof.
  intros Hsize Hk l Hl <-.
  assert (Hnd : NoDup l) by by apply sorted_keys_NoDup.
  rewrite size_list_to_set in Hsize by done.
  assert (H8 : forall b : list Z, length (b ≫= le_bytes 8) = (8 * length b)%nat).
  { clear. induction b as [|x b IH]; [done |].
    change ((x :: b) ≫= le_bytes 8) with (le_bytes 8 x ++ (b ≫= le_bytes 8)).
    rewrite length_app, IH, length_le_bytes. cbn [length]. lia. }
  assert (Hb : forall (l : list bytes) b, length (foldl (fun b k => bitmap_add b (HashKey k)) b l) =
                 (length b + length l)%nat).
  { clear. induction l as [|k l IH]; intros b; cbn [foldl length]; [lia |]. rewrite IH. cbn. lia. }
  split_and!.
  - apply Forall_forall. intros k Hin. specialize (Hk k). rewrite elem_of_list_to_set in Hk.
    specialize (Hk Hin). lia.
  - lia.
  - unfold bitmap_of_keys. cbn [bitmap_serialize list_roaring]. unfold list_serialize. cbn [length].
    rewrite H8, Hb. cbn [length bitmap_create list_roaring]. lia.
Qed.

(** What [fits_small] asks, by computation, of a set and of its subsets. *)
Definition small_set (X : gset bytes) : bool :=
  (size X <=? 1000)%nat && forallb (fun k => zlen k <? 1000) (elements X).

Lemma fits_subset (X Y : gset bytes) : small_set X = true -> Y ⊆ X -> fits Y.
Proof.
  unfold small_set. rewrite andb_true_iff, Nat.leb_le, forallb_forall. intros [Hs Hk] HY.
  apply fits_small; [pose proof (subseteq_size _ _ HY); lia |].
  intros k Hin. apply Z.ltb_lt, Hk, list_elem_of_In, elem_of_elements. by apply HY.
Qed.

(** One list as an open resource, one as a binary. *)
Definition two_lists : gmap nat PostingListResource :=
  {[ 0%nat := {| keys := parse_posting_list other_v2; sorted_keys := []; res_bitmap := None |} ]}.

Lemma other_denoted : denotes two_lists (Tres RPostings 0) (posting_keys other_v2).
Proof.
  cbn [denotes]. eexists. unfold two_lists. rewrite lookup_singleton_eq. split; [done |].
  split; [apply parse_wf | apply parse_set].
Qed.

Lemma postings_operations_correct_witness :
  opens_set two_lists (postings_intersection true two_lists (Tbin stored_v1) (Tres RPostings 0))
    (posting_keys stored_v1 ∩ posting_keys other_v2) /\
  opens_set two_lists (postings_union true two_lists (Tbin stored_v1) (Tres RPostings 0))
    (posting_keys stored_v1 ∪ posting_keys other_v2) /\
  opens_set two_lists (postings_difference true two_lists (Tbin stored_v1) (Tres RPostings 0))
    (posting_keys stored_v1 ∖ posting_keys other_v2).
Proof.
  apply (postings_operations_correct true two_lists (Tbin stored_v1) (Tres RPostings 0)
           (posting_keys stored_v1) (posting_keys other_v2)).
  - reflexivity.
  - reflexivity.
  - reflexivity.
  - apply other_denoted.
  - intros X. apply fits_subset. vm_compute. reflexivity.
Defined.

Lemma intersect_all_correct_witness :
  exists h' id Y,
    postings_intersect_all true two_lists [Tbin stored_v2; Tres RPostings 0; Tbin stored_v1] =
      (h', Val (Ttuple [ATOM_OK; Tres RPostings id])) /\
    denotes h' (Tres RPostings id) Y /\
    (forall k, k ∈ Y <-> [Tbin stored_v2; Tres RPostings 0; Tbin stored_v1] <> [] /\
       Forall (fun X => k ∈ X) [posting_keys stored_v2; posting_keys other_v2; posting_keys stored_v1]) /\
    (forall t X, denotes two_lists t X -> denotes h' t X).
Proof.
  apply (intersect_all_correct true two_lists [Tbin stored_v2; Tres RPostings 0; Tbin stored_v1]
           [posting_keys stored_v2; posting_keys other_v2; posting_keys stored_v1]).
  - reflexivity.
  - reflexivity.
  - repeat apply List.Forall2_cons; [reflexivity | apply other_denoted | reflexivity | apply List.Forall2_nil].
  - intros X Y HX. apply fits_subset. rewrite list_elem_of_In in HX.
    destruct HX as [<- | [<- | [<- | []]]]; vm_compute; reflexivity.
Defined.

End ErlPostingWitness.
