(* ===== verification/CompactionFilter.v ===== *)
(** * The compaction filter

    [c_src/compaction_filter.h] and [c_src/compaction_filter.cc], with the
    branch of [parse_cf_option] ([c_src/erocksdb_db.cc]) that builds the filter
    factory from an Erlang option.

    A filter decides, for every entry a compaction visits, whether it is kept,
    removed or rewritten.  In declarative mode the decision comes from a list of
    rules; in callback mode the compaction thread sends the entry to an Erlang
    process and waits, with a timeout, for [compaction_filter_reply].

    - The batch resources the two threads share are a heap
      [gmap nat CompactionBatchResource]; the calls the Erlang side makes while
      the compaction thread waits, and those it makes between the end of the
      wait and the read of the result, are explicit sequences of native calls.
    - [size_t] and [uint64_t] arithmetic wraps; a read outside the key is
      [Undef].
    - [std::chrono::system_clock] is an argument: [clock i] is what the reading
      made for the [i]-th rule returns. *)

From stdpp Require Import base list numbers strings gmap.
From Stdlib Require Import ZArith Lia Ascii.
From S2P Require Import Prelude Terms Etf.

(** ** Data *)

Inductive FilterDecision := Keep | Remove | ChangeValue.

Record FilterResult := { decision : FilterDecision; new_value : bytes }.

Definition FilterResult0 (d : FilterDecision) : FilterResult :=
  {| decision := d; new_value := [] |}.

Inductive RuleType :=
| KeyPrefix | KeySuffix | KeyContains | ValueEmpty | ValuePrefix | TTLFromKey | Always.

Record FilterRule := {
  rtype : RuleType;
  pattern : bytes;
  offset : Z;               (* size_t *)
  rlength : Z;              (* size_t length *)
  ttl_seconds : Z;          (* uint64_t *)
}.

Definition FilterRule0 : FilterRule :=
  {| rtype := Always; pattern := []; offset := 0; rlength := 0; ttl_seconds := 0 |}.

Record ErlangCompactionFilter := {
  m_UseErlangCallback : bool;
  m_Rules : list FilterRule;
  m_HandlerPid : nat;
  m_BatchSize : Z;
  m_TimeoutMs : Z;
  m_HandlerDead : bool;
}.

Record ErlangCompactionFilterFactory := {
  f_UseErlangCallback : bool;
  f_Rules : list FilterRule;
  f_HandlerPid : nat;
  f_BatchSize : Z;
  f_TimeoutMs : Z;
}.

(** rocksdb::CompactionFilter::Decision and ValueType, as far as used. *)
Inductive Decision := kKeep | kRemove | kChangeValue | kPurge.
Inductive ValueType := kValue | kMergeOperand | kBlobIndex | kWideColumnEntity.

(** ** CompactionBatchResource *)

Record CompactionBatchResource := {
  m_HasResponse : bool;
  m_Results : list FilterResult;
}.

Definition CompactionBatchResource_new : CompactionBatchResource :=
  {| m_HasResponse := false; m_Results := [] |}.

Definition SetResponse (results : list FilterResult) (b : CompactionBatchResource) :
    CompactionBatchResource :=
  {| m_HasResponse := true; m_Results := results |}.

Definition HasResponse (b : CompactionBatchResource) : bool := m_HasResponse b.

Definition GetResult (b : CompactionBatchResource) (index : nat) : FilterResult :=
  match m_Results b !! index with
  | Some r => r
  | None => FilterResult0 Keep
  end.

Definition Reset (b : CompactionBatchResource) : CompactionBatchResource :=
  {| m_HasResponse := false; m_Results := [] |}.

(** [wait_for] with a predicate returns the value of the predicate when the
    wait ends, by a notification or by the timeout: [b] is the resource at that
    moment. *)
Definition WaitForResponse (b : CompactionBatchResource) : bool := m_HasResponse b.

Definition batch_heap : Type := gmap nat CompactionBatchResource.

(** ** CompactionFilterReply *)

(** One element of the decision list. *)
Definition parse_decision (head : term) : FilterResult :=
  if is_atom "keep" head then FilterResult0 Keep
  else if is_atom "remove" head then FilterResult0 Remove
  else match enif_get_tuple head with
       | Some [t0; t1] =>
           if is_atom "change_value" t0 then
             match enif_inspect_binary t1 with
             | Some bin => {| decision := ChangeValue; new_value := bin |}
             | None => FilterResult0 Keep
             end
           else FilterResult0 Keep
       | _ => FilterResult0 Keep
       end.

Definition CompactionFilterReply (h : batch_heap) (argv : list term) : batch_heap * reply :=
  match argv with
  | [ref; decisions] =>
      match enif_get_resource RCompactionBatch ref with
      | Some id =>
          match h !! id with
          | Some batch =>
              (<[id := SetResponse (parse_decision <$> list_cells decisions) batch]> h,
               Reply ATOM_OK)
          | None => (h, Badarg)
          end
      | None => (h, Badarg)
      end
  | _ => (h, Badarg)
  end.

(** A sequence of calls of the Erlang side. *)
Definition run_replies (h : batch_heap) (calls : list (list term)) : batch_heap :=
  fold_left (fun h argv => (CompactionFilterReply h argv).1) calls h.

(** ** Rules *)

(** [rocksdb::Slice::starts_with] *)
Definition starts_with (s x : bytes) : bool :=
  (length x <=? length s)%nat && bool_decide (take (length x) s = x).

(** [std::string::find]: the first position where [p] occurs in [s]. *)
Fixpoint str_find (s p : bytes) : option nat :=
  if starts_with s p then Some 0%nat
  else match s with
       | [] => None
       | _ :: r => match str_find r p with Some n => Some (S n) | None => None end
       end.

(** [timestamp = (timestamp << 8) | data[i]] for [n] bytes from position
    [pos]. *)
Fixpoint read_timestamp (key : bytes) (pos : Z) (n : nat) (timestamp : Z) : outcome Z :=
  match n with
  | O => Ok timestamp
  | S n =>
      if pos <? zlen key then
        match key !! Z.to_nat pos with
        | Some b => read_timestamp key (pos + 1) n
                      (Z.lor (u64 (Z.shiftl timestamp 8)) (byte_val b))
        | None => Undef
        end
      else Undef
  end.

Definition CheckTTL (now : Z) (key : bytes) (offset length ttl : Z) : outcome bool :=
  if zlen key <? u64 (offset + length) then Ok false
  else
    let! timestamp := read_timestamp key offset (Z.to_nat (Z.min length 8)) 0 in
    Ok (u64 (timestamp + ttl) <? u64 now).

(** One iteration of the loop of ApplyRules: does the rule return Remove? *)
Definition rule_fires (now : Z) (key value : bytes) (rule : FilterRule) : outcome bool :=
  match rtype rule with
  | KeyPrefix => Ok (starts_with key (pattern rule))
  | KeySuffix =>
      if (length (pattern rule) <=? length key)%nat
      then Ok (bool_decide (drop (length key - length (pattern rule)) key = pattern rule))
      else Ok false
  | KeyContains => Ok (match str_find key (pattern rule) with Some _ => true | None => false end)
  | ValueEmpty => Ok (match value with [] => true | _ => false end)
  | ValuePrefix => Ok (starts_with value (pattern rule))
  | TTLFromKey => CheckTTL now key (offset rule) (rlength rule) (ttl_seconds rule)
  | Always => Ok true
  end.

Fixpoint ApplyRules (clock : nat -> Z) (rules : list FilterRule) (key value : bytes) :
    outcome FilterResult :=
  match rules with
  | [] => Ok (FilterResult0 Keep)
  | rule :: rest =>
      let! fires := rule_fires (clock 0%nat) key value rule in
      if fires then Ok (FilterResult0 Remove)
      else ApplyRules (fun i => clock (S i)) rest key value
  end.

(** ** The callback *)

(** What the compaction thread meets outside: whether the handler process is
    alive, whether the message can be sent, and how the Erlang side reacts to
    it: the native calls made before the wait ends, and those made after it and
    before the result is read. *)
Record HandlerWorld := {
  process_alive : bool;
  send_ok : bool;
  during_wait : term -> list (list term);
  after_wait : term -> list (list term);
}.

Definition set_dead (f : ErlangCompactionFilter) : ErlangCompactionFilter :=
  {| m_UseErlangCallback := m_UseErlangCallback f; m_Rules := m_Rules f;
     m_HandlerPid := m_HandlerPid f; m_BatchSize := m_BatchSize f;
     m_TimeoutMs := m_TimeoutMs f; m_HandlerDead := true |}.

(** The message [{compaction_filter, BatchRef, [{Level, Key, Value}]}]. *)
Definition filter_message (id : nat) (level : Z) (key_bin value_bin : term) : term :=
  Ttuple [Tatom "compaction_filter"; Tres RCompactionBatch id;
          make_list [Ttuple [Tint level; key_bin; value_bin]]].

Definition fresh_batch (h : batch_heap) : nat := fresh (dom h : gset nat).

Definition CallErlangHandler `{NifEnv} (w : HandlerWorld) (h : batch_heap)
    (f : ErlangCompactionFilter) (level : Z) (key value : bytes) :
    batch_heap * ErlangCompactionFilter * FilterResult :=
  if negb alloc_env_ok then (h, f, FilterResult0 Keep)
  else if negb (process_alive w) then (h, set_dead f, FilterResult0 Keep)
  else if negb alloc_resource_ok then (h, f, FilterResult0 Keep)
  else
    let id := fresh_batch h in
    let h1 := <[id := CompactionBatchResource_new]> h in
    match make_new_binary key with
    | None => (h1, f, FilterResult0 Keep)
    | Some key_bin =>
        match make_new_binary value with
        | None => (h1, f, FilterResult0 Keep)
        | Some value_bin =>
            let msg := filter_message id level key_bin value_bin in
            if negb (send_ok w) then (h1, set_dead f, FilterResult0 Keep)
            else
              let h2 := run_replies h1 (during_wait w msg) in
              let got_response :=
                match h2 !! id with Some b => WaitForResponse b | None => false end in
              let h3 := run_replies h2 (after_wait w msg) in
              if got_response
              then (h3, f, match h3 !! id with
                           | Some b => GetResult b 0
                           | None => FilterResult0 Keep
                           end)
              else (h3, f, FilterResult0 Keep)
        end
    end.

(** ** FilterV2 *)

Record filter_out := {
  o_heap : batch_heap;
  o_filter : ErlangCompactionFilter;
  o_decision : Decision;
  o_new_value : bytes;          (* *new_value after the call *)
}.

(** The decision for the entry in either mode. *)
Definition evaluate `{NifEnv} (w : HandlerWorld) (clock : nat -> Z) (h : batch_heap)
    (f : ErlangCompactionFilter) (level : Z) (key existing_value : bytes) :
    outcome (batch_heap * ErlangCompactionFilter * FilterResult) :=
  if m_UseErlangCallback f then
    if m_HandlerDead f then Ok (h, f, FilterResult0 Keep)
    else Ok (CallErlangHandler w h f level key existing_value)
  else
    let! r := ApplyRules clock (m_Rules f) key existing_value in Ok (h, f, r).

Definition FilterV2 `{NifEnv} (w : HandlerWorld) (clock : nat -> Z) (h : batch_heap)
    (f : ErlangCompactionFilter) (level : Z) (key : bytes) (value_type : ValueType)
    (existing_value : bytes) (nv : bytes) : outcome filter_out :=
  let! (h', f', result) := evaluate w clock h f level key existing_value in
  match value_type with
  | kMergeOperand =>
      Ok {| o_heap := h'; o_filter := f';
            o_decision := match decision result with Remove => kRemove | _ => kKeep end;
            o_new_value := nv |}
  | _ =>
      match decision result with
      | Remove => Ok {| o_heap := h'; o_filter := f'; o_decision := kPurge; o_new_value := nv |}
      | ChangeValue =>
          Ok {| o_heap := h'; o_filter := f'; o_decision := kChangeValue;
                o_new_value := new_value result |}
      | Keep => Ok {| o_heap := h'; o_filter := f'; o_decision := kKeep; o_new_value := nv |}
      end
  end.

(** ** Constructors and the factory *)

Definition ErlangCompactionFilter_rules (rules : list FilterRule) : ErlangCompactionFilter :=
  {| m_UseErlangCallback := false; m_Rules := rules; m_HandlerPid := 0; m_BatchSize := 0;
     m_TimeoutMs := 0; m_HandlerDead := false |}.

Definition ErlangCompactionFilter_handler (pid : nat) (batch_size timeout_ms : Z) :
    ErlangCompactionFilter :=
  {| m_UseErlangCallback := true; m_Rules := []; m_HandlerPid := pid;
     m_BatchSize := batch_size; m_TimeoutMs := timeout_ms; m_HandlerDead := false |}.

Definition CreateFactory_rules (rules : list FilterRule) : ErlangCompactionFilterFactory :=
  {| f_UseErlangCallback := false; f_Rules := rules; f_HandlerPid := 0; f_BatchSize := 0;
     f_TimeoutMs := 0 |}.

Definition CreateFactory_handler (pid : nat) (batch_size timeout_ms : Z) :
    ErlangCompactionFilterFactory :=
  {| f_UseErlangCallback := true; f_Rules := []; f_HandlerPid := pid;
     f_BatchSize := batch_size; f_TimeoutMs := timeout_ms |}.

Definition CreateCompactionFilter (ff : ErlangCompactionFilterFactory) : ErlangCompactionFilter :=
  if f_UseErlangCallback ff
  then ErlangCompactionFilter_handler (f_HandlerPid ff) (f_BatchSize ff) (f_TimeoutMs ff)
  else ErlangCompactionFilter_rules (f_Rules ff).

(** ** The [compaction_filter] option *)

(** [enif_get_map_value] for an atom key. *)
Fixpoint get_map_value (a : string) (l : list (term * term)) : option term :=
  match l with
  | [] => None
  | (k, v) :: r => if is_atom a k then Some v else get_map_value a r
  end.

(** The characters of a C string: those before the first NUL. *)
Fixpoint c_str (s : string) : string :=
  match s with
  | EmptyString => EmptyString
  | String c r => if bool_decide (c = Ascii.zero) then EmptyString else String c (c_str r)
  end.

(** [enif_get_atom] into a buffer of 64 bytes: fails when the name and its NUL
    do not fit. *)
Definition get_atom64 (t : term) : option string :=
  match t with
  | Tatom a => if (String.length a <? 64)%nat then Some a else None
  | _ => None
  end.

Definition with_pattern (ty : RuleType) (t : term) : option FilterRule :=
  match enif_inspect_binary t with
  | Some bin => Some {| rtype := ty; pattern := bin; offset := 0; rlength := 0; ttl_seconds := 0 |}
  | None => None
  end.

Definition bare_rule (ty : RuleType) : FilterRule :=
  {| rtype := ty; pattern := []; offset := 0; rlength := 0; ttl_seconds := 0 |}.

(** One iteration of the loop over [rules_term]: the rule pushed, if any. *)
Definition parse_rule (head : term) : option FilterRule :=
  match enif_get_tuple head with
  | None | Some [] => None
  | Some (t0 :: rest) =>
      let arity2 := match rest with [t1] => Some t1 | _ => None end in
      match is_atom "key_prefix" t0, arity2 with
      | true, Some t1 => with_pattern KeyPrefix t1
      | _, _ =>
      match is_atom "key_suffix" t0, arity2 with
      | true, Some t1 => with_pattern KeySuffix t1
      | _, _ =>
      match is_atom "key_contains" t0, arity2 with
      | true, Some t1 => with_pattern KeyContains t1
      | _, _ =>
      match rest with
      | [] =>
          match get_atom64 t0 with
          | Some buf =>
              if bool_decide (c_str buf = "value_empty"%string) then Some (bare_rule ValueEmpty)
              else if bool_decide (c_str buf = "always_delete"%string) then Some (bare_rule Always)
              else None
          | None => None
          end
      | _ =>
      match is_atom "value_prefix" t0, arity2 with
      | true, Some t1 => with_pattern ValuePrefix t1
      | _, _ =>
          match rest with
          | [t1; t2; t3] =>
              if is_atom "ttl_from_key" t0 then
                match enif_get_uint t1, enif_get_uint t2, enif_get_uint64 t3 with
                | Some off, Some len, Some ttl =>
                    Some {| rtype := TTLFromKey; pattern := []; offset := off;
                            rlength := len; ttl_seconds := ttl |}
                | _, _, _ => None
                end
              else None
          | _ => None
          end
      end
      end
      end
      end
      end
  end.

Definition parse_rules (rules_term : term) : list FilterRule :=
  omap parse_rule (list_cells rules_term).

(** [enif_get_uint] into a variable that already holds a default. *)
Definition uint_or (dflt : Z) (t : option term) : Z :=
  match t with
  | Some t => match enif_get_uint t with Some v => v | None => dflt end
  | None => dflt
  end.

(** The branch of [parse_cf_option]: [inl] when it returns an error atom,
    otherwise the factory left in [opts.compaction_filter_factory]. *)
Definition parse_compaction_filter (opt : term) (current : option ErlangCompactionFilterFactory) :
    term + option ErlangCompactionFilterFactory :=
  match opt with
  | Tmap l =>
      match get_map_value "rules" l with
      | Some rules_term =>
          match parse_rules rules_term with
          | [] => inr current
          | rules => inr (Some (CreateFactory_rules rules))
          end
      | None =>
          match get_map_value "handler" l with
          | Some handler_term =>
              match handler_term with
              | Tpid pid =>
                  inr (Some (CreateFactory_handler pid (uint_or 100 (get_map_value "batch_size" l))
                               (uint_or 5000 (get_map_value "timeout" l))))
              | _ => inl (Tatom "badarg")
              end
          | None => inr current
          end
      end
  | _ => inr current
  end.

(** ** What the rules mean *)

(** Big-endian value of a field. *)
Definition be_val (s : bytes) : Z := fold_left (fun acc b => acc * 256 + byte_val b) s 0.

(** The timestamp field a TTL rule reads: at most eight bytes. *)
Definition ttl_field (key : bytes) (rule : FilterRule) : bytes :=
  take (Z.to_nat (Z.min (rlength rule) 8)) (drop (Z.to_nat (offset rule)) key).

(** The entries a rule is documented to delete. *)
Definition rule_matches (now : Z) (key value : bytes) (rule : FilterRule) : Prop :=
  match rtype rule with
  | KeyPrefix => exists r, key = pattern rule ++ r
  | KeySuffix => exists r, key = r ++ pattern rule
  | KeyContains => exists a b, key = a ++ pattern rule ++ b
  | ValueEmpty => value = []
  | ValuePrefix => exists r, value = pattern rule ++ r
  | TTLFromKey => offset rule + rlength rule <= zlen key /\
                  be_val (ttl_field key rule) + ttl_seconds rule < now
  | Always => True
  end.

(** The fields of a rule are in the range of their types, as [enif_get_uint]
    and [enif_get_uint64] leave them. *)
Definition rule_ok (rule : FilterRule) : Prop :=
  0 <= offset rule < 2 ^ 32 /\ 0 <= rlength rule < 2 ^ 32 /\ 0 <= ttl_seconds rule < 2 ^ 64.

(** No TTL rule overflows on the key. *)
Definition no_ttl_overflow (key : bytes) (rule : FilterRule) : Prop :=
  rtype rule = TTLFromKey -> be_val (ttl_field key rule) + ttl_seconds rule < 2 ^ 64.

(** ** Lemmas: strings *)

Lemma starts_with_spec s x : starts_with s x = true <-> exists r, s = x ++ r.
Proof.
  unfold starts_with. rewrite andb_true_iff, Nat.leb_le, bool_decide_eq_true. split.
  - intros [_ Ht]. exists (drop (length x) s). rewrite <- Ht at 1. by rewrite take_drop.
  - intros [r ->]. rewrite length_app, take_app_length. split; [lia | done].
Qed.

Lemma ends_with_spec (s x : bytes) :
  (length x <= length s)%nat /\ drop (length s - length x) s = x <-> exists r, s = r ++ x.
Proof.
  split.
  - intros [_ Hd]. exists (take (length s - length x) s).
    transitivity (take (length s - length x) s ++ drop (length s - length x) s);
      [by rewrite take_drop | by rewrite Hd].
  - intros [r ->]. rewrite length_app. split; [lia |].
    replace (length r + length x - length x)%nat with (length r) by lia.
    by rewrite drop_app_length.
Qed.

Lemma str_find_spec s p : is_Some (str_find s p) <-> exists a b, s = a ++ p ++ b.
Proof.
  induction s as [|c s IH]; cbn [str_find].
  - destruct (starts_with [] p) eqn:E.
    + apply starts_with_spec in E as [r Hr]. split; [intros _; exists [], r; done | by eexists].
    + split; [intros [? [=]] |]. intros (a & b & H). exfalso.
      symmetry in H. apply app_eq_nil in H as [-> H].
      assert (starts_with [] p = true) by (apply starts_with_spec; by exists b). congruence.
  - destruct (starts_with (c :: s) p) eqn:E.
    + apply starts_with_spec in E as [r Hr]. split; [intros _; exists [], r; done | by eexists].
    + transitivity (is_Some (str_find s p)); [destruct (str_find s p); split; intros [? [=]]; by eexists |].
      rewrite IH. split.
      * intros (a & b & ->). by exists (c :: a), b.
      * intros ([|c' a] & b & H); [| exists a, b; by inversion H].
        assert (starts_with (c :: s) p = true) by (apply starts_with_spec; by exists b). congruence.
Qed.

(** ** Lemmas: timestamps *)

Lemma be_val_fold s acc :
  fold_left (fun acc b => acc * 256 + byte_val b) s acc = acc * 256 ^ zlen s + be_val s.
Proof.
  unfold be_val. revert acc. induction s as [|b s IH]; intros acc; cbn [fold_left length]; [cbn; lia |].
  rewrite IH, (IH (0 * 256 + byte_val b)), Nat2Z.inj_succ, Z.pow_succ_r by lia. ring.
Qed.

Lemma be_val_cons b s : be_val (b :: s) = byte_val b * 256 ^ zlen s + be_val s.
Proof. unfold be_val at 1. cbn [fold_left]. rewrite be_val_fold. ring. Qed.

Lemma be_val_range s : 0 <= be_val s < 256 ^ zlen s.
Proof.
  induction s as [|b s IH]; [cbn; lia |].
  rewrite be_val_cons. cbn [length]. rewrite Nat2Z.inj_succ, Z.pow_succ_r by lia.
  pose proof (byte_val_range b). nia.
Qed.

Lemma read_timestamp_spec key pos n acc :
  0 <= pos -> pos + Z.of_nat n <= zlen key -> 0 <= acc -> acc * 256 ^ Z.of_nat n < 2 ^ 64 ->
  (acc + 1) * 256 ^ Z.of_nat n <= 2 ^ 64 ->
  read_timestamp key pos n acc =
  Ok (acc * 256 ^ Z.of_nat n + be_val (take n (drop (Z.to_nat pos) key))).
Proof.
  revert pos acc. induction n as [|n IH]; intros pos acc Hpos Hlen Hacc Hb Hb1.
  - rewrite take_0. change (be_val []) with 0. cbn [read_timestamp]. f_equal. cbn. lia.
  - cbn [read_timestamp]. rewrite (proj2 (Z.ltb_lt _ _)) by lia.
    destruct (lookup_lt_is_Some_2 key (Z.to_nat pos)) as [b Hb0]; [lia |].
    rewrite Hb0. rewrite Nat2Z.inj_succ, Z.pow_succ_r in * by lia.
    pose proof (Z.pow_pos_nonneg 256 (Z.of_nat n) ltac:(lia) ltac:(lia)).
    pose proof (byte_val_range b).
    assert (Hs : Z.lor (u64 (Z.shiftl acc 8)) (byte_val b) = acc * 256 + byte_val b).
    { rewrite wrap_small by (rewrite Z.shiftl_mul_pow2 by lia; nia).
      apply (lor_shiftl_add acc (byte_val b) 8); lia. }
    rewrite Hs, IH by nia. rewrite (drop_S _ _ _ Hb0). cbn [take].
    rewrite be_val_cons, length_take, length_drop.
    replace (Z.to_nat (pos + 1)) with (S (Z.to_nat pos)) by lia.
    rewrite Nat.min_l by lia. f_equal. ring.
Qed.

(** The TTL check of a parsed rule reads inside the key, and computes the sum
    of the timestamp and the TTL modulo 2^64. *)
Lemma check_ttl_spec now key rule :
  rule_ok rule ->
  CheckTTL now key (offset rule) (rlength rule) (ttl_seconds rule) =
  Ok ((offset rule + rlength rule <=? zlen key) &&
      (u64 (be_val (ttl_field key rule) + ttl_seconds rule) <? u64 now)).
Proof.
  intros (Ho & Hl & Ht). unfold CheckTTL. rewrite wrap_small by lia.
  destruct (zlen key <? offset rule + rlength rule) eqn:E.
  - rewrite (proj2 (Z.leb_gt _ _)) by lia. done.
  - rewrite (proj2 (Z.leb_le _ _)) by lia.
    assert (Hpow : 256 ^ Z.of_nat (Z.to_nat (Z.min (rlength rule) 8)) <= 2 ^ 64).
    { change (2 ^ 64) with (256 ^ 8). apply Z.pow_le_mono_r; lia. }
    pose proof (Z.pow_pos_nonneg 256 (Z.of_nat (Z.to_nat (Z.min (rlength rule) 8))) ltac:(lia) ltac:(lia)).
    rewrite read_timestamp_spec by lia. cbn [obind]. by rewrite Z.mul_0_l.
Qed.

Lemma rule_fires_defined now key value rule :
  rule_ok rule -> exists b, rule_fires now key value rule = Ok b.
Proof.
  intros H. unfold rule_fires. destruct (rtype rule); try (by eexists).
  - case_match; by eexists.
  - rewrite check_ttl_spec by done. by eexists.
Qed.

Lemma rule_fires_spec now key value rule :
  rule_ok rule -> no_ttl_overflow key rule -> 0 <= now < 2 ^ 64 ->
  exists b, rule_fires now key value rule = Ok b /\ (b = true <-> rule_matches now key value rule).
Proof.
  intros Hok Hov Hnow. unfold rule_fires, rule_matches. destruct (rtype rule) eqn:Et.
  - eexists. split; [done | apply starts_with_spec].
  - setoid_rewrite <- ends_with_spec. case_match eqn:El; eexists; split; try done.
    + rewrite bool_decide_eq_true. apply Nat.leb_le in El. tauto.
    + apply Nat.leb_gt in El. split; [done | lia].
  - eexists. split; [done |]. rewrite <- str_find_spec.
    destruct (str_find _ _) as [n|]; split; intros Hs; [by eexists | done | done | by destruct Hs].
  - eexists. split; [done |]. by destruct value.
  - eexists. split; [done | apply starts_with_spec].
  - rewrite check_ttl_spec by done. eexists. split; [done |].
    specialize (Hov Et). pose proof (be_val_range (ttl_field key rule)).
    destruct Hok as (? & ? & ?).
    rewrite !wrap_small by lia. rewrite andb_true_iff, Z.leb_le, Z.ltb_lt. done.
  - eexists. split; done.
Qed.

(** ** Lemmas: rule lists *)

Lemma apply_rules_spec clock rules key value :
  Forall rule_ok rules -> Forall (no_ttl_overflow key) rules ->
  (forall i, 0 <= clock i < 2 ^ 64) ->
  let removed := exists i rule, rules !! i = Some rule /\ rule_matches (clock i) key value rule in
  (ApplyRules clock rules key value = Ok (FilterResult0 Remove) /\ removed) \/
  (ApplyRules clock rules key value = Ok (FilterResult0 Keep) /\ ~ removed).
Proof.
  cbn zeta. intros Hok. revert clock.
  induction Hok as [|rule rules Hr Hrs IH]; intros clock Hov Hclock.
  - right. split; [done |]. intros (i & rule & H & _). done.
  - apply Forall_cons in Hov as [Hov Hovs]. cbn [ApplyRules].
    destruct (rule_fires_spec (clock 0%nat) key value rule Hr Hov (Hclock 0%nat)) as (b & -> & Hb).
    cbn [obind]. destruct b.
    { left. split; [done |]. exists 0%nat, rule. split; [done | by apply Hb]. }
    destruct (IH (fun i => clock (S i)) Hovs (fun i => Hclock (S i))) as [[-> Hm] | [-> Hm]].
    + left. split; [done |]. destruct Hm as (i & r & Hi & Hm). by exists (S i), r.
    + right. split; [done |]. intros ([|i] & r & Hi & H').
      * cbn in Hi. simplify_eq. by apply Hb in H'.
      * apply Hm. by exists i, r.
Qed.

Lemma with_pattern_ok ty t r : with_pattern ty t = Some r -> rule_ok r.
Proof. unfold with_pattern. case_match; intros; simplify_eq. repeat split; cbn; lia. Qed.

Lemma parse_rule_ok head r : parse_rule head = Some r -> rule_ok r.
Proof.
  unfold parse_rule. intros H.
  repeat case_match; simplify_eq; eauto using with_pattern_ok.
  all: try (repeat split; cbn; lia).
  all: repeat match goal with
       | E : enif_get_uint _ = Some _ |- _ => apply get_uint_Some in E as [_ E]
       | E : enif_get_uint64 ?t = Some _ |- _ =>
           destruct t; cbn in E; try done; case_match; simplify_eq
       end.
  all: repeat split; cbn; lia.
Qed.

Lemma parse_rules_ok t : Forall rule_ok (parse_rules t).
Proof.
  unfold parse_rules. apply Forall_forall. intros r Hr.
  apply list_elem_of_omap in Hr as (head & _ & Hh). by apply parse_rule_ok in Hh.
Qed.

(** ** Lemmas: replies *)

(** The results a native call hands to the batch [id]. *)
Definition reply_to (id : nat) (argv : list term) : option (list FilterResult) :=
  match argv with
  | [Tres RCompactionBatch id'; ds] =>
      if decide (id = id') then Some (parse_decision <$> list_cells ds) else None
  | _ => None
  end.

(** The batch after a sequence of calls: the last reply counts. *)
Definition after_replies (id : nat) (b : CompactionBatchResource) (calls : list (list term)) :
    CompactionBatchResource :=
  match last (omap (reply_to id) calls) with
  | Some rs => SetResponse rs b
  | None => b
  end.

Lemma reply_lookup h argv id b :
  h !! id = Some b ->
  (CompactionFilterReply h argv).1 !! id =
  Some (match reply_to id argv with Some rs => SetResponse rs b | None => b end).
Proof.
  intros Hb. destruct argv as [|ref [|ds [|? ?]]]; try done.
  all: destruct ref as [| | | | | | | |[] id0|]; try done.
  cbn. rewrite decide_True by done.
  destruct (decide (id = id0)) as [<- | Hne]; cbn.
  - rewrite Hb. apply lookup_insert_eq.
  - destruct (h !! id0); [| done]. etransitivity; [by apply lookup_insert_ne | done].
Qed.

Lemma run_replies_lookup calls h id b :
  h !! id = Some b -> run_replies h calls !! id = Some (after_replies id b calls).
Proof.
  unfold run_replies, after_replies. revert h b.
  induction calls as [|argv calls IH]; intros h b Hb; [done |].
  cbn [fold_left omap list_omap]. rewrite (IH _ _ (reply_lookup _ argv _ _ Hb)). f_equal.
  destruct (reply_to id argv) as [rs|] eqn:Er; [| done].
  rewrite last_cons. destruct (last (omap (reply_to id) calls)); done.
Qed.

Lemma after_replies_app id b l1 l2 :
  after_replies id b (l1 ++ l2) = after_replies id (after_replies id b l1) l2.
Proof.
  unfold after_replies. rewrite omap_app, last_app.
  destruct (last (omap (reply_to id) l2)), (last (omap (reply_to id) l1)); done.
Qed.

(** What the callback answers: the first result of the last reply, provided one
    arrived before the wait ended. *)
Definition handler_answer (id : nat) (during after : list (list term)) : FilterResult :=
  match omap (reply_to id) during with
  | [] => FilterResult0 Keep
  | _ => match last (omap (reply_to id) (during ++ after)) with
         | Some (r :: _) => r
         | _ => FilterResult0 Keep
         end
  end.

(** The callback reaches the handler. *)
Definition reaches `{NifEnv} (w : HandlerWorld) (key value : bytes) : bool :=
  alloc_env_ok && process_alive w && alloc_resource_ok && new_binary_ok (length key) &&
  new_binary_ok (length value) && send_ok w.

Definition entry_message (h : batch_heap) (level : Z) (key value : bytes) : term :=
  filter_message (fresh_batch h) level (Tbin key) (Tbin value).

Lemma get_result_answer id during after b :
  b = CompactionBatchResource_new ->
  (if WaitForResponse (after_replies id b during)
   then GetResult (after_replies id b (during ++ after)) 0 else FilterResult0 Keep) =
  handler_answer id during after.
Proof.
  intros ->. unfold handler_answer, after_replies.
  destruct (omap (reply_to id) during) as [|rs l] eqn:E; [done |].
  rewrite omap_app, E, !last_app.
  destruct (last (rs :: l)) as [x|] eqn:El; [| by apply last_None in El].
  cbn [WaitForResponse SetResponse m_HasResponse].
  destruct (last (omap (reply_to id) after)) as [[|r q]|]; try done. by destruct x.
Qed.

Lemma call_handler_spec `{NifEnv} w h f level key value :
  exists h',
    CallErlangHandler w h f level key value =
    if reaches w key value
    then (h', f, handler_answer (fresh_batch h) (during_wait w (entry_message h level key value))
                   (after_wait w (entry_message h level key value)))
    else (h', if alloc_env_ok && (negb (process_alive w) ||
                   (alloc_resource_ok && new_binary_ok (length key) &&
                    new_binary_ok (length value) && negb (send_ok w)))
              then set_dead f else f, FilterResult0 Keep).
Proof.
  unfold CallErlangHandler, reaches, make_new_binary.
  destruct alloc_env_ok; cbn [negb andb]; [| by eexists].
  destruct (process_alive w); cbn [negb andb orb]; [| by eexists].
  destruct alloc_resource_ok; cbn [negb andb orb]; [| by eexists].
  destruct (new_binary_ok (length key)); cbn [negb andb orb]; [| by eexists].
  destruct (new_binary_ok (length value)); cbn [negb andb orb]; [| by eexists].
  destruct (send_ok w); cbn [negb andb orb]; [| by eexists].
  cbn zeta. fold (entry_message h level key value).
  set (m := entry_message h level key value). set (id := fresh_batch h).
  set (h1 := <[id:=CompactionBatchResource_new]> h).
  assert (H1 : h1 !! id = Some CompactionBatchResource_new) by apply lookup_insert_eq.
  pose proof (run_replies_lookup (during_wait w m) h1 id _ H1) as H2.
  pose proof (run_replies_lookup (after_wait w m) _ id _ H2) as H3.
  rewrite H2, H3, <- after_replies_app.
  rewrite <- (get_result_answer id _ _ CompactionBatchResource_new) by done.
  destruct (WaitForResponse _); by eexists.
Qed.

(** ** Theorems *)

(** How RocksDB sees a decision, by the kind of the entry. *)
Definition removal (vt : ValueType) : Decision :=
  match vt with kMergeOperand => kRemove | _ => kPurge end.

(** Whatever terms the rules are made of, and at any clock, applying what the parser
    made of them reads only inside the key. *)
Theorem rules_always_defined (t : term) (clock : nat -> Z) (key value : bytes) :
  exists r, ApplyRules clock (parse_rules t) key value = Ok r.
Proof.
  pose proof (parse_rules_ok t) as H. revert clock. induction H as [|rule rules Hr _ IH]; intros clock.
  - by eexists.
  - cbn [ApplyRules]. destruct (rule_fires_defined (clock 0%nat) key value rule Hr) as [[] ->]; cbn [obind];
      [by eexists | apply IH].
Qed.

(** *** The documented rules

    The type [filter_rule()] of [rocksdb.erl] and the table of
    [guides/compaction_filters.md]: what a user writes, and what it means. *)
Inductive filter_rule :=
| key_prefix (p : bytes) | key_suffix (p : bytes) | key_contains (p : bytes)
| value_empty | value_prefix (p : bytes)
| ttl_from_key (Offset Length TTLSeconds : Z)
| always_delete.

Definition filter_rule_term (r : filter_rule) : term :=
  match r with
  | key_prefix p => Ttuple [Tatom "key_prefix"; Tbin p]
  | key_suffix p => Ttuple [Tatom "key_suffix"; Tbin p]
  | key_contains p => Ttuple [Tatom "key_contains"; Tbin p]
  | value_empty => Ttuple [Tatom "value_empty"]
  | value_prefix p => Ttuple [Tatom "value_prefix"; Tbin p]
  | ttl_from_key o l t => Ttuple [Tatom "ttl_from_key"; Tint o; Tint l; Tint t]
  | always_delete => Ttuple [Tatom "always_delete"]
  end.

(** The entries a rule deletes. *)
Definition deletes (now : Z) (key value : bytes) (r : filter_rule) : Prop :=
  match r with
  | key_prefix p => exists rest, key = p ++ rest
  | key_suffix p => exists before, key = before ++ p
  | key_contains p => exists before rest, key = before ++ p ++ rest
  | value_empty => value = []
  | value_prefix p => exists rest, value = p ++ rest
  | ttl_from_key o l t => exists before stamp rest,
      key = before ++ stamp ++ rest /\ zlen before = o /\ zlen stamp = l /\ be_val stamp + t < now
  | always_delete => True
  end.

(** The numbers of a time-to-live rule fit the types they are read into, the stamp is
    at most eight bytes, and the expiry time of the key does not wrap. *)
Definition in_range (key : bytes) (r : filter_rule) : Prop :=
  match r with
  | ttl_from_key o l t => 0 <= o < 2 ^ 32 /\ 0 <= l <= 8 /\ 0 <= t < 2 ^ 64 /\
      be_val (take (Z.to_nat l) (drop (Z.to_nat o) key)) + t < 2 ^ 64
  | _ => True
  end.

(** The struct the parser should fill for a rule. *)
Definition rule_of (r : filter_rule) : FilterRule :=
  match r with
  | key_prefix p => {| rtype := KeyPrefix; pattern := p; offset := 0; rlength := 0; ttl_seconds := 0 |}
  | key_suffix p => {| rtype := KeySuffix; pattern := p; offset := 0; rlength := 0; ttl_seconds := 0 |}
  | key_contains p => {| rtype := KeyContains; pattern := p; offset := 0; rlength := 0; ttl_seconds := 0 |}
  | value_empty => bare_rule ValueEmpty
  | value_prefix p => {| rtype := ValuePrefix; pattern := p; offset := 0; rlength := 0; ttl_seconds := 0 |}
  | ttl_from_key o l t => {| rtype := TTLFromKey; pattern := []; offset := o; rlength := l; ttl_seconds := t |}
  | always_delete => bare_rule Always
  end.

Lemma parse_rule_term key r : in_range key r -> parse_rule (filter_rule_term r) = Some (rule_of r).
Proof.
  destruct r as [p|p|p| |p|o l t|]; cbn; intros H; try reflexivity.
  destruct H as (Ho & Hl & Ht & _).
  destruct (0 <=? o) eqn:E1, (o <? _) eqn:E2, (0 <=? l) eqn:E3, (l <? _) eqn:E4; try lia. cbn.
  destruct (0 <=? t) eqn:E5, (t <? _) eqn:E6; try lia. done.
Qed.

(** Parsing undoes the documented Erlang form of the rules: every rule list a
    caller can write reaches the filter unchanged and in order. *)
Theorem parse_rules_roundtrip (key : bytes) (rules : list filter_rule) :
  Forall (in_range key) rules ->
  parse_rules (make_list (filter_rule_term <$> rules)) = rule_of <$> rules.
Proof.
  intros H. unfold parse_rules. rewrite list_cells_make_list.
  induction H as [|r rs Hr Hrs IH]; [done |].
  cbn [fmap list_fmap omap list_omap]. by rewrite (parse_rule_term key), IH.
Qed.

(** The stamp of a key. *)
Lemma split_stamp (key : bytes) o l (P : bytes -> Prop) :
  0 <= o -> 0 <= l ->
  (exists before stamp rest, key = before ++ stamp ++ rest /\ zlen before = o /\ zlen stamp = l /\ P stamp) <->
  o + l <= zlen key /\ P (take (Z.to_nat l) (drop (Z.to_nat o) key)).
Proof.
  intros Ho Hl. split.
  - intros (before & stamp & rest & -> & Hb & Hs & HP). rewrite !length_app. split; [lia |].
    rewrite drop_app_length' by lia. by rewrite take_app_length' by lia.
  - intros [Hlen HP]. exists (take (Z.to_nat o) key), (take (Z.to_nat l) (drop (Z.to_nat o) key)),
      (drop (Z.to_nat l) (drop (Z.to_nat o) key)).
    rewrite !take_drop, length_take, length_take, length_drop. split_and!; [done | lia | lia | done].
Qed.

Lemma rule_of_matches now key value r :
  in_range key r -> rule_matches now key value (rule_of r) <-> deletes now key value r.
Proof.
  destruct r as [p|p|p| |p|o l t|]; intros H; try reflexivity.
  destruct H as (Ho & Hl & _). cbn [deletes]. rewrite (split_stamp key o l (fun s => be_val s + t < now)) by lia.
  unfold rule_matches, ttl_field. cbn. by rewrite Z.min_l by lia.
Qed.

Lemma rule_of_ok key r : in_range key r -> rule_ok (rule_of r) /\ no_ttl_overflow key (rule_of r).
Proof.
  unfold rule_ok, no_ttl_overflow, ttl_field. destruct r as [p|p|p| |p|o l t|]; cbn; intros H;
    try (split; [lia | discriminate]).
  destruct H as (Ho & Hl & Ht & Hs). split; [lia |]. intros _. by rewrite Z.min_l by lia.
Qed.

(** C5.  A filter opened with the option [#{rules => Rules}], for a non-empty list of
    rules of the documented type [filter_rule()], removes an entry exactly when one
    of them deletes it as the guide says: the key begins with, ends with or contains
    the pattern, the value is empty or begins with it, the big-endian stamp at the
    offset of the key plus the TTL is before the time the rule reads, or always.
    Otherwise the entry is kept; no other state changes, and the reads are inside the
    key.  (The stamp of a TTL rule has at most eight bytes and the expiry is below
    2^64, the numbers fit the types of the parser.) *)
Theorem rules_filter_correct `{NifEnv} (l : list (term * term)) (rules : list filter_rule)
    (cur : option ErlangCompactionFilterFactory) (w : HandlerWorld) (clock : nat -> Z)
    (h : batch_heap) (level : Z) (key value nv : bytes) (vt : ValueType) :
  get_map_value "rules" l = Some (make_list (filter_rule_term <$> rules)) -> rules <> [] ->
  Forall (in_range key) rules -> (forall i, 0 <= clock i < 2 ^ 64) ->
  let deleted := exists i r, rules !! i = Some r /\ deletes (clock i) key value r in
  exists ff, parse_compaction_filter (Tmap l) cur = inr (Some ff) /\
    let call := FilterV2 w clock h (CreateCompactionFilter ff) level key vt value nv in
    let answer d := Ok {| o_heap := h; o_filter := CreateCompactionFilter ff; o_decision := d; o_new_value := nv |} in
    (deleted /\ call = answer (removal vt)) \/ (~ deleted /\ call = answer kKeep).
Proof.
  intros Hr Hne Hin Hclock. cbn zeta.
  pose proof (parse_rules_roundtrip key rules Hin) as Hp.
  exists (CreateFactory_rules (rule_of <$> rules)). split.
  { unfold parse_compaction_filter. rewrite Hr, Hp. by destruct rules. }
  assert (Hok : Forall rule_ok (rule_of <$> rules) /\ Forall (no_ttl_overflow key) (rule_of <$> rules)).
  { split; apply Forall_fmap; eapply Forall_impl; try exact Hin; intros r Hir; by apply (rule_of_ok key r). }
  destruct Hok as [Hok Hov].
  assert (Hdel : (exists i rule, (rule_of <$> rules) !! i = Some rule /\ rule_matches (clock i) key value rule) <->
                 (exists i r, rules !! i = Some r /\ deletes (clock i) key value r)).
  { split.
    - intros (i & rule & Hi & Hm). apply list_lookup_fmap_Some_1 in Hi as (r & -> & Hi). exists i, r.
      split; [done |]. apply rule_of_matches in Hm; [done |]. by apply (proj1 (Forall_lookup _ _) Hin i).
    - intros (i & r & Hi & Hm). exists i, (rule_of r). rewrite list_lookup_fmap, Hi. split; [done |].
      apply rule_of_matches; [| done]. by apply (proj1 (Forall_lookup _ _) Hin i). }
  unfold FilterV2, evaluate. cbn [CreateCompactionFilter CreateFactory_rules f_UseErlangCallback
    ErlangCompactionFilter_rules m_UseErlangCallback m_Rules f_Rules].
  destruct (apply_rules_spec clock (rule_of <$> rules) key value Hok Hov Hclock) as [[-> Hm] | [-> Hm]];
    cbn [obind]; rewrite Hdel in Hm; [left | right]; (split; [done |]); by destruct vt.
Qed.

(** The Erlang form of a decision, as [filter_decision()] documents it. *)
Definition decision_term (r : FilterResult) : term :=
  match decision r with
  | Keep => Tatom "keep"
  | Remove => Tatom "remove"
  | ChangeValue => Ttuple [Tatom "change_value"; Tbin (new_value r)]
  end.

(** What RocksDB is told for a handler's decision. *)
Definition verdict (vt : ValueType) (r : FilterResult) (nv : bytes) : Decision * bytes :=
  match decision r, vt with
  | Keep, _ => (kKeep, nv)
  | Remove, _ => (removal vt, nv)
  | ChangeValue, kMergeOperand => (kKeep, nv)
  | ChangeValue, _ => (kChangeValue, new_value r)
  end.

Lemma parse_decision_term r :
  decision (parse_decision (decision_term r)) = decision r /\
  (decision r = ChangeValue -> new_value (parse_decision (decision_term r)) = new_value r).
Proof. destruct r as [d v]. by destruct d. Qed.

Lemma filter_callback `{NifEnv} w clock h f level key vt value nv :
  m_UseErlangCallback f = true ->
  exists h' f' r,
    (h', f', r) = (if m_HandlerDead f then (h, f, FilterResult0 Keep)
                   else CallErlangHandler w h f level key value) /\
    FilterV2 w clock h f level key vt value nv =
    Ok {| o_heap := h'; o_filter := f'; o_decision := (verdict vt r nv).1;
          o_new_value := (verdict vt r nv).2 |}.
Proof.
  intros Hc. unfold FilterV2, evaluate. rewrite Hc.
  destruct (m_HandlerDead f).
  - exists h, f, (FilterResult0 Keep). split; [done |]. cbn. by destruct vt.
  - destruct (CallErlangHandler w h f level key value) as [[h' f'] r] eqn:E.
    exists h', f', r. split; [done |]. cbn [obind]. unfold verdict.
    by destruct vt, (decision r).
Qed.

Lemma handler_answer_last id pre ds rest :
  handler_answer id (pre ++ [[Tres RCompactionBatch id; make_list (ds :: rest)]]) [] =
  parse_decision ds.
Proof.
  unfold handler_answer. rewrite app_nil_r, omap_app, last_app.
  assert (Hr : reply_to id [Tres RCompactionBatch id; make_list (ds :: rest)] =
               Some (parse_decision <$> ds :: rest)).
  { cbn [reply_to]. rewrite decide_True, list_cells_make_list by done. done. }
  cbn [omap list_omap]. rewrite Hr. cbn [last fmap list_fmap].
  destruct (omap (reply_to id) pre ++ _) eqn:E; [| done].
  apply app_eq_nil in E as [_ [=]].
Qed.

(** When the handler receives the entry and answers within the timeout, its
    (last) decision is the one carried out: keep, removal (a single-delete
    tombstone for a value, a dropped operand for a merge operand), or the new
    value; on a merge operand [change_value] keeps the operand unchanged. *)
Theorem handler_decides `{NifEnv} (w : HandlerWorld) (clock : nat -> Z) (h : batch_heap)
    (f : ErlangCompactionFilter) (level : Z) (key value nv : bytes) (vt : ValueType)
    (pre : list (list term)) (r : FilterResult) (rest : list FilterResult) :
  m_UseErlangCallback f = true -> m_HandlerDead f = false -> reaches w key value = true ->
  let msg := entry_message h level key value in
  during_wait w msg =
    pre ++ [[Tres RCompactionBatch (fresh_batch h); make_list (decision_term <$> r :: rest)]] ->
  after_wait w msg = [] ->
  exists h', FilterV2 w clock h f level key vt value nv =
    Ok {| o_heap := h'; o_filter := f; o_decision := (verdict vt r nv).1;
          o_new_value := (verdict vt r nv).2 |}.
Proof.
  intros Hc Hd Hreach. cbn zeta. intros Hw Ha.
  destruct (filter_callback w clock h f level key vt value nv Hc) as (h' & f' & x & He & ->).
  destruct (call_handler_spec w h f level key value) as (h2 & Hcall).
  rewrite Hd, Hcall, Hreach, Hw, Ha, fmap_cons, handler_answer_last in He. simplify_eq.
  exists h2. do 2 f_equal; destruct (parse_decision_term r) as [Hr1 Hr2];
    unfold verdict; rewrite Hr1; destruct (decision r) eqn:E, vt; try done; by rewrite Hr2.
Qed.

(** *** The handler's answer, as documented

    A call of [compaction_filter_reply(BatchRef, Decisions)] for the batch [id]. *)
Definition replies_to (id : nat) (call : list term) : Prop :=
  exists ds, call = [Tres RCompactionBatch id; ds].

(** [head] is the decision for the entry: the first of the list in the last reply to
    the batch before the result is read, when a reply came before the timeout. *)
Definition answers (id : nat) (during after : list (list term)) (head : term) : Prop :=
  (exists call, call ∈ during /\ replies_to id call) /\
  exists a ds b tail, during ++ after = a ++ [Tres RCompactionBatch id; ds] :: b /\
    Forall (fun call => ~ replies_to id call) b /\ list_cells ds = head :: tail.

Lemma reply_to_iff id call : is_Some (reply_to id call) <-> replies_to id call.
Proof.
  unfold reply_to, replies_to. split.
  - intros [rs Hr]. destruct call as [|ref [|ds [|? ?]]]; try done;
      destruct ref as [| | | | | | | |[] id0|]; try done. case_decide; [subst; by exists ds | done].
  - intros (ds & ->). rewrite decide_True by done. by eexists.
Qed.

Lemma no_reply_omap id l : Forall (fun call => ~ replies_to id call) l -> omap (reply_to id) l = [].
Proof.
  induction 1 as [|c l Hc _ IH]; [done |]. cbn [omap list_omap]. rewrite IH.
  destruct (reply_to id c) eqn:E; [| done]. exfalso. apply Hc, reply_to_iff. by eexists.
Qed.

(** The last element that is in the domain of a partial function. *)
Lemma last_omap_split {A B} (f : A -> option B) l y :
  last (omap f l) = Some y -> exists a x b, l = a ++ x :: b /\ f x = Some y /\ Forall (fun z => f z = None) b.
Proof.
  induction l as [|x l IH] using rev_ind; [done |]. rewrite omap_app. cbn [omap list_omap].
  destruct (f x) as [z|] eqn:E.
  - rewrite last_snoc. intros [= ->]. exists l, x, []. by split_and!.
  - rewrite app_nil_r. intros H. destruct (IH H) as (a & x' & b & -> & Hx & Hb).
    exists a, x', (b ++ [x]). rewrite <- app_assoc. split_and!; try done. apply Forall_app. split; [done |].
    by apply Forall_singleton.
Qed.

Lemma handler_answer_spec id during after :
  (exists head, answers id during after head /\ handler_answer id during after = parse_decision head) \/
  ((forall head, ~ answers id during after head) /\ handler_answer id during after = FilterResult0 Keep).
Proof.
  unfold handler_answer. destruct (omap (reply_to id) during) as [|x q] eqn:E.
  { right. split; [| done]. intros head [(call & Hin & Hr) _]. apply reply_to_iff in Hr as [rs Hr].
    assert (Hx : rs ∈ omap (reply_to id) during) by (apply list_elem_of_omap; by exists call).
    rewrite E in Hx. by apply elem_of_nil in Hx. }
  assert (Hd : exists call, call ∈ during /\ replies_to id call).
  { assert (Hx : x ∈ omap (reply_to id) during) by (rewrite E; by left).
    apply list_elem_of_omap in Hx as (call & Hin & Hr). exists call. split; [done |].
    apply reply_to_iff. by eexists. }
  rewrite omap_app, E. destruct (last ((x :: q) ++ omap (reply_to id) after)) as [rs|] eqn:El.
  2: { apply last_None, app_eq_nil in El as [? _]. done. }
  rewrite <- E, <- omap_app in El. apply last_omap_split in El as (a & call & b & Hab & Hc & Hb).
  assert (Hr : replies_to id call) by (apply reply_to_iff; by eexists). destruct Hr as [ds ->].
  cbn [reply_to] in Hc. rewrite decide_True in Hc by done. injection Hc as <-.
  assert (Hb' : Forall (fun call => ~ replies_to id call) b).
  { eapply Forall_impl; [exact Hb |]. intros c Hn Hr. apply reply_to_iff in Hr as [? ?]. congruence. }
  destruct (list_cells ds) as [|head tail] eqn:Ecells; cbn [fmap list_fmap].
  - right. split; [| done]. intros head [_ (a' & ds' & b' & tail & Hab' & Hn & Hc')].
    assert (Hl : last (omap (reply_to id) (during ++ after)) = Some (parse_decision <$> list_cells ds)).
    { rewrite Hab, omap_app. cbn [omap list_omap]. cbn [reply_to]. rewrite decide_True by done.
      by rewrite (no_reply_omap id b Hb'), last_snoc. }
    rewrite Hab', omap_app in Hl. cbn [omap list_omap] in Hl. cbn [reply_to] in Hl. rewrite decide_True in Hl by done.
    rewrite (no_reply_omap id b' Hn), last_snoc, Hc', Ecells in Hl. done.
  - left. exists head. split; [| done]. split; [done |]. by exists a, ds, b, tail.
Qed.

(** Two heads cannot both be the decision. *)
Lemma answers_unique id during after x y : answers id during after x -> answers id during after y -> x = y.
Proof.
  set (P := fun c => is_Some (reply_to id c)).
  assert (Hl : forall z, answers id during after z -> exists ds tail,
            last (filter P (during ++ after)) = Some [Tres RCompactionBatch id; ds] /\
            list_cells ds = z :: tail).
  { intros z [_ (a & ds & b & tail & -> & Hn & Hc)]. exists ds, tail. split; [| done].
    rewrite filter_app, filter_cons_True by (apply reply_to_iff; by exists ds).
    assert (Hb : filter P b = []).
    { clear Hc. induction Hn as [|c b Hc' _ IH]; [done |]. rewrite filter_cons_False; [done |].
      intros Hs. by apply Hc', reply_to_iff. }
    by rewrite Hb, last_snoc. }
  intros (ds & t & H1 & Hx)%Hl (ds' & t' & H2 & Hy)%Hl. simplify_eq. congruence.
Qed.

(** The forms of a decision. *)
Lemma decision_forms head :
  (head = Tatom "remove" /\ parse_decision head = FilterResult0 Remove) \/
  (exists v, head = Ttuple [Tatom "change_value"; Tbin v] /\
     parse_decision head = {| decision := ChangeValue; new_value := v |}) \/
  (head <> Tatom "remove" /\ (forall v, head <> Ttuple [Tatom "change_value"; Tbin v]) /\
   parse_decision head = FilterResult0 Keep).
Proof.
  unfold parse_decision. destruct head as [a| | | | | |l| | |]; cbn [is_atom enif_get_tuple];
    try (right; right; split_and!; done).
  - destruct (bool_decide_reflect ("keep" = a)%string) as [<- | Hk]; [right; right; by split_and! |].
    destruct (bool_decide_reflect ("remove" = a)%string) as [<- | Hr]; [by left |].
    right. right. split_and!; [congruence | done | done].
  - right. destruct l as [|t0 [|t1 [|t2 l]]]; try (right; split_and!; done).
    destruct t0 as [a| | | | | | | | |]; cbn [is_atom]; try (right; split_and!; [done | congruence | done]).
    destruct (bool_decide_reflect ("change_value" = a)%string) as [<- | Hr].
    + destruct t1; cbn [enif_inspect_binary]; try (right; split_and!; [done | congruence | done]).
      left. by eexists.
    + right. split_and!; [done | congruence | done].
Qed.


(** The sum of the timestamp and the TTL is taken modulo 2^64: a rule whose TTL
    puts the expiry at or past 2^64 (a "never expires" TTL) removes keys whose
    expiry is far in the future, as soon as the wrapped sum is in the past. *)
Theorem ttl_wraps_around `{NifEnv} (rule : FilterRule) (clock : nat -> Z) (key value nv : bytes)
    (w : HandlerWorld) (h : batch_heap) (level : Z) :
  rule_ok rule -> rtype rule = TTLFromKey -> offset rule + rlength rule <= zlen key ->
  0 <= clock 0%nat < 2 ^ 64 ->
  2 ^ 64 <= be_val (ttl_field key rule) + ttl_seconds rule < 2 ^ 64 + clock 0%nat ->
  ~ rule_matches (clock 0%nat) key value rule /\
  FilterV2 w clock h (ErlangCompactionFilter_rules [rule]) level key kValue value nv =
    Ok {| o_heap := h; o_filter := ErlangCompactionFilter_rules [rule]; o_decision := kPurge;
          o_new_value := nv |}.
Proof.
  intros Hok Ht Hlen Hclock Hsum. split.
  { unfold rule_matches. rewrite Ht. lia. }
  unfold FilterV2, evaluate. cbn [ErlangCompactionFilter_rules m_UseErlangCallback m_Rules ApplyRules].
  unfold rule_fires. rewrite Ht, check_ttl_spec by done.
  rewrite (proj2 (Z.leb_le _ _)) by lia. rewrite (wrap_small 64 (clock 0%nat)) by lia.
  replace (u64 (be_val (ttl_field key rule) + ttl_seconds rule)) with
    (be_val (ttl_field key rule) + ttl_seconds rule - 2 ^ 64).
  2: { unfold wrap. rewrite <- (Z.mod_small (_ - _) (2 ^ 64)) by lia.
       by rewrite <- Zminus_mod_idemp_r, Z.mod_same, Z.sub_0_r by lia. }
  rewrite (proj2 (Z.ltb_lt _ _)) by lia. done.
Qed.

(** ** Witnesses *)

Module CompactionFilterWitness.
#[local] Existing Instance etf_env.

Definition tmp : bytes := [Byte.x74; Byte.x6d; Byte.x70].
Definition key1 : bytes := tmp ++ [Byte.x31].
Definition val1 : bytes := [Byte.x76].

Definition rules1 : list filter_rule := [key_suffix val1; ttl_from_key 0 4 60; key_prefix tmp].
Definition opt1 : list (term * term) :=
  [(Tatom "rules", make_list (filter_rule_term <$> rules1))].
Definition idle : HandlerWorld :=
  {| process_alive := false; send_ok := false; during_wait := fun _ => []; after_wait := fun _ => [] |}.

Lemma rules1_in_range : Forall (in_range key1) rules1.
Proof. repeat constructor; cbn; try lia. Qed.

Lemma parse_rules_roundtrip_witness :
  parse_rules (make_list (filter_rule_term <$> rules1)) = rule_of <$> rules1.
Proof. apply (parse_rules_roundtrip key1 rules1), rules1_in_range. Defined.

(** [tmp1] begins with [tmp], and its stamp is in the future. *)
Lemma rules_filter_correct_witness :
  exists ff, parse_compaction_filter (Tmap opt1) None = inr (Some ff) /\
    FilterV2 idle (fun _ => 1700000000) ∅ (CreateCompactionFilter ff) 1 key1 kValue val1 [] =
      Ok {| o_heap := ∅; o_filter := CreateCompactionFilter ff; o_decision := kPurge; o_new_value := [] |}.
Proof.
  destruct (rules_filter_correct opt1 rules1 None idle (fun _ => 1700000000) ∅ 1 key1 val1 [] kValue)
    as (ff & Hp & [[_ Hc] | [Hn _]]).
  - reflexivity.
  - discriminate.
  - apply rules1_in_range.
  - intros _. lia.
  - exists ff. split; [exact Hp | exact Hc].
  - exfalso. apply Hn. exists 2%nat, (key_prefix tmp). split; [reflexivity |]. by exists [Byte.x31].
Defined.

(** A handler that answers the first message it gets. *)
Definition answering (r : FilterResult) : HandlerWorld :=
  {| process_alive := true; send_ok := true;
     during_wait := fun msg =>
       match msg with
       | Ttuple [_; ref; _] => [[ref; make_list (decision_term <$> [r])]]
       | _ => []
       end;
     after_wait := fun _ => [] |}.
Definition truncate : FilterResult := {| decision := ChangeValue; new_value := tmp |}.
Definition callback : ErlangCompactionFilter := ErlangCompactionFilter_handler 7 100 5000.

Lemma handler_decides_witness :
  exists h', FilterV2 (answering truncate) (fun _ => 0) ∅ callback 0 key1 kValue val1 [] =
    Ok {| o_heap := h'; o_filter := callback; o_decision := kChangeValue; o_new_value := tmp |}.
Proof.
  apply (handler_decides (answering truncate) (fun _ => 0) ∅ callback 0 key1 val1 [] kValue []
           truncate []); reflexivity.
Defined.


(** [{ttl_from_key, 0, 4, 16#FFFFFFFFFFFFFFFF}] on a key stamped 1. *)
Definition never : FilterRule :=
  {| rtype := TTLFromKey; pattern := []; offset := 0; rlength := 4; ttl_seconds := 2 ^ 64 - 1 |}.
Definition stamped : bytes := put_be32 1 ++ tmp.

Lemma ttl_wraps_around_witness :
  ~ rule_matches 1700000000 stamped val1 never /\
  FilterV2 idle (fun _ => 1700000000) ∅ (ErlangCompactionFilter_rules [never]) 0 stamped kValue val1 [] =
    Ok {| o_heap := ∅; o_filter := ErlangCompactionFilter_rules [never]; o_decision := kPurge;
          o_new_value := [] |}.
Proof.
  apply (ttl_wraps_around never (fun _ => 1700000000) stamped val1 [] idle ∅ 0).
  - repeat split; cbn; lia.
  - reflexivity.
  - vm_compute. discriminate.
  - lia.
  - vm_compute. split; [discriminate | reflexivity].
Defined.
End CompactionFilterWitness.
