(* ===== verification/ScalarMerge.v ===== *)
(** * Counter and bitset merge operators

    [c_src/counter_merge_operator.cc] and [c_src/bitset_merge_operator.cc], with
    the parts of the C++ library they rest on ([std::stoi], [std::to_string])
    and the drivers RocksDB gives to an associative operator
    ([deps/rocksdb/db/merge_operator.cc]).

    A merge returns [outcome (option _)]: [Undef] where the C++ execution is
    undefined (overflow of an [int], a write outside a buffer), [None] where the
    function returns [false]. *)

From stdpp Require Import base list numbers strings.
From Stdlib Require Import ZArith Lia.
From S2P Require Import Prelude.

(** ** std::stoi and std::to_string *)

(** [isspace] in the C locale. *)
Definition is_space (b : Byte.byte) : bool :=
  let v := byte_val b in (v =? 32) || ((9 <=? v) && (v <=? 13)).

Definition is_digit (b : Byte.byte) : bool :=
  let v := byte_val b in (48 <=? v) && (v <=? 57).

Fixpoint skip_spaces (s : bytes) : bytes :=
  match s with
  | b :: r => if is_space b then skip_spaces r else s
  | [] => []
  end.

(** The digits at the front of [s], accumulated in base ten. *)
Fixpoint read_digits (acc : Z) (s : bytes) : Z :=
  match s with
  | b :: r => if is_digit b then read_digits (acc * 10 + (byte_val b - 48)) r else acc
  | [] => acc
  end.

(** [strtol] in base ten; [None] when no conversion can be performed. *)
Definition strtol10 (s : bytes) : option Z :=
  let unsigned (neg : bool) (s : bytes) :=
    match s with
    | b :: _ => if is_digit b then Some (if neg then - read_digits 0 s else read_digits 0 s) else None
    | [] => None
    end in
  match skip_spaces s with
  | b :: r =>
      if byte_val b =? 45 then unsigned true r
      else if byte_val b =? 43 then unsigned false r
      else unsigned false (b :: r)
  | [] => None
  end.

(** [std::stoi]: [None] when it throws [invalid_argument] or [out_of_range]. *)
Definition stoi (s : bytes) : option Z :=
  match strtol10 s with
  | Some z => if in_int z then Some z else None
  | None => None
  end.

Definition digit (z : Z) : Byte.byte := byte_of_Z (48 + z).

(** Decimal digits; ten of them hold every [int]. *)
Fixpoint decimal (fuel : nat) (z : Z) : bytes :=
  match fuel with
  | O => []
  | S fuel => if z <? 10 then [digit z] else decimal fuel (z / 10) ++ [digit (z `mod` 10)]
  end.

(** [std::to_string(int)] *)
Definition to_string (z : Z) : bytes :=
  if z <? 0 then Byte.x2d :: decimal 10 (- z) else decimal 10 z.

(** ** CounterMergeOperator *)

Definition CounterMerge (existing_value : option bytes) (value : bytes) : outcome (option bytes) :=
  let counter := match existing_value with None => Some 0 | Some e => stoi e end in
  match counter with
  | None => Ok None
  | Some counter =>
      match stoi value with
      | None => Ok None
      | Some oper =>
          if in_int (counter + oper) then Ok (Some (to_string (counter + oper))) else Undef
      end
  end.

(** The loop of [AssociativeMergeOperator::FullMergeV2]: [new_value] is
    overwritten by each operand, starting from what it held before. *)
Fixpoint assoc_full (merge : option bytes -> bytes -> outcome (option bytes))
    (existing : option bytes) (operands : list bytes) (new_value : bytes) : outcome (option bytes) :=
  match operands with
  | [] => Ok (Some new_value)
  | operand :: rest =>
      let! r := merge existing operand in
      match r with
      | None => Ok None
      | Some v => assoc_full merge (Some v) rest v
      end
  end.

(** [MergeOperator::PartialMergeMulti] over [AssociativeMergeOperator::PartialMerge];
    the caller passes at least two operands. *)
Definition assoc_partial (merge : option bytes -> bytes -> outcome (option bytes))
    (operands : list bytes) (new_value : bytes) : outcome (option bytes) :=
  match operands with
  | [] => Undef
  | first :: rest => assoc_full merge (Some first) rest new_value
  end.

Definition CounterFullMergeV2 := assoc_full CounterMerge.
Definition CounterPartialMergeMulti := assoc_partial CounterMerge.

(** ** BitsetMergeOperator *)

Definition bits_per_char : Z := 8.
Definition bit_mask : list Z := [128; 64; 32; 16; 8; 4; 2; 1].

(** What a merge leaves behind: its verdict, [merge_out->new_value], and the
    bytes [merge_in.existing_value] points at, which the operator writes to
    through a [const_cast]. *)
Record bitset_out := {
  merged : option bytes;
  existing_after : option bytes;
}.

(** [data[ofs] |= mask] and [data[ofs] &= ~mask]. *)
Definition set_mask (data : bytes) (ofs : nat) (mask : Z) : outcome bytes :=
  match data !! ofs with
  | Some b => Ok (<[ofs := byte_of_Z (Z.lor (byte_val b) mask)]> data)
  | None => Undef
  end.

Definition clear_mask (data : bytes) (ofs : nat) (mask : Z) : outcome bytes :=
  match data !! ofs with
  | Some b => Ok (<[ofs := byte_of_Z (Z.land (byte_val b) (Z.lnot mask))]> data)
  | None => Undef
  end.

(** One operand: the buffer after it, and whether the loop goes on. *)
Definition bitset_operand (data : bytes) (s : bytes) : outcome (bool * bytes) :=
  match s with
  | [] => Ok (true, replicate (length data) Byte.x00)
  | c :: num =>
      match stoi num with
      | None => Ok (false, data)
      | Some pos =>
          let ofs := u64 (Z.shiftr pos 3) in
          if zlen data <? ofs then Ok (false, data)
          else
            let mask := nth (Z.to_nat (u64 pos `mod` bits_per_char)) bit_mask 0 in
            if byte_val c =? 43 then
              let! d := set_mask data (Z.to_nat ofs) mask in Ok (true, d)
            else if byte_val c =? 45 then
              let! d := clear_mask data (Z.to_nat ofs) mask in Ok (true, d)
            else Ok (false, data)
      end
  end.

Fixpoint bitset_loop (data : bytes) (operands : list bytes) : outcome (bool * bytes) :=
  match operands with
  | [] => Ok (true, data)
  | s :: rest =>
      let! (go, data') := bitset_operand data s in
      if go then bitset_loop data' rest else Ok (false, data')
  end.

Definition BitsetFullMergeV2 (cap : Z) (existing_value : option bytes) (operands : list bytes) :
    outcome bitset_out :=
  let max_size := cap / bits_per_char in
  match existing_value with
  | None =>
      let! (ok, data) := bitset_loop (replicate (Z.to_nat max_size) Byte.x00) operands in
      Ok {| merged := if ok then Some data else None; existing_after := None |}
  | Some e =>
      if zlen e <? max_size then Ok {| merged := None; existing_after := Some e |}
      else
        let! (ok, data) := bitset_loop e operands in
        Ok {| merged := if ok then Some data else None; existing_after := Some data |}
  end.

(** [PartialMergeMulti] of the operator always declines. *)
Definition BitsetPartialMergeMulti (operands : list bytes) : option bytes := None.

(** ** Lemmas: decimal numbers *)

Lemma digit_val z : 0 <= z < 10 -> byte_val (digit z) = 48 + z.
Proof. intros. unfold digit. rewrite byte_val_of_Z. apply Z.mod_small. lia. Qed.

Lemma is_digit_digit z : 0 <= z < 10 -> is_digit (digit z) = true.
Proof. intros. unfold is_digit. rewrite digit_val by lia. cbn zeta. lia. Qed.

Lemma read_digits_app acc l r :
  Forall (fun b => is_digit b = true) l -> read_digits acc (l ++ r) = read_digits (read_digits acc l) r.
Proof.
  intros H. revert acc. induction H as [|b l Hb Hl IH]; intros acc; [done |].
  cbn [app read_digits]. rewrite Hb. apply IH.
Qed.

Lemma decimal_digits fuel z : 0 <= z -> Forall (fun b => is_digit b = true) (decimal fuel z).
Proof.
  revert z. induction fuel as [|fuel IH]; intros z Hz; cbn [decimal]; [done |].
  pose proof (Z.mod_pos_bound z 10 ltac:(lia)).
  destruct (z <? 10) eqn:E.
  - constructor; [apply is_digit_digit; lia | done].
  - apply Forall_app. split; [apply IH; apply Z.div_pos; lia |].
    constructor; [by apply is_digit_digit | done].
Qed.

Lemma read_decimal fuel z : 0 <= z < 10 ^ Z.of_nat fuel -> read_digits 0 (decimal fuel z) = z.
Proof.
  revert z. induction fuel as [|fuel IH]; intros z Hz; [cbn in *; lia |].
  cbn [decimal]. pose proof (Z.mod_pos_bound z 10 ltac:(lia)).
  rewrite Nat2Z.inj_succ, Z.pow_succ_r in Hz by lia.
  destruct (z <? 10) eqn:E.
  - cbn [read_digits]. rewrite is_digit_digit, digit_val by lia. lia.
  - rewrite read_digits_app by (apply decimal_digits, Z.div_pos; lia).
    rewrite IH by (split; [apply Z.div_pos; lia | apply Z.div_lt_upper_bound; lia]).
    cbn [read_digits]. rewrite is_digit_digit, digit_val by lia.
    pose proof (Z.div_mod z 10 ltac:(lia)). lia.
Qed.

Lemma decimal_head fuel z :
  0 <= z -> (0 < fuel)%nat -> exists b r, decimal fuel z = b :: r /\ is_digit b = true.
Proof.
  intros Hz Hf. pose proof (decimal_digits fuel z Hz) as Hd.
  destruct (decimal fuel z) as [|b r] eqn:E.
  - destruct fuel; [lia |]. cbn in E. case_match; [done |].
    apply app_eq_nil in E as [_ [=]].
  - exists b, r. split; [done |]. by apply Forall_cons in Hd as [? _].
Qed.

Lemma digit_not_space b : is_digit b = true -> is_space b = false /\ byte_val b <> 45 /\ byte_val b <> 43.
Proof. unfold is_digit, is_space. cbn zeta. lia. Qed.

Lemma strtol_decimal z : 0 <= z < 10 ^ 10 -> strtol10 (decimal 10 z) = Some z.
Proof.
  intros Hz. destruct (decimal_head 10 z) as (b & r & Hd & Hb); [lia | lia |].
  pose proof (read_decimal 10 z Hz) as Hr. rewrite Hd in *. unfold strtol10.
  destruct (digit_not_space b Hb) as (Hs & H45 & H43).
  cbn [skip_spaces]. rewrite Hs. rewrite (proj2 (Z.eqb_neq _ _) H45), (proj2 (Z.eqb_neq _ _) H43).
  rewrite Hb. by rewrite Hr.
Qed.

(** [std::stoi] undoes [std::to_string]. *)
Lemma stoi_to_string z : in_int z = true -> stoi (to_string z) = Some z.
Proof.
  intros Hz. unfold stoi, to_string. unfold in_int, INT_MIN, INT_MAX in Hz.
  assert (strtol10 (if z <? 0 then Byte.x2d :: decimal 10 (- z) else decimal 10 z) = Some z) as ->.
  2: { unfold in_int, INT_MIN, INT_MAX. by rewrite Hz. }
  destruct (z <? 0) eqn:E; [| apply strtol_decimal; lia].
  destruct (decimal_head 10 (- z)) as (b & r & Hd & Hb); [lia | lia |].
  pose proof (read_decimal 10 (- z) ltac:(lia)) as Hr. rewrite Hd in *.
  unfold strtol10. cbn [skip_spaces]. change (is_space Byte.x2d) with false. cbv iota.
  change (byte_val Byte.x2d =? 45) with true. cbv iota. rewrite Hb, Hr. f_equal. lia.
Qed.

Lemma stoi_range s z : stoi s = Some z -> in_int z = true.
Proof. unfold stoi. intros. repeat case_match; simplify_eq; done. Qed.

(** ** Lemmas: bits of a buffer *)

(** Bit [pos] of a buffer: bit 0 is the most significant one of byte 0. *)
Definition bit_at (data : bytes) (pos : Z) : bool :=
  match data !! Z.to_nat (pos / 8) with
  | Some b => Z.testbit (byte_val b) (7 - pos `mod` 8)
  | None => false
  end.

Lemma mask_testbit k i :
  0 <= k < 8 -> 0 <= i < 8 -> Z.testbit (nth (Z.to_nat k) bit_mask 0) (7 - i) = bool_decide (i = k).
Proof.
  intros Hk Hi. assert (Hk' : In k [0; 1; 2; 3; 4; 5; 6; 7]) by (cbn; lia).
  assert (Hi' : In i [0; 1; 2; 3; 4; 5; 6; 7]) by (cbn; lia).
  clear Hk Hi. cbn in Hk', Hi'.
  repeat destruct Hk' as [<- | Hk']; try done;
    repeat destruct Hi' as [<- | Hi']; done.
Qed.

Lemma byte_testbit z i : 0 <= i < 8 -> Z.testbit (byte_val (byte_of_Z z)) i = Z.testbit z i.
Proof. intros. rewrite byte_val_of_Z. change 256 with (2 ^ 8). apply Z.mod_pow2_bits_low. lia. Qed.

(** Writing a byte changes the eight bits of its position and no other. *)
Lemma bit_at_insert data n b z pos :
  0 <= n -> 0 <= pos -> data !! Z.to_nat (n / 8) = Some b ->
  bit_at (<[Z.to_nat (n / 8) := byte_of_Z z]> data) pos =
  if bool_decide (pos / 8 = n / 8) then Z.testbit z (7 - pos `mod` 8) else bit_at data pos.
Proof.
  intros Hn Hpos Hb. unfold bit_at.
  pose proof (Z.mod_pos_bound pos 8 ltac:(lia)).
  pose proof (Z.div_pos n 8 ltac:(lia) ltac:(lia)). pose proof (Z.div_pos pos 8 ltac:(lia) ltac:(lia)).
  case_bool_decide as E.
  - rewrite E, list_lookup_insert_eq by (by eapply lookup_lt_Some). apply byte_testbit. lia.
  - by rewrite list_lookup_insert_ne by lia.
Qed.

Lemma same_bit pos n :
  pos / 8 = n / 8 -> (pos `mod` 8 = n `mod` 8 <-> pos = n).
Proof. intros H. pose proof (Z.div_mod pos 8 ltac:(lia)). pose proof (Z.div_mod n 8 ltac:(lia)). lia. Qed.

Lemma set_mask_spec data n :
  0 <= n < 8 * zlen data ->
  exists d, set_mask data (Z.to_nat (n / 8)) (nth (Z.to_nat (n `mod` 8)) bit_mask 0) = Ok d /\
    length d = length data /\
    forall pos, 0 <= pos -> bit_at d pos = bool_decide (pos = n) || bit_at data pos.
Proof.
  intros Hn. unfold set_mask. pose proof (Z.mod_pos_bound n 8 ltac:(lia)).
  assert (n / 8 < zlen data) by (apply Z.div_lt_upper_bound; lia).
  destruct (lookup_lt_is_Some_2 data (Z.to_nat (n / 8))) as [b Hb]; [lia |].
  rewrite Hb. eexists. split; [done |]. split; [by rewrite length_insert |].
  intros pos Hpos. rewrite (bit_at_insert _ _ b) by (done || lia).
  pose proof (Z.mod_pos_bound pos 8 ltac:(lia)).
  case_bool_decide as E.
  - rewrite Z.lor_spec, mask_testbit by lia. unfold bit_at. rewrite E, Hb, orb_comm. f_equal.
    apply bool_decide_ext. by apply same_bit.
  - rewrite bool_decide_eq_false_2; [done |]. intros ->. done.
Qed.

Lemma clear_mask_spec data n :
  0 <= n < 8 * zlen data ->
  exists d, clear_mask data (Z.to_nat (n / 8)) (nth (Z.to_nat (n `mod` 8)) bit_mask 0) = Ok d /\
    length d = length data /\
    forall pos, 0 <= pos -> bit_at d pos = negb (bool_decide (pos = n)) && bit_at data pos.
Proof.
  intros Hn. unfold clear_mask. pose proof (Z.mod_pos_bound n 8 ltac:(lia)).
  assert (n / 8 < zlen data) by (apply Z.div_lt_upper_bound; lia).
  destruct (lookup_lt_is_Some_2 data (Z.to_nat (n / 8))) as [b Hb]; [lia |].
  rewrite Hb. eexists. split; [done |]. split; [by rewrite length_insert |].
  intros pos Hpos. rewrite (bit_at_insert _ _ b) by (done || lia).
  pose proof (Z.mod_pos_bound pos 8 ltac:(lia)).
  case_bool_decide as E.
  - rewrite Z.land_spec, Z.lnot_spec, mask_testbit by lia.
    unfold bit_at. rewrite E, Hb, andb_comm. do 2 f_equal.
    apply bool_decide_ext. by apply same_bit.
  - rewrite bool_decide_eq_false_2; [done |]. intros ->. done.
Qed.

Lemma bit_at_zeros n pos : bit_at (replicate n Byte.x00) pos = false.
Proof.
  unfold bit_at. destruct (replicate n Byte.x00 !! Z.to_nat (pos / 8)) eqn:E; [| done].
  apply lookup_replicate in E as [-> _]. apply Z.bits_0.
Qed.

(** ** The abstract counter and bitset *)

(** The sum of the operands, as long as it stays in an [int]. *)
Fixpoint checked_sum (c : Z) (zs : list Z) : option Z :=
  match zs with
  | [] => Some c
  | z :: r => if in_int (c + z) then checked_sum (c + z) r else None
  end.

(** A counter value: absent or a decimal number. *)
Definition counter_value (existing : option bytes) : option Z :=
  match existing with None => Some 0 | Some e => stoi e end.

Inductive bit_op := SetBit (n : Z) | ClearBit (n : Z) | ClearAll.

Definition op_bytes (op : bit_op) : bytes :=
  match op with
  | SetBit n => Byte.x2b :: to_string n
  | ClearBit n => Byte.x2d :: to_string n
  | ClearAll => []
  end.

Definition apply_bit_op (f : Z -> bool) (op : bit_op) : Z -> bool :=
  match op with
  | SetBit n => fun pos => bool_decide (pos = n) || f pos
  | ClearBit n => fun pos => negb (bool_decide (pos = n)) && f pos
  | ClearAll => fun _ => false
  end.

Definition op_in_range (bits : Z) (op : bit_op) : Prop :=
  match op with
  | SetBit n | ClearBit n => 0 <= n < bits /\ n <= INT_MAX
  | ClearAll => True
  end.

(** The size in bytes of the buffer a merge works on. *)
Definition buffer_size (cap : Z) (existing : option bytes) : Z :=
  match existing with None => cap / 8 | Some e => zlen e end.

(** ** Lemmas: the loops *)

Lemma counter_loop_sum operands zs e c nv :
  stoi e = Some c -> Forall2 (fun o z => stoi o = Some z) operands zs ->
  assoc_full CounterMerge (Some e) operands nv =
  match operands with
  | [] => Ok (Some nv)
  | _ => match checked_sum c zs with Some t => Ok (Some (to_string t)) | None => Undef end
  end.
Proof.
  intros He Hf. revert e c nv He.
  induction Hf as [|o z os zs Ho Hos IH]; intros e c nv He; [done |].
  cbn [assoc_full checked_sum]. unfold CounterMerge. rewrite He, Ho.
  destruct (in_int (c + z)) eqn:Ei; cbn [obind]; [| done].
  rewrite (IH _ (c + z)) by (by apply stoi_to_string).
  destruct Hos; done.
Qed.

Lemma counter_full_sum existing operands zs c nv :
  counter_value existing = Some c -> Forall2 (fun o z => stoi o = Some z) operands zs ->
  operands <> [] ->
  CounterFullMergeV2 existing operands nv =
  match checked_sum c zs with Some t => Ok (Some (to_string t)) | None => Undef end.
Proof.
  intros Hc Hf Hne. destruct existing as [e|]; cbn in Hc.
  - unfold CounterFullMergeV2. rewrite (counter_loop_sum _ zs e c) by done. by destruct operands.
  - simplify_eq. destruct Hf as [|o z os zs Ho Hos]; [done |].
    unfold CounterFullMergeV2. cbn [assoc_full checked_sum]. unfold CounterMerge at 1. rewrite Ho.
    destruct (in_int (0 + z)) eqn:Ei; cbn [obind]; [| done].
    rewrite (counter_loop_sum _ zs _ (0 + z)) by (done || by apply stoi_to_string).
    destruct Hos; done.
Qed.

Lemma checked_sum_value c zs t :
  checked_sum c zs = Some t -> t = c + foldr Z.add 0 zs.
Proof.
  revert c. induction zs as [|z zs IH]; intros c H; cbn in *; [simplify_eq; lia |].
  case_match; [| done]. apply IH in H. lia.
Qed.

Lemma checked_sum_in_int c zs t : zs <> [] -> checked_sum c zs = Some t -> in_int t = true.
Proof.
  revert c. induction zs as [|z zs IH]; intros c Hne H; [done |].
  cbn in H. case_match; [| done]. destruct zs; [cbn in H; by simplify_eq | by eapply IH].
Qed.

Lemma Forall2_ne_nil {A B} (P : A -> B -> Prop) l k : Forall2 P l k -> l <> [] -> k <> [].
Proof. intros H. by destruct H. Qed.

Lemma bitset_operand_spec data op :
  op_in_range (8 * zlen data) op ->
  exists d, bitset_operand data (op_bytes op) = Ok (true, d) /\ length d = length data /\
    forall pos, 0 <= pos -> bit_at d pos = apply_bit_op (bit_at data) op pos.
Proof.
  destruct op as [n|n|]; cbn [op_in_range op_bytes bitset_operand].
  3: { intros _. eexists. split; [done |]. split; [apply length_replicate |].
       intros pos _. apply bit_at_zeros. }
  all: intros [Hn Hi]; rewrite stoi_to_string by (unfold in_int, INT_MIN, INT_MAX in *; lia).
  all: rewrite Z.shiftr_div_pow2 by lia; change (2 ^ 3) with 8.
  all: assert (0 <= n / 8 < zlen data) by (split; [apply Z.div_pos | apply Z.div_lt_upper_bound]; lia).
  all: assert (n < 2 ^ 64) by (unfold INT_MAX in *; lia).
  all: rewrite (wrap_small 64 (n / 8)) by (split; [lia |]; apply Z.div_lt_upper_bound; lia).
  all: rewrite (wrap_small 64 n) by lia.
  all: rewrite (proj2 (Z.ltb_ge _ _)) by lia; cbn zeta; unfold bits_per_char.
  - change (byte_val Byte.x2b =? 43) with true. cbv iota.
    destruct (set_mask_spec data n ltac:(lia)) as (d & -> & Hl & Hb). by exists d.
  - change (byte_val Byte.x2d =? 43) with false. change (byte_val Byte.x2d =? 45) with true. cbv iota.
    destruct (clear_mask_spec data n ltac:(lia)) as (d & -> & Hl & Hb). by exists d.
Qed.

(** An operand inside the buffer, in the byte after it, and further out. *)
Lemma bitset_operand_bounds data n (set : bool) :
  zlen data < 2 ^ 60 -> 0 <= n <= INT_MAX ->
  let op := if set then SetBit n else ClearBit n in
  (n < 8 * zlen data -> exists d, bitset_operand data (op_bytes op) = Ok (true, d)) /\
  (8 * zlen data <= n < 8 * zlen data + 8 -> bitset_operand data (op_bytes op) = Undef) /\
  (8 * zlen data + 8 <= n -> bitset_operand data (op_bytes op) = Ok (false, data)).
Proof.
  intros Hbig Hn op.
  assert (Hstoi : stoi (to_string n) = Some n).
  { apply stoi_to_string. unfold in_int, INT_MIN, INT_MAX in *. lia. }
  assert (Hofs : u64 (Z.shiftr n 3) = n / 8).
  { rewrite Z.shiftr_div_pow2 by lia. apply wrap_small.
    split; [apply Z.div_pos | apply Z.div_lt_upper_bound; unfold INT_MAX in *]; lia. }
  split; [| split]; intros Hr.
  - destruct (bitset_operand_spec data op) as (d & Hd & _); [| by exists d].
    unfold op. destruct set; cbn [op_in_range]; lia.
  - assert (Hq : n / 8 = zlen data) by (symmetry; apply (Z.div_unique _ _ _ (n - 8 * zlen data)); lia).
    unfold op. destruct set; cbn [op_bytes bitset_operand]; rewrite Hstoi, Hofs, Hq, Z.ltb_irrefl, Nat2Z.id;
      cbn; unfold set_mask, clear_mask; by rewrite lookup_ge_None_2 by lia.
  - assert (zlen data + 1 <= n / 8) by (apply Z.div_le_lower_bound; lia).
    unfold op. destruct set; cbn [op_bytes bitset_operand]; rewrite Hstoi, Hofs;
      by rewrite (proj2 (Z.ltb_lt _ _)) by lia.
Qed.

Lemma apply_bit_op_ext f g op pos :
  (forall q, 0 <= q -> f q = g q) -> 0 <= pos -> apply_bit_op f op pos = apply_bit_op g op pos.
Proof. intros H Hpos. destruct op; cbn; by rewrite ?H. Qed.

Lemma fold_bit_ops_ext ops f g pos :
  (forall q, 0 <= q -> f q = g q) -> 0 <= pos ->
  fold_left apply_bit_op ops f pos = fold_left apply_bit_op ops g pos.
Proof.
  revert f g. induction ops as [|op ops IH]; intros f g H Hpos; cbn [fold_left]; [by apply H |].
  apply IH; [| done]. intros q Hq. by apply apply_bit_op_ext.
Qed.

Lemma bitset_loop_spec ops data :
  Forall (op_in_range (8 * zlen data)) ops ->
  exists d, bitset_loop data (op_bytes <$> ops) = Ok (true, d) /\ length d = length data /\
    forall pos, 0 <= pos -> bit_at d pos = fold_left apply_bit_op ops (bit_at data) pos.
Proof.
  revert data. induction ops as [|op ops IH]; intros data Hf; [by exists data |].
  apply Forall_cons in Hf as [Hop Hops].
  destruct (bitset_operand_spec data op Hop) as (d1 & Hd1 & Hl1 & Hb1).
  rewrite <- Hl1 in Hops. destruct (IH d1 Hops) as (d & Hd & Hl & Hb).
  exists d. cbn [fmap list_fmap bitset_loop]. rewrite Hd1. cbn [obind].
  split; [done |]. split; [congruence |]. intros pos Hpos. rewrite Hb by done. cbn [fold_left].
  by apply fold_bit_ops_ext.
Qed.

(** ** Theorems *)

(** A full merge of counter operands writes the decimal form of the stored
    counter (0 when absent) plus the sum of the operands; the execution is
    undefined exactly when one of the running sums leaves the range of a 32-bit
    [int].  An operand or a stored value that is not a number makes the merge
    fail. *)
Theorem counter_full_merge (existing : option bytes) (operands : list bytes) (zs : list Z)
    (c : Z) (nv : bytes) :
  counter_value existing = Some c -> Forall2 (fun o z => stoi o = Some z) operands zs ->
  operands <> [] ->
  (forall t, checked_sum c zs = Some t ->
     CounterFullMergeV2 existing operands nv = Ok (Some (to_string t)) /\
     t = c + foldr Z.add 0 zs /\ counter_value (Some (to_string t)) = Some t) /\
  (checked_sum c zs = None <-> CounterFullMergeV2 existing operands nv = Undef) /\
  (forall bad rest, stoi bad = None -> forall t, checked_sum c zs = Some t ->
     CounterFullMergeV2 existing (operands ++ bad :: rest) nv = Ok None).
Proof.
  intros Hc Hf Hne. rewrite (counter_full_sum existing operands zs c nv) by done.
  split; [| split].
  - intros t Ht. rewrite Ht. split; [done |]. split; [by apply checked_sum_value |].
    apply stoi_to_string, (checked_sum_in_int c zs); [by eapply Forall2_ne_nil | done].
  - destruct (checked_sum c zs); split; done.
  - intros bad rest Hbad t Ht. unfold CounterFullMergeV2.
    revert existing c nv Hc Hne t Ht.
    induction Hf as [|o z os zs Ho Hos IH]; intros existing c nv Hc Hne t Ht; [done |].
    cbn [checked_sum] in Ht. destruct (in_int (c + z)) eqn:Ei; [| done].
    cbn [app assoc_full]. unfold CounterMerge at 1. fold (counter_value existing).
    rewrite Hc, Ho, Ei. cbn [obind]. pose proof (stoi_to_string _ Ei) as Hs.
    destruct Hos as [|o' z' os' zs' Ho' Hos'].
    + cbn [app assoc_full]. unfold CounterMerge. rewrite Hs, Hbad. done.
    + by apply (IH (Some (to_string (c + z))) (c + z) _ Hs) with t.
Qed.

(** Combining counter operands first changes nothing: merging the result of
    [PartialMergeMulti] into the stored value gives what merging the operands
    one by one gives, when no sum involved overflows. *)
Theorem counter_partial_merge (existing : option bytes) (o1 : bytes) (operands : list bytes)
    (z1 : Z) (zs : list Z) (c s t : Z) (nv nv' : bytes) :
  counter_value existing = Some c -> stoi o1 = Some z1 ->
  Forall2 (fun o z => stoi o = Some z) operands zs -> operands <> [] ->
  checked_sum z1 zs = Some s -> checked_sum c (z1 :: zs) = Some t ->
  exists p, CounterPartialMergeMulti (o1 :: operands) nv = Ok (Some p) /\
    CounterFullMergeV2 existing [p] nv' = CounterFullMergeV2 existing (o1 :: operands) nv' /\
    CounterFullMergeV2 existing [p] nv' = Ok (Some (to_string t)).
Proof.
  intros Hc H1 Hf Hne Hs Ht. exists (to_string s).
  assert (Hp : CounterPartialMergeMulti (o1 :: operands) nv = Ok (Some (to_string s))).
  { pose proof (counter_full_sum (Some o1) operands zs z1 nv H1 Hf Hne) as H. by rewrite Hs in H. }
  assert (Hst : c + s = t).
  { apply checked_sum_value in Hs, Ht. cbn in Ht. lia. }
  assert (Hsi : in_int s = true).
  { apply (checked_sum_in_int z1 zs); [by eapply Forall2_ne_nil | done]. }
  assert (Hti : in_int t = true) by (by apply (checked_sum_in_int c (z1 :: zs))).
  assert (Hps : Forall2 (fun o z => stoi o = Some z) [to_string s] [s]).
  { constructor; [by apply stoi_to_string | constructor]. }
  split; [done |].
  rewrite (counter_full_sum existing [to_string s] [s] c) by done.
  rewrite (counter_full_sum existing (o1 :: operands) (z1 :: zs) c) by (done || by constructor).
  rewrite Ht. cbn [checked_sum]. by rewrite Hst, Hti.
Qed.

(** C35.  A bitset merge whose positions lie inside the buffer refines the abstract
    bit vector: it succeeds, keeps the size, and every bit of the result is what
    the set, clear and clear-all operations leave, in order.  When a value was
    stored, its own bytes are overwritten with the result. *)
Theorem bitset_refines (cap : Z) (existing : option bytes) (ops : list bit_op) :
  0 <= cap -> cap / 8 <= buffer_size cap existing ->
  Forall (op_in_range (8 * buffer_size cap existing)) ops ->
  exists v, BitsetFullMergeV2 cap existing (op_bytes <$> ops) =
      Ok {| merged := Some v; existing_after := existing ≫= fun _ => Some v |} /\
    zlen v = buffer_size cap existing /\
    forall pos, 0 <= pos ->
      bit_at v pos = fold_left apply_bit_op ops
        (match existing with None => fun _ => false | Some e => bit_at e end) pos.
Proof.
  intros Hcap Hsize Hops. unfold BitsetFullMergeV2, bits_per_char.
  pose proof (Z.div_pos cap 8 Hcap ltac:(lia)).
  destruct existing as [e|]; cbn [buffer_size] in *.
  - rewrite (proj2 (Z.ltb_ge _ _)) by lia.
    destruct (bitset_loop_spec ops e Hops) as (d & -> & Hl & Hb).
    exists d. split; [done |]. split; [lia | done].
  - destruct (bitset_loop_spec ops (replicate (Z.to_nat (cap / 8)) Byte.x00)) as (d & -> & Hl & Hb).
    { rewrite length_replicate, Z2Nat.id by lia. done. }
    rewrite length_replicate in Hl. exists d. split; [done |]. split; [lia |].
    intros pos Hpos. rewrite Hb by done. apply fold_bit_ops_ext; [| done].
    intros q _. apply bit_at_zeros.
Qed.

(** C39.  The range check is off by one: positions up to [8 * size + 7] pass it.  A
    set or clear inside the buffer succeeds, one past the next eight positions is
    refused, and for the eight positions in between the operator reads and
    writes the byte after the end of the buffer. *)
Theorem bitset_write_past_end (cap : Z) (existing : option bytes) (n : Z) (set : bool) :
  0 <= cap -> cap / 8 <= buffer_size cap existing -> buffer_size cap existing < 2 ^ 60 ->
  0 <= n <= INT_MAX ->
  let op := if set then SetBit n else ClearBit n in
  let bits := 8 * buffer_size cap existing in
  (n < bits -> exists v, BitsetFullMergeV2 cap existing [op_bytes op] =
      Ok {| merged := Some v; existing_after := existing ≫= fun _ => Some v |}) /\
  (bits <= n < bits + 8 -> BitsetFullMergeV2 cap existing [op_bytes op] = Undef) /\
  (bits + 8 <= n -> BitsetFullMergeV2 cap existing [op_bytes op] =
      Ok {| merged := None; existing_after := existing |}).
Proof.
  intros Hcap Hsize Hbig Hn. cbn zeta.
  unfold BitsetFullMergeV2, bits_per_char. pose proof (Z.div_pos cap 8 Hcap ltac:(lia)).
  destruct existing as [e|]; cbn [buffer_size] in *.
  - rewrite (proj2 (Z.ltb_ge _ _)) by lia. cbn [bitset_loop].
    destruct (bitset_operand_bounds e n set) as (H1 & H2 & H3); [lia | lia |]. split; [| split]; intros Hr.
    + destruct (H1 Hr) as [d ->]. by exists d.
    + by rewrite H2.
    + by rewrite H3.
  - cbn [bitset_loop]. set (data := replicate (Z.to_nat (cap / 8)) Byte.x00).
    assert (Hl : zlen data = cap / 8) by (unfold data; rewrite length_replicate; lia).
    rewrite <- Hl in *.
    destruct (bitset_operand_bounds data n set) as (H1 & H2 & H3); [lia | lia |].
    split; [| split]; intros Hr.
    + destruct (H1 Hr) as [d ->]. by exists d.
    + by rewrite H2.
    + by rewrite H3.
Qed.

(** ** Witnesses *)

Module ScalarMergeWitness.
Definition n5 : bytes := to_string 5.
Definition m7 : bytes := to_string (-7).

Lemma operands_parse : Forall2 (fun o z => stoi o = Some z) [n5; m7] [5; -7].
Proof. repeat constructor. Qed.

Lemma counter_full_merge_witness :
  (forall t, checked_sum 40 [5; -7] = Some t ->
     CounterFullMergeV2 (Some (to_string 40)) [n5; m7] [] = Ok (Some (to_string t)) /\
     t = 40 + foldr Z.add 0 [5; -7] /\ counter_value (Some (to_string t)) = Some t) /\
  (checked_sum 40 [5; -7] = None <-> CounterFullMergeV2 (Some (to_string 40)) [n5; m7] [] = Undef) /\
  (forall bad rest, stoi bad = None -> forall t, checked_sum 40 [5; -7] = Some t ->
     CounterFullMergeV2 (Some (to_string 40)) ([n5; m7] ++ bad :: rest) [] = Ok None).
Proof.
  apply (counter_full_merge (Some (to_string 40)) [n5; m7] [5; -7] 40 []);
    [reflexivity | apply operands_parse | discriminate].
Defined.

Lemma counter_partial_merge_witness :
  exists p, CounterPartialMergeMulti [n5; n5; m7] [] = Ok (Some p) /\
    CounterFullMergeV2 None [p] [] = CounterFullMergeV2 None [n5; n5; m7] [] /\
    CounterFullMergeV2 None [p] [] = Ok (Some (to_string 3)).
Proof.
  apply (counter_partial_merge None n5 [n5; m7] 5 [5; -7] 0 3 3 [] []);
    [reflexivity | reflexivity | apply operands_parse | discriminate | reflexivity | reflexivity].
Defined.

Lemma bitset_refines_witness :
  exists v, BitsetFullMergeV2 16 None (op_bytes <$> [SetBit 11; SetBit 2; ClearBit 2]) =
      Ok {| merged := Some v; existing_after := None |} /\
    zlen v = 2 /\
    forall pos, 0 <= pos ->
      bit_at v pos = fold_left apply_bit_op [SetBit 11; SetBit 2; ClearBit 2] (fun _ => false) pos.
Proof.
  apply (bitset_refines 16 None [SetBit 11; SetBit 2; ClearBit 2]); [lia | vm_compute; discriminate |].
  repeat constructor; vm_compute; first [reflexivity | discriminate].
Defined.

Lemma bitset_write_past_end_witness :
  (64 < 64 -> exists v, BitsetFullMergeV2 64 None [op_bytes (SetBit 64)] =
      Ok {| merged := Some v; existing_after := None |}) /\
  (64 <= 64 < 64 + 8 -> BitsetFullMergeV2 64 None [op_bytes (SetBit 64)] = Undef) /\
  (64 + 8 <= 64 -> BitsetFullMergeV2 64 None [op_bytes (SetBit 64)] =
      Ok {| merged := None; existing_after := None |}).
Proof.
  apply (bitset_write_past_end 64 None 64 true);
    [lia | vm_compute; discriminate | vm_compute; reflexivity | split; vm_compute; discriminate].
Defined.
End ScalarMergeWitness.
