(* ===== verification/Util.v ===== *)
(** * Helpers of the module

    [enif_get_std_string], [parse_int] and [ParseUint64] of [c_src/util.cc], and the
    [Mutex] and [MutexLock] of [c_src/mutex.h].

    The number readers take a decimal prefix and an optional unit letter; the shift
    by the unit is not checked: it wraps at 64 bits and, since the module is
    compiled as C++20, at 32 bits for [int] too. *)

From stdpp Require Import base list numbers strings gmap relations.
From Stdlib Require Import ZArith Lia.
From S2P Require Import Prelude Terms ScalarMerge.

(** ** Strings *)

(** The returned flag and the contents of [val], which is [before] on entry. *)
Definition enif_get_std_string (t : term) (before : bytes) : Z * bytes :=
  match enif_get_list_length t with
  | None => (0, before)
  | Some len =>
      match enif_get_string (len + 1) t with
      | GString s => (1, s)
      | GNone => (1, [])
      | GTruncated s => (1, s ++ [Byte.x00])
      end
  end.

(** ** Numbers with a unit *)

(** The length of the prefix of [s] that satisfies [p]. *)
Fixpoint prefix_len (p : Byte.byte -> bool) (s : bytes) : nat :=
  match s with
  | b :: r => if p b then S (prefix_len p r) else 0
  | [] => 0
  end.

Definition is_sign (b : Byte.byte) : bool := (byte_val b =? 43) || (byte_val b =? 45).

(** [endchar]: the characters [strtol] has read when a conversion was performed. *)
Definition end_char (s : bytes) : nat :=
  let spaces := prefix_len is_space s in
  let sign := match s !! spaces with Some b => if is_sign b then 1%nat else 0%nat | None => 0%nat end in
  spaces + sign + prefix_len is_digit (drop (spaces + sign) s).

(** [std::stoull]: a negative number is negated in the unsigned type. *)
Definition stoull (s : bytes) : option Z :=
  match strtol10 s with
  | Some z => if Z.abs z <? 2 ^ 64 then Some (u64 z) else None
  | None => None
  end.

(** [c == lower || c == upper] *)
Definition is_letter (lower upper : Byte.byte) (c : Byte.byte) : bool :=
  (byte_val c =? byte_val lower) || (byte_val c =? byte_val upper).

(** [num <<= n] on an [int]: the value modulo 2^32. *)
Definition int_shiftl (z n : Z) : Z :=
  let m := u32 (Z.shiftl z n) in if m <? 2 ^ 31 then m else m - 2 ^ 32.

(** [None] when [std::stoi] throws. *)
Definition parse_int (value : bytes) : option Z :=
  num ← stoi (c_string value);
  Some (match value !! end_char (c_string value) with
        | Some c => if is_letter Byte.x6b Byte.x4b c then int_shiftl num 10
                    else if is_letter Byte.x6d Byte.x4d c then int_shiftl num 20
                    else if is_letter Byte.x67 Byte.x47 c then int_shiftl num 30
                    else num
        | None => num
        end).

Definition ParseUint64 (value : bytes) : option Z :=
  num ← stoull (c_string value);
  Some (match value !! end_char (c_string value) with
        | Some c => if is_letter Byte.x6b Byte.x4b c then u64 (Z.shiftl num 10)
                    else if is_letter Byte.x6d Byte.x4d c then u64 (Z.shiftl num 20)
                    else if is_letter Byte.x67 Byte.x47 c then u64 (Z.shiftl num 30)
                    else if is_letter Byte.x74 Byte.x54 c then u64 (Z.shiftl num 40)
                    else num
        | None => num
        end).

(** ** The mutex *)

Module Mutex.

(** The thread that holds the mutex, and the number of [MutexLock] objects each thread
    has constructed and not destroyed. *)
Record mutex_state := { m_Mutex : option nat; scopes : gmap nat nat }.

Definition depth (t : nat) (s : mutex_state) : nat := default 0%nat (scopes s !! t).

Definition mutex_init : mutex_state := {| m_Mutex := None; scopes := ∅ |}.

(** The constructor returns once [Lock] has taken the free mutex; the destructor
    calls [Unlock], which is defined for the holder only. *)
Inductive mutex_step : mutex_state -> mutex_state -> Prop :=
| step_lock t sc :
    mutex_step {| m_Mutex := None; scopes := sc |}
         {| m_Mutex := Some t; scopes := <[t := S (default 0%nat (sc !! t))]> sc |}
| step_unlock t sc n :
    sc !! t = Some (S n) ->
    mutex_step {| m_Mutex := Some t; scopes := sc |} {| m_Mutex := None; scopes := <[t := n]> sc |}.

Definition reachable (s : mutex_state) : Prop := rtc mutex_step mutex_init s.

(** Only the holder is in a scope, and in one. *)
Definition exclusive (s : mutex_state) : Prop :=
  forall t, depth t s = if decide (m_Mutex s = Some t) then 1%nat else 0%nat.

Lemma step_exclusive s s' : exclusive s -> mutex_step s s' -> exclusive s'.
Proof.
  intros He Hs t. specialize (He t). unfold depth in *.
  destruct Hs as [t' sc | t' sc n Hn]; cbn [m_Mutex scopes] in *.
  - rewrite decide_False in He by done. destruct (decide (t = t')) as [-> | Hne].
    + by rewrite lookup_insert_eq, decide_True, He.
    + rewrite lookup_insert_ne, decide_False by congruence. done.
  - rewrite (decide_False (P := None = Some t)) by done. destruct (decide (t = t')) as [-> | Hne].
    + rewrite decide_True, Hn in He by done. rewrite lookup_insert_eq. by injection He as ->.
    + rewrite decide_False in He by congruence. by rewrite lookup_insert_ne.
Qed.

(** In every reachable state at most one thread is inside a [MutexLock], and inside
    only one: a second [MutexLock] in the same thread blocks, as for any other. *)
Theorem mutex_exclusive (s : mutex_state) : reachable s -> exclusive s.
Proof.
  intros H. unfold reachable in H. remember mutex_init as s0 eqn:E.
  assert (H0 : exclusive s0) by (subst; intros t; cbn; by rewrite decide_False by done). clear E.
  induction H as [|s1 s2 s3 Hs _ IH]; [done |]. apply IH. by apply (step_exclusive s1).
Qed.

End Mutex.

(** ** Reading a number back *)

(** What the letter after the digits multiplies by. *)
Definition unit64 (c : option Byte.byte) : Z :=
  match c with
  | Some c => if is_letter Byte.x6b Byte.x4b c then 2 ^ 10
              else if is_letter Byte.x6d Byte.x4d c then 2 ^ 20
              else if is_letter Byte.x67 Byte.x47 c then 2 ^ 30
              else if is_letter Byte.x74 Byte.x54 c then 2 ^ 40
              else 1
  | None => 1
  end.

Definition no_digit (r : bytes) : Prop := match r with c :: _ => is_digit c = false | [] => True end.

Lemma digit_facts b :
  is_digit b = true -> is_space b = false /\ is_sign b = false /\ (byte_val b =? 0) = false.
Proof. unfold is_digit, is_space, is_sign. cbn zeta. lia. Qed.

Lemma c_string_digits l r :
  Forall (fun b => is_digit b = true) l -> c_string (l ++ r) = l ++ c_string r.
Proof.
  induction 1 as [|b l Hb Hl IH]; [done |]. cbn [app c_string].
  destruct (digit_facts b Hb) as (_ & _ & ->). by rewrite IH.
Qed.

Lemma no_digit_c_string r : no_digit r -> no_digit (c_string r).
Proof. destruct r as [|b r]; [done |]. cbn. by destruct (byte_val b =? 0). Qed.

Lemma prefix_len_digits l r :
  Forall (fun b => is_digit b = true) l -> no_digit r -> prefix_len is_digit (l ++ r) = length l.
Proof.
  intros Hl Hr. induction Hl as [|b l Hb Hl IH]; cbn.
  - destruct r as [|c r]; [done |]. cbn in *. by rewrite Hr.
  - by rewrite Hb, IH.
Qed.

Lemma read_digits_prefix l r acc :
  Forall (fun b => is_digit b = true) l -> no_digit r -> read_digits acc (l ++ r) = read_digits acc l.
Proof.
  intros Hl Hr. rewrite read_digits_app by done. destruct r as [|c r]; [done |]. cbn in *. by rewrite Hr.
Qed.

(** A number at the front of a string, for [strtol] and for the suffix. *)
Lemma number_prefix fuel n r :
  0 <= n < 10 ^ Z.of_nat fuel -> (0 < fuel)%nat -> no_digit r ->
  strtol10 (decimal fuel n ++ r) = Some n /\ end_char (decimal fuel n ++ r) = length (decimal fuel n).
Proof.
  intros Hn Hf Hr. pose proof (decimal_digits fuel n ltac:(lia)) as Hd.
  pose proof (read_decimal fuel n Hn) as Hv. rewrite <- (read_digits_prefix _ r 0 Hd Hr) in Hv.
  pose proof (prefix_len_digits _ r Hd Hr) as Hp.
  destruct (decimal_head fuel n) as (b & l & Hb & Hdigit); [lia | lia |]. rewrite Hb in *.
  destruct (digit_facts b Hdigit) as (Hsp & Hsg & _). unfold is_sign in Hsg. apply orb_false_iff in Hsg as [H43 H45].
  cbn [app] in *. split.
  - unfold strtol10. cbn [skip_spaces]. rewrite Hsp, H45, H43, Hdigit. by rewrite Hv.
  - unfold end_char. cbn [prefix_len]. rewrite Hsp. cbn [lookup list_lookup]. unfold is_sign.
    rewrite H43, H45. cbn [orb Nat.add drop]. exact Hp.
Qed.

(** [ParseUint64] on a decimal number with a unit: the product modulo 2^64, so the
    number of bytes exactly when it fits; a unit that is too large for the number is
    not reported. *)
Theorem parse_uint64_units (n : Z) (r : bytes) :
  0 <= n < 2 ^ 64 -> no_digit r ->
  ParseUint64 (decimal 20 n ++ r) = Some (u64 (n * unit64 (head r))).
Proof.
  intros Hn Hr.
  assert (Hn' : 0 <= n < 10 ^ Z.of_nat 20) by (change (10 ^ Z.of_nat 20) with 100000000000000000000; lia).
  pose proof (decimal_digits 20 n ltac:(lia)) as Hd.
  destruct (number_prefix 20 n (c_string r) Hn' ltac:(lia) (no_digit_c_string r Hr)) as [Hs He].
  unfold ParseUint64, stoull. rewrite c_string_digits, Hs, He by done.
  rewrite (proj2 (Z.ltb_lt _ _)) by lia. cbn [mbind option_bind].
  rewrite lookup_app_r, Nat.sub_diag by done. rewrite (wrap_small 64 n) by lia. f_equal.
  destruct r as [|c r]; cbn [lookup list_lookup head unit64].
  { rewrite Z.mul_1_r. by rewrite wrap_small by lia. }
  repeat (case_match; [by rewrite Z.shiftl_mul_pow2 by lia |]).
  rewrite Z.mul_1_r. by rewrite wrap_small by lia.
Qed.

(** Every result fits its type. *)
Theorem parse_results_in_range (value : bytes) :
  (forall z, parse_int value = Some z -> in_int z = true) /\
  (forall z, ParseUint64 value = Some z -> 0 <= z < 2 ^ 64).
Proof.
  split; intros z H.
  - unfold parse_int in H. destruct (stoi _) as [num|] eqn:E; [| done]. apply stoi_range in E.
    cbn [mbind option_bind] in H. injection H as <-.
    assert (Hsh : forall k, in_int (int_shiftl num k) = true).
    { intros k. unfold int_shiftl, in_int, INT_MIN, INT_MAX. cbn zeta.
      pose proof (wrap_range 32 (Z.shiftl num k) ltac:(lia)).
      destruct (u32 (Z.shiftl num k) <? 2 ^ 31) eqn:E2; lia. }
    repeat (case_match; try done).
  - unfold ParseUint64 in H. destruct (stoull _) as [num|] eqn:E; [| done].
    assert (Hnum : 0 <= num < 2 ^ 64).
    { unfold stoull in E. destruct (strtol10 _) as [z0|]; [| done].
      destruct (Z.abs z0 <? 2 ^ 64); [| done]. injection E as <-. by apply wrap_range. }
    cbn [mbind option_bind] in H. injection H as <-.
    repeat (case_match; try done); by apply wrap_range.
Qed.

(** The characters of a list with enough room for them. *)
Lemma get_string_chars s room acc :
  (length s < room)%nat ->
  get_string_loop room (make_list ((fun b => Tint (byte_val b)) <$> s)) acc = GString (acc ++ s).
Proof.
  revert room acc. induction s as [|b s IH]; intros [|room] acc Hr; cbn in *; try lia.
  { by rewrite app_nil_r. }
  pose proof (byte_val_range b) as Hb. assert ((0 <=? byte_val b) && (byte_val b <? 256) = true) as -> by lia.
  destruct room as [|room]; [lia |]. rewrite IH by lia.
  by rewrite byte_of_Z_val, <- app_assoc.
Qed.

Definition no_char (t : term) : bool :=
  match t with Tint c => negb ((0 <=? c) && (c <? 256)) | _ => true end.

Lemma get_string_no_char l room acc :
  (length l < room)%nat -> existsb no_char l = true -> get_string_loop room (make_list l) acc = GNone.
Proof.
  revert room acc. induction l as [|t l IH]; intros [|room] acc Hr H; cbn in Hr; try done; try lia.
  cbn [existsb] in H. cbn [make_list get_string_loop]. destruct t; try done.
  cbn [no_char] in H. destruct ((0 <=? z) && (z <? 256)); [| done]. cbn [negb orb] in H.
  destruct room as [|room]; [lia |]. apply IH; [lia | done].
Qed.

(** A list of characters is read back; a list with something else in it is answered
    as a success with an empty string. *)
Theorem std_string_roundtrip (s before : bytes) (l : list term) :
  enif_get_std_string (make_list ((fun b => Tint (byte_val b)) <$> s)) before = (1, s) /\
  (existsb no_char l = true -> enif_get_std_string (make_list l) before = (1, [])).
Proof.
  unfold enif_get_std_string, enif_get_string. rewrite !list_length_make_list, length_fmap. split.
  - by rewrite get_string_chars by lia.
  - intros H. by rewrite get_string_no_char by (done || lia).
Qed.
