(* ===== verification/ErlangMerge.v ===== *)
(** * The Erlang term merge operator

    [c_src/erlang_merge.cc]: values and operands are Erlang terms in the
    external format; a stored integer, list or binary is updated by tuples such
    as [{int_add, N}], [{list_insert, Pos, List}] or [{binary_erase, Pos, N}].

    The three [mergeErlang*] functions are the same loop around a step that
    applies one decoded operand; a step goes on, fails (the function returns
    [false]) or throws ([std::string::replace] out of range). [Undef] marks an
    access past the end of a tuple, a signed overflow and a null buffer. *)

From stdpp Require Import base list numbers strings.
From Stdlib Require Import ZArith Lia.
From S2P Require Import Prelude Terms Etf.

(** ** The operator *)

Inductive step_result (S : Type) :=
| Next (s : S)
| Fail
| Throw.
Arguments Next {S} _.
Arguments Fail {S}.
Arguments Throw {S}.

Inductive merge_result :=
| Merged (new_value : bytes)   (* returns true *)
| Failed                       (* returns false *)
| Thrown.                      (* an exception leaves the function *)

(** The loop [while (it != merge_in.operand_list.end())]: decode the operand,
    take its tuple, apply the step. *)
Fixpoint merge_loop `{NifEnv} {S} (step : S -> list term -> outcome (step_result S)) (s : S)
    (operands : list bytes) : outcome (step_result S) :=
  match operands with
  | [] => Ok (Next s)
  | o :: rest =>
      match binary_to_term o with
      | None => Ok Fail
      | Some t =>
          match enif_get_tuple t with
          | None => Ok Fail
          | Some op =>
              let! r := step s op in
              match r with
              | Next s' => merge_loop step s' rest
              | Fail => Ok Fail
              | Throw => Ok Throw
              end
          end
      end
  end.

(** [auto it = begin(); if (next) std::advance(it, 1)]: advancing past the end
    is undefined. *)
Definition skip_first (next : bool) (operands : list bytes) : outcome (list bytes) :=
  if next then match operands with [] => Undef | _ :: r => Ok r end else Ok operands.

(** The end of the merge functions: encode the new term. *)
Definition finish `{NifEnv} (r : step_result term) : outcome merge_result :=
  match r with
  | Next t => match term_to_binary t with Some b => Ok (Merged b) | None => Ok Failed end
  | Fail => Ok Failed
  | Throw => Ok Thrown
  end.

Definition step_map {A B} (f : A -> B) (r : step_result A) : step_result B :=
  match r with Next a => Next (f a) | Fail => Fail | Throw => Throw end.

(** *** mergeErlangInt *)

Definition in_int64 (z : Z) : bool := (- 2 ^ 63 <=? z) && (z <? 2 ^ 63).

Definition int_step (new_val : Z) (op : list term) : outcome (step_result Z) :=
  let! op0 := elem op 0 in
  if negb (is_atom "int_add" op0) then Ok Fail
  else
    let! op1 := elem op 1 in
    match enif_get_int64 op1 with
    | None => Ok Fail
    | Some val => if in_int64 (new_val + val) then Ok (Next (new_val + val)) else Undef
    end.

Definition mergeErlangInt `{NifEnv} (new_val : Z) (next : bool) (operands : list bytes) :
    outcome merge_result :=
  let! ops := skip_first next operands in
  let! r := merge_loop int_step new_val ops in
  finish (step_map Tint r).

(** *** mergeErlangList *)

(** Erase the first element that compares equal to [head]. *)
Fixpoint erase_first `{NifEnv} (head : term) (l : list term) : list term :=
  match l with
  | [] => []
  | x :: r => if compare_eq x head then r else x :: erase_first head r
  end.

(** [for (i = start; i <= end; i++) lit = list_in.erase(lit)] *)
Definition erase_range (start stop : Z) (l : list term) : list term :=
  Nat.iter (Z.to_nat (stop - start + 1)) (delete (Z.to_nat start)) l.

(** Each cell is inserted before the iterator, which stays on its element. *)
Fixpoint insert_cells (pos : nat) (cells l : list term) : list term :=
  match cells with
  | [] => l
  | h :: r => insert_cells (S pos) r (take pos l ++ h :: drop pos l)
  end.

Definition list_step2 `{NifEnv} (list_in : list term) (op0 op1 : term) :
    step_result (list term) :=
  if is_atom "list_append" op0 then
    if enif_is_list op1 then Next (list_in ++ list_cells op1) else Fail
  else if is_atom "list_substract" op0 then
    match enif_get_list_length op1 with
    | None => Fail
    | Some len =>
        if (0 <? len)%nat
        then Next (fold_left (fun l head => erase_first head l) (list_cells op1) list_in)
        else Next list_in
    end
  else if is_atom "list_delete" op0 then
    match enif_get_uint op1 with
    | None => Fail
    | Some pos => if pos <? zlen list_in then Next (delete (Z.to_nat pos) list_in) else Next list_in
    end
  else Fail.

Definition list_step3 (list_in : list term) (op0 op1 op2 : term) : step_result (list term) :=
  if is_atom "list_set" op0 then
    match enif_get_uint op1 with
    | None => Fail
    | Some pos =>
        if pos <? zlen list_in then Next (<[Z.to_nat pos := op2]> list_in) else Next list_in
    end
  else if is_atom "list_delete" op0 then
    match enif_get_uint op1, enif_get_uint op2 with
    | Some start, Some stop =>
        if stop <=? start then Fail
        else if (start <? stop) && (stop <? zlen list_in)
             then Next (erase_range start stop list_in)
             else Next list_in
    | _, _ => Fail
    end
  else if is_atom "list_insert" op0 then
    match enif_get_uint op1 with
    | None => Fail
    | Some pos =>
        if negb (enif_is_list op2) then Fail
        else if pos <? zlen list_in
             then Next (insert_cells (Z.to_nat pos) (list_cells op2) list_in)
             else Next list_in
    end
  else Fail.

Definition list_step `{NifEnv} (list_in : list term) (op : list term) :
    outcome (step_result (list term)) :=
  match op with
  | [op0; op1] => Ok (list_step2 list_in op0 op1)
  | [op0; op1; op2] => Ok (list_step3 list_in op0 op1 op2)
  | _ => Ok Fail
  end.

Definition mergeErlangList `{NifEnv} (list_in : list term) (next : bool) (operands : list bytes) :
    outcome merge_result :=
  let! ops := skip_first next operands in
  let! r := merge_loop list_step list_in ops in
  finish (step_map make_list r).

(** *** mergeErlangBinary *)

(** [s.erase(pos, count)] for [pos <= s.size()]: the count is clamped. *)
Definition str_erase (s : bytes) (pos count : Z) : bytes :=
  take (Z.to_nat pos) s ++ drop (Z.to_nat (Z.min (pos + count) (zlen s))) s.

(** [s.insert(pos, chunk)] for [pos <= s.size()]. *)
Definition str_insert (s : bytes) (pos : Z) (chunk : bytes) : bytes :=
  take (Z.to_nat pos) s ++ chunk ++ drop (Z.to_nat pos) s.

(** [s.replace(pos, count, data, n)]: throws [out_of_range] when [pos] is past
    the end. *)
Definition str_replace (s : bytes) (pos count : Z) (chunk : bytes) : step_result bytes :=
  if zlen s <? pos then Throw
  else Next (take (Z.to_nat pos) s ++ chunk ++ drop (Z.to_nat (Z.min (pos + count) (zlen s))) s).

Definition binary_step (s : bytes) (op : list term) : outcome (step_result bytes) :=
  match op with
  | [op0; op1] =>
      if is_atom "binary_append" op0 then
        match enif_inspect_binary op1 with
        | Some bin => Ok (Next (s ++ bin))
        | None => Ok Fail
        end
      else Ok Fail
  | [op0; op1; op2] =>
      if is_atom "binary_erase" op0 then
        match enif_get_uint op1, enif_get_uint op2 with
        | Some pos, Some count =>
            if pos <? zlen s then Ok (Next (str_erase s pos count)) else Ok (Next s)
        | _, _ => Ok Fail
        end
      else if is_atom "binary_insert" op0 then
        match enif_get_uint op1, enif_inspect_binary op2 with
        | Some pos, Some bin =>
            if pos <=? zlen s then Ok (Next (str_insert s pos bin)) else Ok (Next s)
        | _, _ => Ok Fail
        end
      else Ok Fail
  | [op0; op1; op2; op3] =>
      if is_atom "binary_replace" op0 then
        match enif_get_uint op1, enif_get_uint op2, enif_inspect_binary op3 with
        | Some pos, Some count, Some bin =>
            if u32 (pos + count) <? zlen s then Ok (str_replace s pos count bin) else Ok (Next s)
        | _, _, _ => Ok Fail
        end
      else Ok Fail
  | _ => Ok Fail
  end.

Definition mergeErlangBinary `{NifEnv} (s : bytes) (next : bool) (operands : list bytes) :
    outcome merge_result :=
  let! ops := skip_first next operands in
  let! r := merge_loop binary_step s ops in
  match r with
  | Next s' =>
      (* memcpy(enif_make_new_binary(...), ...): a failed allocation is a null
         destination *)
      match make_new_binary s' with
      | Some t => finish (Next t)
      | None => Undef
      end
  | Fail => Ok Failed
  | Throw => Ok Thrown
  end.

(** *** FullMergeV2 *)

Definition merge_existing `{NifEnv} (existing : bytes) (operands : list bytes) :
    outcome merge_result :=
  match binary_to_term existing with
  | None => Ok Failed
  | Some t =>
      if enif_is_number t then
        match enif_get_int64 t with
        | Some old_val => mergeErlangInt old_val false operands
        | None => Ok Failed
        end
      else if enif_is_list t then mergeErlangList (list_cells t) false operands
      else match enif_inspect_binary t with
           | Some bin => mergeErlangBinary bin false operands
           | None => Ok Failed
           end
  end.

Definition merge_first `{NifEnv} (operands : list bytes) : outcome merge_result :=
  match operands with
  | [] => Undef
  | first :: _ =>
      match binary_to_term first with
      | None => Ok Failed
      | Some t =>
          match enif_get_tuple t with
          | None => Ok Failed
          | Some op =>
              let! op0 := elem op 0 in
              if is_atom "int_add" op0 then
                let! op1 := elem op 1 in
                match enif_get_int64 op1 with
                | Some val => mergeErlangInt val true operands
                | None => Ok Failed
                end
              else if is_atom "list_append" op0 then
                let! op1 := elem op 1 in
                if enif_is_list op1 then mergeErlangList [] false operands else Ok Failed
              else if is_atom "list_substract" op0 then
                let! op1 := elem op 1 in
                if enif_is_list op1 then mergeErlangList [] true operands else Ok Failed
              else if is_atom "binary_append" op0 then
                let! op1 := elem op 1 in
                match enif_inspect_binary op1 with
                | Some bin => mergeErlangBinary bin true operands
                | None => Ok Failed
                end
              else Ok Failed
          end
      end
  end.

Definition ErlangFullMergeV2 `{NifEnv} (existing_value : option bytes) (operands : list bytes) :
    outcome merge_result :=
  if negb alloc_env_ok then Undef
  else match existing_value with
       | Some e => merge_existing e operands
       | None => merge_first operands
       end.

(** [PartialMergeMulti] always declines. *)
Definition ErlangPartialMergeMulti (operands : list bytes) : option bytes := None.

(** ** What the operands mean *)

Inductive erl_value :=
| VInt (z : Z)
| VList (l : list term)
| VBin (b : bytes).

Definition value_term (v : erl_value) : term :=
  match v with VInt z => Tint z | VList l => make_list l | VBin b => Tbin b end.

Inductive merge_op :=
| IntAdd (z : Z)
| ListAppend (l : list term)
| ListSubstract (l : list term)
| ListSet (pos : nat) (t : term)
| ListDelete (pos : nat)
| ListDeleteRange (start stop : nat)
| ListInsert (pos : nat) (l : list term)
| BinaryAppend (b : bytes)
| BinaryErase (pos count : nat)
| BinaryInsert (pos : nat) (b : bytes)
| BinaryReplace (pos count : nat) (b : bytes).

(** The Erlang tuple of an operation. *)
Definition op_term (o : merge_op) : term :=
  let n (k : nat) := Tint (Z.of_nat k) in
  match o with
  | IntAdd z => Ttuple [Tatom "int_add"; Tint z]
  | ListAppend l => Ttuple [Tatom "list_append"; make_list l]
  | ListSubstract l => Ttuple [Tatom "list_substract"; make_list l]
  | ListSet pos t => Ttuple [Tatom "list_set"; n pos; t]
  | ListDelete pos => Ttuple [Tatom "list_delete"; n pos]
  | ListDeleteRange s e => Ttuple [Tatom "list_delete"; n s; n e]
  | ListInsert pos l => Ttuple [Tatom "list_insert"; n pos; make_list l]
  | BinaryAppend b => Ttuple [Tatom "binary_append"; Tbin b]
  | BinaryErase pos count => Ttuple [Tatom "binary_erase"; n pos; n count]
  | BinaryInsert pos b => Ttuple [Tatom "binary_insert"; n pos; Tbin b]
  | BinaryReplace pos count b => Ttuple [Tatom "binary_replace"; n pos; n count; Tbin b]
  end.

(** The effect of an operation on a value; [None] when it is rejected: it is an
    operation of another type, or a range that does not increase.  A position
    outside the value leaves it unchanged. *)
Definition apply_op `{NifEnv} (v : erl_value) (o : merge_op) : option erl_value :=
  match v, o with
  | VInt x, IntAdd z => Some (VInt (x + z))
  | VList l, ListAppend k => Some (VList (l ++ k))
  | VList l, ListSubstract k => Some (VList (fold_left (fun l head => erase_first head l) k l))
  | VList l, ListSet pos t => Some (VList (<[pos := t]> l))
  | VList l, ListDelete pos => Some (VList (delete pos l))
  | VList l, ListDeleteRange s e =>
      if (s <? e)%nat
      then Some (VList (if (e <? length l)%nat then take s l ++ drop (S e) l else l))
      else None
  | VList l, ListInsert pos k =>
      Some (VList (if (pos <? length l)%nat then take pos l ++ k ++ drop pos l else l))
  | VBin b, BinaryAppend c => Some (VBin (b ++ c))
  | VBin b, BinaryErase pos count => Some (VBin (take pos b ++ drop (pos + count) b))
  | VBin b, BinaryInsert pos c =>
      Some (VBin (if (pos <=? length b)%nat then take pos b ++ c ++ drop pos b else b))
  | VBin b, BinaryReplace pos count c =>
      Some (VBin (if (pos + count <? length b)%nat
                  then take pos b ++ c ++ drop (pos + count) b else b))
  | _, _ => None
  end.

Fixpoint apply_ops `{NifEnv} (v : erl_value) (ops : list merge_op) : option erl_value :=
  match ops with
  | [] => Some v
  | o :: r => match apply_op v o with Some v' => apply_ops v' r | None => None end
  end.

(** The value an absent key has before its first operand, and the operands that
    remain to be applied to it. *)
Definition initial (ops : list merge_op) : option (erl_value * list merge_op) :=
  match ops with
  | IntAdd z :: r => Some (VInt z, r)
  | ListAppend l :: r => Some (VList l, r)
  | ListSubstract _ :: r => Some (VList [], r)
  | BinaryAppend b :: r => Some (VBin b, r)
  | _ => None
  end.

Definition u32_nat (n : nat) : Prop := Z.of_nat n < 2 ^ 32.

(** Operations whose numbers fit the machine types the code reads them into. *)
Definition op_ok (o : merge_op) : Prop :=
  match o with
  | IntAdd z => in_int64 z = true
  | ListSet pos _ | ListDelete pos | ListInsert pos _ | BinaryInsert pos _ => u32_nat pos
  | ListDeleteRange a b | BinaryErase a b => u32_nat a /\ u32_nat b
  | BinaryReplace a b _ => u32_nat (a + b)
  | _ => True
  end.

(** Every value the operations pass through has its integer in 64 bits and its
    binary within what the runtime can allocate. *)
Definition value_ok `{NifEnv} (v : erl_value) : Prop :=
  match v with
  | VInt z => in_int64 z = true
  | VList _ => True
  | VBin b => new_binary_ok (length b) = true
  end.

Fixpoint values_ok `{NifEnv} (v : erl_value) (ops : list merge_op) : Prop :=
  value_ok v /\
  match ops with
  | [] => True
  | o :: r => match apply_op v o with Some v' => values_ok v' r | None => True end
  end.

(** ** Lemmas *)

Lemma get_uint_nat n : u32_nat n -> enif_get_uint (Tint (Z.of_nat n)) = Some (Z.of_nat n).
Proof.
  intros H. unfold u32_nat in H. cbn.
  destruct (0 <=? Z.of_nat n) eqn:E1, (Z.of_nat n <? _) eqn:E2; try done; lia.
Qed.

Lemma get_int64_int z : in_int64 z = true -> enif_get_int64 (Tint z) = Some z.
Proof. intros H. cbn. unfold in_int64 in H. cbn in H. by rewrite H. Qed.

Lemma is_list_make_list l : enif_is_list (make_list l) = true.
Proof. by destruct l. Qed.

Lemma zlen_ltb {A} (n : nat) (l : list A) : (Z.of_nat n <? zlen l) = (n <? length l)%nat.
Proof. destruct (n <? length l)%nat eqn:E; [apply Nat.ltb_lt in E | apply Nat.ltb_ge in E]; lia. Qed.

Lemma zlen_leb {A} (n : nat) (l : list A) : (Z.of_nat n <=? zlen l) = (n <=? length l)%nat.
Proof. destruct (n <=? length l)%nat eqn:E; [apply Nat.leb_le in E | apply Nat.leb_gt in E]; lia. Qed.

Lemma delete_iter n start (l : list term) :
  Nat.iter n (delete start) l = take start l ++ drop (start + n) l.
Proof.
  induction n as [|n IH].
  - by rewrite Nat.add_0_r, take_drop.
  - rewrite Nat.iter_succ, IH. destruct (decide (start <= length l)%nat) as [Hs | Hs].
    + rewrite delete_take_drop. rewrite take_app_le, take_take by (rewrite length_take; lia).
      rewrite Nat.min_id. f_equal.
      rewrite drop_app_ge by (rewrite length_take; lia). rewrite length_take, drop_drop.
      f_equal. lia.
    + rewrite !drop_ge by lia. rewrite !app_nil_r. rewrite take_ge by lia.
      rewrite delete_take_drop, take_ge, drop_ge by lia. apply app_nil_r.
Qed.

Lemma erase_range_spec (a b : nat) (l : list term) :
  (a < b)%nat -> erase_range (Z.of_nat a) (Z.of_nat b) l = take a l ++ drop (S b) l.
Proof.
  intros H. unfold erase_range. rewrite delete_iter, Nat2Z.id. do 2 f_equal. lia.
Qed.

Lemma insert_cells_spec pos cells l :
  (pos <= length l)%nat -> insert_cells pos cells l = take pos l ++ cells ++ drop pos l.
Proof.
  revert pos l. induction cells as [|h cells IH]; intros pos l Hp; cbn [insert_cells app].
  - by rewrite take_drop.
  - assert (Hl : length (take pos l ++ [h]) = S pos) by (rewrite length_app, length_take; cbn; lia).
    rewrite IH by (rewrite length_app, length_take; cbn; rewrite length_drop; lia).
    replace (take pos l ++ h :: drop pos l) with ((take pos l ++ [h]) ++ drop pos l)
      by (by rewrite <- app_assoc).
    rewrite <- Hl, take_app_length, drop_app_length, <- app_assoc. done.
Qed.

Lemma drop_min {A} (k : nat) (l : list A) :
  drop (Z.to_nat (Z.min (Z.of_nat k) (zlen l))) l = drop k l.
Proof.
  destruct (decide (k <= length l)%nat); [f_equal; lia |].
  rewrite (drop_ge l k) by lia. apply drop_ge. lia.
Qed.

Lemma delete_oob {A} (l : list A) i : (length l <= i)%nat -> delete i l = l.
Proof. intros. rewrite delete_take_drop, take_ge, drop_ge by lia. apply app_nil_r. Qed.

(** ** One step per value type *)

(** A step implements [apply_op] on the values [inj] embeds. *)
Definition step_refines `{NifEnv} {S} (inj : S -> erl_value)
    (step : S -> list term -> outcome (step_result S)) : Prop :=
  forall s o args, op_ok o -> op_term o = Ttuple args ->
  match apply_op (inj s) o with
  | Some v' => value_ok v' -> exists s', v' = inj s' /\ step s args = Ok (Next s')
  | None => step s args = Ok Fail
  end.

Lemma int_step_refines `{NifEnv} : step_refines VInt int_step.
Proof.
  intros x o args Hok Ho. destruct o; cbn in Ho; simplify_eq; try done.
  cbn [apply_op value_ok]. intros Hv. eexists. split; [done |].
  unfold int_step. cbn [elem lookup list_lookup obind]. eval_atoms.
  rewrite get_int64_int by done. by rewrite Hv.
Qed.

Lemma list_step_refines `{NifEnv} : step_refines VList list_step.
Proof.
  intros l o args Hok Ho. destruct o; cbn in Ho; simplify_eq; try done;
    cbn [apply_op value_ok list_step op_ok] in *.
  - intros _. eexists. split; [done |]. unfold list_step2. eval_atoms.
    by rewrite is_list_make_list, list_cells_make_list.
  - intros _. eexists. split; [done |]. unfold list_step2.
    eval_atoms.
    rewrite list_length_make_list, list_cells_make_list. by destruct l0.
  - intros _. eexists. split; [done |]. unfold list_step3.
    eval_atoms.
    rewrite get_uint_nat, zlen_ltb, Nat2Z.id by done.
    destruct (pos <? length l)%nat eqn:E; [done |]. apply Nat.ltb_ge in E.
    by rewrite list_insert_ge.
  - intros _. eexists. split; [done |]. unfold list_step2. eval_atoms.
    rewrite get_uint_nat, zlen_ltb, Nat2Z.id by done.
    destruct (pos <? length l)%nat eqn:E; [done |]. apply Nat.ltb_ge in E. by rewrite delete_oob.
  - destruct Hok as [H1 H2]. unfold list_step3. eval_atoms.
    rewrite !get_uint_nat, zlen_ltb by done.
    destruct (start <? stop)%nat eqn:E.
    + apply Nat.ltb_lt in E. intros _. eexists. split; [done |].
      rewrite (proj2 (Z.leb_gt _ _)), (proj2 (Z.ltb_lt _ _)) by lia. cbn [andb].
      destruct (stop <? length l)%nat; [by rewrite erase_range_spec | done].
    + apply Nat.ltb_ge in E. by rewrite (proj2 (Z.leb_le _ _)) by lia.
  - intros _. eexists. split; [done |]. unfold list_step3. eval_atoms.
    rewrite get_uint_nat, is_list_make_list, zlen_ltb, Nat2Z.id, list_cells_make_list by done.
    cbn [negb]. destruct (pos <? length l)%nat eqn:E; [| done]. apply Nat.ltb_lt in E.
    by rewrite insert_cells_spec by lia.
Qed.

Lemma binary_step_refines `{NifEnv} : step_refines VBin binary_step.
Proof.
  intros s o args Hok Ho. destruct o; cbn in Ho; simplify_eq; try done;
    cbn [apply_op value_ok op_ok] in *; intros _; eexists; (split; [done |]);
    unfold binary_step; eval_atoms; cbn [enif_inspect_binary].
  - done.
  - destruct Hok as [H1 H2]. rewrite !get_uint_nat, zlen_ltb by done.
    destruct (pos <? length s)%nat eqn:E.
    + unfold str_erase. by rewrite <- Nat2Z.inj_add, drop_min, Nat2Z.id.
    + apply Nat.ltb_ge in E. by rewrite take_ge, drop_ge, app_nil_r by lia.
  - rewrite get_uint_nat, zlen_leb by done. unfold str_insert. rewrite Nat2Z.id. by case_match.
  - rewrite !get_uint_nat by (unfold u32_nat in *; lia).
    rewrite <- Nat2Z.inj_add, wrap_small by (unfold u32_nat in *; lia). rewrite zlen_ltb.
    destruct (pos + count <? length s)%nat eqn:E; [| done]. apply Nat.ltb_lt in E.
    unfold str_replace. rewrite (proj2 (Z.ltb_ge _ _)) by lia.
    by rewrite <- Nat2Z.inj_add, drop_min, Nat2Z.id.
Qed.

(** ** The loop *)

Lemma op_term_tuple o : exists args, op_term o = Ttuple args.
Proof. destruct o; by eexists. Qed.

Lemma merge_loop_refines `{NifLaws} {S} (inj : S -> erl_value) step s ops bs :
  step_refines inj step -> Forall op_ok ops ->
  Forall2 (fun o b => term_to_binary (op_term o) = Some b) ops bs -> values_ok (inj s) ops ->
  match apply_ops (inj s) ops with
  | Some v' => exists s', v' = inj s' /\ merge_loop step s bs = Ok (Next s') /\ value_ok v'
  | None => merge_loop step s bs = Ok Fail
  end.
Proof.
  intros Hstep Hok Hbs. revert s Hok.
  induction Hbs as [|o b ops bs Hb Hbs IH]; intros s Hok Hv; cbn [apply_ops merge_loop].
  { destruct Hv as [Hv _]. by exists s. }
  apply Forall_cons in Hok as [Ho Hok]. destruct Hv as [_ Hv].
  destruct (op_term_tuple o) as [args Hargs].
  rewrite (decode_encode _ _ Hb), Hargs. cbn [enif_get_tuple].
  pose proof (Hstep s o args Ho Hargs) as Hs.
  destruct (apply_op (inj s) o) as [v'|]; [| by rewrite Hs].
  destruct Hs as (s' & -> & ->). { by destruct ops; destruct Hv. }
  cbn [obind]. by apply IH.
Qed.

(** What a merge makes of an abstract result. *)
Definition merge_value `{NifEnv} (r : option erl_value) : outcome merge_result :=
  match r with
  | Some v => match term_to_binary (value_term v) with Some b => Ok (Merged b) | None => Ok Failed end
  | None => Ok Failed
  end.

Lemma merge_typed_refines `{NifLaws} v ops bs :
  Forall op_ok ops -> Forall2 (fun o b => term_to_binary (op_term o) = Some b) ops bs ->
  values_ok v ops ->
  (match v with
   | VInt z => mergeErlangInt z false bs
   | VList l => mergeErlangList l false bs
   | VBin b => mergeErlangBinary b false bs
   end) = merge_value (apply_ops v ops).
Proof.
  intros Hok Hbs Hv. destruct v as [z|l|b].
  - pose proof (merge_loop_refines VInt int_step z ops bs int_step_refines Hok Hbs Hv) as H'.
    unfold mergeErlangInt. cbn [skip_first obind].
    destruct (apply_ops (VInt z) ops) as [v'|]; [| by rewrite H'].
    by destruct H' as (s' & -> & -> & _).
  - pose proof (merge_loop_refines VList list_step l ops bs list_step_refines Hok Hbs Hv) as H'.
    unfold mergeErlangList. cbn [skip_first obind].
    destruct (apply_ops (VList l) ops) as [v'|]; [| by rewrite H'].
    by destruct H' as (s' & -> & -> & _).
  - pose proof (merge_loop_refines VBin binary_step b ops bs binary_step_refines Hok Hbs Hv) as H'.
    unfold mergeErlangBinary. cbn [skip_first obind].
    destruct (apply_ops (VBin b) ops) as [v'|]; [| by rewrite H'].
    destruct H' as (s' & -> & -> & Hn). cbn in Hn. cbn [obind]. unfold make_new_binary. by rewrite Hn.
Qed.

Lemma merge_existing_value `{NifLaws} v e bs :
  term_to_binary (value_term v) = Some e -> value_ok v ->
  merge_existing e bs =
  match v with
  | VInt z => mergeErlangInt z false bs
  | VList l => mergeErlangList l false bs
  | VBin b => mergeErlangBinary b false bs
  end.
Proof.
  intros He Hv. unfold merge_existing. rewrite (decode_encode _ _ He).
  destruct v as [z|l|b]; cbn [value_term value_ok] in *.
  - cbn [enif_is_number]. by rewrite get_int64_int.
  - assert (enif_is_number (make_list l) = false) as -> by (by destruct l).
    by rewrite is_list_make_list, list_cells_make_list.
  - done.
Qed.

(** ** Theorems *)

(** What the operator does with well-formed operands: on a stored integer, list or
    binary the result is the encoding of the value after [apply_op] of the operations,
    in order; on an absent key the first operation gives the initial value. *)
Theorem erlang_merge_observed `{NifLaws} (v : erl_value) (e : bytes) (ops : list merge_op)
    (bs : list bytes) :
  alloc_env_ok = true -> Forall op_ok ops ->
  Forall2 (fun o b => term_to_binary (op_term o) = Some b) ops bs ->
  (term_to_binary (value_term v) = Some e -> values_ok v ops ->
     ErlangFullMergeV2 (Some e) bs = merge_value (apply_ops v ops)) /\
  (ops <> [] -> (forall v0 rest, initial ops = Some (v0, rest) -> values_ok v0 rest) ->
     ErlangFullMergeV2 None bs =
     merge_value (match initial ops with Some (v0, rest) => apply_ops v0 rest | None => None end)).
Proof.
  intros Henv Hok Hbs. unfold ErlangFullMergeV2. rewrite Henv. cbn [negb]. split.
  - intros He Hv. rewrite (merge_existing_value v) by (done || by destruct ops, Hv).
    by apply merge_typed_refines.
  - intros Hne Hv. destruct Hbs as [|o b ops bs Hb Hbs]; [done |].
    unfold merge_first. rewrite (decode_encode _ _ Hb).
    pose proof Hok as Hok'. apply Forall_cons in Hok' as [Ho Hops].
    destruct o; cbn [initial op_term enif_get_tuple elem lookup list_lookup obind] in *; eval_atoms;
      try done; specialize (Hv _ _ eq_refl).
    + rewrite get_int64_int by done. by apply (merge_typed_refines (VInt z)).
    + rewrite is_list_make_list. rewrite (merge_typed_refines (VList []) (ListAppend l :: ops)); try done.
      by constructor.
    + rewrite is_list_make_list. by apply (merge_typed_refines (VList [])).
    + by apply (merge_typed_refines (VBin b0)).
Qed.

(** *** The documented meaning

    [guides/erlang_merge_operator.md].  [None]: the guide has no answer (a position
    outside the list, an operation of another type), or one the code does not give:
    [list_substract] is [lists:subtract/2], which distinguishes 1 and 1.0, where the
    code compares with [enif_compare]; [list_delete] deletes one or more elements, but
    the code rejects a range of one element. *)

(** [lists:subtract/2]: for each element, its first occurrence ([=:=]) is deleted. *)
Fixpoint delete_first (x : term) (l : list term) : list term :=
  match l with
  | [] => []
  | y :: r => if decide (y = x) then r else y :: delete_first x r
  end.

Definition subtract (l k : list term) : list term := fold_left (fun l x => delete_first x l) k l.

(** [enif_compare] finds equal exactly the equal elements. *)
Definition compared_exactly `{NifEnv} (l k : list term) : bool :=
  forallb (fun x => forallb (fun y => Bool.eqb (compare_eq x y) (bool_decide (x = y))) k) l.

Definition documented `{NifEnv} (v : erl_value) (o : merge_op) : option erl_value :=
  match v, o with
  | VInt x, IntAdd z => Some (VInt (x + z))
  | VList l, ListAppend k => Some (VList (l ++ k))
  | VList l, ListSubstract k => if compared_exactly l k then Some (VList (subtract l k)) else None
  | VList l, ListSet pos t =>
      if decide (pos < length l)%nat then Some (VList (take pos l ++ t :: drop (S pos) l)) else None
  | VList l, ListDelete pos =>
      if decide (pos < length l)%nat then Some (VList (take pos l ++ drop (S pos) l)) else None
  | VList l, ListDeleteRange s e =>
      if decide (s < e < length l)%nat then Some (VList (take s l ++ drop (S e) l)) else None
  | VList l, ListInsert pos k =>
      if decide (pos < length l)%nat then Some (VList (take pos l ++ k ++ drop pos l)) else None
  | VBin b, BinaryAppend c => Some (VBin (b ++ c))
  | _, _ => None
  end.

Fixpoint documented_all `{NifEnv} (v : erl_value) (ops : list merge_op) : option erl_value :=
  match ops with
  | [] => Some v
  | o :: r => v' ← documented v o; documented_all v' r
  end.

(** An operation of another type than the value. *)
Definition other_type (v : erl_value) (o : merge_op) : bool :=
  match v, o with
  | VInt _, IntAdd _ => false
  | VList _, (ListAppend _ | ListSubstract _ | ListSet _ _ | ListDelete _ | ListDeleteRange _ _ | ListInsert _ _) => false
  | VBin _, (BinaryAppend _ | BinaryErase _ _ | BinaryInsert _ _ | BinaryReplace _ _ _) => false
  | _, _ => true
  end.

Lemma erase_first_exact `{NifEnv} x l :
  forallb (fun y => Bool.eqb (compare_eq y x) (bool_decide (y = x))) l = true ->
  erase_first x l = delete_first x l.
Proof.
  induction l as [|y l IH]; [done |]. cbn [forallb]. intros [Hy Hl]%andb_true_iff.
  cbn [erase_first delete_first]. apply Bool.eqb_prop in Hy. rewrite Hy, (IH Hl).
  by destruct (decide (y = x)); [rewrite bool_decide_eq_true_2 | rewrite bool_decide_eq_false_2].
Qed.

Lemma delete_first_sub x l y : y ∈ delete_first x l -> y ∈ l.
Proof.
  induction l as [|z l IH]; [done |]. cbn [delete_first]. case_decide; [by right |].
  rewrite !elem_of_cons. naive_solver.
Qed.

Lemma substract_exact `{NifEnv} k : forall l, compared_exactly l k = true ->
  fold_left (fun l head => erase_first head l) k l = subtract l k.
Proof.
  unfold subtract, compared_exactly. induction k as [|x k IH]; intros l Hc; [done |]. cbn [fold_left].
  rewrite forallb_forall in Hc. rewrite erase_first_exact.
  - apply IH, forallb_forall. intros y Hy%list_elem_of_In. apply delete_first_sub in Hy.
    apply list_elem_of_In, Hc in Hy. by apply andb_true_iff in Hy as [_ ?].
  - apply forallb_forall. intros y Hy. by apply Hc, andb_true_iff in Hy as [? _].
Qed.

Lemma documented_applies `{NifEnv} v o v' : documented v o = Some v' -> apply_op v o = Some v'.
Proof.
  destruct v as [x|l|b], o; cbn [documented apply_op]; intros Hd; try done.
  - destruct (compared_exactly l l0) eqn:E; [| done]. simplify_eq. by rewrite substract_exact.
  - case_decide; simplify_eq. do 2 f_equal. by apply insert_take_drop.
  - case_decide; simplify_eq. do 2 f_equal. by apply delete_take_drop.
  - case_decide; simplify_eq. by rewrite !(proj2 (Nat.ltb_lt _ _)) by lia.
  - case_decide; simplify_eq. by rewrite (proj2 (Nat.ltb_lt _ _)) by lia.
Qed.

Lemma documented_all_applies `{NifEnv} ops : forall v v',
  documented_all v ops = Some v' -> apply_ops v ops = Some v'.
Proof.
  induction ops as [|o ops IH]; intros v v' Hd; [done |]. cbn [documented_all apply_ops] in *.
  apply bind_Some in Hd as (v1 & Ho & Hd). rewrite (documented_applies _ _ _ Ho). by apply IH.
Qed.

Lemma other_type_rejected `{NifEnv} v o rest : other_type v o = true -> apply_ops v (o :: rest) = None.
Proof. intros Ht. cbn [apply_ops]. by destruct v, o. Qed.

Lemma apply_ops_app `{NifEnv} l1 l2 : forall v,
  apply_ops v (l1 ++ l2) = v' ← apply_ops v l1; apply_ops v' l2.
Proof. induction l1 as [|o l1 IH]; intros v; [done |]. cbn [app apply_ops]. destruct (apply_op v o); [apply IH | done]. Qed.

(** C7.  The operations of the guide on integers, on lists and the append on binaries
    do what the guide says.  Operands that are documented on the values they meet are
    applied to the stored integer, list or binary in order, and the result is the
    encoding of the value they make; on an absent key the value of a first [int_add],
    [list_append] or [binary_append] is the one before the rest, and a first
    [list_substract] leaves the empty list.  An operation of another type makes the
    merge fail.  Not covered, because the code differs from the guide there:
    [list_substract] on elements [enif_compare] finds equal though they are not (1 and
    1.0), [list_delete] of a range of one element, and the binary operations with
    ranges, which the text gives in bits; positions outside the list, on which the
    guide is silent.  (Positions fit 32 bits, integers 64, and binaries can be
    allocated.) *)
Theorem erlang_merge_refines `{NifLaws} (v : erl_value) (e : bytes) (ops : list merge_op)
    (bs : list bytes) :
  alloc_env_ok = true -> Forall op_ok ops ->
  Forall2 (fun o b => term_to_binary (op_term o) = Some b) ops bs ->
  (forall v', term_to_binary (value_term v) = Some e -> values_ok v ops -> documented_all v ops = Some v' ->
     ErlangFullMergeV2 (Some e) bs = merge_value (Some v')) /\
  (forall v0 rest v', initial ops = Some (v0, rest) -> values_ok v0 rest -> documented_all v0 rest = Some v' ->
     ErlangFullMergeV2 None bs = merge_value (Some v')) /\
  (forall before o rest v', term_to_binary (value_term v) = Some e -> values_ok v ops ->
     ops = before ++ o :: rest -> documented_all v before = Some v' -> other_type v' o = true ->
     ErlangFullMergeV2 (Some e) bs = Ok Failed).
Proof.
  intros Henv Hok Hbs. destruct (erlang_merge_observed v e ops bs Henv Hok Hbs) as [Hold Hnew].
  split_and!.
  - intros v' He Hv Hd. by rewrite (Hold He Hv), (documented_all_applies _ _ _ Hd).
  - intros v0 rest v' Hi Hv Hd. rewrite Hnew.
    + by rewrite Hi, (documented_all_applies _ _ _ Hd).
    + by intros ->.
    + intros v1 r. rewrite Hi. by intros [= <- <-].
  - intros before o rest v' He Hv -> Hd Ht. rewrite (Hold He Hv), apply_ops_app.
    rewrite (documented_all_applies _ _ _ Hd). cbn [mbind option_bind]. by rewrite (other_type_rejected _ _ _ Ht).
Qed.


(** An operand whose tuple is too short is not rejected: [{}] is read at
    [op[0]], and [{int_add}] (or a one-element [list_append], [list_substract]
    or [binary_append] tuple on an absent key) at [op[1]], past its end. *)
Theorem short_tuple_read_past_end `{NifLaws} (z : Z) (e b : bytes) (rest : list bytes)
    (args : list term) :
  alloc_env_ok = true -> in_int64 z = true -> term_to_binary (Tint z) = Some e ->
  term_to_binary (Ttuple args) = Some b ->
  (args = [] \/ args = [Tatom "int_add"] ->
     ErlangFullMergeV2 (Some e) (b :: rest) = Undef) /\
  (args = [] \/ (exists a, args = [Tatom a] /\
      a ∈ ["int_add"; "list_append"; "list_substract"; "binary_append"]%string) ->
     ErlangFullMergeV2 None (b :: rest) = Undef).
Proof.
  intros Henv Hz He Hb. unfold ErlangFullMergeV2. rewrite Henv. cbn [negb]. split.
  - intros Hargs. rewrite (merge_existing_value (VInt z)) by done.
    unfold mergeErlangInt. cbn [skip_first obind merge_loop].
    rewrite (decode_encode _ _ Hb). cbn [enif_get_tuple].
    by destruct Hargs as [-> | ->].
  - intros Hargs. unfold merge_first. rewrite (decode_encode _ _ Hb). cbn [enif_get_tuple].
    destruct Hargs as [-> | (a & -> & Ha)]; [done |].
    cbn [elem lookup list_lookup obind].
    apply list_elem_of_In in Ha. cbn [In] in Ha.
    by destruct Ha as [<- | [<- | [<- | [<- | []]]]]; eval_atoms.
Qed.

(** [binary_replace] adds its position and length in 32 bits: when the sum wraps
    the range test passes and [std::string::replace] throws [out_of_range] out of
    the merge operator instead of leaving the binary unchanged. *)
Theorem replace_wraps_and_throws `{NifLaws} (s c e b : bytes) (pos count : nat) (rest : list bytes) :
  alloc_env_ok = true -> term_to_binary (Tbin s) = Some e -> new_binary_ok (length s) = true ->
  term_to_binary (op_term (BinaryReplace pos count c)) = Some b ->
  u32_nat pos -> u32_nat count -> (length s < pos)%nat ->
  2 ^ 32 <= Z.of_nat pos + Z.of_nat count < 2 ^ 32 + zlen s ->
  ErlangFullMergeV2 (Some e) (b :: rest) = Ok Thrown.
Proof.
  intros Henv He Hn Hb Hp Hc Hlen Hsum. unfold ErlangFullMergeV2. rewrite Henv. cbn [negb].
  rewrite (merge_existing_value (VBin s)) by done.
  unfold mergeErlangBinary. cbn [skip_first obind merge_loop].
  rewrite (decode_encode _ _ Hb). cbn [op_term enif_get_tuple binary_step]. eval_atoms.
  rewrite !get_uint_nat by done. cbn [enif_inspect_binary].
  assert (Hw : u32 (Z.of_nat pos + Z.of_nat count) = Z.of_nat pos + Z.of_nat count - 2 ^ 32).
  { unfold wrap. rewrite <- (Z.mod_small (_ - _) (2 ^ 32)) by (unfold u32_nat in *; lia).
    by rewrite <- Zminus_mod_idemp_r, Z.mod_same, Z.sub_0_r by lia. }
  rewrite Hw, (proj2 (Z.ltb_lt _ _)) by lia.
  unfold str_replace. by rewrite (proj2 (Z.ltb_lt _ _)) by lia.
Qed.

(** ** Witnesses *)

Module ErlangMergeWitness.
#[local] Existing Instances etf_env etf_laws.

Definition enc_term (t : term) : bytes := default [] (term_to_binary t).

Definition list_ops : list merge_op :=
  [ListInsert 1 [Tatom "x"; Tatom "y"]; ListDeleteRange 0 1; ListSubstract [Tatom "c"]; ListSet 1 (Tatom "z")].
Definition stored : erl_value := VList [Tatom "a"; Tatom "b"; Tatom "c"].

Lemma erlang_merge_refines_witness :
  ErlangFullMergeV2 (Some (enc_term (value_term stored))) ((enc_term ∘ op_term) <$> list_ops) =
  merge_value (Some (VList [Tatom "y"; Tatom "z"])).
Proof.
  apply (erlang_merge_refines stored (enc_term (value_term stored)) list_ops).
  - reflexivity.
  - repeat constructor; unfold u32_nat; cbn; lia.
  - repeat constructor.
  - reflexivity.
  - cbn. tauto.
  - vm_compute. reflexivity.
Defined.


Lemma short_tuple_read_past_end_witness :
  ([Tatom "int_add"] = [] \/ [Tatom "int_add"] = [Tatom "int_add"] ->
     ErlangFullMergeV2 (Some (enc_term (Tint 3))) [enc_term (Ttuple [Tatom "int_add"])] = Undef) /\
  ([Tatom "int_add"] = [] \/ (exists a, [Tatom "int_add"] = [Tatom a] /\
      a ∈ ["int_add"; "list_append"; "list_substract"; "binary_append"]%string) ->
     ErlangFullMergeV2 None [enc_term (Ttuple [Tatom "int_add"])] = Undef).
Proof.
  apply (short_tuple_read_past_end 3 (enc_term (Tint 3)) (enc_term (Ttuple [Tatom "int_add"])) []
           [Tatom "int_add"]); reflexivity.
Defined.

Definition text : bytes := [Byte.x61; Byte.x62; Byte.x63].
Definition far : nat := Z.to_nat (2 ^ 32 - 1).
Definition wrapping : bytes :=
  enc_term (Ttuple [Tatom "binary_replace"; Tint (2 ^ 32 - 1); Tint 2; Tbin text]).

Lemma far_val : Z.of_nat far = 2 ^ 32 - 1.
Proof. unfold far. rewrite Z2Nat.id; lia. Qed.

Lemma wrapping_encodes : term_to_binary (op_term (BinaryReplace far 2 text)) = Some wrapping.
Proof. cbn [op_term]. rewrite far_val. vm_compute. reflexivity. Qed.

Lemma replace_wraps_and_throws_witness :
  ErlangFullMergeV2 (Some (enc_term (Tbin text))) [wrapping] = Ok Thrown.
Proof.
  apply (replace_wraps_and_throws text text (enc_term (Tbin text)) wrapping far 2 []).
  - reflexivity.
  - reflexivity.
  - reflexivity.
  - apply wrapping_encodes.
  - unfold u32_nat. rewrite far_val. lia.
  - unfold u32_nat. lia.
  - pose proof far_val. cbn. lia.
  - rewrite far_val. cbn. lia.
Defined.
End ErlangMergeWitness.
