(* ===== verification/RefObjects.v ===== *)
(** * Reference-counted objects

    [c_src/refobjects.h] and [c_src/refobjects.cc]: the objects behind the
    Erlang handles (databases, column families, snapshots, iterators,
    transaction-log iterators, backup engines, transactions), their reference
    counts and the close protocol, with the retrieval helpers of
    [c_src/util.cc].

    The objects live in a heap [gmap nat obj]; a pointer is an object id, and
    using an id that is not in the heap (freed memory) is [Undef].  Calling into
    a [rocksdb::DB] that has been deleted, or releasing an object of RocksDB
    after its database, is [Undef] as well.

    [m_CloseRequested] is 0 while open, 1 once a close was requested, 2 while the
    destructor runs and 3 when it is done.  [AwaitCloseAndDestructor] blocks
    until 3: it is the guard of the last step of a resource cleanup. *)

From stdpp Require Import base list numbers strings gmap.
From Stdlib Require Import ZArith Lia.
From S2P Require Import Prelude Terms.

(** ** Objects *)

Inductive obj_kind :=
| KDb | KBackupEngine | KColumnFamily | KSnapshot | KItr | KTLogItr | KTransaction.

#[export] Instance obj_kind_eq_dec : EqDecision obj_kind.
Proof. solve_decision. Defined.

(** The classes with a [ReferencePtr<DbObject> m_DbPtr]. *)
Definition is_child (k : obj_kind) : bool :=
  match k with KDb | KBackupEngine => false | _ => true end.

Definition res_kind_of (k : obj_kind) : res_kind :=
  match k with
  | KDb => RDb | KBackupEngine => RBackupEngine | KColumnFamily => RColumnFamily
  | KSnapshot => RSnapshot | KItr => RItr | KTLogItr => RTLogItr | KTransaction => RTransaction
  end.

Record obj := {
  o_kind : obj_kind;
  m_RefCount : Z;                      (* std::atomic<uint32_t> *)
  m_CloseRequested : Z;                (* std::atomic<uint32_t>: 0, 1, 2 or 3 *)
  m_DbPtr : option nat;                (* NULL for the classes without one *)
  m_Native : bool;                     (* m_Db, m_ColumnFamily, m_Snapshot, ... is not NULL *)
  m_ItrList : list nat;
  m_ColumnFamilyList : list nat;
  m_SnapshotList : list nat;
  m_TLogItrList : list nat;
  m_TransactionList : list nat;
}.

Abbreviation heap := (gmap nat obj).

Definition set_refs (n : Z) (o : obj) : obj :=
  {| o_kind := o_kind o; m_RefCount := n; m_CloseRequested := m_CloseRequested o;
     m_DbPtr := m_DbPtr o; m_Native := m_Native o; m_ItrList := m_ItrList o;
     m_ColumnFamilyList := m_ColumnFamilyList o; m_SnapshotList := m_SnapshotList o;
     m_TLogItrList := m_TLogItrList o; m_TransactionList := m_TransactionList o |}.

Definition set_close (c : Z) (o : obj) : obj :=
  {| o_kind := o_kind o; m_RefCount := m_RefCount o; m_CloseRequested := c;
     m_DbPtr := m_DbPtr o; m_Native := m_Native o; m_ItrList := m_ItrList o;
     m_ColumnFamilyList := m_ColumnFamilyList o; m_SnapshotList := m_SnapshotList o;
     m_TLogItrList := m_TLogItrList o; m_TransactionList := m_TransactionList o |}.

Definition set_native (b : bool) (o : obj) : obj :=
  {| o_kind := o_kind o; m_RefCount := m_RefCount o; m_CloseRequested := m_CloseRequested o;
     m_DbPtr := m_DbPtr o; m_Native := b; m_ItrList := m_ItrList o;
     m_ColumnFamilyList := m_ColumnFamilyList o; m_SnapshotList := m_SnapshotList o;
     m_TLogItrList := m_TLogItrList o; m_TransactionList := m_TransactionList o |}.

(** The list of a database that links to the objects of a class. *)
Definition get_list (k : obj_kind) (o : obj) : list nat :=
  match k with
  | KItr => m_ItrList o
  | KColumnFamily => m_ColumnFamilyList o
  | KSnapshot => m_SnapshotList o
  | KTLogItr => m_TLogItrList o
  | KTransaction => m_TransactionList o
  | KDb | KBackupEngine => []
  end.

Definition set_list (k : obj_kind) (l : list nat) (o : obj) : obj :=
  {| o_kind := o_kind o; m_RefCount := m_RefCount o; m_CloseRequested := m_CloseRequested o;
     m_DbPtr := m_DbPtr o; m_Native := m_Native o;
     m_ItrList := if decide (k = KItr) then l else m_ItrList o;
     m_ColumnFamilyList := if decide (k = KColumnFamily) then l else m_ColumnFamilyList o;
     m_SnapshotList := if decide (k = KSnapshot) then l else m_SnapshotList o;
     m_TLogItrList := if decide (k = KTLogItr) then l else m_TLogItrList o;
     m_TransactionList := if decide (k = KTransaction) then l else m_TransactionList o |}.

(** Dereference of an object pointer. *)
Definition deref (h : heap) (id : nat) : outcome obj :=
  match h !! id with Some o => Ok o | None => Undef end.

(** ** Reference counts and destructors *)

Definition RefInc (h : heap) (id : nat) : outcome heap :=
  let! o := deref h id in
  Ok (<[id := set_refs (u32 (m_RefCount o + 1)) o]> h).

(** [ErlRefObject::RefDec], given the destructor of the class. *)
Definition RefDec_with (dtor : heap -> nat -> outcome heap) (h : heap) (id : nat) : outcome heap :=
  let! o := deref h id in
  let cur_count := u32 (m_RefCount o - 1) in
  if (cur_count =? 0) && (m_CloseRequested o =? 1)
  then dtor (<[id := set_close 2 (set_refs cur_count o)]> h) id
  else Ok (<[id := set_refs cur_count o]> h).

(** [~ErlRefObject], run last by every destructor. *)
Definition ErlRefObject_dtor (h : heap) (id : nat) : outcome heap :=
  let! o := deref h id in Ok (<[id := set_close 3 o]> h).

(** [~DbObject] and [~BackupEngineObject]: delete the RocksDB object. *)
Definition root_dtor (h : heap) (id : nat) : outcome heap :=
  let! o := deref h id in
  ErlRefObject_dtor (<[id := set_native false o]> h) id.

Definition root_RefDec : heap -> nat -> outcome heap := RefDec_with root_dtor.

(** [AddReference], [AddColumnFamilyReference], ...: an iterator is only linked
    while the database is open. *)
Definition AddReference (k : obj_kind) (h : heap) (d c : nat) : outcome heap :=
  let! o := deref h d in
  if decide (k = KItr)
  then if m_CloseRequested o =? 0
       then Ok (<[d := set_list k (get_list k o ++ [c]) o]> h)
       else Ok h
  else Ok (<[d := set_list k (get_list k o ++ [c]) o]> h).

(** [RemoveReference], ...: [std::list::remove]. *)
Definition RemoveReference (k : obj_kind) (h : heap) (d c : nat) : outcome heap :=
  let! o := deref h d in
  Ok (<[d := set_list k (filter (fun x => x <> c) (get_list k o)) o]> h).

(** Release of the RocksDB object of a child, which needs its database. *)
Definition release_native (h : heap) (c : nat) : outcome heap :=
  let! o := deref h c in
  if m_Native o then
    match m_DbPtr o with
    | Some d =>
        let! db := deref h d in
        if m_Native db then Ok (<[c := set_native false o]> h) else Undef
    | None =>
        match o_kind o with
        | KColumnFamily => Undef
        | _ => Ok (<[c := set_native false o]> h)
        end
    end
  else Ok h.

Definition unlink (h : heap) (c : nat) : outcome heap :=
  let! o := deref h c in
  match m_DbPtr o with
  | Some d => RemoveReference (o_kind o) h d c
  | None => Ok h
  end.

(** The bodies of the destructors: column families and snapshots release their
    handle before unlinking, the others after. *)
Definition ColumnFamilyObject_dtor (h : heap) (c : nat) : outcome heap :=
  let! h1 := release_native h c in unlink h1 c.

Definition SnapshotObject_dtor (h : heap) (c : nat) : outcome heap :=
  let! h1 := release_native h c in unlink h1 c.

Definition ItrObject_dtor (h : heap) (c : nat) : outcome heap :=
  let! h1 := unlink h c in release_native h1 c.

Definition TLogItrObject_dtor (h : heap) (c : nat) : outcome heap :=
  let! h1 := unlink h c in release_native h1 c.

Definition TransactionObject_dtor (h : heap) (c : nat) : outcome heap :=
  let! h1 := unlink h c in release_native h1 c.

Definition child_dtor_body (k : obj_kind) (h : heap) (c : nat) : outcome heap :=
  match k with
  | KColumnFamily => ColumnFamilyObject_dtor h c
  | KSnapshot => SnapshotObject_dtor h c
  | KTLogItr => TLogItrObject_dtor h c
  | KTransaction => TransactionObject_dtor h c
  | _ => ItrObject_dtor h c
  end.

(** A destructor of the five child classes: its body, then [~ReferencePtr] of
    [m_DbPtr], then [~ErlRefObject]. *)
Definition child_dtor (h : heap) (c : nat) : outcome heap :=
  let! o := deref h c in
  let! h1 := child_dtor_body (o_kind o) h c in
  let! h2 := match m_DbPtr o with Some d => root_RefDec h1 d | None => Ok h1 end in
  ErlRefObject_dtor h2 c.

Definition child_RefDec : heap -> nat -> outcome heap := RefDec_with child_dtor.

(** Virtual dispatch of [RefDec]. *)
Definition RefDec (h : heap) (id : nat) : outcome heap :=
  let! o := deref h id in
  if is_child (o_kind o) then child_RefDec h id else root_RefDec h id.

(** ** Closing *)

(** [InitiateCloseRequest] on a child, whose [Shutdown] is a [RefDec]. *)
Definition close_child (h : heap) (c : nat) : outcome heap :=
  let! o := deref h c in
  if m_CloseRequested o =? 0
  then child_RefDec (<[c := set_close 1 o]> h) c
  else Ok h.

(** One of the five loops of [DbObject::Shutdown]: pop the front of the list and
    close it, until the list is empty.  [fuel] bounds the iterations. *)
Fixpoint drain (fuel : nat) (k : obj_kind) (h : heap) (d : nat) : outcome heap :=
  let! o := deref h d in
  match get_list k o with
  | [] => Ok h
  | c :: rest =>
      match fuel with
      | O => Undef
      | S fuel =>
          let! h1 := close_child (<[d := set_list k rest o]> h) c in
          drain fuel k h1 d
      end
  end.

Definition drain_all (k : obj_kind) (h : heap) (d : nat) : outcome heap :=
  let! o := deref h d in drain (length (get_list k o)) k h d.

Definition DbObject_Shutdown (h : heap) (d : nat) : outcome heap :=
  let! h1 := drain_all KItr h d in
  let! h2 := drain_all KColumnFamily h1 d in
  let! h3 := drain_all KSnapshot h2 d in
  let! h4 := drain_all KTLogItr h3 d in
  let! h5 := drain_all KTransaction h4 d in
  root_RefDec h5 d.

Definition Shutdown (h : heap) (id : nat) : outcome heap :=
  let! o := deref h id in
  match o_kind o with
  | KDb => DbObject_Shutdown h id
  | KBackupEngine => root_RefDec h id
  | _ => child_RefDec h id
  end.

Definition InitiateCloseRequest (h : heap) (id : nat) : outcome heap :=
  let! o := deref h id in
  if m_CloseRequested o =? 0
  then Shutdown (<[id := set_close 1 o]> h) id
  else Ok h.

(** The test of [AwaitCloseAndDestructor]: the call returns once it holds. *)
Definition destructor_done (h : heap) (id : nat) : bool :=
  match h !! id with Some o => m_CloseRequested o =? 3 | None => false end.

(** The cleanup callback of the resources: request the close, then wait for the
    destructor.  The flag says whether the wait ends at once. *)
Definition ResourceCleanup (h : heap) (id : nat) : outcome (heap * bool) :=
  let! h1 := InitiateCloseRequest h id in Ok (h1, destructor_done h1 id).

(** ** Creation *)

Definition new_obj (k : obj_kind) (db : option nat) : obj :=
  {| o_kind := k; m_RefCount := 0; m_CloseRequested := 0; m_DbPtr := db; m_Native := true;
     m_ItrList := []; m_ColumnFamilyList := []; m_SnapshotList := []; m_TLogItrList := [];
     m_TransactionList := [] |}.

Definition fresh_id (h : heap) : nat := fresh (dom h : gset nat).

(** [CreateDbObject], [CreateBackupEngineObject]. *)
Definition CreateRoot (k : obj_kind) (h : heap) : outcome (heap * nat) :=
  let id := fresh_id h in
  let! h1 := RefInc (<[id := new_obj k None]> h) id in
  Ok (h1, id).

(** [CreateColumnFamilyObject], [CreateSnapshotObject], ...: the constructor
    takes a reference on the database and links itself, then the object is given
    the reference that close releases. *)
Definition CreateChild (k : obj_kind) (h : heap) (d : nat) : outcome (heap * nat) :=
  let id := fresh_id h in
  let! h1 := RefInc (<[id := new_obj k (Some d)]> h) d in
  let! h2 := AddReference k h1 d id in
  let! h3 := RefInc h2 id in
  Ok (h3, id).

(** ** Retrieval *)

(** [Retrieve...Object]: the object of a handle term, [None] for another term
    or for an object that is closing.  An iterator is not handed out either when
    its database is closing, unless it is retrieved in order to close it. *)
Definition Retrieve (k : obj_kind) (itr_closing : bool) (h : heap) (t : term) :
    outcome (option nat) :=
  match enif_get_resource (res_kind_of k) t with
  | None => Ok None
  | Some id =>
      let! o := deref h id in
      if negb (m_CloseRequested o =? 0) then Ok None
      else if decide (k = KItr) then
        if itr_closing then Ok (Some id)
        else match m_DbPtr o with
             | None => Undef
             | Some d => let! db := deref h d in
                         if m_CloseRequested db =? 0 then Ok (Some id) else Ok None
             end
      else Ok (Some id)
  end.

(** [ReferencePtr::assign] *)
Definition assign (h : heap) (old new : option nat) : outcome heap :=
  if decide (old = new) then Ok h
  else
    let! h1 := match old with Some i => RefDec h i | None => Ok h end in
    match new with Some i => RefInc h1 i | None => Ok h1 end.

(** [~ReferencePtr] *)
Definition release (h : heap) (p : option nat) : outcome heap :=
  match p with Some i => RefDec h i | None => Ok h end.

(** [enif_get_db], [enif_get_cf], [enif_get_backup_engine],
    [enif_get_transaction] and the [assign(Retrieve...)] of the other calls: the
    new heap, and the object when the pointer can be used. *)
Definition get_ref (k : obj_kind) (h : heap) (t : term) : outcome (heap * option nat) :=
  let! p := Retrieve k false h t in
  let! h1 := assign h None p in
  match p with
  | None => Ok (h1, None)
  | Some id =>
      let! o := deref h1 id in
      match k with
      | KDb => if m_Native o then Ok (h1, Some id) else let! h2 := release h1 p in Ok (h2, None)
      | _ => Ok (h1, Some id)
      end
  end.

(** ** The classes

    The static functions of each class under their own names. *)

Definition CreateDbObject := CreateRoot KDb.
Definition CreateBackupEngineObject := CreateRoot KBackupEngine.
Definition CreateColumnFamilyObject := CreateChild KColumnFamily.
Definition CreateSnapshotObject := CreateChild KSnapshot.
Definition CreateItrObject := CreateChild KItr.
Definition CreateTLogItrObject := CreateChild KTLogItr.
Definition CreateTransactionObject := CreateChild KTransaction.

Definition RetrieveDbObject := Retrieve KDb false.
Definition RetrieveBackupEngineObject := Retrieve KBackupEngine false.
Definition RetrieveColumnFamilyObject := Retrieve KColumnFamily false.
Definition RetrieveSnapshotObject := Retrieve KSnapshot false.
Definition RetrieveItrObject := Retrieve KItr.
Definition RetrieveTLogItrObject := Retrieve KTLogItr false.
Definition RetrieveTransactionObject := Retrieve KTransaction false.

Definition enif_get_db := get_ref KDb.
Definition enif_get_cf := get_ref KColumnFamily.
Definition enif_get_backup_engine := get_ref KBackupEngine.
Definition enif_get_transaction := get_ref KTransaction.

Definition AddItrReference := AddReference KItr.
Definition AddColumnFamilyReference := AddReference KColumnFamily.
Definition AddSnapshotReference := AddReference KSnapshot.
Definition AddTLogReference := AddReference KTLogItr.
Definition AddTransactionReference := AddReference KTransaction.

Definition RemoveItrReference := RemoveReference KItr.
Definition RemoveColumnFamilyReference := RemoveReference KColumnFamily.
Definition RemoveSnapshotReference := RemoveReference KSnapshot.
Definition RemoveTLogReference := RemoveReference KTLogItr.
Definition RemoveTransactionReference := RemoveReference KTransaction.

Definition DbObjectResourceCleanup := ResourceCleanup.
Definition ColumnFamilyObjectResourceCleanup := ResourceCleanup.
Definition SnapshotObjectResourceCleanup := ResourceCleanup.
Definition ItrObjectResourceCleanup := ResourceCleanup.
Definition TLogItrObjectResourceCleanup := ResourceCleanup.
Definition BackupEngineObjectResourceCleanup := ResourceCleanup.
Definition TransactionObjectResourceCleanup := ResourceCleanup.

(** ** Handles in use

    An open handle with a RocksDB object whose count has room for a pin; for an
    iterator the database is open too. *)

Definition usable (h : heap) (k : obj_kind) (c : nat) : bool :=
  match h !! c with
  | Some o => bool_decide (o_kind o = k) && (m_CloseRequested o =? 0) && m_Native o &&
              (0 <=? m_RefCount o) && (m_RefCount o + 1 <? 2 ^ 32)
  | None => false
  end.

Definition db_open (h : heap) (c : nat) : bool :=
  match h !! c with
  | Some o => match m_DbPtr o with
              | Some d => match h !! d with Some db => m_CloseRequested db =? 0 | None => false end
              | None => false
              end
  | None => false
  end.

(** The heap while a call holds a reference. *)
Definition pinned (h : heap) (c : nat) (o : obj) : heap := <[c := set_refs (m_RefCount o + 1) o]> h.

Lemma usable_obj h k c :
  usable h k c = true ->
  exists o, h !! c = Some o /\ o_kind o = k /\ m_CloseRequested o = 0 /\ m_Native o = true /\
    0 <= m_RefCount o /\ m_RefCount o + 1 < 2 ^ 32.
Proof.
  unfold usable. intros H. destruct (h !! c) as [o|] eqn:Ho; [| done].
  rewrite !andb_true_iff, bool_decide_eq_true, Z.eqb_eq, Z.leb_le, Z.ltb_lt in H.
  destruct H as [[[[Hkind Hc] Hn] Hr0] Hr1]. by exists o.
Qed.

Lemma unpin h c o :
  h !! c = Some o -> m_CloseRequested o = 0 -> 0 <= m_RefCount o -> m_RefCount o + 1 < 2 ^ 32 ->
  release (pinned h c o) (Some c) = Ok h.
Proof.
  intros Ho Hc Hr0 Hr1. unfold pinned. cbn [release]. unfold RefDec, deref.
  rewrite lookup_insert_eq. cbn [obind].
  enough (forall dtor, RefDec_with dtor (<[c := set_refs (m_RefCount o + 1) o]> h) c = Ok h)
    as Hdec by (destruct (is_child _); apply Hdec).
  intros dtor. unfold RefDec_with, deref.
  rewrite lookup_insert_eq. cbn [obind set_refs m_RefCount m_CloseRequested].
  rewrite Hc, andb_false_r, insert_insert_eq, wrap_small by lia.
  rewrite insert_id; [done |]. rewrite Ho. f_equal.
  destruct o. unfold set_refs. cbn in *. f_equal. lia.
Qed.

(** Pinning a usable handle and releasing it again. *)
Lemma usable_pin_any h k c :
  usable h k c = true -> (k = KItr -> db_open h c = true) ->
  exists o, h !! c = Some o /\
    Retrieve k false h (Tres (res_kind_of k) c) = Ok (Some c) /\
    assign h None (Some c) = Ok (pinned h c o) /\
    get_ref k h (Tres (res_kind_of k) c) = Ok (pinned h c o, Some c) /\
    release (pinned h c o) (Some c) = Ok h /\ m_Native o = true.
Proof.
  intros Hu Hi. destruct (usable_obj h k c Hu) as (o & Ho & Hkind & Hc & Hn & Hr0 & Hr1).
  assert (Hret : Retrieve k false h (Tres (res_kind_of k) c) = Ok (Some c)).
  { unfold Retrieve. cbn [enif_get_resource]. rewrite decide_True by done.
    unfold deref at 1. rewrite Ho. cbn [obind]. rewrite Hc. cbn [Z.eqb negb].
    destruct (decide (k = KItr)) as [Hk |]; [| done].
    specialize (Hi Hk). unfold db_open in Hi. rewrite Ho in Hi.
    destruct (m_DbPtr o) as [d|]; [| done]. unfold deref.
    destruct (h !! d) as [db|]; [| done]. cbn [obind]. by rewrite Hi. }
  assert (Has : assign h None (Some c) = Ok (pinned h c o)).
  { unfold assign. rewrite decide_False by done. cbn [obind]. unfold RefInc, deref.
    rewrite Ho. cbn [obind]. by rewrite wrap_small by lia. }
  exists o. split_and!; try done; [| by apply unpin].
  unfold get_ref. rewrite Hret. cbn [obind]. rewrite Has. cbn [obind].
  unfold deref, pinned. rewrite lookup_insert_eq. cbn [obind m_Native set_refs].
  rewrite Hn. by destruct k.
Qed.

Lemma usable_pinned h k c :
  k <> KItr -> usable h k c = true ->
  exists o, h !! c = Some o /\
    get_ref k h (Tres (res_kind_of k) c) = Ok (pinned h c o, Some c) /\
    release (pinned h c o) (Some c) = Ok h /\ m_Native o = true.
Proof.
  intros Hk Hu. destruct (usable_pin_any h k c Hu ltac:(done)) as (o & Ho & _ & _ & ? & ? & ?).
  by exists o.
Qed.

(** A pin does not make another handle unusable. *)
Lemma usable_pinned_other h d db k c :
  h !! d = Some db -> c <> d -> usable h k c = true -> usable (pinned h d db) k c = true.
Proof. intros Hd Hne. unfold usable, pinned. by rewrite lookup_insert_ne. Qed.

Lemma usable_kind_ne h k k' c d :
  usable h k c = true -> usable h k' d = true -> k <> k' -> c <> d.
Proof.
  intros Hc Hd Hk ->. apply usable_obj in Hc as (o & Ho & ? & _).
  apply usable_obj in Hd as (o' & Ho' & ? & _). congruence.
Qed.
