(* ===== verification/RefInv.v ===== *)
(** * The reference-count invariant

    The system of reference-counted objects as a transition system, its
    invariant, and what follows from it.

    A state is the heap of [RefObjects] with [pins], the list of the
    [ReferencePtr]s held by native calls in progress (one entry per pointer).
    The invariant says that every reference count is the number of pins, plus
    one while the object is open, plus the number of children that hold a
    reference to it; that a destroyed object has no reference left; that the
    database of a live child is alive; and that the lists of a database hold
    live children only, and all of them while it is open.

    [INV] is stated on the heap through [views], which keeps of each object its
    class, its database and whether it is alive: an update that does not change
    the view of an object concerns that object alone. *)

From stdpp Require Import base list numbers strings gmap.
From Stdlib Require Import ZArith Lia.
From S2P Require Import Prelude Terms RefObjects.

(** ** Views and counts *)

Record vw := { v_kind : obj_kind; v_db : option nat; v_live : bool }.

Definition view (o : obj) : vw :=
  {| v_kind := o_kind o; v_db := m_DbPtr o; v_live := negb (m_CloseRequested o =? 3) |}.

Definition views (h : heap) : gmap nat vw := view <$> h.

(** [v] is a live object that holds a reference on [d]. *)
Definition child_of (d : nat) (v : vw) : Prop := v_db v = Some d /\ v_live v = true.

#[export] Instance child_of_dec d v : Decision (child_of d v).
Proof. unfold child_of. apply _. Defined.

Definition nch (d : nat) (hv : gmap nat vw) : Z :=
  Z.of_nat (size (filter (fun p => child_of d p.2) hv)).

Definition cnt (pins : list nat) (id : nat) : Z := Z.of_nat (count_occ Nat.eq_dec pins id).

(** ** The invariant *)

Record obj_inv (hv : gmap nat vw) (pins : list nat) (id : nat) (o : obj) : Prop := {
  oi_refs : m_RefCount o = cnt pins id + (if m_CloseRequested o =? 0 then 1 else 0) + nch id hv;
  oi_close : m_CloseRequested o = 0 \/ m_CloseRequested o = 1 \/ m_CloseRequested o = 3;
  oi_dead : m_CloseRequested o = 3 -> m_RefCount o = 0 /\ m_Native o = false;
  oi_closing : m_CloseRequested o = 1 -> 0 < m_RefCount o;
  oi_native : m_CloseRequested o <> 3 -> o_kind o <> KColumnFamily -> m_Native o = true;
  oi_root : is_child (o_kind o) = false -> m_DbPtr o = None;
  oi_child : is_child (o_kind o) = true -> exists d, m_DbPtr o = Some d;
  oi_db : forall d, m_DbPtr o = Some d -> m_CloseRequested o <> 3 ->
          exists v, hv !! d = Some v /\ v_kind v = KDb /\ v_live v = true;
  oi_links : forall k c, c ∈ get_list k o ->
          exists v, hv !! c = Some v /\ v_kind v = k /\ child_of id v;
  oi_linked : o_kind o = KDb -> m_CloseRequested o = 0 ->
          forall c v, hv !! c = Some v -> child_of id v -> c ∈ get_list (v_kind v) o;
}.

Record INV (h : heap) (pins : list nat) : Prop := {
  inv_obj : forall id o, h !! id = Some o -> obj_inv (views h) pins id o;
  inv_pins : forall id, id ∈ pins -> is_Some (h !! id);
}.

(** The reference counts cannot wrap: there are fewer than 2^32 references. *)
Definition small (h : heap) (pins : list nat) : Prop :=
  zlen pins + Z.of_nat (size h) + 2 < 2 ^ 32.

(** ** Lemmas: counts *)

Lemma cnt_cons_eq pins id : cnt (id :: pins) id = cnt pins id + 1.
Proof. unfold cnt. rewrite count_occ_cons_eq by done. lia. Qed.

Lemma cnt_cons_ne pins id j : j <> id -> cnt (id :: pins) j = cnt pins j.
Proof. intros. unfold cnt. rewrite count_occ_cons_neq by done. done. Qed.

Lemma cnt_nonneg pins id : 0 <= cnt pins id.
Proof. unfold cnt. lia. Qed.

Lemma cnt_le pins id : cnt pins id <= zlen pins.
Proof. unfold cnt. pose proof (count_occ_bound Nat.eq_dec id pins). lia. Qed.

Lemma cnt_zero pins id : cnt pins id = 0 <-> id ∉ pins.
Proof.
  unfold cnt. rewrite list_elem_of_In, (count_occ_not_In Nat.eq_dec). lia.
Qed.

Lemma nch_nonneg d hv : 0 <= nch d hv.
Proof. unfold nch. lia. Qed.

Lemma nch_new d hv i v :
  hv !! i = None -> nch d (<[i:=v]> hv) = nch d hv + (if decide (child_of d v) then 1 else 0).
Proof.
  intros Hi. unfold nch. destruct (decide (child_of d v)) as [Hc | Hc].
  - rewrite map_filter_insert_True by done. rewrite map_size_insert_None; [lia |].
    apply map_lookup_filter_None. by left.
  - rewrite map_filter_insert_False by done. rewrite delete_id by done. lia.
Qed.

Lemma nch_kill d hv i v v' :
  hv !! i = Some v -> v_live v' = false ->
  nch d (<[i:=v']> hv) = nch d hv - (if decide (child_of d v) then 1 else 0).
Proof.
  intros Hi Hl. unfold nch.
  rewrite map_filter_insert_False by (unfold child_of; cbn; intros [_ ?]; congruence).
  destruct (decide (child_of d v)) as [Hc | Hc].
  - rewrite map_filter_delete.
    assert (Hf : filter (fun p => child_of d p.2) hv !! i = Some v)
      by (by apply map_lookup_filter_Some).
    rewrite map_size_delete_Some by (by eexists).
    assert (size (filter (fun p => child_of d p.2) hv) <> 0%nat).
    { intros Hz. apply map_size_empty_iff in Hz. by rewrite Hz, lookup_empty in Hf. }
    lia.
  - rewrite map_filter_delete, delete_id; [lia |].
    apply map_lookup_filter_None. right. intros x Hx. by simplify_eq.
Qed.

Lemma nch_delete d hv i v :
  hv !! i = Some v -> v_live v = false -> nch d (delete i hv) = nch d hv.
Proof.
  intros Hi Hl. unfold nch. rewrite map_filter_delete, delete_id; [done |].
  apply map_lookup_filter_None. right. intros x Hx. simplify_eq.
  unfold child_of. cbn. intros [_ ?]. congruence.
Qed.

Lemma nch_zero d hv : nch d hv = 0 -> forall c v, hv !! c = Some v -> ~ child_of d v.
Proof.
  unfold nch. intros Hz c v Hc Hv.
  assert (Hs : size (filter (fun p => child_of d p.2) hv) = 0%nat) by lia.
  apply map_size_empty_iff in Hs.
  assert (filter (fun p => child_of d p.2) hv !! c = Some v) by (by apply map_lookup_filter_Some).
  by rewrite Hs, lookup_empty in *.
Qed.

Lemma nch_none d hv : (forall c v, hv !! c = Some v -> ~ child_of d v) -> nch d hv = 0.
Proof.
  intros H. unfold nch.
  assert (Hf : filter (fun p => child_of d p.2) hv = ∅).
  { apply map_empty. intros c. apply map_lookup_filter_None. right. intros v Hv. by apply (H c). }
  by rewrite Hf, map_size_empty.
Qed.

Lemma nch_pos d hv c v : hv !! c = Some v -> child_of d v -> 0 < nch d hv.
Proof.
  intros Hc Hv. destruct (decide (nch d hv = 0)) as [Hz | Hz].
  - by destruct (nch_zero d hv Hz c v Hc).
  - pose proof (nch_nonneg d hv). lia.
Qed.

Lemma nch_le_size d hv : nch d hv <= Z.of_nat (size hv).
Proof.
  unfold nch. assert (Hs : filter (fun p => child_of d p.2) hv ⊆ hv) by apply map_filter_subseteq.
  apply map_subseteq_size in Hs. lia.
Qed.

Lemma size_views h : size (views h) = size h.
Proof. apply map_size_fmap. Qed.

Lemma lookup_views h id : views h !! id = view <$> (h !! id).
Proof. apply lookup_fmap. Qed.

Lemma lookup_views_Some h id v :
  views h !! id = Some v <-> exists o, h !! id = Some o /\ v = view o.
Proof. rewrite lookup_views, fmap_Some. done. Qed.

Lemma views_insert h id o : views (<[id:=o]> h) = <[id:=view o]> (views h).
Proof. apply fmap_insert. Qed.

Lemma views_insert_same h id o o' :
  h !! id = Some o -> view o' = view o -> views (<[id:=o']> h) = views h.
Proof.
  intros Ho Hv. rewrite views_insert, Hv. apply insert_id. by rewrite lookup_views, Ho.
Qed.

(** ** Lemmas: fields *)

Lemma get_list_refs k n o : get_list k (set_refs n o) = get_list k o.
Proof. by destruct k. Qed.
Lemma get_list_close k n o : get_list k (set_close n o) = get_list k o.
Proof. by destruct k. Qed.
Lemma get_list_native k n o : get_list k (set_native n o) = get_list k o.
Proof. by destruct k. Qed.
Lemma get_list_set k l o : is_child k = true -> get_list k (set_list k l o) = l.
Proof. by destruct k. Qed.
Lemma get_list_set_ne k k' l o : k' <> k -> get_list k' (set_list k l o) = get_list k' o.
Proof. by destruct k, k'. Qed.

Create Rewrite HintDb refs.
#[export] Hint Rewrite get_list_refs get_list_close get_list_native : refs.

Lemma view_set_refs n o : view (set_refs n o) = view o.
Proof. done. Qed.
Lemma view_set_native b o : view (set_native b o) = view o.
Proof. done. Qed.
Lemma view_set_list k l o : view (set_list k l o) = view o.
Proof. done. Qed.
#[export] Hint Rewrite view_set_refs view_set_native view_set_list : refs.

Lemma refs_bound h pins id o : INV h pins -> h !! id = Some o ->
  0 <= m_RefCount o <= zlen pins + 1 + Z.of_nat (size h).
Proof.
  intros HI Ho. pose proof (inv_obj _ _ HI _ _ Ho) as Hi.
  rewrite (oi_refs _ _ _ _ Hi). pose proof (cnt_nonneg pins id). pose proof (cnt_le pins id).
  pose proof (nch_nonneg id (views h)). pose proof (nch_le_size id (views h)) as Hs.
  rewrite size_views in Hs. case_match; lia.
Qed.

(** ** Updates that keep the view of the object *)

Lemma inv_update h pins pins' id o o' :
  INV h pins -> h !! id = Some o -> view o' = view o ->
  (forall j, j <> id -> cnt pins' j = cnt pins j) ->
  (forall j, j ∈ pins' -> is_Some (h !! j)) ->
  obj_inv (views h) pins' id o' ->
  INV (<[id:=o']> h) pins'.
Proof.
  intros HI Ho Hv Hcnt Hpins Hi'. split.
  - intros j oj Hj. rewrite (views_insert_same h id o) by done.
    destruct (decide (j = id)) as [-> | Hne].
    + rewrite lookup_insert_eq in Hj. by simplify_eq.
    + rewrite lookup_insert_ne in Hj by done.
      destruct (inv_obj _ _ HI _ _ Hj) as [H1 H2 H3 H4 H5 H6 H7 H8 H9 H10].
      split; try done. by rewrite Hcnt.
  - intros j Hj. destruct (decide (j = id)) as [-> | Hne].
    + rewrite lookup_insert_eq. by eexists.
    + rewrite lookup_insert_ne by done. auto.
Qed.

Lemma pins_cons h pins id :
  INV h pins -> is_Some (h !! id) -> forall j, j ∈ id :: pins -> is_Some (h !! j).
Proof. intros HI Hid j [-> | Hj]%elem_of_cons; [done | by apply (inv_pins _ _ HI)]. Qed.

(** Taking a reference on an object that is not destroyed. *)
Lemma inv_RefInc h pins id o :
  INV h pins -> small h pins -> h !! id = Some o -> m_CloseRequested o <> 3 ->
  exists o', RefInc h id = Ok (<[id:=o']> h) /\ INV (<[id:=o']> h) (id :: pins) /\
             o' = set_refs (m_RefCount o + 1) o.
Proof.
  intros HI Hsm Ho Hc. unfold RefInc, deref. rewrite Ho. cbn [obind].
  pose proof (refs_bound _ _ _ _ HI Ho) as Hb. unfold small in Hsm.
  rewrite wrap_small by lia. eexists. split; [done |]. split; [| done].
  pose proof (inv_obj _ _ HI _ _ Ho) as [H1 H2 H3 H4 H5 H6 H7 H8 H9 H10].
  apply (inv_update h pins _ id o); try done.
  - intros j Hj. by apply cnt_cons_ne.
  - apply pins_cons; [done | by eexists].
  - split; cbn; try done.
    + rewrite cnt_cons_eq. lia.
    + intros _. lia.
Qed.

(** Requesting the close of an open object turns its own reference into a pin,
    which the [Shutdown] that follows releases. *)
Lemma inv_cas h pins id o :
  INV h pins -> h !! id = Some o -> m_CloseRequested o = 0 ->
  INV (<[id:=set_close 1 o]> h) (id :: pins).
Proof.
  intros HI Ho Hc. pose proof (inv_obj _ _ HI _ _ Ho) as [H1 H2 H3 H4 H5 H6 H7 H8 H9 H10].
  rewrite Hc in *. cbn in H1.
  apply (inv_update h pins _ id o); try done.
  - unfold view. cbn. by rewrite Hc.
  - intros j Hj. by apply cnt_cons_ne.
  - apply pins_cons; [done | by eexists].
  - split; cbn; try done.
    + rewrite cnt_cons_eq. lia.
    + by right; left.
    + intros _. pose proof (cnt_nonneg pins id). pose proof (nch_nonneg id (views h)). lia.
    + intros ? ?. by apply H5.
    + intros d Hd _. by apply H8.
Qed.

(** Dropping a pin that is not the last reference of a closing object. *)
Lemma inv_unpin_alive h pins id o :
  INV h (id :: pins) -> h !! id = Some o -> ~ (m_RefCount o = 1 /\ m_CloseRequested o = 1) ->
  INV (<[id:=set_refs (m_RefCount o - 1) o]> h) pins.
Proof.
  intros HI Ho Hn. pose proof (inv_obj _ _ HI _ _ Ho) as [H1 H2 H3 H4 H5 H6 H7 H8 H9 H10].
  rewrite cnt_cons_eq in H1. pose proof (cnt_nonneg pins id). pose proof (nch_nonneg id (views h)).
  apply (inv_update h (id :: pins) _ id o); try done.
  - intros j Hj. by rewrite cnt_cons_ne.
  - intros j Hj. apply (inv_pins _ _ HI). by right.
  - split; cbn; try done.
    + lia.
    + intros Hc. destruct (H3 Hc) as [H3' _]. rewrite Hc in H1. cbn in H1. lia.
    + intros Hc. specialize (H4 Hc). lia.
Qed.

(** Popping an object off a list of a closing database. *)
Lemma inv_pop h pins d o k l :
  INV h pins -> h !! d = Some o -> m_CloseRequested o <> 0 -> is_child k = true ->
  (forall c, c ∈ l -> c ∈ get_list k o) ->
  INV (<[d:=set_list k l o]> h) pins.
Proof.
  intros HI Ho Hc Hk Hl. pose proof (inv_obj _ _ HI _ _ Ho) as [H1 H2 H3 H4 H5 H6 H7 H8 H9 H10].
  apply (inv_update h pins _ d o); try done.
  { intros j Hj. by apply (inv_pins _ _ HI). }
  split; try done.
  intros k' c Hin. destruct (decide (k' = k)) as [-> | Hne].
  - rewrite get_list_set in Hin by done. apply H9. by apply Hl.
  - rewrite get_list_set_ne in Hin by done. by apply H9.
Qed.

(** ** Destruction *)

(** An object after its destructor. *)
Definition dead (o : obj) : obj := set_close 3 (set_native false (set_refs 0 o)).

Lemma dead_obj_inv hv pins id o :
  obj_inv hv pins id o -> nch id hv = 0 ->
  forall hv' pins', nch id hv' = 0 -> cnt pins' id = 0 -> obj_inv hv' pins' id (dead o).
Proof.
  intros [H1 H2 H3 H4 H5 H6 H7 H8 H9 H10] Hn hv' pins' Hn' Hp'. split; cbn; try done; try lia.
  intros k c Hc. exfalso. destruct (H9 k c) as (v & Hv & _ & Hch); [by destruct k |].
  by apply (nch_zero _ _ Hn c v).
Qed.

(** The last reference of a closing object: nothing else refers to it. *)
Lemma last_reference h pins id o :
  INV h (id :: pins) -> h !! id = Some o -> m_RefCount o = 1 -> m_CloseRequested o = 1 ->
  cnt pins id = 0 /\ nch id (views h) = 0.
Proof.
  intros HI Ho Hr Hc. pose proof (inv_obj _ _ HI _ _ Ho) as [H1 _ _ _ _ _ _ _ _ _].
  rewrite cnt_cons_eq, Hc in H1. cbn in H1.
  pose proof (cnt_nonneg pins id). pose proof (nch_nonneg id (views h)). lia.
Qed.

Lemma inv_destroy_root h pins id o :
  INV h (id :: pins) -> h !! id = Some o -> is_child (o_kind o) = false ->
  m_RefCount o = 1 -> m_CloseRequested o = 1 ->
  INV (<[id:=dead o]> h) pins.
Proof.
  intros HI Ho Hk Hr Hc. destruct (last_reference h pins id o) as [Hp Hn]; try done.
  pose proof (inv_obj _ _ HI _ _ Ho) as Hi. pose proof (oi_root _ _ _ _ Hi Hk) as Hdb.
  assert (Hvid : views h !! id = Some (view o)) by (by rewrite lookup_views, Ho).
  assert (Hno : forall d, ~ child_of d (view o)).
  { intros d [Hd _]. cbn in Hd. congruence. }
  assert (Hnch : forall d, nch d (<[id:=view (dead o)]> (views h)) = nch d (views h)).
  { intros d. rewrite (nch_kill d _ id (view o)) by done. rewrite decide_False by apply Hno. lia. }
  split.
  - intros j oj Hj. rewrite views_insert. destruct (decide (j = id)) as [-> | Hne].
    + rewrite lookup_insert_eq in Hj. simplify_eq.
      apply (dead_obj_inv (views h) (id :: pins)); try done. by rewrite Hnch.
    + rewrite lookup_insert_ne in Hj by done.
      destruct (inv_obj _ _ HI _ _ Hj) as [H1 H2 H3 H4 H5 H6 H7 H8 H9 H10].
      split; try done.
      * by rewrite Hnch, <- (cnt_cons_ne pins id).
      * intros d Hd Hcl. destruct (H8 d Hd Hcl) as (v & Hv & Hvk & Hvl).
        exists v. rewrite lookup_insert_ne; [done |]. intros <-.
        apply (nch_zero _ _ Hn j (view oj)); [by rewrite lookup_views, Hj |].
        split; [done |]. cbn. by apply negb_true_iff, Z.eqb_neq.
      * intros k c Hin. destruct (H9 k c Hin) as (v & Hv & Hvk & Hvc).
        exists v. rewrite lookup_insert_ne; [done |]. intros <-.
        rewrite Hvid in Hv. simplify_eq. by apply Hno in Hvc.
      * intros Hkd Hcl c v Hv Hch. destruct (decide (c = id)) as [-> | Hcne].
        { rewrite lookup_insert_eq in Hv. simplify_eq. destruct Hch as [_ [=]]. }
        rewrite lookup_insert_ne in Hv by done. by apply H10.
  - intros j Hj. destruct (decide (j = id)) as [-> | Hne]; [rewrite lookup_insert_eq; by eexists |].
    rewrite lookup_insert_ne by done. apply (inv_pins _ _ HI). by right.
Qed.

(** The database after the destructor of the child [c]. *)
Definition unlinked (k : obj_kind) (c : nat) (db : obj) : obj :=
  set_list k (filter (fun x => x <> c) (get_list k db)) db.

Lemma elem_of_unlinked k k' c db x :
  is_child k = true ->
  x ∈ get_list k' (unlinked k c db) <-> x ∈ get_list k' db /\ (k' = k -> x <> c).
Proof.
  intros Hk. unfold unlinked. destruct (decide (k' = k)) as [-> | Hne].
  - rewrite get_list_set by done. rewrite list_elem_of_filter. naive_solver.
  - rewrite get_list_set_ne by done. naive_solver.
Qed.

(** Two objects of the heap replaced: [c] by [n], and [d] by its image. *)
Lemma lookup_insert_pair (h : heap) (c d j : nat) (n db oj : obj) (f : obj -> obj) :
  h !! d = Some db -> <[c:=n]> (<[d:=f db]> h) !! j = Some oj ->
  (j = c /\ oj = n) \/
  (j <> c /\ exists o0, h !! j = Some o0 /\ oj = if decide (j = d) then f o0 else o0).
Proof.
  intros Hdb Hj. destruct (decide (j = c)) as [-> | Hjc].
  - rewrite lookup_insert_eq in Hj. simplify_eq. by left.
  - right. split; [done |]. rewrite lookup_insert_ne in Hj by done. case_decide as Hjd.
    + subst j. rewrite lookup_insert_eq in Hj. simplify_eq. by exists db.
    + rewrite lookup_insert_ne in Hj by done. by exists oj.
Qed.

Lemma insert_pair_is_Some (h : heap) (c d j : nat) (n m : obj) :
  is_Some (h !! j) -> is_Some (<[c:=n]> (<[d:=m]> h) !! j).
Proof.
  intros Hj. destruct (decide (j = c)) as [-> | ?]; [rewrite lookup_insert_eq; by eexists |].
  rewrite lookup_insert_ne by done.
  destruct (decide (j = d)) as [-> | ?]; [rewrite lookup_insert_eq; by eexists |].
  by rewrite lookup_insert_ne.
Qed.

Lemma nch_child_dead hv c o d j :
  hv !! c = Some (view o) -> child_of d (view o) ->
  nch j (<[c:=view (dead o)]> hv) = nch j hv - (if decide (j = d) then 1 else 0).
Proof.
  intros Hc Hch. rewrite (nch_kill j _ c (view o)) by done. destruct (decide (j = d)) as [-> | Hj].
  - by rewrite decide_True.
  - rewrite decide_False; [done |]. intros [Hj' _]. destruct Hch as [Hd _]. congruence.
Qed.

(** The lists of an object never hold a destroyed child of [d] once it is
    unlinked from [d]. *)
Lemma unlinked_lists hv pins c o d j o0 k x :
  hv !! c = Some (view o) -> child_of d (view o) -> is_child (o_kind o) = true ->
  obj_inv hv pins j o0 ->
  x ∈ get_list k (if decide (j = d) then unlinked (o_kind o) c o0 else o0) ->
  x ∈ get_list k o0 /\ x <> c.
Proof.
  intros Hvc [Hd _] Hk Hi Hx. case_decide as Hjd.
  - apply elem_of_unlinked in Hx as [Hx Hxc]; [| done].
    split; [done |]. intros ->. destruct (oi_links _ _ _ _ Hi k c Hx) as (v & Hv & Hvk & _).
    rewrite Hvc in Hv. simplify_eq. by apply Hxc.
  - split; [done |]. intros ->.
    destruct (oi_links _ _ _ _ Hi k c Hx) as (v & Hv & _ & [Hvd _]). congruence.
Qed.

(** What the destruction of the child [c] of [d] means for the other objects. *)
Lemma obj_inv_unlink hv pins c o d j o0 :
  hv !! c = Some (view o) -> child_of d (view o) -> is_child (o_kind o) = true -> j <> c ->
  obj_inv hv (c :: pins) j o0 ->
  obj_inv (<[c:=view (dead o)]> hv) (d :: pins) j
    (if decide (j = d) then unlinked (o_kind o) c o0 else o0).
Proof.
  intros Hvc Hch Hk Hjc Hi.
  pose proof (unlinked_lists hv (c :: pins) c o d j o0) as Hlist.
  pose proof (nch_child_dead hv c o d j Hvc Hch) as Hnch.
  set (oj := if decide (j = d) then _ else _) in *.
  assert (Hfields : m_RefCount oj = m_RefCount o0 /\ m_CloseRequested oj = m_CloseRequested o0 /\
    m_Native oj = m_Native o0 /\ o_kind oj = o_kind o0 /\ m_DbPtr oj = m_DbPtr o0).
  { unfold oj. by case_decide. }
  destruct Hfields as (Er & Ec & En & Ek & Ed). pose proof Hi as [H1 H2 H3 H4 H5 H6 H7 H8 H9 H10].
  rewrite cnt_cons_ne in H1 by done. split; rewrite ?Er, ?Ec, ?En, ?Ek, ?Ed; try done.
  - rewrite Hnch, H1. destruct (decide (j = d)) as [-> | Hjd];
      [rewrite cnt_cons_eq | rewrite cnt_cons_ne by done]; lia.
  - intros x Hx Hcl. destruct (H8 x Hx Hcl) as (v & Hv & Hvk & Hvl). exists v.
    split; [| done]. rewrite lookup_insert_ne; [done |]. intros <-. rewrite Hvc in Hv.
    simplify_eq. cbn in Hvk. by rewrite Hvk in Hk.
  - intros k x Hx. apply Hlist in Hx as [Hx Hxc]; try done.
    destruct (H9 k x Hx) as (v & Hv & Hrest). exists v. by rewrite lookup_insert_ne.
  - intros Hkd Hcl x v Hv Hxv. destruct (decide (x = c)) as [-> | Hxc].
    { rewrite lookup_insert_eq in Hv. simplify_eq. destruct Hxv as [_ [=]]. }
    rewrite lookup_insert_ne in Hv by done. specialize (H10 Hkd Hcl x v Hv Hxv).
    unfold oj. case_decide; [by apply elem_of_unlinked | done].
Qed.

(** Destroying a child turns the reference it holds on its database into a
    pin. *)
Lemma inv_destroy_child h pins c o d db :
  INV h (c :: pins) -> h !! c = Some o -> is_child (o_kind o) = true -> m_DbPtr o = Some d ->
  h !! d = Some db -> c <> d -> m_RefCount o = 1 -> m_CloseRequested o = 1 ->
  INV (<[c:=dead o]> (<[d:=unlinked (o_kind o) c db]> h)) (d :: pins).
Proof.
  intros HI Ho Hk Hd Hdb Hcd Hr Hc. destruct (last_reference h pins c o) as [Hp Hn]; try done.
  assert (Hvc : views h !! c = Some (view o)) by (by rewrite lookup_views, Ho).
  assert (Hch : child_of d (view o)) by (split; [done | cbn; by rewrite Hc]).
  split.
  - intros j oj Hj. rewrite views_insert, (views_insert_same h d db) by done.
    apply lookup_insert_pair in Hj as [[-> ->] | (Hjc & o0 & Hj0 & ->)]; [| | done].
    + apply (dead_obj_inv (views h) (c :: pins)); try done; [by apply (inv_obj _ _ HI) | |].
      * rewrite (nch_child_dead _ c o d), decide_False by done. lia.
      * by rewrite cnt_cons_ne.
    + by apply obj_inv_unlink, (inv_obj _ _ HI).
  - intros j Hj. apply insert_pair_is_Some.
    apply elem_of_cons in Hj as [-> | Hj]; [by eexists |]. apply (inv_pins _ _ HI). by right.
Qed.

(** ** How the heap evolves

    Every operation keeps the objects of the heap, only moves them forward in
    the close protocol, never brings a released handle back, and only shortens
    the lists. *)

Record obj_evolves (o o' : obj) : Prop := {
  ev_kind : o_kind o' = o_kind o;
  ev_db : m_DbPtr o' = m_DbPtr o;
  ev_close : m_CloseRequested o <= m_CloseRequested o';
  ev_native : m_Native o = false -> m_Native o' = false;
  ev_len : forall k, (length (get_list k o') <= length (get_list k o))%nat;
  ev_list : forall k c, c ∈ get_list k o' -> c ∈ get_list k o;
}.

Definition evolves (h h' : heap) : Prop :=
  forall id, match h !! id, h' !! id with
             | Some o, Some o' => obj_evolves o o'
             | None, None => True
             | _, _ => False
             end.

#[export] Instance obj_evolves_preorder : PreOrder obj_evolves.
Proof.
  split.
  - intros o. by split.
  - intros o1 o2 o3 [A1 A2 A3 A4 A5 A6] [B1 B2 B3 B4 B5 B6]. split; try congruence; try lia; auto.
    intros k. specialize (A5 k). specialize (B5 k). lia.
Qed.

#[export] Instance evolves_preorder : PreOrder evolves.
Proof.
  split.
  - intros h id. destruct (h !! id); done.
  - intros h1 h2 h3 H12 H23 id. specialize (H12 id). specialize (H23 id).
    destruct (h1 !! id), (h2 !! id), (h3 !! id); try done. by etransitivity.
Qed.

Lemma evolves_lookup h h' id o :
  evolves h h' -> h !! id = Some o -> exists o', h' !! id = Some o' /\ obj_evolves o o'.
Proof. intros H Ho. specialize (H id). rewrite Ho in H. destruct (h' !! id); [by eexists | done]. Qed.

Lemma evolves_insert h id o o' :
  h !! id = Some o -> obj_evolves o o' -> evolves h (<[id:=o']> h).
Proof.
  intros Ho He j. destruct (decide (j = id)) as [-> | Hne].
  - by rewrite lookup_insert_eq, Ho.
  - rewrite lookup_insert_ne by done. by destruct (h !! j).
Qed.

Lemma evolves_size h h' : evolves h h' -> size h' = size h.
Proof.
  intros H. rewrite <- !size_dom. f_equal. apply set_eq. intros id. rewrite !elem_of_dom.
  specialize (H id). by destruct (h !! id), (h' !! id).
Qed.

Lemma evolves_small h h' pins : evolves h h' -> small h pins -> small h' pins.
Proof. intros H. unfold small. by rewrite (evolves_size h h'). Qed.

Lemma unlinked_evolves k c db : is_child k = true -> obj_evolves db (unlinked k c db).
Proof.
  intros Hk. split; try done.
  - intros k'. unfold unlinked. destruct (decide (k' = k)) as [-> | Hne].
    + rewrite get_list_set by done. apply length_filter.
    + by rewrite get_list_set_ne.
  - intros k' x Hx. by apply elem_of_unlinked in Hx as [Hx _].
Qed.

(** ** RefDec on an object without a database *)

(** What [RefDec] makes of the object. *)
Definition root_dec (o : obj) : obj :=
  let cur_count := u32 (m_RefCount o - 1) in
  if (cur_count =? 0) && (m_CloseRequested o =? 1)
  then set_close 3 (set_native false (set_close 2 (set_refs cur_count o)))
  else set_refs cur_count o.

Lemma root_RefDec_eq h id o :
  h !! id = Some o -> root_RefDec h id = Ok (<[id:=root_dec o]> h).
Proof.
  intros Ho. unfold root_RefDec, RefDec_with, deref. rewrite Ho. cbn [obind]. unfold root_dec.
  case_match; [| done]. unfold root_dtor, ErlRefObject_dtor, deref.
  rewrite lookup_insert_eq. cbn [obind]. rewrite lookup_insert_eq. cbn [obind].
  by rewrite !insert_insert_eq.
Qed.

Lemma root_dec_cases h pins id o :
  INV h (id :: pins) -> small h pins -> h !! id = Some o ->
  (m_RefCount o = 1 /\ m_CloseRequested o = 1 /\ root_dec o = dead o) \/
  (~ (m_RefCount o = 1 /\ m_CloseRequested o = 1) /\ root_dec o = set_refs (m_RefCount o - 1) o).
Proof.
  intros HI Hsm Ho. pose proof (refs_bound _ _ _ _ HI Ho) as Hb. unfold small in Hsm.
  pose proof (oi_refs _ _ _ _ (inv_obj _ _ HI _ _ Ho)) as Hr. rewrite cnt_cons_eq in Hr.
  pose proof (cnt_nonneg pins id). pose proof (nch_nonneg id (views h)).
  assert (1 <= m_RefCount o) by (case_match; lia). cbn [length] in Hb.
  unfold root_dec. rewrite wrap_small by lia. cbn zeta.
  destruct (m_RefCount o - 1 =? 0) eqn:E1, (m_CloseRequested o =? 1) eqn:E2; cbn [andb].
  - left. replace (m_RefCount o - 1) with 0 by lia. split; [lia |]. split; [lia | done].
  - right. split; [lia | done].
  - right. split; [lia | done].
  - right. split; [lia | done].
Qed.

Lemma dead_evolves o : m_CloseRequested o <= 3 -> obj_evolves o (dead o).
Proof. intros. split; try done; intros []; done. Qed.

Lemma refs_evolves n o : obj_evolves o (set_refs n o).
Proof. split; try done; intros []; done. Qed.

Lemma inv_root_RefDec h pins id o :
  INV h (id :: pins) -> small h pins -> h !! id = Some o -> is_child (o_kind o) = false ->
  exists h', root_RefDec h id = Ok h' /\ INV h' pins /\ evolves h h' /\
    (m_CloseRequested o = 1 -> cnt pins id = 0 -> nch id (views h) = 0 ->
     exists o', h' !! id = Some o' /\ m_CloseRequested o' = 3).
Proof.
  intros HI Hsm Ho Hk. rewrite (root_RefDec_eq h id o Ho). eexists. split; [done |].
  destruct (root_dec_cases h pins id o HI Hsm Ho) as [(Hr & Hc & ->) | (Hn & ->)].
  - split; [by apply inv_destroy_root |]. split.
    + apply (evolves_insert h id o); [done | apply dead_evolves; lia].
    + intros _ _ _. exists (dead o). by rewrite lookup_insert_eq.
  - split; [by apply inv_unpin_alive |]. split.
    + apply (evolves_insert h id o); [done | apply refs_evolves].
    + intros Hc Hp Hz. exfalso. apply Hn. split; [| done].
      pose proof (oi_refs _ _ _ _ (inv_obj _ _ HI _ _ Ho)) as Hr.
      rewrite cnt_cons_eq, Hc in Hr. cbn in Hr. lia.
Qed.

(** ** RefDec on a child *)

(** A live child and its database. *)
Lemma live_child h pins c o :
  INV h pins -> h !! c = Some o -> is_child (o_kind o) = true -> m_CloseRequested o <> 3 ->
  exists d db, m_DbPtr o = Some d /\ h !! d = Some db /\ o_kind db = KDb /\ c <> d /\
    m_CloseRequested db <> 3 /\ m_Native db = true.
Proof.
  intros HI Ho Hk Hc. pose proof (inv_obj _ _ HI _ _ Ho) as Hi.
  destruct (oi_child _ _ _ _ Hi Hk) as [d Hd].
  destruct (oi_db _ _ _ _ Hi d Hd Hc) as (v & Hv & Hvk & Hvl).
  apply lookup_views_Some in Hv as (db & Hdb & ->). cbn in Hvk, Hvl.
  exists d, db. split; [done |]. split; [done |]. split; [done |].
  assert (m_CloseRequested db <> 3) by (intros He; by rewrite He in Hvl).
  split; [intros -> ; simplify_eq; by rewrite Hvk in Hk |]. split; [done |].
  apply (oi_native _ _ _ _ (inv_obj _ _ HI _ _ Hdb)); [done |]. by rewrite Hvk.
Qed.

Lemma child_no_children h pins c o :
  INV h pins -> h !! c = Some o -> is_child (o_kind o) = true -> nch c (views h) = 0.
Proof.
  intros HI Ho Hk. apply nch_none. intros x v Hv [Hvd Hvl].
  apply lookup_views_Some in Hv as (ox & Hox & ->). cbn in Hvd, Hvl.
  destruct (oi_db _ _ _ _ (inv_obj _ _ HI _ _ Hox) c Hvd) as (v & Hv & Hvk & _).
  { intros He. by rewrite He in Hvl. }
  apply lookup_views_Some in Hv as (o' & Ho' & ->). simplify_eq. cbn in Hvk. by rewrite Hvk in Hk.
Qed.

(** The body of a child's destructor: its handle is released, it is unlinked. *)
Lemma child_body h c o d db :
  h !! c = Some o -> is_child (o_kind o) = true -> m_DbPtr o = Some d -> h !! d = Some db ->
  c <> d -> m_Native db = true ->
  child_dtor_body (o_kind o) h c = Ok (<[c:=set_native false o]> (<[d:=unlinked (o_kind o) c db]> h)).
Proof.
  intros Ho Hk Hd Hdb Hcd Hn.
  assert (Hrel : forall h' db', h' !! c = Some o -> h' !! d = Some db' -> m_Native db' = true ->
            release_native h' c = Ok (<[c:=set_native false o]> h')).
  { intros h' db' Hc' Hd' Hn'. unfold release_native, deref. rewrite Hc'. cbn [obind].
    destruct (m_Native o) eqn:En.
    - rewrite Hd. rewrite Hd'. cbn [obind]. by rewrite Hn'.
    - rewrite insert_id; [done |]. rewrite Hc'. f_equal. destruct o. cbn in En. by subst. }
  assert (Hunl : forall h' x, h' !! c = Some x -> o_kind x = o_kind o -> m_DbPtr x = Some d ->
            h' !! d = Some db -> unlink h' c = Ok (<[d:=unlinked (o_kind o) c db]> h')).
  { intros h' x Hc' Hk' Hd' Hdb'. unfold unlink, RemoveReference, deref. rewrite Hc'. cbn [obind].
    rewrite Hd', Hdb'. cbn [obind]. by rewrite Hk'. }
  assert (Hord1 : (let! h1 := release_native h c in unlink h1 c) =
                  Ok (<[c:=set_native false o]> (<[d:=unlinked (o_kind o) c db]> h))).
  { rewrite (Hrel h db) by done. cbn [obind].
    rewrite (Hunl _ (set_native false o)); try done; [| by rewrite lookup_insert_eq | by rewrite lookup_insert_ne].
    by rewrite insert_insert_ne. }
  assert (Hord2 : (let! h1 := unlink h c in release_native h1 c) =
                  Ok (<[c:=set_native false o]> (<[d:=unlinked (o_kind o) c db]> h))).
  { rewrite (Hunl h o) by done. cbn [obind].
    apply (Hrel _ (unlinked (o_kind o) c db)); [by rewrite lookup_insert_ne | by rewrite lookup_insert_eq | done]. }
  by destruct (o_kind o).
Qed.

(** Only the links to [c] may go. *)
Definition keeps (c : nat) (h h' : heap) : Prop :=
  forall j oj oj', h !! j = Some oj -> h' !! j = Some oj' ->
  forall k x, x <> c -> x ∈ get_list k oj -> x ∈ get_list k oj'.

Lemma keeps_insert c h id o o' :
  h !! id = Some o -> (forall k x, x <> c -> x ∈ get_list k o -> x ∈ get_list k o') ->
  keeps c h (<[id:=o']> h).
Proof.
  intros Ho Hl j oj oj' Hj Hj' k x Hx Hin. destruct (decide (j = id)) as [-> | Hne].
  - rewrite lookup_insert_eq in Hj'. simplify_eq. by apply Hl.
  - rewrite lookup_insert_ne in Hj' by done. by simplify_eq.
Qed.

Lemma keeps_trans c h1 h2 h3 : evolves h1 h2 -> keeps c h1 h2 -> keeps c h2 h3 -> keeps c h1 h3.
Proof.
  intros He H12 H23 j o1 o3 H1 H3 k x Hx Hin.
  destruct (evolves_lookup _ _ _ _ He H1) as (o2 & H2 & _).
  by apply (H23 j o2 o3), (H12 j o1 o2).
Qed.

Lemma get_list_root_dec k o : get_list k (root_dec o) = get_list k o.
Proof. unfold root_dec. cbn zeta. case_match; by destruct k. Qed.

Lemma child_RefDec_destroy h c o d db :
  h !! c = Some o -> is_child (o_kind o) = true -> m_DbPtr o = Some d -> h !! d = Some db ->
  c <> d -> m_Native db = true -> m_RefCount o = 1 -> m_CloseRequested o = 1 ->
  child_RefDec h c =
  Ok (<[d:=root_dec (unlinked (o_kind o) c db)]>
        (<[c:=dead o]> (<[d:=unlinked (o_kind o) c db]> h))).
Proof.
  intros Ho Hk Hd Hdb Hcd Hn Hr Hc. unfold child_RefDec, RefDec_with, deref.
  rewrite Ho. cbn [obind]. rewrite Hr, Hc. change (u32 (1 - 1)) with 0. cbn [Z.eqb andb].
  unfold child_dtor at 1, deref at 1. rewrite lookup_insert_eq. cbn [obind].
  set (o2 := set_close 2 (set_refs 0 o)). set (h2 := <[c:=o2]> h).
  rewrite (child_body h2 c o2 d db); try done;
    [| unfold h2; by rewrite lookup_insert_eq | unfold h2; by rewrite lookup_insert_ne].
  cbn [obind]. change (m_DbPtr o2) with (m_DbPtr o). rewrite Hd.
  change (o_kind o2) with (o_kind o).
  set (u := unlinked (o_kind o) c db). set (o3 := set_native false o2).
  rewrite (root_RefDec_eq _ d u) by (rewrite lookup_insert_ne, lookup_insert_eq by done; done).
  cbn [obind]. unfold ErlRefObject_dtor, deref, h2.
  rewrite lookup_insert_ne, lookup_insert_eq by done. cbn [obind]. f_equal.
  change (set_close 3 o3) with (dead o).
  apply map_eq. intros j.
  destruct (decide (j = c)) as [-> | Hjc]; [| destruct (decide (j = d)) as [-> | Hjd]];
    by repeat (rewrite lookup_insert_eq || (rewrite lookup_insert_ne by done)).
Qed.

Lemma inv_child_RefDec h pins c o :
  INV h (c :: pins) -> small h pins -> h !! c = Some o -> is_child (o_kind o) = true ->
  exists h', child_RefDec h c = Ok h' /\ INV h' pins /\ evolves h h' /\ keeps c h h' /\
    (m_CloseRequested o = 1 -> cnt pins c = 0 ->
     exists o', h' !! c = Some o' /\ m_CloseRequested o' = 3).
Proof.
  intros HI Hsm Ho Hk. pose proof (inv_obj _ _ HI _ _ Ho) as Hi.
  pose proof (oi_refs _ _ _ _ Hi) as Hr. rewrite cnt_cons_eq in Hr.
  pose proof (cnt_nonneg pins c). pose proof (nch_nonneg c (views h)).
  assert (1 <= m_RefCount o) by (case_match; lia).
  assert (Hc3 : m_CloseRequested o <> 3).
  { intros He. destruct (oi_dead _ _ _ _ Hi He). lia. }
  destruct (live_child h (c :: pins) c o) as (d & db & Hd & Hdb & Hdk & Hcd & Hdc & Hdn); try done.
  destruct (decide (m_RefCount o = 1 /\ m_CloseRequested o = 1)) as [[Hr1 Hc1] | Hn].
  - rewrite (child_RefDec_destroy h c o d db) by done.
    set (u := unlinked (o_kind o) c db). set (h1 := <[c:=dead o]> (<[d:=u]> h)).
    assert (HI1 : INV h1 (d :: pins)) by (by apply inv_destroy_child).
    assert (Hu : h1 !! d = Some u) by (unfold h1; by rewrite lookup_insert_ne, lookup_insert_eq).
    assert (He1 : evolves h h1).
    { transitivity (<[d:=u]> h).
      - apply (evolves_insert h d db); [done | by apply unlinked_evolves].
      - apply (evolves_insert _ c o); [by rewrite lookup_insert_ne | apply dead_evolves; lia]. }
    destruct (inv_root_RefDec h1 pins d u HI1) as (h' & Hh' & HI' & He' & _); try done.
    { by apply (evolves_small h). }
    { change (o_kind u) with (o_kind db). by rewrite Hdk. }
    rewrite (root_RefDec_eq h1 d u Hu) in Hh'. simplify_eq.
    exists (<[d:=root_dec u]> h1). split; [done |]. split; [done |].
    split; [by transitivity h1 |]. split.
    { apply (keeps_trans c h h1); [done | |].
      - apply (keeps_trans c h (<[d:=u]> h)).
        + apply (evolves_insert h d db); [done | by apply unlinked_evolves].
        + apply (keeps_insert c h d db); [done |]. intros k x Hx Hin. by apply elem_of_unlinked.
        + apply (keeps_insert c _ c o); [by rewrite lookup_insert_ne | by intros []].
      - apply (keeps_insert c h1 d u); [done |]. intros k x _. by rewrite get_list_root_dec. }
    intros _ _. exists (dead o).
    unfold h1. by rewrite lookup_insert_ne, lookup_insert_eq.
  - unfold child_RefDec, RefDec_with, deref. rewrite Ho. cbn [obind].
    pose proof (refs_bound _ _ _ _ HI Ho) as Hb. unfold small in Hsm. cbn [length] in Hb.
    rewrite wrap_small by lia.
    assert (Hguard : (m_RefCount o - 1 =? 0) && (m_CloseRequested o =? 1) = false) by lia.
    rewrite Hguard. eexists. split; [done |]. split; [by apply inv_unpin_alive |].
    split; [apply (evolves_insert h c o); [done | apply refs_evolves] |].
    split; [apply (keeps_insert c h c o); [done | by intros []] |].
    intros Hc1 Hp. exfalso. apply Hn. split; [| done].
    rewrite Hc1, (child_no_children h (c :: pins) c o) in Hr by done. cbn in Hr. lia.
Qed.

(** Dropping a pin of any object. *)
Lemma inv_RefDec h pins id :
  INV h (id :: pins) -> small h pins ->
  exists h', RefDec h id = Ok h' /\ INV h' pins /\ evolves h h'.
Proof.
  intros HI Hsm. destruct (inv_pins _ _ HI id) as [o Ho]; [by left |].
  unfold RefDec, deref. rewrite Ho. cbn [obind]. destruct (is_child (o_kind o)) eqn:Hk.
  - destruct (inv_child_RefDec h pins id o) as (h' & ? & ? & ? & _ & _); try done. by exists h'.
  - destruct (inv_root_RefDec h pins id o) as (h' & ? & ? & ? & _); try done. by exists h'.
Qed.

(** ** Closing *)

Lemma close_evolves o : m_CloseRequested o = 0 -> obj_evolves o (set_close 1 o).
Proof. intros. split; cbn; try done; try lia; intros []; done. Qed.

Lemma inv_close_child h pins c o :
  INV h pins -> small h pins -> h !! c = Some o -> is_child (o_kind o) = true ->
  exists h', close_child h c = Ok h' /\ INV h' pins /\ evolves h h' /\ keeps c h h' /\
    (cnt pins c = 0 -> exists o', h' !! c = Some o' /\ m_CloseRequested o' = 3) /\
    (exists o', h' !! c = Some o' /\ m_CloseRequested o' <> 0).
Proof.
  intros HI Hsm Ho Hk. unfold close_child, deref. rewrite Ho. cbn [obind].
  pose proof (inv_obj _ _ HI _ _ Ho) as Hi.
  destruct (m_CloseRequested o =? 0) eqn:E.
  - assert (Hc : m_CloseRequested o = 0) by lia.
    pose proof (inv_cas h pins c o HI Ho Hc) as HI1.
    assert (He1 : evolves h (<[c:=set_close 1 o]> h)).
    { apply (evolves_insert h c o); [done | by apply close_evolves]. }
    destruct (inv_child_RefDec _ pins c (set_close 1 o) HI1) as (h' & Hh' & HI' & He' & Hkeep & Hd).
    { by apply (evolves_small h). }
    { by rewrite lookup_insert_eq. }
    { done. }
    exists h'. split; [done |]. split; [done |]. split; [by etransitivity |].
    split; [apply (keeps_trans c _ _ _ He1); [apply (keeps_insert c h c o); [done | by intros []] | done] |].
    split; [intros Hp; by apply Hd |].
    destruct (evolves_lookup _ _ c (set_close 1 o) He') as (o' & Ho' & [_ _ Hcl _ _ _]).
    { by rewrite lookup_insert_eq. }
    exists o'. split; [done |]. cbn in Hcl. lia.
  - exists h. split; [done |]. split; [done |]. split; [done |].
    split; [intros j oj oj' Hj Hj'; by simplify_eq |]. split; [| exists o; split; [done | lia]].
    intros Hp. exists o. split; [done |].
    destruct (oi_close _ _ _ _ Hi) as [Hc | [Hc | Hc]]; [lia | | done].
    pose proof (oi_closing _ _ _ _ Hi Hc). pose proof (oi_refs _ _ _ _ Hi) as Hr.
    rewrite Hc, Hp, (child_no_children h pins c o) in Hr by done. cbn in Hr. lia.
Qed.

Lemma dead_stays h h' pins id o :
  INV h' pins -> evolves h h' -> h !! id = Some o -> m_CloseRequested o = 3 ->
  exists o', h' !! id = Some o' /\ m_CloseRequested o' = 3.
Proof.
  intros HI He Ho Hc. destruct (evolves_lookup _ _ _ _ He Ho) as (o' & Ho' & Hev).
  exists o'. split; [done |]. pose proof (ev_close _ _ Hev).
  destruct (oi_close _ _ _ _ (inv_obj _ _ HI _ _ Ho')) as [|[|]]; lia.
Qed.

Lemma linked_kind h pins d o k c :
  INV h pins -> h !! d = Some o -> c ∈ get_list k o ->
  exists oc, h !! c = Some oc /\ o_kind oc = k.
Proof.
  intros HI Ho Hin. destruct (oi_links _ _ _ _ (inv_obj _ _ HI _ _ Ho) k c Hin) as (v & Hv & Hk & _).
  apply lookup_views_Some in Hv as (oc & Hoc & ->). by exists oc.
Qed.

(** One iteration of a [Shutdown] loop. *)
Lemma drain_step k h pins d o c rest :
  INV h pins -> small h pins -> h !! d = Some o -> o_kind o = KDb -> m_CloseRequested o <> 0 ->
  is_child k = true -> get_list k o = c :: rest ->
  exists h2 o2, close_child (<[d:=set_list k rest o]> h) c = Ok h2 /\ INV h2 pins /\
    evolves h h2 /\ h2 !! d = Some o2 /\ (length (get_list k o2) <= length rest)%nat /\
    (forall k' x, x <> c -> x ∈ get_list k' o -> x ∈ get_list k' o2) /\
    (cnt pins c = 0 -> exists oc, h2 !! c = Some oc /\ m_CloseRequested oc = 3).
Proof.
  intros HI Hsm Ho Hdk Hc Hk El. set (h1 := <[d:=set_list k rest o]> h).
  assert (HI1 : INV h1 pins).
  { apply (inv_pop h pins d o); try done. intros x Hx. rewrite El. by right. }
  assert (He1 : evolves h h1).
  { apply (evolves_insert h d o); [done |]. split; try done.
    - intros k'. destruct (decide (k' = k)) as [-> | Hne].
      + rewrite get_list_set, El by done. cbn. lia.
      + by rewrite get_list_set_ne.
    - intros k' x Hx. destruct (decide (k' = k)) as [-> | Hne].
      + rewrite get_list_set in Hx by done. rewrite El. by right.
      + by rewrite get_list_set_ne in Hx. }
  destruct (linked_kind h pins d o k c) as (oc & Hoc & Hock); try done. { rewrite El. by left. }
  assert (Hcd : c <> d) by (intros ->; simplify_eq; by rewrite Hdk in Hk).
  assert (Hd1 : h1 !! d = Some (set_list k rest o)) by (unfold h1; by rewrite lookup_insert_eq).
  destruct (inv_close_child h1 pins c oc HI1) as (h2 & Hh2 & HI2 & He2 & Hkeep & Hdead & _).
  { by apply (evolves_small h). } { unfold h1. by rewrite lookup_insert_ne. } { by rewrite Hock. }
  destruct (evolves_lookup h1 h2 d _ He2 Hd1) as (o2 & Ho2 & Hev2).
  exists h2, o2. split; [done |]. split; [done |]. split; [by etransitivity |]. split; [done |].
  split; [| split; [| done]].
  - pose proof (ev_len _ _ Hev2 k) as Hl. by rewrite get_list_set in Hl.
  - intros k' x Hx Hin. apply (Hkeep d _ _ Hd1 Ho2); [done |].
    destruct (decide (k' = k)) as [-> | Hne]; [| by rewrite get_list_set_ne].
    rewrite get_list_set by done. rewrite El in Hin. by apply elem_of_cons in Hin as [-> | Hin].
Qed.

Lemma drain_spec fuel k h pins d o :
  INV h pins -> small h pins -> h !! d = Some o -> o_kind o = KDb -> m_CloseRequested o <> 0 ->
  is_child k = true -> (length (get_list k o) <= fuel)%nat ->
  exists h' o', drain fuel k h d = Ok h' /\ INV h' pins /\ evolves h h' /\ h' !! d = Some o' /\
    get_list k o' = [] /\
    (forall k' x, k' <> k -> x ∈ get_list k' o -> x ∈ get_list k' o') /\
    (forall c, c ∈ get_list k o -> cnt pins c = 0 ->
       exists oc, h' !! c = Some oc /\ m_CloseRequested oc = 3).
Proof.
  revert h o. induction fuel as [|fuel IH]; intros h o HI Hsm Ho Hdk Hc Hk Hlen;
    cbn [drain]; unfold deref; rewrite Ho; cbn [obind].
  all: destruct (get_list k o) as [|c rest] eqn:El.
  1, 3: exists h, o; split_and!; try done; intros c Hin; by apply elem_of_nil in Hin.
  1: by cbn in Hlen; lia.
  destruct (drain_step k h pins d o c rest) as (h2 & o2 & -> & HI2 & He2 & Ho2 & Hl2 & Hkp & Hdead);
    try done. cbn [obind].
  destruct (evolves_lookup _ _ _ _ He2 Ho) as (o2' & Ho2' & Hev2).
  assert (o2' = o2) as -> by congruence. clear Ho2'.
  destruct (IH h2 o2) as (h' & o' & -> & HI' & He' & Ho' & Hnil & Hkp' & Hall); try done.
  { by apply (evolves_small h). } { by rewrite (ev_kind _ _ Hev2). }
  { pose proof (ev_close _ _ Hev2).
    destruct (oi_close _ _ _ _ (inv_obj _ _ HI _ _ Ho)) as [|[|]]; lia. }
  { cbn in Hlen. lia. }
  assert (Hcdead : cnt pins c = 0 -> exists ox, h' !! c = Some ox /\ m_CloseRequested ox = 3).
  { intros Hpx. destruct (Hdead Hpx) as (ox & Hox & Hx3). by apply (dead_stays h2 h' pins c ox). }
  exists h', o'. split_and!; try done.
  - by etransitivity.
  - intros k' x Hne Hin. apply Hkp'; [done |]. apply Hkp; [| done]. intros ->.
    destruct (linked_kind h pins d o k' c HI Ho Hin) as (oc & Hoc & Hock).
    destruct (linked_kind h pins d o k c) as (oc' & Hoc' & Hock'); try done; [rewrite El; by left |].
    congruence.
  - intros x Hx Hpx. destruct (decide (x = c)) as [-> | Hxc]; [by apply Hcdead |].
    apply Hall; [| done]. apply Hkp; [done |]. by rewrite El.
Qed.

Lemma drain_all_spec k h pins d o :
  INV h pins -> small h pins -> h !! d = Some o -> o_kind o = KDb -> m_CloseRequested o <> 0 ->
  is_child k = true ->
  exists h' o', drain_all k h d = Ok h' /\ INV h' pins /\ small h' pins /\ evolves h h' /\
    h' !! d = Some o' /\ o_kind o' = KDb /\ m_CloseRequested o' <> 0 /\
    (forall k' x, k' <> k -> x ∈ get_list k' o -> x ∈ get_list k' o') /\
    (forall c, c ∈ get_list k o -> cnt pins c = 0 ->
       exists oc, h' !! c = Some oc /\ m_CloseRequested oc = 3).
Proof.
  intros HI Hsm Ho Hdk Hc Hk. unfold drain_all, deref. rewrite Ho. cbn [obind].
  destruct (drain_spec (length (get_list k o)) k h pins d o)
    as (h' & o' & -> & HI' & He' & Ho' & _ & Hkp & Hall); try done.
  destruct (evolves_lookup _ _ _ _ He' Ho) as (o2 & Ho2 & Hev2).
  assert (o2 = o') as -> by congruence.
  exists h', o'. split_and!; try done.
  - by apply (evolves_small h).
  - by rewrite (ev_kind _ _ Hev2).
  - pose proof (ev_close _ _ Hev2).
    destruct (oi_close _ _ _ _ (inv_obj _ _ HI _ _ Ho)) as [|[|]]; lia.
Qed.

(** Closing a database: every object linked to it that no call in progress pins
    is destroyed, and so is the database when nothing refers to it any more. *)
Lemma inv_DbObject_Shutdown h pins d o :
  INV h (d :: pins) -> small h (d :: pins) -> h !! d = Some o -> o_kind o = KDb ->
  m_CloseRequested o = 1 ->
  exists h', DbObject_Shutdown h d = Ok h' /\ INV h' pins /\ evolves h h' /\
    (forall k c, c ∈ get_list k o -> cnt (d :: pins) c = 0 ->
       exists oc, h' !! c = Some oc /\ m_CloseRequested oc = 3) /\
    (cnt pins d = 0 ->
     (forall c oc, h' !! c = Some oc -> m_DbPtr oc = Some d -> m_CloseRequested oc = 3) ->
     exists o', h' !! d = Some o' /\ m_CloseRequested o' = 3).
Proof.
  intros HI Hsm Ho Hdk Hc. unfold DbObject_Shutdown.
  assert (Hc0 : m_CloseRequested o <> 0) by lia.
  destruct (drain_all_spec KItr h (d :: pins) d o) as (h1 & o1 & -> & HI1 & S1 & E1 & L1 & K1 & C1 & P1 & A1); try done.
  cbn [obind].
  destruct (drain_all_spec KColumnFamily h1 (d :: pins) d o1) as (h2 & o2 & -> & HI2 & S2 & E2 & L2 & K2 & C2 & P2 & A2); try done.
  cbn [obind].
  destruct (drain_all_spec KSnapshot h2 (d :: pins) d o2) as (h3 & o3 & -> & HI3 & S3 & E3 & L3 & K3 & C3 & P3 & A3); try done.
  cbn [obind].
  destruct (drain_all_spec KTLogItr h3 (d :: pins) d o3) as (h4 & o4 & -> & HI4 & S4 & E4 & L4 & K4 & C4 & P4 & A4); try done.
  cbn [obind].
  destruct (drain_all_spec KTransaction h4 (d :: pins) d o4) as (h5 & o5 & -> & HI5 & S5 & E5 & L5 & K5 & C5 & P5 & A5); try done.
  cbn [obind].
  destruct (inv_root_RefDec h5 pins d o5) as (h' & -> & HI' & E6 & D6); try done.
  { unfold small in *. cbn [length] in *. lia. } { by rewrite K5. }
  assert (E15 : evolves h h5) by (do 4 (etransitivity; [done |]); done).
  assert (Hdead : forall hi c oc, evolves hi h' -> hi !! c = Some oc -> m_CloseRequested oc = 3 ->
                  exists oc', h' !! c = Some oc' /\ m_CloseRequested oc' = 3).
  { intros hi c oc He Hoc H3. by apply (dead_stays hi h' pins c oc). }
  assert (E56 : evolves h5 h') by done. assert (E46 : evolves h4 h') by (by etransitivity).
  assert (E36 : evolves h3 h') by (by etransitivity).
  assert (E26 : evolves h2 h') by (by etransitivity).
  assert (E16 : evolves h1 h') by (by etransitivity).
  exists h'. split_and!; [done | done | by etransitivity | |].
  - intros k c Hin Hp. destruct k; try (by apply elem_of_nil in Hin).
    + destruct (A2 c) as (oc & Hoc & H3); [by apply P1 | done | by apply (Hdead h2 c oc)].
    + destruct (A3 c) as (oc & Hoc & H3); [by apply P2, P1 | done | by apply (Hdead h3 c oc)].
    + destruct (A1 c) as (oc & Hoc & H3); [done | done | by apply (Hdead h1 c oc)].
    + destruct (A4 c) as (oc & Hoc & H3); [by apply P3, P2, P1 | done | by apply (Hdead h4 c oc)].
    + destruct (A5 c) as (oc & Hoc & H3); [by apply P4, P3, P2, P1 | done | by apply (Hdead h5 c oc)].
  - intros Hp Hch. destruct (evolves_lookup h5 h' d o5 E6 L5) as (o' & Ho' & Hev).
    destruct (decide (m_CloseRequested o' = 3)) as [H3 | H3]; [by exists o' |].
    pose proof (oi_refs _ _ _ _ (inv_obj _ _ HI' _ _ Ho')) as Hr.
    assert (Hz : nch d (views h') = 0).
    { apply nch_none. intros x v Hv [Hvd Hvl].
      apply lookup_views_Some in Hv as (ox & Hox & ->). cbn in Hvd, Hvl.
      by rewrite (Hch x ox Hox Hvd) in Hvl. }
    exfalso. destruct (oi_close _ _ _ _ (inv_obj _ _ HI' _ _ Ho')) as [H0 | [H1 | ?]]; [| | done].
    + pose proof (ev_close _ _ Hev). destruct (oi_close _ _ _ _ (inv_obj _ _ HI5 _ _ L5)) as [|[|]]; lia.
    + pose proof (oi_closing _ _ _ _ (inv_obj _ _ HI' _ _ Ho') H1). rewrite H1, Hp, Hz in Hr. cbn in Hr. lia.
Qed.
