(* ===== verification/RefSystem.v ===== *)
(** * The handle system: steps, reachability, theorems

    The transitions of the reference-counted objects under any sequence of
    native calls and resource cleanups, and the theorems that hold of every
    reachable state.

    A transition is one atomic use of the API of [RefObjects]: a native call that
    keeps a [ReferencePtr] over its execution retrieves a pointer, takes the
    reference in a later step, makes any other steps, and drops it, so calls of
    several threads interleave and a close may fall between the retrieval and the
    reference.  The theorems hold of the executions in which it does not destroy
    the object there; [retrieve_races_with_close] is one in which it does.  A resource cleanup is a close
    request followed by [AwaitCloseAndDestructor], whose return is the step that
    frees the memory; it waits for the destructor. *)

From stdpp Require Import base list numbers strings gmap relations.
From Stdlib Require Import ZArith Lia.
From S2P Require Import Prelude Terms RefObjects RefInv.

(** ** More operations under the invariant *)

(** Room for a few more references before the 32-bit counts could wrap. *)
Definition room (h : heap) (pins : list nat) : Prop :=
  zlen pins + Z.of_nat (size h) + 8 < 2 ^ 32.

Lemma room_small h pins : room h pins -> small h pins.
Proof. unfold room, small. lia. Qed.

Lemma room_small_cons h pins id : room h pins -> small h (id :: pins).
Proof. unfold room, small. cbn [length]. lia. Qed.

Lemma inv_InitiateCloseRequest h pins id o :
  INV h pins -> room h pins -> h !! id = Some o ->
  exists h', InitiateCloseRequest h id = Ok h' /\ INV h' pins /\ evolves h h' /\
    (exists o', h' !! id = Some o' /\ m_CloseRequested o' <> 0).
Proof.
  intros HI Hroom Ho. unfold InitiateCloseRequest, deref. rewrite Ho. cbn [obind].
  destruct (m_CloseRequested o =? 0) eqn:E.
  2: { exists h. split_and!; try done. exists o. split; [done | lia]. }
  assert (Hc : m_CloseRequested o = 0) by lia.
  pose proof (inv_cas h pins id o HI Ho Hc) as HI1. set (h1 := <[id:=set_close 1 o]> h) in *.
  assert (He1 : evolves h h1) by (apply (evolves_insert h id o); [done | by apply close_evolves]).
  assert (Ho1 : h1 !! id = Some (set_close 1 o)) by (unfold h1; by rewrite lookup_insert_eq).
  assert (Hfin : forall h', INV h' pins -> evolves h1 h' ->
            evolves h h' /\ exists o', h' !! id = Some o' /\ m_CloseRequested o' <> 0).
  { intros h' _ He'. split; [by etransitivity |].
    destruct (evolves_lookup h1 h' id _ He' Ho1) as (o' & Ho' & Hev).
    exists o'. split; [done |]. pose proof (ev_close _ _ Hev) as Hle. cbn in Hle. lia. }
  assert (Hsm1 : small h1 pins) by (apply (evolves_small h); [done | by apply room_small]).
  unfold Shutdown, deref. rewrite Ho1. cbn [obind].
  destruct (o_kind (set_close 1 o)) eqn:Hk.
  1: { destruct (inv_DbObject_Shutdown h1 pins id (set_close 1 o)) as (h' & -> & HI' & He' & _); try done.
       - apply (evolves_small h); [done | by apply room_small_cons].
       - exists h'. destruct (Hfin h' HI' He'). done. }
  1: { destruct (inv_root_RefDec h1 pins id (set_close 1 o)) as (h' & -> & HI' & He' & _); try done.
       - by rewrite Hk.
       - exists h'. destruct (Hfin h' HI' He'). done. }
  all: destruct (inv_child_RefDec h1 pins id (set_close 1 o)) as (h' & -> & HI' & He' & _); try done;
    [by rewrite Hk | exists h'; destruct (Hfin h' HI' He'); done].
Qed.

Lemma fresh_id_new h : h !! fresh_id h = None.
Proof. apply not_elem_of_dom. unfold fresh_id. apply is_fresh. Qed.

(** An id outside the heap is referred to by nothing. *)
Lemma unused_id h pins id : INV h pins -> h !! id = None -> cnt pins id = 0 /\ nch id (views h) = 0.
Proof.
  intros HI Hid. split.
  - apply cnt_zero. intros Hin. destruct (inv_pins _ _ HI id Hin) as [? ?]. congruence.
  - apply nch_none. intros x v Hv [Hvd Hvl].
    apply lookup_views_Some in Hv as (ox & Hox & ->). cbn in Hvd, Hvl.
    destruct (oi_db _ _ _ _ (inv_obj _ _ HI _ _ Hox) id Hvd) as (v & Hv & _).
    { intros He. by rewrite He in Hvl. }
    apply lookup_views_Some in Hv as (? & ? & _). congruence.
Qed.

(** Adding an object to the heap leaves the invariant of the others alone,
    apart from the count of its database. *)
Lemma inv_insert_new h pins id n :
  INV h pins -> h !! id = None -> obj_inv (<[id:=view n]> (views h)) pins id n ->
  (forall d, ~ child_of d (view n)) -> INV (<[id:=n]> h) pins.
Proof.
  intros HI Hid Hn Hno. destruct (unused_id h pins id HI Hid) as [Hp Hz].
  assert (Hvid : views h !! id = None) by (by rewrite lookup_views, Hid).
  split.
  - intros j oj Hj. rewrite views_insert. destruct (decide (j = id)) as [-> | Hne].
    { rewrite lookup_insert_eq in Hj. by simplify_eq. }
    rewrite lookup_insert_ne in Hj by done.
    destruct (inv_obj _ _ HI _ _ Hj) as [H1 H2 H3 H4 H5 H6 H7 H8 H9 H10]. split; try done.
    + rewrite nch_new, decide_False by (done || apply Hno). lia.
    + intros d Hd Hc. destruct (H8 d Hd Hc) as (v & Hv & Hr). exists v.
      rewrite lookup_insert_ne; [done |]. intros <-. congruence.
    + intros k c Hin. destruct (H9 k c Hin) as (v & Hv & Hr). exists v.
      rewrite lookup_insert_ne; [done |]. intros <-. congruence.
    + intros Hk Hc c v Hv Hch. destruct (decide (c = id)) as [-> | Hcne].
      { rewrite lookup_insert_eq in Hv. simplify_eq. by destruct (Hno j). }
      rewrite lookup_insert_ne in Hv by done. by apply H10.
  - intros j Hj. destruct (decide (j = id)) as [-> | Hne]; [rewrite lookup_insert_eq; by eexists |].
    rewrite lookup_insert_ne by done. by apply (inv_pins _ _ HI).
Qed.

Lemma inv_CreateRoot k h pins :
  INV h pins -> is_child k = false ->
  exists h' id, CreateRoot k h = Ok (h', id) /\ h !! id = None /\ INV h' pins /\
    h' = <[id:=set_refs 1 (new_obj k None)]> h.
Proof.
  intros HI Hk. unfold CreateRoot, RefInc, deref. cbn zeta.
  set (id := fresh_id h). assert (Hid : h !! id = None) by apply fresh_id_new.
  rewrite lookup_insert_eq. cbn [obind]. rewrite insert_insert_eq.
  change (u32 (m_RefCount (new_obj k None) + 1)) with 1.
  eexists _, id. split_and!; try done.
  destruct (unused_id h pins id HI Hid) as [Hp Hz].
  apply inv_insert_new; try done.
  - split; cbn; try done.
    + rewrite nch_new, decide_False; [lia | by intros [[=] _] | by rewrite lookup_views, Hid].
    + by left.
    + by rewrite Hk.
    + intros k' c Hin. destruct k'; by apply elem_of_nil in Hin.
    + intros _ _ c v Hv Hch. exfalso. destruct (decide (c = id)) as [-> | Hne].
      * rewrite lookup_insert_eq in Hv. simplify_eq. by destruct Hch as [[=] _].
      * rewrite lookup_insert_ne in Hv by done. by apply (nch_zero _ _ Hz c v).
  - by intros d [[=] _].
Qed.

(** The database with a new child linked to it. *)
Definition linked (k : obj_kind) (c : nat) (db : obj) : obj :=
  if decide (k = KItr)
  then if m_CloseRequested db =? 0 then set_list k (get_list k db ++ [c]) db else db
  else set_list k (get_list k db ++ [c]) db.

Lemma elem_of_linked k k' c db x :
  is_child k = true ->
  (x ∈ get_list k' (linked k c db) -> x ∈ get_list k' db \/ (k' = k /\ x = c)) /\
  (x ∈ get_list k' db -> x ∈ get_list k' (linked k c db)) /\
  (m_CloseRequested db = 0 -> c ∈ get_list k (linked k c db)).
Proof.
  intros Hk.
  assert (Hset : (x ∈ get_list k' (set_list k (get_list k db ++ [c]) db) ->
                  x ∈ get_list k' db \/ (k' = k /\ x = c)) /\
     (x ∈ get_list k' db -> x ∈ get_list k' (set_list k (get_list k db ++ [c]) db)) /\
     c ∈ get_list k (set_list k (get_list k db ++ [c]) db)).
  { rewrite (get_list_set k) by done. destruct (decide (k' = k)) as [-> | Hne].
    - rewrite (get_list_set k) by done. rewrite !elem_of_app, !list_elem_of_singleton. naive_solver.
    - rewrite (get_list_set_ne k) by done. rewrite elem_of_app, list_elem_of_singleton. naive_solver. }
  unfold linked. destruct (decide (k = KItr)); [| naive_solver].
  destruct (m_CloseRequested db =? 0) eqn:E; [naive_solver |]. split_and!; [naive_solver | done | lia].
Qed.

Lemma CreateChild_eq k h pins d db :
  INV h pins -> room h pins -> h !! d = Some db -> is_child k = true ->
  exists id, h !! id = None /\ id <> d /\
    CreateChild k h d =
    Ok (<[id:=set_refs 1 (new_obj k (Some d))]> (<[d:=linked k id (set_refs (m_RefCount db + 1) db)]> h), id).
Proof.
  intros HI Hroom Hdb Hk. set (id := fresh_id h).
  assert (Hid : h !! id = None) by apply fresh_id_new.
  assert (Hne : id <> d) by (intros ->; congruence).
  exists id. split_and!; try done. unfold CreateChild. cbn zeta. fold id.
  pose proof (refs_bound _ _ _ _ HI Hdb) as Hb. unfold room in Hroom.
  unfold RefInc at 1, deref. rewrite lookup_insert_ne, Hdb by done. cbn [obind].
  rewrite wrap_small by lia. set (db1 := set_refs (m_RefCount db + 1) db).
  assert (Hadd : AddReference k (<[d:=db1]> (<[id:=new_obj k (Some d)]> h)) d id =
                 Ok (<[d:=linked k id db1]> (<[id:=new_obj k (Some d)]> h))).
  { unfold AddReference, deref. rewrite lookup_insert_eq. cbn [obind]. unfold linked.
    destruct (decide (k = KItr)); [destruct (m_CloseRequested db1 =? 0) |];
      rewrite ?insert_insert_eq; done. }
  rewrite Hadd. cbn [obind]. unfold RefInc, deref.
  rewrite lookup_insert_ne, lookup_insert_eq by done. cbn [obind].
  change (u32 (m_RefCount (new_obj k (Some d)) + 1)) with 1. do 2 f_equal.
  apply map_eq. intros j.
  destruct (decide (j = id)) as [-> | Hj]; [| destruct (decide (j = d)) as [-> | Hj']];
    by repeat (rewrite lookup_insert_eq || (rewrite lookup_insert_ne by done)).
Qed.

Lemma nch_new_child hv k id d j :
  hv !! id = None ->
  nch j (<[id:=view (set_refs 1 (new_obj k (Some d)))]> hv) =
  nch j hv + (if decide (j = d) then 1 else 0).
Proof.
  intros Hid. rewrite nch_new by done. destruct (decide (j = d)) as [-> | Hj].
  - by rewrite decide_True.
  - rewrite decide_False; [done |]. intros [[=] _]. congruence.
Qed.

(** A database with one more reference and the new child linked. *)
Definition adopted (k : obj_kind) (id : nat) (db : obj) : obj :=
  linked k id (set_refs (m_RefCount db + 1) db).

(** The new child itself. *)
Lemma obj_inv_new_child hv pins k id d vdb :
  hv !! id = None -> cnt pins id = 0 -> nch id hv = 0 -> id <> d -> is_child k = true ->
  hv !! d = Some vdb -> v_kind vdb = KDb -> v_live vdb = true ->
  obj_inv (<[id:=view (set_refs 1 (new_obj k (Some d)))]> hv) pins id
    (set_refs 1 (new_obj k (Some d))).
Proof.
  intros Hid Hp Hz Hne Hk Hd Hvk Hvl. split; cbn; try done.
  - rewrite nch_new_child, decide_False by done. lia.
  - by left.
  - by rewrite Hk.
  - by exists d.
  - intros d' [= <-] _. exists vdb. by rewrite lookup_insert_ne.
  - intros k' c Hin. destruct k'; by apply elem_of_nil in Hin.
  - intros ->. by cbn in Hk.
Qed.

(** What the new child means for the objects that were there. *)
Lemma obj_inv_adopt hv pins k id d j o0 :
  hv !! id = None -> is_child k = true -> j <> id -> (j = d -> m_CloseRequested o0 <> 3) ->
  obj_inv hv pins j o0 ->
  obj_inv (<[id:=view (set_refs 1 (new_obj k (Some d)))]> hv) pins j
    (if decide (j = d) then adopted k id o0 else o0).
Proof.
  intros Hid Hk Hjid Hlive [H1 H2 H3 H4 H5 H6 H7 H8 H9 H10].
  pose proof (nch_new_child hv k id d j Hid) as Hnch.
  set (n := set_refs 1 (new_obj k (Some d))) in *.
  assert (Hlook : forall x v, hv !! x = Some v -> <[id:=view n]> hv !! x = Some v).
  { intros x v Hv. rewrite lookup_insert_ne; [done |]. intros <-. congruence. }
  set (oj := if decide (j = d) then _ else _).
  assert (Hfields : m_RefCount oj = m_RefCount o0 + (if decide (j = d) then 1 else 0) /\
    m_CloseRequested oj = m_CloseRequested o0 /\ m_Native oj = m_Native o0 /\
    o_kind oj = o_kind o0 /\ m_DbPtr oj = m_DbPtr o0).
  { unfold oj, adopted, linked. repeat case_match; split_and!; try done; lia. }
  destruct Hfields as (Er & Ec & En & Ek & Ed). split; rewrite ?Er, ?Ec, ?En, ?Ek, ?Ed; try done.
  - rewrite Hnch, H1. case_decide; lia.
  - intros H3'. destruct (H3 H3'). case_decide as Hjd; [by destruct (Hlive Hjd) | split; [lia | done]].
  - intros H1'. specialize (H4 H1'). case_decide; lia.
  - intros x Hx Hcl. destruct (H8 x Hx Hcl) as (v & Hv & Hr). exists v. split; [by apply Hlook | done].
  - intros k' x Hx. unfold oj in Hx. case_decide as Hjd.
    + apply elem_of_linked in Hx as [Hx | [-> ->]]; [| | done].
      * destruct (H9 k' x) as (v & Hv & Hr); [by destruct k' |]. exists v. split; [by apply Hlook | done].
      * exists (view n). rewrite lookup_insert_eq. by subst j.
    + destruct (H9 k' x Hx) as (v & Hv & Hr). exists v. split; [by apply Hlook | done].
  - intros Hkd Hcl x v Hv Hxv. unfold oj. destruct (decide (x = id)) as [-> | Hxid].
    { rewrite lookup_insert_eq in Hv. simplify_eq. destruct Hxv as [[= <-] _].
      rewrite decide_True by done. by apply elem_of_linked. }
    rewrite lookup_insert_ne in Hv by done. specialize (H10 Hkd Hcl x v Hv Hxv).
    case_decide; [| done]. apply elem_of_linked; [done |]. by destruct (v_kind v).
Qed.

Lemma inv_link h pins k id d db :
  INV h pins -> h !! id = None -> h !! d = Some db -> o_kind db = KDb -> m_CloseRequested db <> 3 ->
  id <> d -> is_child k = true ->
  INV (<[id:=set_refs 1 (new_obj k (Some d))]> (<[d:=linked k id (set_refs (m_RefCount db + 1) db)]> h)) pins.
Proof.
  intros HI Hid Hdb Hdk Hdc Hne Hk. destruct (unused_id h pins id HI Hid) as [Hp Hz].
  assert (Hvid : views h !! id = None) by (by rewrite lookup_views, Hid).
  split.
  - intros j oj Hj. rewrite views_insert, (views_insert_same h d db)
      by (done || (unfold linked; repeat case_match; done)).
    apply (lookup_insert_pair h id d j _ db oj (adopted k id)) in Hj
      as [[-> ->] | (Hjid & o0 & Hj0 & ->)]; [| | done].
    + apply (obj_inv_new_child _ _ _ _ _ (view db)); try done; [by rewrite lookup_views, Hdb |].
      cbn. by apply negb_true_iff, Z.eqb_neq.
    + apply obj_inv_adopt; try done; [| by apply (inv_obj _ _ HI)]. intros ->. congruence.
  - intros j Hj. by apply insert_pair_is_Some, (inv_pins _ _ HI).
Qed.

(** Releasing the handle of a column family that a call has pinned
    ([DestroyColumnFamily]). *)
Lemma inv_release_native h pins c o :
  INV h pins -> c ∈ pins -> h !! c = Some o -> o_kind o = KColumnFamily ->
  exists h', release_native h c = Ok h' /\ INV h' pins /\ evolves h h'.
Proof.
  intros HI Hpin Ho Hk. pose proof (inv_obj _ _ HI _ _ Ho) as Hi.
  assert (Hc3 : m_CloseRequested o <> 3).
  { intros H3. destruct (oi_dead _ _ _ _ Hi H3) as [Hz _]. pose proof (oi_refs _ _ _ _ Hi) as Hr.
    rewrite Hz, H3 in Hr. cbn in Hr. pose proof (nch_nonneg c (views h)).
    pose proof (cnt_nonneg pins c). assert (Hc : cnt pins c = 0) by lia. by apply cnt_zero in Hc. }
  destruct (live_child h pins c o) as (d & db & Hd & Hdb & Hdk & Hcd & Hdc & Hdn); try done.
  { by rewrite Hk. }
  unfold release_native, deref. rewrite Ho. cbn [obind].
  destruct (m_Native o); [| by exists h].
  rewrite Hd, Hdb. cbn [obind]. rewrite Hdn. eexists. split; [done |]. split.
  - destruct Hi as [H1 H2 H3 H4 H5 H6 H7 H8 H9 H10].
    apply (inv_update h pins _ c o); try done. intros j Hj. by apply (inv_pins _ _ HI).
  - apply (evolves_insert h c o); [done |]. split; try done; intros []; done.
Qed.

(** Freeing the memory of a destroyed object. *)
Lemma inv_free h pins id o :
  INV h pins -> h !! id = Some o -> m_CloseRequested o = 3 -> INV (delete id h) pins.
Proof.
  intros HI Ho Hc. pose proof (inv_obj _ _ HI _ _ Ho) as Hi.
  destruct (oi_dead _ _ _ _ Hi Hc) as [Hr0 _]. pose proof (oi_refs _ _ _ _ Hi) as Hr.
  rewrite Hr0, Hc in Hr. cbn in Hr. pose proof (cnt_nonneg pins id) as Hcn. pose proof (nch_nonneg id (views h)) as Hnn.
  assert (Hz : nch id (views h) = 0) by lia. assert (Hp : cnt pins id = 0) by lia.
  apply cnt_zero in Hp.
  assert (Hvid : views h !! id = Some (view o)) by (by rewrite lookup_views, Ho).
  assert (Hdead : v_live (view o) = false) by (cbn; by rewrite Hc).
  assert (Hviews : views (delete id h) = delete id (views h)) by apply fmap_delete.
  split.
  - intros j oj Hj. rewrite Hviews. assert (Hji : j <> id) by (intros ->; by rewrite lookup_delete_eq in Hj).
    rewrite lookup_delete_ne in Hj by done.
    destruct (inv_obj _ _ HI _ _ Hj) as [H1 H2 H3 H4 H5 H6 H7 H8 H9 H10]. split; try done.
    + by rewrite (nch_delete _ _ id (view o)).
    + intros d Hd Hcl. destruct (H8 d Hd Hcl) as (v & Hv & Hvk & Hvl). exists v.
      rewrite lookup_delete_ne; [done |]. intros <-. rewrite Hvid in Hv. simplify_eq. congruence.
    + intros k c Hin. destruct (H9 k c Hin) as (v & Hv & Hvk & Hvc). exists v.
      rewrite lookup_delete_ne; [done |]. intros <-. rewrite Hvid in Hv. simplify_eq.
      destruct Hvc. congruence.
    + intros Hk Hcl c v Hv Hch. apply lookup_delete_Some in Hv as [_ Hv]. by apply H10.
  - intros j Hj. assert (Hji : j <> id) by (intros ->; done).
    rewrite lookup_delete_ne by done. by apply (inv_pins _ _ HI).
Qed.

(** ** The transition system *)

(** The objects; the raw pointers that [Retrieve...Object] has returned and that
    have not been given to a [ReferencePtr] yet; the references held. *)
Record state := { st_heap : heap; st_found : list nat; st_pins : list nat }.

Definition init : state := {| st_heap := ∅; st_found := []; st_pins := [] |}.

(** The Erlang term of an object. *)
Definition handle (o : obj) (id : nat) : term := Tres (res_kind_of (o_kind o)) id.

(** What a transition does to the references: [Takes id] is the [RefInc] of
    [ReferencePtr::assign] on a pointer retrieved before. *)
Inductive action := Takes (id : nat) | Other.

Inductive step : action -> state -> state -> Prop :=
| step_open h found pins k h' id :
    (* open a database or a backup engine *)
    is_child k = false -> room h pins -> CreateRoot k h = Ok (h', id) ->
    step Other {| st_heap := h; st_found := found; st_pins := pins |}
               {| st_heap := h'; st_found := found; st_pins := pins |}
| step_create h found pins k d db h' id :
    (* create a child of a database that the call keeps alive *)
    is_child k = true -> room h pins -> h !! d = Some db -> o_kind db = KDb ->
    m_CloseRequested db <> 3 -> CreateChild k h d = Ok (h', id) ->
    step Other {| st_heap := h; st_found := found; st_pins := pins |}
               {| st_heap := h'; st_found := found; st_pins := pins |}
| step_retrieve h found pins o id itr_closing :
    (* a call finds an object: it has a pointer, and no reference *)
    h !! id = Some o -> Retrieve (o_kind o) itr_closing h (handle o id) = Ok (Some id) ->
    step Other {| st_heap := h; st_found := found; st_pins := pins |}
               {| st_heap := h; st_found := id :: found; st_pins := pins |}
| step_assign h found found' pins o id h' :
    (* it gives the pointer to a ReferencePtr, whatever happened in between *)
    room h pins -> found ≡ₚ id :: found' -> h !! id = Some o -> RefInc h id = Ok h' ->
    step (Takes id) {| st_heap := h; st_found := found; st_pins := pins |}
                    {| st_heap := h'; st_found := found'; st_pins := id :: pins |}
| step_leave h found found' pins id :
    (* it returns before it took the reference (an early return) *)
    found ≡ₚ id :: found' ->
    step Other {| st_heap := h; st_found := found; st_pins := pins |}
               {| st_heap := h; st_found := found'; st_pins := pins |}
| step_unpin h found pins pins' id h' :
    (* the call drops a reference *)
    room h pins -> pins ≡ₚ id :: pins' -> RefDec h id = Ok h' ->
    step Other {| st_heap := h; st_found := found; st_pins := pins |}
               {| st_heap := h'; st_found := found; st_pins := pins' |}
| step_close h found pins id o h' :
    (* a close call, or the first half of a resource cleanup *)
    room h pins -> h !! id = Some o -> InitiateCloseRequest h id = Ok h' ->
    step Other {| st_heap := h; st_found := found; st_pins := pins |}
               {| st_heap := h'; st_found := found; st_pins := pins |}
| step_drop_handle h found pins c o h' :
    (* DestroyColumnFamily releases the handle before it closes the object *)
    room h pins -> c ∈ pins -> h !! c = Some o -> o_kind o = KColumnFamily ->
    release_native h c = Ok h' ->
    step Other {| st_heap := h; st_found := found; st_pins := pins |}
               {| st_heap := h'; st_found := found; st_pins := pins |}
| step_free h found pins id :
    (* AwaitCloseAndDestructor returned: the runtime frees the resource.  It
       calls the cleanup when no term refers to the resource any more, so not
       while a call has it as an argument *)
    destructor_done h id = true -> id ∉ found ->
    step Other {| st_heap := h; st_found := found; st_pins := pins |}
               {| st_heap := delete id h; st_found := found; st_pins := pins |}.

(** A reference is taken in time when the destructor has not run since the
    pointer was retrieved.  Nothing in the code enforces it. *)
Definition in_time (s : state) (a : action) : Prop :=
  match a with
  | Takes id => forall o, st_heap s !! id = Some o -> m_CloseRequested o <> 3
  | Other => True
  end.

Definition timely (s s' : state) : Prop := exists a, step a s s' /\ in_time s a.

(** The states of the executions in which every reference is taken in time. *)
Definition reachable (s : state) : Prop := rtc timely init s.

Definition SINV (s : state) : Prop := INV (st_heap s) (st_pins s).

(** ** Lemmas: the invariant holds *)

Lemma inv_init : SINV init.
Proof.
  split; cbn [init st_heap st_pins].
  - intros id o Ho. by rewrite lookup_empty in Ho.
  - intros id Hin. by apply elem_of_nil in Hin.
Qed.

Lemma cnt_perm pins pins' id : pins ≡ₚ pins' -> cnt pins id = cnt pins' id.
Proof. intros H. unfold cnt. f_equal. by apply Permutation_count_occ. Qed.

Lemma inv_perm h pins pins' : pins ≡ₚ pins' -> INV h pins -> INV h pins'.
Proof.
  intros Hp [Ho Hpin]. split.
  - intros id o Hid. destruct (Ho id o Hid). split; try done. by rewrite <- (cnt_perm pins).
  - intros id Hin. apply Hpin. by rewrite Hp.
Qed.

Lemma retrieve_open k ic h t id :
  Retrieve k ic h t = Ok (Some id) ->
  exists o, h !! id = Some o /\ m_CloseRequested o = 0 /\ t = Tres (res_kind_of k) id.
Proof.
  unfold Retrieve. destruct t as [| | | | | | | |rk i|]; try done. cbn [enif_get_resource].
  destruct (decide (res_kind_of k = rk)) as [<- | Hk]; [| done].
  unfold deref. destruct (h !! i) as [o|] eqn:Ho; cbn [obind]; [| done].
  destruct (m_CloseRequested o =? 0) eqn:E; cbn [negb]; [| done].
  intros H. assert (i = id) as ->; [| exists o; split_and!; [done | lia | done]].
  destruct (decide (k = KItr)); [| congruence]. destruct ic; [congruence |].
  destruct (m_DbPtr o) as [d|]; [| done]. destruct (h !! d) as [db|]; cbn [obind] in H; [| done].
  case_match; congruence.
Qed.

Lemma step_inv s s' : SINV s -> timely s s' -> SINV s'.
Proof.
  intros HI (a & Hs & Ht).
  destruct Hs as [h found pins k h' id Hk Hr Hc | h found pins k d db h' id Hk Hr Hdb Hdk Hdc Hc
    | h found pins o id ic Ho Hret | h found found' pins o id h' Hr Hf Ho Hinc | h found found' pins id Hf
    | h found pins pins' id h' Hr Hp Hdec | h found pins id o h' Hr Ho Hc
    | h found pins c o h' Hr Hpin Ho Hk Hc | h found pins id Hd Hf]; unfold SINV in *; cbn in *; try done.
  - destruct (inv_CreateRoot k h pins HI Hk) as (h2 & id2 & E & _ & HI2 & _). congruence.
  - destruct (CreateChild_eq k h pins d db HI Hr Hdb Hk) as (id2 & Hid & Hne & E).
    rewrite E in Hc. simplify_eq. by apply inv_link.
  - destruct (inv_RefInc h pins id o HI (room_small _ _ Hr) Ho) as (o' & E & HI' & _); [by apply Ht |].
    congruence.
  - apply (inv_perm h pins _ Hp) in HI.
    destruct (inv_RefDec h pins' id HI) as (h2 & E & HI2 & _); [| congruence].
    unfold room in Hr. unfold small. rewrite Hp in Hr. cbn [length] in Hr. lia.
  - destruct (inv_InitiateCloseRequest h pins id o HI Hr Ho) as (h2 & E & HI2 & _). congruence.
  - destruct (inv_release_native h pins c o HI Hpin Ho Hk) as (h2 & E & HI2 & _). congruence.
  - unfold destructor_done in Hd. destruct (h !! id) as [o|] eqn:Ho; [| done].
    apply (inv_free h pins id o); [done | done | lia].
Qed.

Lemma reachable_inv s : reachable s -> SINV s.
Proof.
  intros H. unfold reachable in H. remember init as s0 eqn:E.
  assert (H0 : SINV s0) by (subst; apply inv_init). clear E.
  induction H as [|s1 s2 s3 Hs _ IH]; [done |]. apply IH. by apply (step_inv s1).
Qed.

(** ** Lemmas: a close without calls in progress *)

Lemma destructor_done_intro h id o :
  h !! id = Some o -> m_CloseRequested o = 3 -> destructor_done h id = true.
Proof. intros Ho H3. unfold destructor_done. rewrite Ho. by apply Z.eqb_eq. Qed.

(** The state between the request and the [Shutdown]. *)
Lemma close_requested h pins id o :
  INV h pins -> room h pins -> h !! id = Some o -> m_CloseRequested o = 0 ->
  let h1 := <[id:=set_close 1 o]> h in
  InitiateCloseRequest h id = Shutdown h1 id /\ INV h1 (id :: pins) /\ evolves h h1 /\
  h1 !! id = Some (set_close 1 o) /\ small h1 pins /\ small h1 (id :: pins) /\ views h1 = views h.
Proof.
  intros HI Hroom Ho Hc. cbn zeta.
  assert (He1 : evolves h (<[id:=set_close 1 o]> h))
    by (apply (evolves_insert h id o); [done | by apply close_evolves]).
  split_and!; try done.
  - unfold InitiateCloseRequest, deref. rewrite Ho. cbn [obind]. by rewrite Hc.
  - by apply inv_cas.
  - by rewrite lookup_insert_eq.
  - apply (evolves_small h); [done | by apply room_small].
  - apply (evolves_small h); [done | by apply room_small_cons].
  - apply (views_insert_same h id o); [done |]. unfold view. cbn. by rewrite Hc.
Qed.

(** Only databases have live children. *)
Lemma leaf_children h pins id o :
  INV h pins -> h !! id = Some o -> o_kind o <> KDb ->
  nch id (views h) = 0 /\
  forall c oc, h !! c = Some oc -> m_DbPtr oc = Some id -> m_CloseRequested oc = 3.
Proof.
  intros HI Ho Hk.
  assert (Hall : forall c oc, h !! c = Some oc -> m_DbPtr oc = Some id -> m_CloseRequested oc = 3).
  { intros c oc Hoc Hd. destruct (decide (m_CloseRequested oc = 3)) as [|Hl]; [done | exfalso].
    destruct (oi_db _ _ _ _ (inv_obj _ _ HI c oc Hoc) id Hd Hl) as (v & Hv & Hvk & _).
    rewrite lookup_views, Ho in Hv. cbn in Hv. by simplify_eq. }
  split; [| done]. apply nch_none. intros c v Hv [Hvd Hvl].
  apply lookup_views_Some in Hv as (oc & Hoc & ->). cbn in Hvd, Hvl. by rewrite (Hall c oc) in Hvl.
Qed.

Lemma close_leaf_destroys h pins id o :
  INV h pins -> room h pins -> h !! id = Some o -> m_CloseRequested o = 0 -> cnt pins id = 0 ->
  o_kind o <> KDb ->
  exists h', InitiateCloseRequest h id = Ok h' /\ destructor_done h' id = true /\
    forall c oc, h !! c = Some oc -> m_DbPtr oc = Some id -> destructor_done h' c = true.
Proof.
  intros HI Hroom Ho Hc Hp Hk.
  destruct (close_requested h pins id o) as (-> & HI1 & He1 & Ho1 & Hsm & _ & Hv); try done.
  set (h1 := <[id:=set_close 1 o]> h) in *. destruct (leaf_children h pins id o) as [Hz Hall]; try done.
  assert (Hfin : forall h', INV h' pins -> evolves h1 h' ->
     (exists o', h' !! id = Some o' /\ m_CloseRequested o' = 3) ->
     destructor_done h' id = true /\
     forall c oc, h !! c = Some oc -> m_DbPtr oc = Some id -> destructor_done h' c = true).
  { intros h' HI' He' (o' & Ho' & H3). split; [by apply (destructor_done_intro h' id o') |].
    intros c oc Hoc Hd. destruct (dead_stays h h' pins c oc) as (oc' & ? & ?); try done.
    - by etransitivity.
    - by apply (Hall c oc).
    - by apply (destructor_done_intro h' c oc'). }
  unfold Shutdown, deref. rewrite Ho1. cbn [obind]. change (o_kind (set_close 1 o)) with (o_kind o).
  destruct (is_child (o_kind o)) eqn:Hch.
  - destruct (inv_child_RefDec h1 pins id (set_close 1 o)) as (h' & Hh' & HI' & He' & _ & Hd); try done.
    exists h'. split; [by destruct (o_kind o) |]. apply Hfin; try done. by apply Hd.
  - destruct (inv_root_RefDec h1 pins id (set_close 1 o)) as (h' & Hh' & HI' & He' & Hd); try done.
    exists h'. split; [by destruct (o_kind o) |]. apply Hfin; try done. apply Hd; try done. by rewrite Hv.
Qed.

Lemma close_db_destroys h pins id o :
  INV h pins -> room h pins -> h !! id = Some o -> m_CloseRequested o = 0 -> cnt pins id = 0 ->
  o_kind o = KDb ->
  (forall c oc, h !! c = Some oc -> m_DbPtr oc = Some id -> cnt pins c = 0) ->
  exists h', InitiateCloseRequest h id = Ok h' /\ destructor_done h' id = true /\
    forall c oc, h !! c = Some oc -> m_DbPtr oc = Some id -> destructor_done h' c = true.
Proof.
  intros HI Hroom Ho Hc Hp Hk Hch. pose proof (inv_obj _ _ HI id o Ho) as Hi.
  destruct (close_requested h pins id o) as (-> & HI1 & He1 & Ho1 & _ & Hsm & Hv); try done.
  set (h1 := <[id:=set_close 1 o]> h) in *.
  unfold Shutdown, deref. rewrite Ho1. cbn [obind].
  change (o_kind (set_close 1 o)) with (o_kind o). rewrite Hk.
  destruct (inv_DbObject_Shutdown h1 pins id (set_close 1 o)) as (h' & -> & HI' & He' & Hall & Hself); try done.
  assert (Hev : evolves h h') by (by etransitivity).
  assert (Hkids : forall c oc, h !! c = Some oc -> m_DbPtr oc = Some id ->
            exists oc', h' !! c = Some oc' /\ m_CloseRequested oc' = 3).
  { intros c oc Hoc Hd. destruct (decide (m_CloseRequested oc = 3)) as [H3 | H3].
    { by apply (dead_stays h h' pins c oc). }
    assert (Hcid : c <> id) by (intros ->; simplify_eq; rewrite (oi_root _ _ _ _ Hi) in Hd; by rewrite ?Hk).
    apply (Hall (o_kind oc) c).
    - rewrite get_list_close. apply (oi_linked _ _ _ _ Hi Hk Hc c (view oc)); [by rewrite lookup_views, Hoc |].
      split; [done |]. cbn. by apply negb_true_iff, Z.eqb_neq.
    - rewrite cnt_cons_ne by done. by apply (Hch c oc). }
  destruct (Hself Hp) as (o' & Ho' & H3).
  { intros c oc' Hoc' Hd'. pose proof (Hev c) as Hevc. rewrite Hoc' in Hevc.
    destruct (h !! c) as [oc|] eqn:Hoc; [| done]. rewrite (ev_db _ _ Hevc) in Hd'.
    destruct (Hkids c oc Hoc Hd') as (oc3 & Hoc3 & ?). by simplify_eq. }
  exists h'. split; [done |]. split; [by apply (destructor_done_intro h' id o') |].
  intros c oc Hoc Hd. destruct (Hkids c oc Hoc Hd) as (oc' & ? & ?). by apply (destructor_done_intro h' c oc').
Qed.

(** ** Theorems *)



(** No use of the API reaches undefined behaviour from a reachable state: every
    object can be closed, every pin dropped, every handle retrieved and
    referenced, every live database given a child. *)
Theorem handles_never_undefined (s : state) :
  reachable s -> room (st_heap s) (st_pins s) ->
  (forall id o, st_heap s !! id = Some o ->
     defined (InitiateCloseRequest (st_heap s) id) = true /\
     (forall ic, defined (Retrieve (o_kind o) ic (st_heap s) (handle o id)) = true)) /\
  (forall id, id ∈ st_pins s -> defined (RefDec (st_heap s) id) = true) /\
  (forall k d db, is_child k = true -> st_heap s !! d = Some db ->
     defined (CreateChild k (st_heap s) d) = true).
Proof.
  intros Hs Hroom. pose proof (reachable_inv s Hs) as HI. split_and!.
  - intros id o Ho. split.
    + by destruct (inv_InitiateCloseRequest _ _ id o HI Hroom Ho) as (h' & -> & _).
    + intros ic. unfold Retrieve, handle. cbn [enif_get_resource]. rewrite decide_True by done.
      unfold deref. rewrite Ho. cbn [obind].
      destruct (m_CloseRequested o =? 0) eqn:E; cbn [negb]; [| done].
      destruct (decide (o_kind o = KItr)) as [Hk | Hk]; [| done]. destruct ic; [done |].
      destruct (live_child _ _ id o HI Ho) as (d & db & -> & -> & _); [by rewrite Hk | lia |].
      cbn [obind]. by case_match.
  - intros id Hin. destruct (elem_of_Permutation (st_pins s) id) as [Hp _].
    destruct (Hp Hin) as [pins' Hpins]. apply (inv_perm _ _ _ Hpins) in HI.
    destruct (inv_RefDec _ pins' id HI) as (h' & -> & _); [| done].
    unfold room in Hroom. unfold small. rewrite Hpins in Hroom. cbn [length] in Hroom. lia.
  - intros k d db Hk Hdb. by destruct (CreateChild_eq k _ _ d db HI Hroom Hdb Hk) as (id & _ & _ & ->).
Qed.

(** C22.  After an execution in which references are taken in time, closing an open
    object when no call in progress uses it or one of its children destroys it, and
    all its children with it, within the close: the resource cleanup that follows
    does not wait. *)
Theorem close_destroys (s : state) (id : nat) (o : obj) :
  reachable s -> room (st_heap s) (st_pins s) -> st_heap s !! id = Some o ->
  m_CloseRequested o = 0 -> id ∉ st_pins s ->
  (forall c oc, st_heap s !! c = Some oc -> m_DbPtr oc = Some id -> c ∉ st_pins s) ->
  exists h', InitiateCloseRequest (st_heap s) id = Ok h' /\ destructor_done h' id = true /\
    forall c oc, st_heap s !! c = Some oc -> m_DbPtr oc = Some id -> destructor_done h' c = true.
Proof.
  intros Hs Hroom Ho Hc Hpin Hch. pose proof (reachable_inv s Hs) as HI.
  apply cnt_zero in Hpin. destruct (decide (o_kind o = KDb)) as [Hk | Hk].
  - apply (close_db_destroys (st_heap s) (st_pins s) id o); try done.
    intros c oc Hoc Hd. apply cnt_zero. by apply (Hch c oc).
  - by apply (close_leaf_destroys (st_heap s) (st_pins s) id o).
Qed.

(** A transition after which the object is still allocated. *)
Definition step_keeping (id : nat) (s s' : state) : Prop :=
  timely s s' /\ is_Some (st_heap s' !! id).

Lemma step_close_monotone id s s' o :
  SINV s -> step_keeping id s s' -> st_heap s !! id = Some o ->
  exists o', st_heap s' !! id = Some o' /\ m_CloseRequested o <= m_CloseRequested o' /\
    (m_Native o = false -> m_Native o' = false) /\ o_kind o' = o_kind o.
Proof.
  intros HI [Hs Hal] Ho.
  assert (Hev : forall h', evolves (st_heap s) h' -> exists o', h' !! id = Some o' /\
     m_CloseRequested o <= m_CloseRequested o' /\ (m_Native o = false -> m_Native o' = false) /\
     o_kind o' = o_kind o).
  { intros h' He. destruct (evolves_lookup _ _ _ _ He Ho) as (o' & Ho' & Hv).
    exists o'. by destruct Hv. }
  destruct Hs as (a & Hs & Ht).
  destruct Hs as [h found pins k h' nid Hk Hr Hc | h found pins k d db h' nid Hk Hr Hdb Hdk Hdc Hc
    | h found pins o1 pid ic Ho1 Hret | h found found' pins o1 pid h' Hr Hf Ho1 Hinc | h found found' pins pid Hf
    | h found pins pins' pid h' Hr Hp Hdec | h found pins cid o1 h' Hr Ho1 Hc
    | h found pins c o1 h' Hr Hpin Ho1 Hk Hc | h found pins fid Hd Hf]; unfold SINV in HI; cbn in *;
    try (by apply Hev).
  - destruct (inv_CreateRoot k h pins HI Hk) as (h2 & id2 & E & Hid2 & _ & ->). rewrite E in Hc. simplify_eq.
    exists o. rewrite lookup_insert_ne by (intros ->; congruence). split_and!; try done.
  - destruct (CreateChild_eq k h pins d db HI Hr Hdb Hk) as (id2 & Hid2 & Hne & E). rewrite E in Hc. simplify_eq.
    rewrite lookup_insert_ne by (intros ->; congruence).
    destruct (decide (id = d)) as [-> | Hd].
    + rewrite lookup_insert_eq. simplify_eq. eexists. split; [done |].
      unfold linked. repeat case_match; done.
    + rewrite lookup_insert_ne by done. by exists o.
  - unfold RefInc, deref in Hinc. rewrite Ho1 in Hinc. cbn in Hinc. simplify_eq.
    apply Hev, (evolves_insert h pid o1); [done | apply refs_evolves].
  - apply (inv_perm h pins _ Hp) in HI. destruct (inv_RefDec h pins' pid HI) as (h2 & E & _ & He).
    { unfold room in Hr. unfold small. rewrite Hp in Hr. cbn [length] in Hr. lia. }
    rewrite E in Hdec. simplify_eq. by apply Hev.
  - destruct (inv_InitiateCloseRequest h pins cid o1 HI Hr Ho1) as (h2 & E & _ & He & _).
    rewrite E in Hc. simplify_eq. by apply Hev.
  - destruct (inv_release_native h pins c o1 HI Hpin Ho1 Hk) as (h2 & E & _ & He).
    rewrite E in Hc. simplify_eq. by apply Hev.
  - destruct (decide (id = fid)) as [-> | Hne]; [rewrite lookup_delete_eq in Hal; by destruct Hal |].
    rewrite lookup_delete_ne by done. by exists o.
Qed.

(** Once a close was requested, the object is never handed out again while it is
    allocated, and a released handle never comes back: the destructor runs at
    most once. *)
Theorem closed_stays_closed (s s' : state) (id : nat) (o : obj) (k : obj_kind) (ic : bool) :
  reachable s -> st_heap s !! id = Some o -> m_CloseRequested o <> 0 ->
  rtc (step_keeping id) s s' ->
  Retrieve k ic (st_heap s') (Tres (res_kind_of k) id) = Ok None /\
  exists o', st_heap s' !! id = Some o' /\ m_CloseRequested o <= m_CloseRequested o' /\
    (m_Native o = false -> m_Native o' = false).
Proof.
  intros Hs Ho Hc Hr. pose proof (reachable_inv s Hs) as HI. clear Hs.
  assert (Hpos : 0 < m_CloseRequested o).
  { destruct (oi_close _ _ _ _ (inv_obj _ _ HI id o Ho)) as [|[|]]; lia. }
  assert (Hend : exists o', st_heap s' !! id = Some o' /\ m_CloseRequested o <= m_CloseRequested o' /\
    (m_Native o = false -> m_Native o' = false)).
  { clear Hc. revert o Ho Hpos. induction Hr as [s | s1 s2 s3 Hst _ IH]; intros o Ho Hpos; [by exists o |].
    destruct (step_close_monotone id s1 s2 o HI Hst Ho) as (o2 & Ho2 & Hle & Hnat & _).
    destruct Hst as [Hst _]. destruct (IH (step_inv _ _ HI Hst) o2 Ho2) as (o3 & Ho3 & Hle3 & Hnat3); [lia |].
    exists o3. split_and!; [done | lia | auto]. }
  split; [| done]. destruct Hend as (o' & Ho' & Hle & _).
  unfold Retrieve. cbn [enif_get_resource]. rewrite decide_True by done. unfold deref. rewrite Ho'.
  cbn [obind]. by rewrite (proj2 (Z.eqb_neq _ _)) by lia.
Qed.

(** ** Concrete runs *)

Module RefSystemWitness.

Definition ok_heap (r : outcome heap) : heap := match r with Ok h => h | Undef => ∅ end.
Definition ok_pair (r : outcome (heap * nat)) : heap := match r with Ok (h, _) => h | Undef => ∅ end.

(** A database (0), a snapshot (1) and an iterator (2). *)
Definition h_db : heap := ok_pair (CreateRoot KDb ∅).
Definition h_snap : heap := ok_pair (CreateChild KSnapshot h_db 0).
Definition h_itr : heap := ok_pair (CreateChild KItr h_snap 0).

Definition s_db : state := {| st_heap := h_db; st_found := []; st_pins := [] |}.
Definition s_snap : state := {| st_heap := h_snap; st_found := []; st_pins := [] |}.
Definition s_itr : state := {| st_heap := h_itr; st_found := []; st_pins := [] |}.

Definition the_obj (h : heap) (id : nat) : obj := default (new_obj KDb None) (h !! id).

Lemma lookup_the_obj h id : is_Some (h !! id) -> h !! id = Some (the_obj h id).
Proof. unfold the_obj. by intros [o ->]. Qed.

Lemma other_timely s s' : step Other s s' -> timely s s'.
Proof. intros H. by exists Other. Qed.

Ltac room_tac := unfold room; vm_compute; reflexivity.
Ltac look := apply lookup_the_obj; vm_compute; eexists; reflexivity.

Lemma reach_db : reachable s_db.
Proof.
  apply rtc_once, other_timely. apply (step_open ∅ [] [] KDb h_db 0); [done | room_tac | vm_compute; reflexivity].
Qed.

Lemma reach_snap : reachable s_snap.
Proof.
  eapply rtc_r; [apply reach_db |].
  apply other_timely, (step_create h_db [] [] KSnapshot 0 (the_obj h_db 0) h_snap 1);
    [done | room_tac | look | vm_compute; reflexivity | vm_compute; discriminate | vm_compute; reflexivity].
Qed.

Lemma reach_itr : reachable s_itr.
Proof.
  eapply rtc_r; [apply reach_snap |].
  apply other_timely, (step_create h_snap [] [] KItr 0 (the_obj h_snap 0) h_itr 2);
    [done | room_tac | look | vm_compute; reflexivity | vm_compute; discriminate | vm_compute; reflexivity].
Qed.

(** A call has a reference to the database and has found the snapshot. *)
Definition h_held : heap := ok_heap (RefInc h_itr 0).
Definition s_held : state := {| st_heap := h_held; st_found := [1%nat]; st_pins := [0%nat] |}.

Lemma reach_held : reachable s_held.
Proof.
  eapply rtc_r; [eapply rtc_r; [eapply rtc_r; [apply reach_itr |] |] |].
  - apply other_timely, (step_retrieve h_itr [] [] (the_obj h_itr 0) 0 false);
      [look | vm_compute; reflexivity].
  - exists (Takes 0). split.
    + apply (step_assign h_itr [0%nat] [] [] (the_obj h_itr 0) 0 h_held);
        [room_tac | done | look | vm_compute; reflexivity].
    + intros o Ho. vm_compute in Ho. injection Ho as <-. cbn. discriminate.
  - apply other_timely, (step_retrieve h_held [] [0%nat] (the_obj h_held 1) 1 false);
      [look | vm_compute; reflexivity].
Qed.



Lemma handles_never_undefined_witness :
  (forall id o, h_itr !! id = Some o -> defined (InitiateCloseRequest h_itr id) = true /\
     (forall ic, defined (Retrieve (o_kind o) ic h_itr (handle o id)) = true)) /\
  (forall id, id ∈ [] -> defined (RefDec h_itr id) = true) /\
  (forall k d db, is_child k = true -> h_itr !! d = Some db -> defined (CreateChild k h_itr d) = true).
Proof. apply (handles_never_undefined s_itr); [apply reach_itr | room_tac]. Defined.

Lemma close_destroys_witness :
  exists h', InitiateCloseRequest h_itr 0 = Ok h' /\ destructor_done h' 0 = true /\
    forall c oc, h_itr !! c = Some oc -> m_DbPtr oc = Some 0%nat -> destructor_done h' c = true.
Proof.
  apply (close_destroys s_itr 0 (the_obj h_itr 0));
    [apply reach_itr | room_tac | look | vm_compute; reflexivity | intros Hin; inversion Hin |
     intros c oc _ _ Hin; inversion Hin].
Defined.

(** The snapshot is closed on its own. *)
Definition h_closed : heap := ok_heap (InitiateCloseRequest h_itr 1).
Definition s_closed : state := {| st_heap := h_closed; st_found := []; st_pins := [] |}.

Lemma reach_closed : reachable s_closed.
Proof.
  eapply rtc_r; [apply reach_itr |].
  apply other_timely, (step_close h_itr [] [] 1 (the_obj h_itr 1) h_closed); [room_tac | look | vm_compute; reflexivity].
Qed.

Lemma closed_stays_closed_witness :
  Retrieve KSnapshot false h_closed (Tres RSnapshot 1) = Ok None /\
  exists o', h_closed !! 1%nat = Some o' /\
    m_CloseRequested (the_obj h_closed 1) <= m_CloseRequested o' /\
    (m_Native (the_obj h_closed 1) = false -> m_Native o' = false).
Proof.
  apply (closed_stays_closed s_closed s_closed 1 (the_obj h_closed 1) KSnapshot false);
    [apply reach_closed | look | vm_compute; discriminate | apply rtc_refl].
Defined.

(** A call pins the database, another closes it, the first creates a snapshot
    and returns. *)
Definition h_pin : heap := ok_heap (RefInc h_db 0).
Definition h_req : heap := ok_heap (InitiateCloseRequest h_pin 0).
Definition h_late : heap := ok_pair (CreateChild KSnapshot h_req 0).
Definition h_left : heap := ok_heap (RefDec h_late 0).
End RefSystemWitness.
Import RefSystemWitness.

(** The window between [Retrieve...Object] and [ReferencePtr::assign] is real: the
    close of another thread may run the destructor there.  The reference is then
    taken on a destroyed object, the count of the object is wrong, and the call
    goes on with a handle whose RocksDB object is gone. *)
Theorem retrieve_races_with_close :
  exists (s s' : state) (id : nat) (o : obj),
    reachable s /\ id ∈ st_found s /\ step (Takes id) s s' /\ ~ in_time s (Takes id) /\
    id ∈ st_pins s' /\ st_heap s' !! id = Some o /\
    m_CloseRequested o = 3 /\ m_RefCount o = 1 /\ m_Native o = false.
Proof.
  set (s := {| st_heap := h_closed; st_found := [1%nat]; st_pins := [] |}).
  exists s, {| st_heap := ok_heap (RefInc h_closed 1); st_found := []; st_pins := [1%nat] |}, 1%nat,
    (the_obj (ok_heap (RefInc h_closed 1)) 1). split_and!.
  - eapply rtc_r; [eapply rtc_r; [apply reach_itr |] |].
    + apply other_timely, (step_retrieve h_itr [] [] (the_obj h_itr 1) 1 false);
        [look | vm_compute; reflexivity].
    + apply other_timely, (step_close h_itr [1%nat] [] 1 (the_obj h_itr 1) h_closed);
        [room_tac | look | vm_compute; reflexivity].
  - unfold s. cbn. by left.
  - apply (step_assign h_closed [1%nat] [] [] (the_obj h_closed 1) 1);
      [room_tac | done | look | vm_compute; reflexivity].
  - intros Hin. apply (Hin (the_obj h_closed 1)); [cbn [st_heap s]; look | vm_compute; reflexivity].
  - cbn. by left.
  - cbn [st_heap]. look.
  - vm_compute. reflexivity.
  - vm_compute. reflexivity.
  - vm_compute. reflexivity.
Qed.

(** A cleanup can wait on another handle: when a call that had the database in
    use creates a snapshot after the close request, the database stays until that
    snapshot goes, with no call in progress; the cleanup of the database
    resource, which runs on a scheduler thread, blocks until then. *)
Theorem cleanup_can_block :
  exists (s : state) (d : nat) (o : obj),
    reachable s /\ st_pins s = [] /\ st_heap s !! d = Some o /\ o_kind o = KDb /\
    m_CloseRequested o = 1 /\ InitiateCloseRequest (st_heap s) d = Ok (st_heap s) /\
    destructor_done (st_heap s) d = false.
Proof.
  exists {| st_heap := h_left; st_found := []; st_pins := [] |}, 0%nat, (the_obj h_left 0). split.
  - eapply rtc_l.
    { apply other_timely, (step_open ∅ [] [] KDb h_db 0); [done | room_tac | vm_compute; reflexivity]. }
    eapply rtc_l.
    { apply other_timely, (step_retrieve h_db [] [] (the_obj h_db 0) 0 false);
        [look | vm_compute; reflexivity]. }
    eapply rtc_l.
    { exists (Takes 0). split.
      - apply (step_assign h_db [0%nat] [] [] (the_obj h_db 0) 0 h_pin);
          [room_tac | done | look | vm_compute; reflexivity].
      - intros o Ho. vm_compute in Ho. injection Ho as <-. cbn. discriminate. }
    eapply rtc_l.
    { apply other_timely, (step_close h_pin [] [0%nat] 0 (the_obj h_pin 0) h_req);
        [room_tac | look | vm_compute; reflexivity]. }
    eapply rtc_l.
    { apply other_timely, (step_create h_req [] [0%nat] KSnapshot 0 (the_obj h_req 0) h_late 1);
        [done | room_tac | look | vm_compute; reflexivity | vm_compute; discriminate | vm_compute; reflexivity]. }
    apply rtc_once.
    apply other_timely, (step_unpin h_late [] [0%nat] [] 0 h_left); [room_tac | done | vm_compute; reflexivity].
  - cbn [st_heap st_pins]. split; [done |]. split; [look |].
    split_and!; vm_compute; reflexivity.
Qed.
