(* ===== verification/CloseThreads.v ===== *)
(** * The close protocol under concurrent threads

    The other files take a native function as one step.  Here the steps are the atomic
    operations of [c_src/refobjects.cc]: threads use a database, close it, release the
    references its children have on it, and the runtime runs the cleanup callback of the
    resource once no term refers to it; [m_RefCount] and [m_CloseRequested] are atomic,
    [m_CloseMutex] and [m_CloseCond] belong to the end of the destructor and to
    [AwaitCloseAndDestructor].

    A schedule is a list of events; the theorems hold of every schedule.  What the code
    does not exclude, and the theorems show, is a [RefInc] between the last [RefDec] and
    the destructor, and the test of [AwaitCloseAndDestructor] while the destructor has
    the mutex. *)

From stdpp Require Import base list numbers.
From Stdlib Require Import ZArith Lia.
From S2P Require Import Prelude RefObjects.

(** ** Objects and threads *)

(** A [DbObject], the synchronisation objects it points to, and whether the runtime has
    freed its memory. *)
Record object := {
  c_refs : Z;                      (* std::atomic<uint32_t> m_RefCount *)
  c_close : Z;                     (* std::atomic<uint32_t> m_CloseRequested *)
  c_db : bool;                     (* m_Db is not NULL *)
  c_mutex : bool;                  (* m_CloseMutex exists *)
  c_locked : bool;                 (* and is locked *)
  c_cond : bool;                   (* m_CloseCond exists *)
  c_alloc : bool;                  (* the memory of the resource *)
}.

Definition with_refs (n : Z) (o : object) : object :=
  {| c_refs := n; c_close := c_close o; c_db := c_db o; c_mutex := c_mutex o; c_locked := c_locked o;
     c_cond := c_cond o; c_alloc := c_alloc o |}.
Definition with_close (n : Z) (o : object) : object :=
  {| c_refs := c_refs o; c_close := n; c_db := c_db o; c_mutex := c_mutex o; c_locked := c_locked o;
     c_cond := c_cond o; c_alloc := c_alloc o |}.
Definition without_db (o : object) : object :=
  {| c_refs := c_refs o; c_close := c_close o; c_db := false; c_mutex := c_mutex o; c_locked := c_locked o;
     c_cond := c_cond o; c_alloc := c_alloc o |}.
Definition with_lock (b : bool) (o : object) : object :=
  {| c_refs := c_refs o; c_close := c_close o; c_db := c_db o; c_mutex := c_mutex o; c_locked := b;
     c_cond := c_cond o; c_alloc := c_alloc o |}.
Definition without_mutex (o : object) : object :=
  {| c_refs := c_refs o; c_close := c_close o; c_db := c_db o; c_mutex := false; c_locked := c_locked o;
     c_cond := c_cond o; c_alloc := c_alloc o |}.
Definition without_cond (o : object) : object :=
  {| c_refs := c_refs o; c_close := c_close o; c_db := c_db o; c_mutex := c_mutex o; c_locked := c_locked o;
     c_cond := false; c_alloc := c_alloc o |}.
Definition freed (o : object) : object :=
  {| c_refs := c_refs o; c_close := c_close o; c_db := c_db o; c_mutex := c_mutex o; c_locked := c_locked o;
     c_cond := c_cond o; c_alloc := false |}.

(** Where [RefDec] and [InitiateCloseRequest] return to: a function that used the
    database, [Close], the destructor of a child, the cleanup callback. *)
Inductive after := AfterUse | AfterClose | AfterHold | AfterCleanup.

#[export] Instance after_eq_dec : EqDecision after.
Proof. solve_decision. Defined.

(** The next atomic operation of a thread. *)
Inductive pc :=
| UseTest                          (* RetrieveDbObject: m_CloseRequested *)
| UseInc                           (* ReferencePtr::assign: ++m_RefCount *)
| UseCheck                         (* enif_get_db: NULL == m_Db *)
| UseBody                          (* a call of m_Db *)
| HoldUse                          (* the destructor of a child uses m_Db *)
| Release (k : after)              (* RefDec: --m_RefCount *)
| DecSwap (k : after)              (* RefDec: compare_and_swap(m_CloseRequested, 1, 2) *)
| Destruct (k : after)             (* ~DbObject: delete m_Db *)
| EndLock (k : after)              (* ~ErlRefObject: lk takes m_CloseMutex *)
| EndStore (k : after)             (* m_CloseRequested = 3 *)
| EndNotify (k : after)            (* m_CloseCond->notify_all() *)
| EndUnlock (k : after)            (* lk.unlock() *)
| CloseTest                        (* Close: RetrieveDbObject *)
| InitTest (k : after)             (* InitiateCloseRequest: 0 == m_CloseRequested *)
| InitSwap (k : after)             (* compare_and_swap(m_CloseRequested, 0, 1), then Shutdown *)
| Collect                          (* the runtime, before the cleanup callback *)
| AwaitTest                        (* AwaitCloseAndDestructor: 3 != m_CloseRequested *)
| AwaitLock                        (* lk takes m_CloseMutex *)
| AwaitRetest                      (* while (3 != m_CloseRequested) *)
| AwaitWait                        (* blocked in m_CloseCond->wait(lk) *)
| AwaitWoken                       (* wait takes the mutex again *)
| AwaitUnlock                      (* lk.unlock() *)
| DeleteMutex                      (* delete m_CloseMutex *)
| DeleteCond                       (* delete m_CloseCond *)
| Free                             (* the runtime frees the resource *)
| Done.

#[export] Instance pc_eq_dec : EqDecision pc.
Proof. solve_decision. Defined.

Definition return_to (k : after) : pc := match k with AfterCleanup => AwaitTest | _ => Done end.

(** The calls that have a term of the database among their arguments keep the resource. *)
Definition holds_term (p : pc) : bool :=
  match p with
  | UseTest | UseInc | UseCheck | UseBody | CloseTest => true
  | Release k | DecSwap k | Destruct k | EndLock k | EndStore k | EndNotify k | EndUnlock k =>
      match k with AfterUse | AfterClose => true | _ => false end
  | InitTest k | InitSwap k => match k with AfterCleanup => false | _ => true end
  | _ => false
  end.

Record threads := { t_object : object; t_pcs : list pc }.

(** ** Steps *)

(** A locked mutex blocks; a deleted one must not be used. *)
Definition take_lock (o : object) (p : pc) : outcome (option (object * pc)) :=
  if negb (c_mutex o) then Undef
  else if c_locked o then Ok None else Ok (Some (with_lock true o, p)).

Definition drop_lock (o : object) (p : pc) : outcome (option (object * pc)) :=
  if c_mutex o then Ok (Some (with_lock false o, p)) else Undef.

(** [None] is a thread that cannot run. *)
Definition act (collectable : bool) (p : pc) (o : object) : outcome (option (object * pc)) :=
  let go (o : object) (p : pc) : outcome (option (object * pc)) := Ok (Some (o, p)) in
  match p with
  | UseTest => go o (if c_close o =? 0 then UseInc else Done)
  | UseInc => go (with_refs (u32 (c_refs o + 1)) o) UseCheck
  | UseCheck => go o (if c_db o then UseBody else Release AfterUse)
  | UseBody => if c_db o then go o (Release AfterUse) else Undef
  | HoldUse => if c_db o then go o (Release AfterHold) else Undef
  | Release k =>
      let cur_count := u32 (c_refs o - 1) in
      go (with_refs cur_count o) (if cur_count =? 0 then DecSwap k else return_to k)
  | DecSwap k => if c_close o =? 1 then go (with_close 2 o) (Destruct k) else go o (return_to k)
  | Destruct k => if c_db o then go (without_db o) (EndLock k) else Undef
  | EndLock k => take_lock o (EndStore k)
  | EndStore k => go (with_close 3 o) (EndNotify k)
  | EndNotify k => if c_cond o then go o (EndUnlock k) else Undef
  | EndUnlock k => drop_lock o (return_to k)
  | CloseTest => go o (if c_close o =? 0 then InitTest AfterClose else Done)
  | InitTest k => go o (if c_close o =? 0 then InitSwap k else return_to k)
  | InitSwap k => if c_close o =? 0 then go (with_close 1 o) (Release k) else go o (return_to k)
  | Collect => if collectable then go o (InitTest AfterCleanup) else Ok None
  | AwaitTest => go o (if c_close o =? 3 then DeleteMutex else AwaitLock)
  | AwaitLock | AwaitWoken => take_lock o AwaitRetest
  | AwaitRetest => if c_close o =? 3 then go o AwaitUnlock else drop_lock o AwaitWait
  | AwaitWait => Ok None
  | AwaitUnlock => drop_lock o DeleteMutex
  | DeleteMutex => if c_mutex o && negb (c_locked o) then go (without_mutex o) DeleteCond else Undef
  | DeleteCond => if c_cond o then go (without_cond o) Free else Undef
  | Free => go (freed o) Done
  | Done => Ok None
  end.

(** [notify_all]. *)
Definition wake (p : pc) : pc := match p with AwaitWait => AwaitWoken | _ => p end.

Definition notifies (p : pc) : bool := match p with EndNotify _ => true | _ => false end.

(** A step of thread [t]; every operation but [EndUnlock], which has the mutex at hand,
    reads the object. *)
Definition step (t : nat) (s : threads) : outcome (option threads) :=
  match t_pcs s !! t with
  | None | Some Done => Ok None
  | Some p =>
      if negb (c_alloc (t_object s)) && negb (match p with EndUnlock _ => true | _ => false end) then Undef
      else
        let! r := act (forallb (fun q => negb (holds_term q)) (t_pcs s)) p (t_object s) in
        Ok (match r with
            | Some (o, q) =>
                let ps := if notifies p then wake <$> t_pcs s else t_pcs s in
                Some {| t_object := o; t_pcs := <[t := q]> ps |}
            | None => None
            end)
  end.

(** A thread runs, or [wait] returns although nothing notified it. *)
Inductive event := Run (t : nat) | Spurious (t : nat).

Definition wake_one (t : nat) (s : threads) : threads :=
  match t_pcs s !! t with
  | Some AwaitWait => {| t_object := t_object s; t_pcs := <[t := AwaitWoken]> (t_pcs s) |}
  | _ => s
  end.

Definition happens (e : event) (s : threads) : outcome threads :=
  match e with
  | Run t => let! r := step t s in Ok (default s r)
  | Spurious t => Ok (wake_one t s)
  end.

Fixpoint run (l : list event) (s : threads) : outcome threads :=
  match l with
  | [] => Ok s
  | e :: r => let! s1 := happens e s in run r s1
  end.

(** ** Starting states *)

Definition starting (p : pc) : bool :=
  match p with UseTest | CloseTest | HoldUse | Collect => true | _ => false end.

Fixpoint count (P : pc -> bool) (l : list pc) : Z :=
  match l with [] => 0 | p :: r => Z.b2z (P p) + count P r end.

Definition holding (p : pc) : bool := match p with HoldUse => true | _ => false end.
Definition collecting (p : pc) : bool := match p with Collect => true | _ => false end.

(** An open database: the reference of the handle, and one for each child. *)
Definition open_object (children : Z) : object :=
  {| c_refs := 1 + children; c_close := 0; c_db := true; c_mutex := true; c_locked := false; c_cond := true;
     c_alloc := true |}.

Definition opened (l : list pc) : threads := {| t_object := open_object (count holding l); t_pcs := l |}.

(** Any threads that use, close or hold the database; the cleanup callback is called once. *)
Definition start (l : list pc) : Prop :=
  forallb starting l = true /\ count collecting l <= 1 /\ Z.of_nat (length l) + 2 < 2 ^ 32.

(** ** The orders the protocol needs *)

(** A reference is taken before the last one is released, and the cleanup callback does
    not find 3 while the destructor still has the mutex. *)
Definition timely (e : event) (s : threads) : bool :=
  match e with
  | Run t =>
      match t_pcs s !! t with
      | Some UseInc => 0 <? c_refs (t_object s)
      | Some AwaitTest => negb ((c_close (t_object s) =? 3) && c_locked (t_object s))
      | _ => true
      end
  | Spurious _ => true
  end.

Fixpoint all_timely (l : list event) (s : threads) : bool :=
  match l with
  | [] => true
  | e :: r => timely e s && match happens e s with Ok s1 => all_timely r s1 | Undef => true end
  end.

(** ** The invariant *)

Definition pinned (p : pc) : bool :=
  match p with UseCheck | UseBody | HoldUse | Release AfterUse | Release AfterHold => true | _ => false end.
Definition closing (p : pc) : bool := match p with Release (AfterClose | AfterCleanup) => true | _ => false end.
Definition swapping (p : pc) : bool := match p with DecSwap _ => true | _ => false end.
Definition destructing (p : pc) : bool := match p with Destruct _ => true | _ => false end.
Definition locking (p : pc) : bool := match p with EndLock _ => true | _ => false end.
Definition storing (p : pc) : bool := match p with EndStore _ => true | _ => false end.
Definition unlocking (p : pc) : bool := match p with EndUnlock _ => true | _ => false end.

Definition at_pc (a p : pc) : bool :=
  match a, p with
  | AwaitRetest, AwaitRetest | AwaitWait, AwaitWait | AwaitUnlock, AwaitUnlock
  | DeleteMutex, DeleteMutex | DeleteCond, DeleteCond | Free, Free => true
  | _, _ => false
  end.

(** In the tests and the wait of [AwaitCloseAndDestructor]. *)
Definition awaiting (p : pc) : bool :=
  match p with AwaitTest | AwaitLock | AwaitRetest | AwaitWait | AwaitWoken => true | _ => false end.

(** In the [InitiateCloseRequest] of the cleanup callback. *)
Definition requesting (p : pc) : bool :=
  match p with
  | Release k | DecSwap k | Destruct k | EndLock k | EndStore k | EndNotify k | EndUnlock k | InitTest k | InitSwap k =>
      match k with AfterCleanup => true | _ => false end
  | _ => false
  end.

(** How far the close is: open; a close requested and references left; the last one
    released, by a thread that is about to start the destructor; the destructor, run by
    one thread; its end. *)
Inductive phase (o : object) (l : list pc) : Prop :=
| POpen : c_close o = 0 -> c_db o = true -> c_refs o = count pinned l + 1 ->
    count closing l = 0 -> count swapping l = 0 -> count destructing l = 0 -> count locking l = 0 -> count storing l = 0 ->
    count notifies l = 0 -> count unlocking l = 0 -> phase o l
| PRequested : c_close o = 1 -> c_db o = true -> c_refs o = count pinned l + count closing l ->
    0 < count pinned l + count closing l ->
    count closing l <= 1 -> count swapping l = 0 -> count destructing l = 0 -> count locking l = 0 -> count storing l = 0 ->
    count notifies l = 0 -> count unlocking l = 0 -> phase o l
| PLast : c_close o = 1 -> c_db o = true -> c_refs o = 0 -> count pinned l = 0 -> count closing l = 0 ->
    count swapping l = 1 -> count destructing l = 0 -> count locking l = 0 -> count storing l = 0 ->
    count notifies l = 0 -> count unlocking l = 0 -> phase o l
| PDestructor : c_close o = 2 -> Z.b2z (c_db o) = count destructing l -> c_refs o = 0 -> count pinned l = 0 ->
    count closing l = 0 -> count swapping l = 0 -> count destructing l + count locking l + count storing l = 1 ->
    count notifies l = 0 -> count unlocking l = 0 -> phase o l
| PDestroyed : c_close o = 3 -> c_db o = false -> c_refs o = 0 -> count pinned l = 0 -> count closing l = 0 ->
    count swapping l = 0 -> count destructing l = 0 -> count locking l = 0 -> count storing l = 0 ->
    count notifies l + count unlocking l <= 1 -> phase o l.

(** How far the cleanup callback is: not called; before [AwaitCloseAndDestructor]; waiting
    there; past the wait; about to delete the mutex, the condition variable, and to free
    the resource; returned. *)
Inductive cleanup (o : object) (l : list pc) : Prop :=
| CBefore : c_mutex o = true -> c_cond o = true -> c_alloc o = true -> count requesting l = 0 ->
    count collecting l <= 1 -> count awaiting l = 0 -> count (at_pc AwaitUnlock) l = 0 ->
    count (at_pc DeleteMutex) l = 0 -> count (at_pc DeleteCond) l = 0 -> count (at_pc Free) l = 0 -> cleanup o l
| CClosing : c_mutex o = true -> c_cond o = true -> c_alloc o = true -> count requesting l = 1 ->
    count collecting l = 0 -> count awaiting l = 0 -> count (at_pc AwaitUnlock) l = 0 ->
    count (at_pc DeleteMutex) l = 0 -> count (at_pc DeleteCond) l = 0 -> count (at_pc Free) l = 0 ->
    count holds_term l = 0 -> cleanup o l
| CAwaiting : c_mutex o = true -> c_cond o = true -> c_alloc o = true -> count requesting l = 0 ->
    count collecting l = 0 -> count awaiting l = 1 -> count (at_pc AwaitUnlock) l = 0 ->
    count (at_pc DeleteMutex) l = 0 -> count (at_pc DeleteCond) l = 0 -> count (at_pc Free) l = 0 ->
    count holds_term l = 0 -> 1 <= c_close o -> (c_close o = 3 -> count (at_pc AwaitWait) l <= count notifies l) -> cleanup o l
| CFound : c_mutex o = true -> c_cond o = true -> c_alloc o = true -> count requesting l = 0 ->
    count collecting l = 0 -> count awaiting l = 0 -> count (at_pc AwaitUnlock) l = 1 ->
    count (at_pc DeleteMutex) l = 0 -> count (at_pc DeleteCond) l = 0 -> count (at_pc Free) l = 0 ->
    count holds_term l = 0 -> c_close o = 3 -> cleanup o l
| CMutex : c_mutex o = true -> c_cond o = true -> c_alloc o = true -> count requesting l = 0 ->
    count collecting l = 0 -> count awaiting l = 0 -> count (at_pc AwaitUnlock) l = 0 ->
    count (at_pc DeleteMutex) l = 1 -> count (at_pc DeleteCond) l = 0 -> count (at_pc Free) l = 0 ->
    count holds_term l = 0 -> c_close o = 3 -> count notifies l = 0 -> count unlocking l = 0 -> cleanup o l
| CCond : c_mutex o = false -> c_cond o = true -> c_alloc o = true -> count requesting l = 0 ->
    count collecting l = 0 -> count awaiting l = 0 -> count (at_pc AwaitUnlock) l = 0 ->
    count (at_pc DeleteMutex) l = 0 -> count (at_pc DeleteCond) l = 1 -> count (at_pc Free) l = 0 ->
    count holds_term l = 0 -> c_close o = 3 -> count notifies l = 0 -> count unlocking l = 0 -> cleanup o l
| CFree : c_mutex o = false -> c_cond o = false -> c_alloc o = true -> count requesting l = 0 ->
    count collecting l = 0 -> count awaiting l = 0 -> count (at_pc AwaitUnlock) l = 0 ->
    count (at_pc DeleteMutex) l = 0 -> count (at_pc DeleteCond) l = 0 -> count (at_pc Free) l = 1 ->
    count holds_term l = 0 -> c_close o = 3 -> count notifies l = 0 -> count unlocking l = 0 -> cleanup o l
| CReturned : c_mutex o = false -> c_cond o = false -> c_alloc o = false -> count requesting l = 0 ->
    count collecting l = 0 -> count awaiting l = 0 -> count (at_pc AwaitUnlock) l = 0 ->
    count (at_pc DeleteMutex) l = 0 -> count (at_pc DeleteCond) l = 0 -> count (at_pc Free) l = 0 ->
    count holds_term l = 0 -> c_close o = 3 -> count notifies l = 0 -> count unlocking l = 0 -> cleanup o l.

(** The threads in a critical section of the mutex. *)
Definition owners (l : list pc) : Z :=
  count storing l + count notifies l + count unlocking l + count (at_pc AwaitRetest) l + count (at_pc AwaitUnlock) l.

Record consistent (o : object) (l : list pc) : Prop := {
  i_size : Z.of_nat (length l) + 2 < 2 ^ 32;
  i_phase : phase o l;
  i_cleanup : cleanup o l;
  i_lock : Z.b2z (c_locked o) = owners l;
}.

(** *** Counting *)

Lemma count_nonneg P l : 0 <= count P l.
Proof. induction l as [|p l IH]; cbn [count]; [done |]. destruct (P p); cbn [Z.b2z]; lia. Qed.

Lemma count_at P l t p : l !! t = Some p -> Z.b2z (P p) <= count P l.
Proof.
  revert t. induction l as [|q l IH]; intros [|t] H; cbn [count lookup list_lookup] in *; simplify_eq.
  - pose proof (count_nonneg P l). lia.
  - specialize (IH t H). destruct (P q); cbn [Z.b2z]; lia.
Qed.

Lemma count_insert P l t p q :
  l !! t = Some p -> count P (<[t := q]> l) = count P l - Z.b2z (P p) + Z.b2z (P q).
Proof.
  revert t. induction l as [|r l IH]; intros [|t] H; cbn [lookup list_lookup] in H; simplify_eq.
  - cbn. lia.
  - change (<[S t := q]> (r :: l)) with (r :: <[t := q]> l). cbn [count]. rewrite (IH t H). lia.
Qed.

Lemma count_wake P l : (forall p, P (wake p) = P p) -> count P (wake <$> l) = count P l.
Proof. intros H. induction l as [|p l IH]; [done |]. cbn [fmap list_fmap count]. by rewrite H, IH. Qed.

Lemma count_length P l : count P l <= Z.of_nat (length l).
Proof. induction l as [|p l IH]; cbn [count length]; [done |]. destruct (P p); cbn [Z.b2z]; lia. Qed.

(** Two stages that are never one. *)
Lemma count_disjoint P Q l :
  (forall p, P p && Q p = false) -> count P l + count Q l <= Z.of_nat (length l).
Proof.
  intros H. induction l as [|p l IH]; cbn [count length]; [done |].
  specialize (H p). destruct (P p), (Q p); cbn [Z.b2z] in *; done || lia.
Qed.

Lemma object_refs_range o l : consistent o l -> 0 <= c_refs o < 2 ^ 32 - 1.
Proof.
  intros [Hs Hp _ _]. pose proof (count_disjoint pinned closing l ltac:(by intros [| | | | |[]| | | | | | | | | | | | | | | | | | | |])).
  pose proof (count_nonneg pinned l). pose proof (count_nonneg closing l).
  destruct Hp; lia.
Qed.

Ltac stage_facts H :=
  match type of H with
  | ?l !! ?t = Some ?p =>
    let f P := (let N := fresh "F" in pose proof (count_at P l t p H) as N;
                let M := fresh "N" in pose proof (count_nonneg P l) as M) in
    f pinned; f closing; f swapping; f destructing; f locking; f storing; f notifies; f unlocking;
    f awaiting; f (at_pc AwaitRetest); f (at_pc AwaitWait); f (at_pc AwaitUnlock);
    f (at_pc DeleteMutex); f (at_pc DeleteCond); f (at_pc Free); f requesting; f collecting; f holds_term
  end.

Ltac phase_facts H :=
  match type of H with
  | ?l !! ?t = Some ?p =>
    let f P := (let N := fresh "F" in pose proof (count_at P l t p H) as N;
                let M := fresh "N" in pose proof (count_nonneg P l) as M) in
    f pinned; f closing; f swapping; f destructing; f locking; f storing; f notifies; f unlocking
  end.

Ltac eval_stages :=
  cbn [pinned closing swapping destructing locking storing notifies unlocking awaiting at_pc requesting collecting holds_term Z.b2z return_to] in *.

Ltac counted H :=
  cbn [c_refs c_close c_db c_mutex c_locked c_cond c_alloc with_refs with_close without_db with_lock
       without_mutex without_cond freed];
  rewrite ?(fun P q => count_insert P _ _ _ q H); eval_stages;
  (assumption || lia || congruence || (destruct (c_db _); cbn [Z.b2z] in *; (lia || congruence))).

Ltac find_phase H :=
  first [solve [apply POpen; counted H] | solve [apply PRequested; counted H] | solve [apply PLast; counted H]
        | solve [apply PDestructor; counted H] | solve [apply PDestroyed; counted H]].

(** The outcomes of the tests of a step. *)
Ltac tests :=
  repeat match goal with
  | H : context [Z.eqb ?a ?b] |- _ => destruct (Z.eqb_spec a b)
  | H : context [if ?b then _ else _] |- _ => destruct b eqn:?
  end.

Lemma phase_after b o l t p o' q :
  phase o l -> 0 <= c_refs o < 2 ^ 32 - 1 -> l !! t = Some p -> (p = UseInc -> 0 < c_refs o) ->
  act b p o = Ok (Some (o', q)) -> phase o' (<[t := q]> l).
Proof.
  intros Hp Hr H Ht Ha.
  destruct p as [| | | | |k|k|k|k|k|k|k| |k|k| | | | | | | | | | |]; try done; try specialize (Ht eq_refl);
    try destruct k; cbn [act] in Ha; unfold take_lock, drop_lock in Ha;
    phase_facts H; eval_stages; destruct Hp; try (exfalso; lia);
    rewrite ?wrap_small in Ha by lia; tests; try (exfalso; lia); simplify_eq; try (exfalso; congruence); find_phase H.
Qed.

(** What the stage of a thread says of [m_CloseRequested]. *)
Definition close_at (p : pc) (c : Z) : Prop :=
  match p with
  | Release (AfterClose | AfterCleanup) | DecSwap _ => c = 1
  | Destruct _ | EndLock _ | EndStore _ => c = 2
  | EndNotify _ | EndUnlock _ => c = 3
  | _ => True
  end.

Lemma phase_close o l t p : phase o l -> l !! t = Some p -> close_at p (c_close o).
Proof.
  intros Hp H. pose proof (count_at closing l t p H). pose proof (count_at swapping l t p H).
  pose proof (count_at destructing l t p H). pose proof (count_at locking l t p H).
  pose proof (count_at storing l t p H). pose proof (count_at notifies l t p H).
  pose proof (count_at unlocking l t p H). pose proof (count_nonneg destructing l).
  pose proof (count_nonneg locking l). pose proof (count_nonneg pinned l). pose proof (count_nonneg closing l).
  destruct p as [| | | | |[]| | | | | | | | | | | | | | | | | | | |]; try done; eval_stages; cbn [close_at]; destruct Hp; lia.
Qed.

Lemma count_le P Q l : (forall p, P p = true -> Q p = true) -> count P l <= count Q l.
Proof.
  intros HPQ. induction l as [|p l IH]; cbn [count]; [done |]. specialize (HPQ p).
  destruct (P p), (Q p); cbn [Z.b2z]; lia.
Qed.

Lemma count_none P l : forallb (fun p => negb (P p)) l = true -> count P l = 0.
Proof.
  induction l as [|p l IH]; cbn [count forallb]; [done |]. rewrite andb_true_iff, negb_true_iff.
  intros [-> Hl]. by rewrite IH.
Qed.

Ltac find_cleanup H :=
  first [solve [apply CBefore; counted H] | solve [apply CClosing; counted H] | solve [apply CAwaiting; counted H]
        | solve [apply CFound; counted H] | solve [apply CMutex; counted H] | solve [apply CCond; counted H]
        | solve [apply CFree; counted H] | solve [apply CReturned; counted H]].

Lemma cleanup_after b o l t p o' q :
  phase o l -> cleanup o l -> Z.b2z (c_locked o) = owners l -> l !! t = Some p ->
  (p = AwaitTest -> c_close o = 3 -> owners l = 0) -> (b = true -> count holds_term l = 0) ->
  (notifies p = true -> count (at_pc AwaitWait) l = 0) ->
  act b p o = Ok (Some (o', q)) -> cleanup o' (<[t := q]> l).
Proof.
  intros Hp Hc Hl H Ht Hb Hn Ha. pose proof (phase_close o l t p Hp H) as Hcl.
  pose proof (count_le (at_pc AwaitWait) awaiting l ltac:(by intros [])) as Hw.
  assert (Hlb : Z.b2z (c_locked o) <= 1) by (by destruct (c_locked o)).
  assert (Hrange : 0 <= c_close o <= 3) by (destruct Hp; lia).
  unfold owners in *. clear Hp.
  destruct p as [| | | | |k|k|k|k|k|k|k| |k|k| | | | | | | | | | |]; try done; try specialize (Ht eq_refl);
    try destruct k; cbn [act close_at] in *; unfold take_lock, drop_lock in Ha; try specialize (Hn eq_refl);
    stage_facts H; eval_stages; destruct Hc; try (exfalso; lia);
    tests; try (exfalso; lia); simplify_eq; try (exfalso; congruence); find_cleanup H.
Qed.

Lemma owners_insert l t p q :
  l !! t = Some p -> owners (<[t := q]> l) = owners l - owners [p] + owners [q].
Proof. intros H. unfold owners. rewrite !(count_insert _ _ _ _ q H). cbn [count]. lia. Qed.

Lemma lock_after b o l t p o' q :
  Z.b2z (c_locked o) = owners l -> l !! t = Some p -> act b p o = Ok (Some (o', q)) ->
  Z.b2z (c_locked o') = owners (<[t := q]> l).
Proof.
  intros Hl H Ha. rewrite (owners_insert _ _ _ _ H), <- Hl.
  assert (Hp : owners [p] <= Z.b2z (c_locked o)).
  { rewrite Hl. unfold owners. pose proof (count_at storing l t p H). pose proof (count_at notifies l t p H).
    pose proof (count_at unlocking l t p H). pose proof (count_at (at_pc AwaitRetest) l t p H).
    pose proof (count_at (at_pc AwaitUnlock) l t p H). cbn [count]. lia. }
  destruct p as [| | | | |k|k|k|k|k|k|k| |k|k| | | | | | | | | | |]; try destruct k; cbn [act] in Ha;
    unfold take_lock, drop_lock, return_to in Ha; tests; simplify_eq; cbn in *;
    repeat match goal with _ : context [c_locked ?x] |- _ => destruct (c_locked x) end; done || lia.
Qed.

Lemma defined o l t p b :
  consistent o l -> l !! t = Some p -> p <> Done -> c_alloc o = true /\ act b p o <> Undef.
Proof.
  intros [_ Hp Hc Hl] H Hd. pose proof (phase_close o l t p Hp H) as Hcl.
  pose proof (count_le (at_pc AwaitRetest) awaiting l ltac:(by intros [])) as Hr. unfold owners in Hl.
  destruct p as [| | | | |k|k|k|k|k|k|k| |k|k| | | | | | | | | | |]; try done; try destruct k; cbn [act close_at] in *;
    unfold take_lock, drop_lock; stage_facts H; eval_stages;
    destruct Hp; try (exfalso; lia); destruct Hc; try (exfalso; lia);
    (split; [assumption |]); try done;
    repeat match goal with E : _ o = true |- _ => rewrite E end; try done;
    destruct (c_db o), (c_locked o); cbn [negb andb Z.b2z] in *; try done; try lia; by repeat case_match.
Qed.
