(* ===== verification/CloseSpec.v ===== *)
(** * The close protocol: safety, termination and two races

    Every schedule of the threads of [CloseThreads] that keeps the two orders the
    protocol needs is defined, ends, and leaves the database deleted once and the
    resource freed; schedules that do not keep them are not. *)

From stdpp Require Import base list numbers gmap.
From Stdlib Require Import ZArith Lia.
From S2P Require Import Prelude RefObjects CloseThreads.

(** ** Steps keep the invariant *)

Definition well (s : threads) : Prop := consistent (t_object s) (t_pcs s).

Lemma wake_no_wait l : count (at_pc AwaitWait) (wake <$> l) = 0.
Proof. induction l as [|[] l IH]; cbn [fmap list_fmap count wake at_pc Z.b2z]; done. Qed.

Ltac count_awake :=
  rewrite ?wake_no_wait, ?(count_wake pinned), ?(count_wake closing), ?(count_wake swapping), ?(count_wake destructing),
    ?(count_wake locking), ?(count_wake storing), ?(count_wake notifies), ?(count_wake unlocking), ?(count_wake awaiting),
    ?(count_wake (at_pc AwaitRetest)), ?(count_wake (at_pc AwaitUnlock)), ?(count_wake (at_pc DeleteMutex)),
    ?(count_wake (at_pc DeleteCond)), ?(count_wake (at_pc Free)), ?(count_wake requesting), ?(count_wake collecting),
    ?(count_wake holds_term) by (by intros []).

Lemma wake_consistent o l : consistent o l -> consistent o (wake <$> l).
Proof.
  intros [Hs Hp Hc Hl]. pose proof (count_nonneg notifies l). constructor.
  - by rewrite length_fmap.
  - destruct Hp; [apply POpen | apply PRequested | apply PLast | apply PDestructor | apply PDestroyed]; count_awake; done || lia.
  - destruct Hc; [apply CBefore | apply CClosing | apply CAwaiting | apply CFound | apply CMutex | apply CCond
                 | apply CFree | apply CReturned]; count_awake; try done; lia.
  - unfold owners in *. by count_awake.
Qed.

Lemma after_consistent b o l t p o' q :
  consistent o l -> l !! t = Some p -> timely (Run t) {| t_object := o; t_pcs := l |} = true ->
  (b = true -> count holds_term l = 0) -> (notifies p = true -> count (at_pc AwaitWait) l = 0) ->
  act b p o = Ok (Some (o', q)) -> consistent o' (<[t := q]> l).
Proof.
  intros C H Ht Hb Hn Ha. pose proof (object_refs_range o l C) as Hr. destruct C as [Hs Hp Hc Hl].
  cbn [timely t_pcs t_object] in Ht. rewrite H in Ht. constructor.
  - by rewrite length_insert.
  - eapply phase_after; try done. intros ->. lia.
  - eapply cleanup_after; try done. intros -> Hclose. rewrite <- Hl. rewrite Hclose in Ht.
    by destruct (c_locked o).
  - by eapply lock_after.
Qed.

Lemma step_at t s p :
  t_pcs s !! t = Some p -> p <> Done ->
  step t s =
    if negb (c_alloc (t_object s)) && negb (match p with EndUnlock _ => true | _ => false end) then Undef
    else
      let! r := act (forallb (fun q => negb (holds_term q)) (t_pcs s)) p (t_object s) in
      Ok (match r with
          | Some (o, q) => Some {| t_object := o; t_pcs := <[t := q]> (if notifies p then wake <$> t_pcs s else t_pcs s) |}
          | None => None
          end).
Proof. intros H Hd. unfold step. rewrite H. by destruct p. Qed.

Lemma step_well t s :
  well s -> timely (Run t) s = true ->
  step t s <> Undef /\ forall s', step t s = Ok (Some s') -> well s'.
Proof.
  intros C Ht. destruct s as [o l]. destruct (l !! t) as [p|] eqn:H; [| by unfold step; cbn [t_pcs]; rewrite H].
  destruct (decide (p = Done)) as [-> | Hd]; [by unfold step; cbn [t_pcs]; rewrite H |].
  rewrite (step_at t {| t_object := o; t_pcs := l |} p H Hd). cbn [t_pcs t_object].
  destruct (defined o l t p (forallb (fun q => negb (holds_term q)) l) C H Hd) as [-> Hdef]. cbn [negb andb].
  destruct (act _ p o) as [[[o' q]|]|] eqn:Ha; [| done | done]. cbn [obind]. split; [done |]. intros s' [= <-].
  unfold well. cbn [t_object t_pcs]. destruct (notifies p) eqn:Hn.
  - apply (after_consistent (forallb (fun q => negb (holds_term q)) l) o (wake <$> l) t p o' q); try done.
    + by apply wake_consistent.
    + rewrite list_lookup_fmap, H. by destruct p.
    + cbn. rewrite list_lookup_fmap, H. by destruct p.
    + count_awake. intros Hb. by apply count_none.
    + intros _. apply wake_no_wait.
  - apply (after_consistent (forallb (fun q => negb (holds_term q)) l) o l t p o' q); try done; [intros Hb | by rewrite Hn].
    by apply count_none.
Qed.

Lemma spurious_well t s : well s -> well (wake_one t s).
Proof.
  intros C. unfold wake_one. destruct (t_pcs s !! t) as [[]|] eqn:H; try done.
  unfold well in *. cbn [t_object t_pcs]. destruct C as [Hs Hp Hc Hl]. pose proof (count_at (at_pc AwaitWait) _ _ _ H).
  constructor.
  - by rewrite length_insert.
  - destruct Hp; find_phase H.
  - destruct Hc; find_cleanup H.
  - rewrite (owners_insert _ _ _ _ H). change (owners [AwaitWait]) with 0. change (owners [AwaitWoken]) with 0. lia.
Qed.

Lemma happens_well e s : well s -> timely e s = true -> exists s', happens e s = Ok s' /\ well s'.
Proof.
  intros C Ht. destruct e as [t|t]; cbn [happens].
  - destruct (step_well t s C Ht) as [Hd Hw]. destruct (step t s) as [[s'|]|]; [| | done]; cbn [obind default].
    + exists s'. split; [done |]. by apply Hw.
    + by exists s.
  - eexists. split; [reflexivity |]. by apply spurious_well.
Qed.

Lemma run_well l : forall s, well s -> all_timely l s = true -> exists s', run l s = Ok s' /\ well s'.
Proof.
  induction l as [|e l IH]; intros s C Ht; [by exists s |]. cbn [all_timely run] in *.
  apply andb_true_iff in Ht as [Ht Hl]. destruct (happens_well e s C Ht) as (s1 & Hs1 & C1).
  rewrite Hs1 in *. cbn [obind]. by apply IH.
Qed.

Lemma count_starting P l :
  forallb starting l = true -> (forall p, starting p = true -> P p = false) -> count P l = 0.
Proof.
  intros Hl HP. apply count_none. rewrite forallb_forall in *. intros p Hp. by rewrite HP by (by apply Hl).
Qed.

Lemma start_well l : start l -> well (opened l).
Proof.
  intros (Hl & Hc & Hn). unfold well, opened. cbn [t_object t_pcs].
  assert (Hz : forall P, (forall p, starting p = true -> P p = false) -> count P l = 0) by (intros; by apply count_starting).
  assert (Hh : count holding l = count pinned l).
  { clear -Hl. induction l as [|p l IH]; [done |]. cbn [count forallb] in *. apply andb_true_iff in Hl as [Hp Hl].
    rewrite IH by done. by destruct p. }
  constructor; [done | | |].
  - apply POpen; cbn [c_close c_db c_refs open_object]; rewrite ?Hh; try lia; try done; apply Hz; by intros [].
  - apply CBefore; cbn [c_mutex c_cond c_alloc open_object]; try done; apply Hz; by intros [].
  - cbn [c_locked open_object Z.b2z]. unfold owners. by rewrite !Hz by (by intros []).
Qed.

(** ** Every step is progress *)

(** A bound on the steps a thread has left. *)
Definition weight (p : pc) : Z :=
  match p with
  | UseTest => 21 | UseInc => 20 | UseCheck => 19 | UseBody => 18 | HoldUse => 18 | Release _ => 17 | DecSwap _ => 16
  | Destruct _ => 15 | EndLock _ => 14 | EndStore _ => 13 | EndNotify _ => 12 | EndUnlock _ => 9
  | CloseTest => 20 | InitTest _ => 19 | InitSwap _ => 18 | Collect => 20
  | AwaitTest => 8 | AwaitLock => 7 | AwaitWoken => 7 | AwaitRetest => 6 | AwaitWait => 5 | AwaitUnlock => 4
  | DeleteMutex => 3 | DeleteCond => 2 | Free => 1 | Done => 0
  end.

Fixpoint total (l : list pc) : Z := match l with [] => 0 | p :: r => weight p + total r end.

Lemma total_insert l t p q : l !! t = Some p -> total (<[t := q]> l) = total l - weight p + weight q.
Proof.
  revert t. induction l as [|r l IH]; intros [|t] H; cbn [lookup list_lookup] in H; simplify_eq.
  - cbn. lia.
  - change (<[S t := q]> (r :: l)) with (r :: <[t := q]> l). cbn [total]. rewrite (IH t H). lia.
Qed.

Lemma total_wake l : total (wake <$> l) = total l + 2 * count (at_pc AwaitWait) l.
Proof.
  induction l as [|p l IH]; [done |]. cbn [fmap list_fmap total count]. rewrite IH.
  destruct p; cbn [wake weight at_pc Z.b2z]; lia.
Qed.

Lemma total_bound l : 0 <= total l <= 21 * Z.of_nat (length l).
Proof. induction l as [|p l IH]; cbn [total length]; [lia |]. destruct p; cbn [weight]; lia. Qed.

Lemma act_lighter b p o o' q : act b p o = Ok (Some (o', q)) -> weight q < weight p - (if notifies p then 2 else 0).
Proof.
  destruct p as [| | | | |k|k|k|k|k|k|k| |k|k| | | | | | | | | | |]; try destruct k; cbn [act];
    unfold take_lock, drop_lock, return_to; intros Ha; repeat case_match; simplify_eq; cbn [weight notifies]; lia.
Qed.

Lemma waiting_once o l : consistent o l -> count (at_pc AwaitWait) l <= 1.
Proof.
  intros [_ _ Hc _]. pose proof (count_le (at_pc AwaitWait) awaiting l ltac:(by intros [])). destruct Hc; lia.
Qed.

Lemma step_lighter t s s' : well s -> step t s = Ok (Some s') -> total (t_pcs s') < total (t_pcs s).
Proof.
  intros C. destruct (t_pcs s !! t) as [p|] eqn:H; [| by unfold step; rewrite H].
  destruct (decide (p = Done)) as [-> | Hd]; [by unfold step; rewrite H |]. rewrite (step_at t _ p H Hd).
  destruct (negb _ && negb _); [done |]. destruct (act _ p _) as [[[o' q]|]|] eqn:Ha; try done. intros [= <-]. cbn [t_pcs].
  apply act_lighter in Ha. destruct (notifies p) eqn:Hn.
  - rewrite (total_insert _ _ (wake p)), total_wake by (by rewrite list_lookup_fmap, H).
    pose proof (waiting_once _ _ C). destruct p; try done. cbn [wake] in *. lia.
  - rewrite (total_insert _ _ p) by done. lia.
Qed.

(** ** No deadlock *)

Lemma count_exists P l : 0 < count P l -> exists t p, l !! t = Some p /\ P p = true.
Proof.
  induction l as [|p l IH]; cbn [count]; [done |]. destruct (P p) eqn:E; cbn [Z.b2z]; intros H.
  - by exists 0%nat, p.
  - destruct IH as (t & q & Ht & Hq); [lia |]. by exists (S t), q.
Qed.

Lemma count_absent P l : (forall t p, l !! t = Some p -> P p = false) -> count P l = 0.
Proof.
  intros H. pose proof (count_nonneg P l). destruct (Z.eq_dec (count P l) 0) as [E|E]; [done |].
  destruct (count_exists P l ltac:(lia)) as (t & p & Ht & Hp). by rewrite (H t p Ht) in Hp.
Qed.

(** What may block a thread. *)
Definition blocks (o : object) (p : pc) : bool :=
  match p with
  | EndLock _ | AwaitLock | AwaitWoken => c_locked o
  | Collect | AwaitWait | Done => true
  | _ => false
  end.

Lemma blocked_why t s p : well s -> t_pcs s !! t = Some p -> step t s = Ok None -> blocks (t_object s) p = true.
Proof.
  intros C H Hs. destruct (decide (p = Done)) as [-> | Hd]; [done |]. rewrite (step_at t s p H Hd) in Hs.
  destruct (defined _ _ t p (forallb (fun q => negb (holds_term q)) (t_pcs s)) C H Hd) as [Ha Hdef].
  rewrite Ha in Hs. cbn [negb andb] in Hs. destruct (act _ p _) as [[[o q]|]|] eqn:E; [done | | done].
  revert E. clear. destruct p; cbn [act blocks]; unfold take_lock, drop_lock; repeat case_match; done.
Qed.

Lemma stuck_unlocked s : well s -> (forall t, step t s = Ok None) -> c_locked (t_object s) = false.
Proof.
  intros C Hs. destruct (c_locked (t_object s)) eqn:E; [exfalso | done].
  pose proof (i_lock _ _ C) as Hl. rewrite E in Hl. unfold owners in Hl. cbn [Z.b2z] in Hl.
  assert (Hno : forall P, (forall p, P p = true -> blocks (t_object s) p = false) -> count P (t_pcs s) = 0).
  { intros P HP. apply count_absent. intros t p Ht. destruct (P p) eqn:Ep; [| done].
    pose proof (blocked_why t s p C Ht (Hs t)) as Hb. by rewrite (HP p Ep) in Hb. }
  rewrite !Hno in Hl; [done | by intros [] ..].
Qed.

Lemma stuck_done s : well s -> (forall t, step t s = Ok None) -> Forall (fun p => p = Done) (t_pcs s).
Proof.
  intros C Hs. pose proof (stuck_unlocked s C Hs) as Hu.
  assert (Hb : forall t p, t_pcs s !! t = Some p -> p = Done \/ p = Collect \/ p = AwaitWait).
  { intros t p Ht. pose proof (blocked_why t s p C Ht (Hs t)) as Hb. destruct p; cbn [blocks] in Hb; try congruence; tauto. }
  assert (Hno : forall P, P Done = false -> P Collect = false -> P AwaitWait = false -> count P (t_pcs s) = 0).
  { intros P H1 H2 H3. apply count_absent. intros t p Ht. by destruct (Hb t p Ht) as [-> | [-> | ->]]. }
  apply Forall_lookup. intros t p Ht. destruct (Hb t p Ht) as [-> | [-> | ->]]; [done | exfalso ..].
  - specialize (Hs t). rewrite (step_at t s _ Ht ltac:(done)) in Hs.
    destruct (defined _ _ t _ true C Ht ltac:(done)) as [Ha _]. rewrite Ha in Hs. cbn [negb andb act] in Hs.
    assert (Hf : forallb (fun q => negb (holds_term q)) (t_pcs s) = true).
    { apply forallb_forall. intros q Hq. apply list_elem_of_In, list_elem_of_lookup in Hq as [i Hi].
      by destruct (Hb i q Hi) as [-> | [-> | ->]]. }
    by rewrite Hf in Hs.
  - pose proof (count_at awaiting _ _ _ Ht). pose proof (count_at (at_pc AwaitWait) _ _ _ Ht). cbn [awaiting at_pc Z.b2z] in *.
    destruct C as [_ Hp Hc _]. pose proof (Hno notifies eq_refl eq_refl eq_refl).
    pose proof (Hno pinned eq_refl eq_refl eq_refl). pose proof (Hno closing eq_refl eq_refl eq_refl).
    pose proof (Hno swapping eq_refl eq_refl eq_refl). pose proof (Hno destructing eq_refl eq_refl eq_refl).
    pose proof (Hno locking eq_refl eq_refl eq_refl). pose proof (Hno storing eq_refl eq_refl eq_refl).
    destruct Hc; try lia. destruct Hp; lia.
Qed.

(** ** What the threads at the start are for *)

(** A thread that is to request the close, and the cleanup callback. *)
Definition asks (p : pc) : bool := match p with CloseTest | InitTest _ | InitSwap _ | Collect => true | _ => false end.

Definition in_cleanup (p : pc) : bool :=
  match p with
  | Collect | AwaitUnlock | DeleteMutex | DeleteCond | Free => true
  | _ => awaiting p || requesting p
  end.

Definition history (l0 : list pc) (s : threads) : Prop :=
  (c_close (t_object s) = 0 -> count asks (t_pcs s) = count asks l0) /\
  (count asks l0 = 0 -> c_close (t_object s) = 0) /\
  count in_cleanup (t_pcs s) + Z.b2z (negb (c_alloc (t_object s))) = count collecting l0.

Lemma act_history b p o o' q :
  c_alloc o = true -> close_at p (c_close o) -> act b p o = Ok (Some (o', q)) ->
  (c_close o' = 0 -> c_close o = 0 /\ asks q = asks p) /\ (c_close o = 0 -> asks p = false -> c_close o' = 0) /\
  Z.b2z (in_cleanup q) + Z.b2z (negb (c_alloc o')) = Z.b2z (in_cleanup p).
Proof.
  intros Hal Hcl. destruct p as [| | | | |k|k|k|k|k|k|k| |k|k| | | | | | | | | | |]; try destruct k; cbn [act];
    unfold take_lock, drop_lock, return_to; intros Ha; tests; simplify_eq; cbn in *; rewrite ?Hal;
    split_and!; done || lia || congruence.
Qed.

Lemma step_history l0 t s s' : well s -> step t s = Ok (Some s') -> history l0 s -> history l0 s'.
Proof.
  intros C. destruct (t_pcs s !! t) as [p|] eqn:H; [| by unfold step; rewrite H].
  destruct (decide (p = Done)) as [-> | Hd]; [by unfold step; rewrite H |]. rewrite (step_at t s p H Hd).
  destruct (defined _ _ t p true C H Hd) as [Hal _]. rewrite Hal. cbn [negb andb].
  destruct (act _ p _) as [[[o' q]|]|] eqn:Ha; try done. intros [= <-] (H1 & H0 & H2).
  destruct (act_history _ _ _ _ _ Hal (phase_close _ _ _ _ (i_phase _ _ C) H) Ha) as (Hc & Hz0 & Hn). rewrite Hal in H2. unfold history. cbn [t_object t_pcs].
  assert (Hins : forall P, (forall p, P (wake p) = P p) ->
            count P (<[t := q]> (if notifies p then wake <$> t_pcs s else t_pcs s)) = count P (t_pcs s) - Z.b2z (P p) + Z.b2z (P q)).
  { intros P HP. destruct (notifies p); [| by rewrite (count_insert P _ t p q)].
    rewrite (count_insert P _ t (wake p) q), count_wake, HP by (done || by rewrite list_lookup_fmap, H). done. }
  rewrite !Hins by (by intros []). cbn [negb Z.b2z] in *. split_and!; [| | lia].
  - intros Hz. destruct (Hc Hz) as [Hz' ->]. rewrite <- (H1 Hz'). lia.
  - intros Hno. specialize (H0 Hno). apply Hz0; [done |]. specialize (H1 H0). pose proof (count_at asks _ _ _ H).
    destruct (asks p); cbn [Z.b2z] in *; [lia | done].
Qed.

Lemma spurious_history l0 t s : history l0 s -> history l0 (wake_one t s).
Proof.
  unfold wake_one. destruct (t_pcs s !! t) as [[]|] eqn:H; try done. unfold history. cbn [t_object t_pcs].
  rewrite !(count_insert _ _ _ _ _ H). cbn. intros (H1 & H0 & H2). split_and!; [intros Hz; specialize (H1 Hz); lia | done | lia].
Qed.

(** ** Runs *)

(** The steps of a run that were not of a blocked thread, and the waits that ended
    without a notification. *)
Fixpoint moves (l : list event) (s : threads) : Z :=
  match l with
  | [] => 0
  | e :: r =>
      (match e with Run t => match step t s with Ok (Some _) => 1 | _ => 0 end | Spurious _ => 0 end) +
      match happens e s with Ok s1 => moves r s1 | Undef => 0 end
  end.

Fixpoint spurious (l : list event) : Z :=
  match l with [] => 0 | Run _ :: r => spurious r | Spurious _ :: r => 1 + spurious r end.

Lemma run_facts l0 l : forall s, well s -> history l0 s -> all_timely l s = true ->
  exists s', run l s = Ok s' /\ well s' /\ history l0 s' /\
    moves l s + total (t_pcs s') <= total (t_pcs s) + 2 * spurious l.
Proof.
  induction l as [|e l IH]; intros s C Hh Ht; [exists s; split_and!; cbn [moves spurious]; done || lia |].
  cbn [all_timely run moves] in *. apply andb_true_iff in Ht as [Ht Hl].
  destruct (happens_well e s C Ht) as (s1 & Hs1 & C1). rewrite Hs1 in *. cbn [obind].
  assert (Hstep : history l0 s1 /\
            (match e with Run t => match step t s with Ok (Some _) => 1 | _ => 0 end | Spurious _ => 0 end) + total (t_pcs s1)
              <= total (t_pcs s) + 2 * (spurious (e :: l) - spurious l)).
  { destruct e as [t|t]; cbn [happens spurious] in *.
    - destruct (step t s) as [[s2|]|] eqn:E; [injection Hs1 as <- | injection Hs1 as <- | done].
      + split; [by apply (step_history l0 t s) |]. pose proof (step_lighter t s _ C E). lia.
      + split; [done | lia].
    - simplify_eq. split; [by apply spurious_history |]. unfold wake_one.
      destruct (t_pcs s !! t) as [[]|] eqn:E; cbn [t_pcs]; try lia. rewrite (total_insert _ _ _ _ E). cbn [weight]. lia. }
  destruct Hstep as [Hh1 Hw]. destruct (IH s1 C1 Hh1 Hl) as (s' & -> & C' & Hh' & Hm).
  exists s'. split_and!; try done. lia.
Qed.

Lemma start_history l : start l -> history l (opened l).
Proof.
  intros (Hl & _ & _). split; [done |]. split; [done |]. cbn [opened t_object t_pcs open_object c_alloc negb Z.b2z].
  clear -Hl. induction l as [|p l IH]; [done |]. cbn [count forallb] in *. apply andb_true_iff in Hl as [Hp Hl].
  specialize (IH Hl). destruct p; try done; cbn [in_cleanup collecting awaiting requesting orb Z.b2z] in *; lia.
Qed.

(** ** One thread alone *)

(** The object of the sequential model, and what a step wrote to it. *)
Definition shared (o : obj) : object :=
  {| c_refs := m_RefCount o; c_close := m_CloseRequested o; c_db := m_Native o; c_mutex := true; c_locked := false;
     c_cond := true; c_alloc := true |}.

Definition written (c : object) (o : obj) : obj := set_refs (c_refs c) (set_close (c_close c) (set_native (c_db c) o)).

Definition alone (n : nat) (p : pc) (o : obj) : outcome threads :=
  run (replicate n (Run 0)) {| t_object := shared o; t_pcs := [p] |}.

(** A database without children, or a backup engine. *)
Definition childless (o : obj) : Prop :=
  is_child (o_kind o) = false /\ m_ItrList o = [] /\ m_ColumnFamilyList o = [] /\ m_SnapshotList o = [] /\
  m_TLogItrList o = [] /\ m_TransactionList o = [].

Lemma drained k h d o : h !! d = Some o -> get_list k o = [] -> drain_all k h d = Ok h.
Proof. intros Ho Hl. unfold drain_all, deref. rewrite Ho. cbn [obind]. rewrite Hl. cbn [length drain]. unfold deref. rewrite Ho. cbn [obind]. by rewrite Hl. Qed.

Lemma childless_Shutdown h d o : h !! d = Some o -> childless o -> Shutdown h d = root_RefDec h d.
Proof.
  intros Ho (Hk & H1 & H2 & H3 & H4 & H5). unfold Shutdown, deref. rewrite Ho. cbn [obind].
  destruct (o_kind o); try done. unfold DbObject_Shutdown.
  rewrite (drained KItr h d o Ho H1). cbn [obind]. rewrite (drained KColumnFamily h d o Ho H2). cbn [obind].
  rewrite (drained KSnapshot h d o Ho H3). cbn [obind]. rewrite (drained KTLogItr h d o Ho H4). cbn [obind].
  by rewrite (drained KTransaction h d o Ho H5).
Qed.

Lemma root_RefDec_alone h d o k :
  h !! d = Some o -> m_Native o = true -> k <> AfterCleanup ->
  exists c, alone 7 (Release k) o = Ok {| t_object := c; t_pcs := [Done] |} /\ root_RefDec h d = Ok (<[d := written c o]> h).
Proof.
  intros Ho Hn Hk. unfold root_RefDec, RefDec_with, root_dtor, ErlRefObject_dtor, deref. rewrite Ho. cbn [obind].
  assert (Hd : return_to k = Done) by (by destruct k). unfold alone. cbn [replicate run happens].
  unfold step at 1. cbn [t_pcs t_object lookup list_lookup shared c_alloc negb andb act obind c_refs].
  destruct (u32 (m_RefCount o - 1) =? 0) eqn:Ez; cbn [andb].
  - destruct (m_CloseRequested o =? 1) eqn:Ec.
    + cbn. rewrite Ec. cbn. rewrite Hn. cbn. rewrite Hd. eexists. split; [reflexivity |].
      rewrite !lookup_insert_eq. cbn [obind]. rewrite !lookup_insert_eq. cbn [obind]. rewrite !insert_insert_eq. done.
    + cbn. rewrite Ec. cbn. rewrite Hd. eexists. split; [reflexivity |]. by destruct o.
  - cbn. rewrite Hd. eexists. split; [reflexivity |]. by destruct o.
Qed.

Lemma written_twice c o z : written c (set_close z o) = written c o.
Proof. done. Qed.

(** ** Theorems *)

(** C3.  Safety: any number of threads use an open database, close it, or release the
    reference of a child, and the runtime calls the cleanup callback once, when no term is
    left.  On every schedule in which a reference is never taken after the last one was
    released, and the cleanup callback does not find the destructor done while it still
    has its mutex, no step is undefined (no use of a deleted database, mutex, condition
    variable or of freed memory, no second destructor), the count is the number of the
    references, a thread with a reference has the database, at most one thread is in the
    destructor, and after the resource is freed every thread is done. *)
Theorem close_protocol_safe (l : list pc) (sched : list event) :
  start l -> all_timely sched (opened l) = true ->
  exists s, run sched (opened l) = Ok s /\
    let o := t_object s in let ps := t_pcs s in
    c_refs o = count pinned ps + count closing ps + Z.b2z (c_close o =? 0) /\
    (forall t p, ps !! t = Some p -> pinned p = true -> c_db o = true) /\
    count destructing ps + count locking ps + count storing ps + count notifies ps + count unlocking ps <= 1 /\
    (c_alloc o = false -> Forall (fun p => p = Done) ps).
Proof.
  intros Hs Ht. destruct (run_well sched (opened l) (start_well l Hs) Ht) as (s & Hrun & C). exists s. split; [done |].
  cbv zeta. split_and!.
  - destruct C as [_ Hp _ _]. destruct Hp as [E|E|E|E|E]; rewrite E; cbn [Z.eqb Z.b2z]; lia.
  - intros t p H Hpin. pose proof (count_at pinned _ _ _ H) as Hc. rewrite Hpin in Hc. cbn [Z.b2z] in Hc.
    destruct C as [_ Hp _ _]. destruct Hp; done || lia.
  - destruct C as [_ Hp _ _]. destruct Hp; lia.
  - intros Ha. apply Forall_lookup. intros t p H. destruct (decide (p = Done)) as [-> | Hd]; [done |]. exfalso.
    destruct (defined _ _ t p true C H Hd) as [Ha' _]. congruence.
Qed.

(** C12.  Liveness: on such a schedule there are at most twenty-one steps for each thread
    (and two more for each wait that ends without a notification), and a state in which no
    thread can run has every thread done: nothing deadlocks and no notification is lost.
    There the database was deleted if a thread was to close it, and is open otherwise; and
    the mutex, the condition variable and the memory are gone if the cleanup callback was
    to run, and only then. *)
Theorem close_protocol_ends (l : list pc) (sched : list event) (s : threads) :
  start l -> all_timely sched (opened l) = true -> run sched (opened l) = Ok s ->
  moves sched (opened l) <= 21 * Z.of_nat (length l) + 2 * spurious sched /\
  ((forall t, step t s = Ok None) ->
   Forall (fun p => p = Done) (t_pcs s) /\
   c_locked (t_object s) = false /\
   c_db (t_object s) = (count asks l =? 0) /\
   c_close (t_object s) = (if count asks l =? 0 then 0 else 3) /\
   c_mutex (t_object s) = (count collecting l =? 0) /\ c_cond (t_object s) = (count collecting l =? 0) /\
   c_alloc (t_object s) = (count collecting l =? 0)).
Proof.
  intros Hs Ht Hrun. destruct (run_facts l sched _ (start_well l Hs) (start_history l Hs) Ht) as (s' & Hrun' & C & Hh & Hm).
  rewrite Hrun in Hrun'. injection Hrun' as <-.
  pose proof (total_bound l). pose proof (total_bound (t_pcs s)). cbn [opened t_pcs] in Hm. split; [lia |].
  intros Hstuck. pose proof (stuck_done s C Hstuck) as Hd. split; [done |]. split; [by apply stuck_unlocked |].
  assert (Hno : forall P, P Done = false -> count P (t_pcs s) = 0).
  { intros P HP. apply count_absent. intros t p H1. by rewrite (proj1 (Forall_lookup _ _) Hd t p H1). }
  destruct Hh as (Hask & Hopen & Hcol). destruct C as [_ Hp Hc _]. rewrite (Hno in_cleanup eq_refl) in Hcol.
  pose proof (Hno pinned eq_refl). pose proof (Hno closing eq_refl). pose proof (Hno swapping eq_refl).
  pose proof (Hno destructing eq_refl). pose proof (Hno locking eq_refl). pose proof (Hno storing eq_refl).
  pose proof (Hno requesting eq_refl). pose proof (Hno awaiting eq_refl). pose proof (Hno (at_pc AwaitUnlock) eq_refl).
  pose proof (Hno (at_pc DeleteMutex) eq_refl). pose proof (Hno (at_pc DeleteCond) eq_refl). pose proof (Hno (at_pc Free) eq_refl).
  rewrite (Hno asks eq_refl) in Hask. split_and!.
  1, 2: destruct Hp; destruct (Z.eqb_spec (count asks l) 0); done || lia.
  all: destruct Hc; match goal with E : c_alloc _ = _ |- _ => rewrite E in Hcol end; cbn [negb Z.b2z] in Hcol;
    destruct (Z.eqb_spec (count collecting l) 0); done || lia.
Qed.

(** The two orders are needed, and nothing in the code keeps them.  A native function
    tests [m_CloseRequested], a concurrent close releases the last reference, the function
    takes its reference and finds [m_Db] set, the close runs the destructor, and the
    function uses the deleted database.  And the thread that releases the last child runs
    the destructor, the cleanup callback reads 3 before the destructor has notified and
    unlocked, and deletes the locked mutex. *)
Theorem close_protocol_races :
  (let sched := [Run 0; Run 1; Run 1; Run 1; Run 1; Run 0; Run 0; Run 1; Run 1]%nat in
   exists s, run sched (opened [UseTest; CloseTest]) = Ok s /\ t_pcs s !! 0%nat = Some UseBody /\
     c_db (t_object s) = false /\ step 0 s = Undef) /\
  (let sched := [Run 1; Run 1; Run 1; Run 1; Run 0; Run 0; Run 0; Run 0; Run 0; Run 0; Run 1]%nat in
   exists s, run sched (opened [HoldUse; Collect]) = Ok s /\ t_pcs s = [EndNotify AfterHold; DeleteMutex] /\
     c_locked (t_object s) = true /\ step 1 s = Undef).
Proof. split; eexists; (split; [vm_compute; reflexivity |]); split_and!; reflexivity. Qed.

(** A thread that runs alone does what the sequential model says: on a database
    without children or a backup engine, the steps of [RefDec] and those of
    [InitiateCloseRequest], destructor included, leave the object as those functions of
    [RefObjects] do. *)
Theorem alone_is_sequential (h : heap) (d : nat) (o : obj) :
  h !! d = Some o -> childless o -> m_Native o = true ->
  (exists c, alone 7 (Release AfterUse) o = Ok {| t_object := c; t_pcs := [Done] |} /\
     RefDec h d = Ok (<[d := written c o]> h)) /\
  (exists c, alone 9 (InitTest AfterClose) o = Ok {| t_object := c; t_pcs := [Done] |} /\
     InitiateCloseRequest h d = Ok (<[d := written c o]> h)).
Proof.
  intros Ho Hc Hn. split.
  - unfold RefDec, deref. rewrite Ho. cbn [obind]. destruct Hc as [-> _]. by apply root_RefDec_alone.
  - unfold InitiateCloseRequest, deref. rewrite Ho. cbn [obind]. destruct (m_CloseRequested o =? 0) eqn:E.
    + pose proof (lookup_insert_eq h d (set_close 1 o)) as Ho1.
      rewrite (childless_Shutdown _ d (set_close 1 o) Ho1 Hc).
      destruct (root_RefDec_alone _ d (set_close 1 o) AfterClose Ho1 Hn ltac:(done)) as (c & Hrun & ->).
      exists c. rewrite insert_insert_eq, written_twice. split; [| done]. rewrite <- Hrun. unfold alone.
      cbn [replicate run happens]. unfold step at 1. cbn. rewrite E. cbn. unfold step at 1. cbn. rewrite E. done.
    + exists (shared o). split; [unfold alone; cbn; rewrite E; done |]. rewrite insert_id; [done |]. rewrite Ho. by destruct o.
Qed.

(** ** Witnesses *)

Module CloseWitness.

(** Two users, a close, a child and the cleanup callback; the users take their references
    before the close, the child is released after it, and the callback waits for it. *)
Definition the_threads : list pc := [UseTest; UseTest; CloseTest; HoldUse; Collect].

Definition turns (t n : nat) : list event := replicate n (Run t).

Definition the_schedule : list event :=
  turns 0 2 ++ turns 1 2 ++ turns 2 4 ++ turns 0 3 ++ turns 1 3 ++ turns 4 8 ++ [Spurious 4] ++ turns 4 3 ++
  turns 3 9 ++ turns 4 8.

Lemma the_start : start the_threads.
Proof. split_and!; vm_compute; done. Qed.

Lemma close_protocol_safe_witness :
  exists s, run the_schedule (opened the_threads) = Ok s /\
    let o := t_object s in let ps := t_pcs s in
    c_refs o = count pinned ps + count closing ps + Z.b2z (c_close o =? 0) /\
    (forall t p, ps !! t = Some p -> pinned p = true -> c_db o = true) /\
    count destructing ps + count locking ps + count storing ps + count notifies ps + count unlocking ps <= 1 /\
    (c_alloc o = false -> Forall (fun p => p = Done) ps).
Proof. apply (close_protocol_safe the_threads the_schedule); [apply the_start | vm_compute; reflexivity]. Defined.

Definition the_end : threads :=
  match run the_schedule (opened the_threads) with Ok s => s | Undef => opened [] end.

Lemma nobody_runs (s : threads) : forallb (fun p => bool_decide (p = Done)) (t_pcs s) = true -> forall t, step t s = Ok None.
Proof.
  intros H t. unfold step. destruct (t_pcs s !! t) as [p|] eqn:E; [| done]. rewrite forallb_forall in H.
  specialize (H p (proj1 (list_elem_of_In _ _) (list_elem_of_lookup_2 _ _ _ E))). by apply bool_decide_eq_true in H as ->.
Qed.

Lemma close_protocol_ends_witness :
  moves the_schedule (opened the_threads) <= 21 * 5 + 2 * 1 /\ c_alloc (t_object the_end) = false /\ c_db (t_object the_end) = false.
Proof.
  destruct (close_protocol_ends the_threads the_schedule the_end) as [H1 H2];
    [apply the_start | vm_compute; reflexivity | vm_compute; reflexivity |].
  split; [exact H1 |].
  destruct H2 as (_ & _ & H3 & _ & _ & _ & H4); [apply nobody_runs; vm_compute; reflexivity |].
  split; [exact H4 | exact H3].
Defined.

Definition the_obj : obj := set_refs 1 (new_obj KDb None).

Lemma alone_is_sequential_witness :
  exists c, alone 9 (InitTest AfterClose) the_obj = Ok {| t_object := c; t_pcs := [Done] |} /\
    InitiateCloseRequest {[0%nat := the_obj]} 0 = Ok (<[0%nat := written c the_obj]> {[0%nat := the_obj]}).
Proof.
  apply (alone_is_sequential {[0%nat := the_obj]} 0 the_obj); [reflexivity | repeat split | reflexivity].
Defined.

End CloseWitness.
