(* ===== verification/HandleNif.v ===== *)
(** * Native functions on handles

    The functions that open, create, release and close handles:
    [erocksdb_snapshot.cc], the column-family drop and destroy of
    [erocksdb_column_family.cc], [Close] of [erocksdb_db.cc], [IteratorClose],
    the transaction-log iterator's open and close, the creation and release of
    transactions, and [CloseBackupEngine].  Each is a function from the heap and
    the argument terms to the new heap and the reply; [ReferencePtr] locals are
    released where the C++ scope ends.

    What RocksDB answers (the status of a call, whether a log iterator is valid)
    is an argument. *)

From stdpp Require Import base list numbers strings gmap.
From Stdlib Require Import ZArith Lia.
From S2P Require Import Prelude Terms RefObjects RefInv RefSystem.

(** ** Closing without a reference *)

(** The common shape of [Close], [CloseBackupEngine], [IteratorClose] and
    [TransactionLogIteratorClose]. *)
Definition close_or_badarg (retrieve : heap -> term -> outcome (option nat)) (h : heap)
    (argv : list term) : outcome (heap * reply) :=
  let! t := elem argv 0 in
  let! p := retrieve h t in
  match p with
  | None => Ok (h, Badarg)
  | Some id => let! h1 := InitiateCloseRequest h id in Ok (h1, Reply ATOM_OK)
  end.

Definition Close := close_or_badarg RetrieveDbObject.
Definition CloseBackupEngine := close_or_badarg RetrieveBackupEngineObject.
Definition IteratorClose := close_or_badarg (RetrieveItrObject true).
Definition TransactionLogIteratorClose := close_or_badarg RetrieveTLogItrObject.

(** ** Releasing *)

(** [ReleaseSnapshot] and the two releases of a transaction: the object is
    pinned during the call; a handle that is already closed is accepted. *)
Definition release_handle (retrieve : heap -> term -> outcome (option nat)) (h : heap)
    (argv : list term) : outcome (heap * reply) :=
  let! t := elem argv 0 in
  let! p := retrieve h t in
  let! h1 := assign h None p in
  match p with
  | None => Ok (h1, Reply ATOM_OK)
  | Some id =>
      let! h2 := InitiateCloseRequest h1 id in
      let! h3 := release h2 p in
      Ok (h3, Reply ATOM_OK)
  end.

Definition ReleaseSnapshot := release_handle RetrieveSnapshotObject.
Definition ReleaseTransaction := release_handle RetrieveTransactionObject.
Definition ReleasePessimisticTransaction := release_handle RetrieveTransactionObject.

(** ** Creating under a database *)

(** Create a child of the database in the first argument while it is pinned, and
    reply with its handle. *)
Definition create_under (k : obj_kind) (create : heap -> nat -> outcome (heap * nat)) (h : heap)
    (argv : list term) : outcome (heap * reply) :=
  let! t := elem argv 0 in
  let! (h1, p) := enif_get_db h t in
  match p with
  | None => Ok (h1, Badarg)
  | Some d =>
      let! (h2, id) := create h1 d in
      let! h3 := release h2 p in
      Ok (h3, Reply (Ttuple [ATOM_OK; Tres (res_kind_of k) id]))
  end.

Definition Snapshot := create_under KSnapshot CreateSnapshotObject.

(** [m_Db] is cast to an [OptimisticTransactionDB] without a test.  [optimistic] says
    which databases were opened as such; calling [BeginTransaction] on another
    object is undefined. *)
Definition NewTransaction (optimistic : nat -> bool) (h : heap) (argv : list term) :
    outcome (heap * reply) :=
  if negb (length argv =? 2)%nat then Ok (h, Badarg)
  else create_under KTransaction (fun h d =>
    if optimistic d then CreateTransactionObject h d else Undef) h argv.

(** [GetUpdatesSince] answers with a status and, when it is OK, an iterator that
    is or is not valid. *)
Definition TransactionLogIterator (status : Status) (valid : bool) (h : heap) (argv : list term) :
    outcome (heap * reply) :=
  let! t := elem argv 0 in
  let! (h1, p) := enif_get_db h t in
  match p with
  | None => Ok (h1, Badarg)
  | Some d =>
      let! since := elem argv 1 in
      match enif_get_int64 since with
      | None => let! h2 := release h1 p in Ok (h2, Badarg)
      | Some _ =>
          if negb (status_ok status)
          then let! h2 := release h1 p in Ok (h2, Reply (error_tuple ATOM_ERROR status))
          else if negb valid
          then let! h2 := release h1 p in
               Ok (h2, Reply (Ttuple [ATOM_ERROR; ATOM_INVALID_ITERATOR]))
          else
            let! (h2, id) := CreateTLogItrObject h1 d in
            let! h3 := release h2 p in
            Ok (h3, Reply (Ttuple [ATOM_OK; Tres RTLogItr id]))
      end
  end.

(** ** Reading a snapshot *)

(** [seq] is the sequence number RocksDB holds for the snapshot. *)
Definition GetSnapshotSequenceNumber (seq : Z) (h : heap) (argv : list term) :
    outcome (heap * reply) :=
  let! t := elem argv 0 in
  let! p := RetrieveSnapshotObject h t in
  let! h1 := assign h None p in
  match p with
  | None => Ok (h1, Badarg)
  | Some id =>
      let! o := deref h1 id in
      if m_Native o
      then let! h2 := release h1 p in Ok (h2, Reply (Tint seq))
      else Undef
  end.

(** ** Column families *)

(** The database and the column family of [drop_column_family] and
    [destroy_column_family], in the forms [(Cf)] and [(Db, Cf)]: the heap with
    both pinned, the database whose [m_Db] is used, the column family, and the
    pins to release. *)
Definition cf_arguments (h : heap) (argv : list term) :
    outcome (heap * option (nat * nat * list nat)) :=
  match argv with
  | t0 :: t1 :: _ =>
      let! (h1, db) := enif_get_db h t0 in
      match db with
      | None => Ok (h1, None)
      | Some d =>
          let! (h2, cf) := enif_get_cf h1 t1 in
          match cf with
          | None => let! h3 := release h2 db in Ok (h3, None)
          | Some c => Ok (h2, Some (d, c, [c; d]))
          end
      end
  | [t0] =>
      let! (h1, cf) := enif_get_cf h t0 in
      match cf with
      | None => Ok (h1, None)
      | Some c =>
          let! o := deref h1 c in
          match m_DbPtr o with
          | Some d => Ok (h1, Some (d, c, [c]))
          | None => Undef
          end
      end
  | [] => Undef
  end.

Fixpoint release_all (h : heap) (pins : list nat) : outcome heap :=
  match pins with
  | [] => Ok h
  | i :: r => let! h1 := RefDec h i in release_all h1 r
  end.

(** [db->DropColumnFamily(cf->m_ColumnFamily)] needs both handles. *)
Definition DropColumnFamily (status : Status) (h : heap) (argv : list term) :
    outcome (heap * reply) :=
  let! (h1, args) := cf_arguments h argv in
  match args with
  | None => Ok (h1, Badarg)
  | Some (d, c, pins) =>
      let! db := deref h1 d in
      let! cf := deref h1 c in
      if m_Native db && m_Native cf then
        let! h2 := release_all h1 pins in
        Ok (h2, Reply (if status_ok status then ATOM_OK else error_tuple ATOM_ERROR status))
      else Undef
  end.

(** [cf->m_ColumnFamily] is set to NULL whatever the status. *)
Definition DestroyColumnFamily (status : Status) (h : heap) (argv : list term) :
    outcome (heap * reply) :=
  let! (h1, args) := cf_arguments h argv in
  match args with
  | None => Ok (h1, Badarg)
  | Some (d, c, pins) =>
      let! db := deref h1 d in
      if negb (m_Native db) then Undef
      else
        let! cf := deref h1 c in
        let h2 := <[c := set_native false cf]> h1 in
        if status_ok status then
          let! h3 := InitiateCloseRequest h2 c in
          let! h4 := release_all h3 pins in
          Ok (h4, Reply ATOM_OK)
        else
          let! h3 := release_all h2 pins in
          Ok (h3, Reply (error_tuple ATOM_ERROR status))
  end.

(** ** Lemmas *)

(** The resources among the arguments are allocated objects of their type: the
    runtime keeps the resources of a call's arguments. *)
Definition valid_term (h : heap) (t : term) : Prop :=
  forall k id, t = Tres (res_kind_of k) id -> exists o, h !! id = Some o /\ o_kind o = k.

Lemma valid_evolves h h' t : evolves h h' -> valid_term h t -> valid_term h' t.
Proof.
  intros He Hv k id Ht. destruct (Hv k id Ht) as (o & Ho & Hk).
  destruct (evolves_lookup _ _ _ _ He Ho) as (o' & Ho' & Hev).
  exists o'. split; [done |]. by rewrite (ev_kind _ _ Hev).
Qed.

Lemma retrieve_spec k ic h pins t :
  INV h pins -> valid_term h t ->
  exists p, Retrieve k ic h t = Ok p /\
    forall id, p = Some id -> exists o, h !! id = Some o /\ m_CloseRequested o = 0 /\ o_kind o = k.
Proof.
  intros HI Hv. destruct (Retrieve k ic h t) as [p|] eqn:E.
  - exists p. split; [done |]. intros id ->. pose proof E as E'.
    apply retrieve_open in E as (o & Ho & Hc & ->).
    destruct (Hv k id eq_refl) as (o' & Ho' & Hk). exists o. simplify_eq. done.
  - exfalso. unfold Retrieve in E. destruct t as [| | | | | | | |rk id|]; try done.
    cbn [enif_get_resource] in E. destruct (decide (res_kind_of k = rk)) as [<- | Hk]; [| done].
    destruct (Hv k id eq_refl) as (o & Ho & Hk). unfold deref in E. rewrite Ho in E. cbn [obind] in E.
    destruct (m_CloseRequested o =? 0) eqn:Ec; cbn [negb] in E; [| done].
    destruct (decide (k = KItr)) as [-> | Hn]; [| done]. destruct ic; [done |].
    destruct (live_child h pins id o HI Ho) as (d & db & Hd & Hdb & _); [by rewrite Hk | lia |].
    rewrite Hd, Hdb in E. cbn [obind] in E. by case_match.
Qed.

(** A pin taken by a call: the heap evolves and the invariant counts it. *)
Lemma pin_spec h pins id o :
  INV h pins -> room h pins -> h !! id = Some o -> m_CloseRequested o = 0 ->
  exists h1, assign h None (Some id) = Ok h1 /\ INV h1 (id :: pins) /\ evolves h h1 /\
    h1 !! id = Some (set_refs (m_RefCount o + 1) o) /\ (forall j, j <> id -> h1 !! j = h !! j).
Proof.
  intros HI Hroom Ho Hc.
  destruct (inv_RefInc h pins id o HI (room_small _ _ Hroom) Ho) as (o' & E & HI' & ->); [lia |].
  unfold assign. rewrite decide_False by done. cbn [obind]. rewrite E.
  eexists. split_and!; try done.
  - apply (evolves_insert h id o); [done | apply refs_evolves].
  - by rewrite lookup_insert_eq.
  - intros j Hj. by rewrite lookup_insert_ne.
Qed.

Lemma room_evolves h h' pins pins' :
  evolves h h' -> (length pins' <= length pins)%nat -> room h pins -> room h' pins'.
Proof. intros He Hl. unfold room. rewrite (evolves_size h h' He). lia. Qed.

(** [enif_get_db] and the others on a valid argument. *)
Lemma get_ref_spec k h pins t :
  INV h pins -> room h pins -> valid_term h t ->
  (get_ref k h t = Ok (h, None) /\ Retrieve k false h t = Ok None) \/
  (exists h1 id o, get_ref k h t = Ok (h1, Some id) /\ Retrieve k false h t = Ok (Some id) /\
     INV h1 (id :: pins) /\ evolves h h1 /\ h !! id = Some o /\ o_kind o = k /\
     m_CloseRequested o = 0 /\ h1 = <[id:=set_refs (m_RefCount o + 1) o]> h).
Proof.
  intros HI Hroom Hv. unfold get_ref.
  destruct (retrieve_spec k false h pins t HI Hv) as ([id|] & -> & Hp); cbn [obind].
  - destruct (Hp id eq_refl) as (o & Ho & Hc & Hk). right.
    destruct (inv_RefInc h pins id o HI (room_small _ _ Hroom) Ho) as (o' & E & HI' & ->); [lia |].
    exists (<[id:=set_refs (m_RefCount o + 1) o]> h), id, o.
    unfold assign. rewrite decide_False by done. cbn [obind]. rewrite E. cbn [obind].
    unfold deref. rewrite lookup_insert_eq. cbn [obind].
    assert (Hnat : k = KDb -> m_Native o = true).
    { intros ->. apply (oi_native _ _ _ _ (inv_obj _ _ HI _ _ Ho)); [lia | by rewrite Hk]. }
    split_and!; try done.
    + destruct k; cbn; rewrite ?Hnat by done; done.
    + apply (evolves_insert h id o); [done | apply refs_evolves].
  - left. done.
Qed.

(** ** The calls keep the invariant *)

Inductive handle_nif :=
| NClose | NCloseBackupEngine | NIteratorClose | NTransactionLogIteratorClose
| NReleaseSnapshot | NReleaseTransaction | NReleasePessimisticTransaction
| NSnapshot | NNewTransaction | NTransactionLogIterator (status : Status) (valid : bool)
| NGetSnapshotSequenceNumber (seq : Z)
| NDropColumnFamily (status : Status) | NDestroyColumnFamily (status : Status).

Definition run_nif (optimistic : nat -> bool) (n : handle_nif) :
    heap -> list term -> outcome (heap * reply) :=
  match n with
  | NClose => Close
  | NCloseBackupEngine => CloseBackupEngine
  | NIteratorClose => IteratorClose
  | NTransactionLogIteratorClose => TransactionLogIteratorClose
  | NReleaseSnapshot => ReleaseSnapshot
  | NReleaseTransaction => ReleaseTransaction
  | NReleasePessimisticTransaction => ReleasePessimisticTransaction
  | NSnapshot => Snapshot
  | NNewTransaction => NewTransaction optimistic
  | NTransactionLogIterator st v => TransactionLogIterator st v
  | NGetSnapshotSequenceNumber seq => GetSnapshotSequenceNumber seq
  | NDropColumnFamily st => DropColumnFamily st
  | NDestroyColumnFamily st => DestroyColumnFamily st
  end.

(** The number of arguments the function table of [erocksdb.cc] gives a call at
    least. *)
Definition nif_arity (n : handle_nif) : nat :=
  match n with NTransactionLogIterator _ _ => 2 | _ => 1 end.

(** The call is not a [NewTransaction] on a database of another class. *)
Definition class_matches (optimistic : nat -> bool) (n : handle_nif) (argv : list term) : Prop :=
  match n with
  | NNewTransaction => forall d, argv !! 0%nat = Some (Tres RDb d) -> optimistic d = true
  | _ => True
  end.

(** Every open column family still has its handle. *)
Definition cf_handles (h : heap) : Prop :=
  forall c o, h !! c = Some o -> o_kind o = KColumnFamily -> m_CloseRequested o = 0 ->
  m_Native o = true.

(** Room for the references a call takes. *)
Definition ample (h : heap) (pins : list nat) : Prop :=
  zlen pins + Z.of_nat (size h) + 16 < 2 ^ 32.

Lemma ample_room h pins l h' :
  ample h pins -> (size h' <= size h + 1)%nat -> (length l <= 3)%nat -> room h' (l ++ pins).
Proof. unfold ample, room. rewrite length_app. lia. Qed.

Lemma ample_evolves h pins l h' :
  ample h pins -> evolves h h' -> (length l <= 3)%nat -> room h' (l ++ pins).
Proof. intros Ha He Hl. apply (ample_room h); [done | | done]. rewrite (evolves_size h h' He). lia. Qed.

Lemma release_all_spec l h pins :
  INV h (l ++ pins) -> room h (l ++ pins) ->
  exists h', release_all h l = Ok h' /\ INV h' pins /\ evolves h h'.
Proof.
  revert h. induction l as [|i l IH]; intros h HI Hroom; cbn [release_all app] in *; [by exists h |].
  destruct (inv_RefDec h (l ++ pins) i HI) as (h1 & -> & HI1 & He1).
  { unfold room in Hroom. unfold small. cbn [length] in Hroom. lia. }
  cbn [obind]. destruct (IH h1 HI1) as (h2 & -> & HI2 & He2).
  { apply (room_evolves h h1 (i :: l ++ pins)); [done | cbn; lia | done]. }
  exists h2. split_and!; [done | done | by etransitivity].
Qed.

Lemma close_or_badarg_inv k ic h pins argv :
  INV h pins -> ample h pins -> Forall (valid_term h) argv -> (1 <= length argv)%nat ->
  exists h' r, close_or_badarg (Retrieve k ic) h argv = Ok (h', r) /\ INV h' pins.
Proof.
  intros HI Ha Hv Hl. destruct argv as [|t argv]; [cbn in Hl; lia |].
  apply Forall_cons in Hv as [Hv _]. unfold close_or_badarg. cbn [elem lookup list_lookup obind].
  destruct (retrieve_spec k ic h pins t HI Hv) as ([id|] & -> & Hp); cbn [obind]; [| by eexists _, _].
  destruct (Hp id eq_refl) as (o & Ho & _).
  destruct (inv_InitiateCloseRequest h pins id o HI) as (h' & -> & HI' & _); [| done |].
  - by apply (ample_evolves h pins []); [| | cbn; lia].
  - by eexists _, _.
Qed.

Lemma release_handle_inv k h pins argv :
  INV h pins -> ample h pins -> Forall (valid_term h) argv -> (1 <= length argv)%nat ->
  exists h' r, release_handle (Retrieve k false) h argv = Ok (h', r) /\ INV h' pins.
Proof.
  intros HI Ha Hv Hl. destruct argv as [|t argv]; [cbn in Hl; lia |].
  apply Forall_cons in Hv as [Hv _]. unfold release_handle. cbn [elem lookup list_lookup obind].
  destruct (retrieve_spec k false h pins t HI Hv) as ([id|] & -> & Hp); cbn [obind]; [| by eexists _, _].
  destruct (Hp id eq_refl) as (o & Ho & Hc & _).
  destruct (pin_spec h pins id o HI) as (h1 & -> & HI1 & He1 & Ho1 & _); try done.
  { by apply (ample_evolves h pins []); [| | cbn; lia]. }
  cbn [obind].
  destruct (inv_InitiateCloseRequest h1 (id :: pins) id (set_refs (m_RefCount o + 1) o) HI1) as (h2 & -> & HI2 & He2 & _);
    [by apply (ample_evolves h pins [id]); [| | cbn; lia] | done |].
  cbn [obind release].
  destruct (inv_RefDec h2 pins id HI2) as (h3 & -> & HI3 & _).
  { apply room_small. apply (ample_evolves h pins []); [done | by etransitivity | cbn; lia]. }
  by eexists _, _.
Qed.

(** Create a child of a pinned database and drop the pin. *)
Lemma create_release_inv k h pins d o :
  INV h (d :: pins) -> ample h pins -> h !! d = Some o -> o_kind o = KDb ->
  m_CloseRequested o <> 3 -> is_child k = true ->
  exists h2 id h3, CreateChild k h d = Ok (h2, id) /\ release h2 (Some d) = Ok h3 /\
    INV h2 (d :: pins) /\ INV h3 pins.
Proof.
  intros HI Ha Ho Hk Hc Hch.
  destruct (CreateChild_eq k h (d :: pins) d o HI) as (id & Hid & Hne & E); try done.
  { by apply (ample_evolves h pins [d]); [| | cbn; lia]. }
  pose proof (inv_link h (d :: pins) k id d o HI Hid Ho Hk Hc Hne Hch) as HI2. rewrite E.
  set (h2 := <[id:=_]> _) in *.
  destruct (inv_RefDec h2 pins d HI2) as (h3 & E3 & HI3 & _).
  { apply room_small. apply (ample_room h pins []); [done | | cbn; lia].
    unfold h2. rewrite map_size_insert_None by (by rewrite lookup_insert_ne).
    rewrite map_size_insert_Some by (by eexists). lia. }
  by exists h2, id, h3.
Qed.

Lemma create_under_inv k create h pins argv :
  INV h pins -> ample h pins -> Forall (valid_term h) argv -> (1 <= length argv)%nat ->
  is_child k = true ->
  (forall d h, argv !! 0%nat = Some (Tres RDb d) -> create h d = CreateChild k h d) ->
  exists h' r, create_under k create h argv = Ok (h', r) /\ INV h' pins.
Proof.
  intros HI Ha Hv Hl Hk Hcr. destruct argv as [|t argv]; [cbn in Hl; lia |].
  apply Forall_cons in Hv as [Hv _]. unfold create_under. cbn [elem lookup list_lookup obind].
  destruct (get_ref_spec KDb h pins t HI) as [[E _] | (h1 & d & o & E & _ & HI1 & He1 & Ho & Hkd & Hc & ->)];
    [by apply (ample_evolves h pins []); [| | cbn; lia] | done | |];
    unfold enif_get_db; rewrite E; cbn [obind]; [by eexists _, _ |].
  set (h1 := <[d:=_]> h) in *.
  assert (Ht : t = Tres RDb d).
  { unfold get_ref in E. destruct (Retrieve KDb false h t) as [[id|]|] eqn:Er; cbn [obind] in E; try done.
    apply retrieve_open in Er as (_ & _ & _ & ->). repeat (bind_step E || case_match); by simplify_eq. }
  rewrite (Hcr d) by (by rewrite Ht).
  destruct (create_release_inv k h1 pins d (set_refs (m_RefCount o + 1) o)) as (h2 & id & h3 & -> & E3 & _ & HI3);
    try done.
  - unfold ample in *. by rewrite (evolves_size h h1 He1).
  - unfold h1. by rewrite lookup_insert_eq.
  - cbn. lia.
  - cbn [obind]. rewrite E3. by eexists _, _.
Qed.

Lemma tlog_inv st v h pins argv :
  INV h pins -> ample h pins -> Forall (valid_term h) argv -> (2 <= length argv)%nat ->
  exists h' r, TransactionLogIterator st v h argv = Ok (h', r) /\ INV h' pins.
Proof.
  intros HI Ha Hv Hl. destruct argv as [|t [|t1 argv]]; [cbn in Hl; lia | cbn in Hl; lia |].
  apply Forall_cons in Hv as [Hv _]. unfold TransactionLogIterator. cbn [elem lookup list_lookup obind].
  destruct (get_ref_spec KDb h pins t HI) as [[E _] | (h1 & d & o & E & _ & HI1 & He1 & Ho & Hkd & Hc & ->)];
    [by apply (ample_evolves h pins []); [| | cbn; lia] | done | |];
    unfold enif_get_db; rewrite E; cbn [obind]; [by eexists _, _ |].
  set (h1 := <[d:=_]> h) in *.
  destruct (inv_RefDec h1 pins d HI1) as (h2 & E2 & HI2 & _).
  { apply room_small. by apply (ample_evolves h pins []); [| | cbn; lia]. }
  destruct (create_release_inv KTLogItr h1 pins d (set_refs (m_RefCount o + 1) o))
    as (hc & id & h3 & E3 & E4 & _ & HI3); try done.
  { unfold ample in *. by rewrite (evolves_size h h1 He1). } { unfold h1. by rewrite lookup_insert_eq. }
  { cbn. lia. }
  unfold release in *. destruct (enif_get_int64 t1); [| rewrite E2; by eexists _, _].
  destruct (status_ok st); cbn [negb]; [| rewrite E2; by eexists _, _].
  destruct v; cbn [negb]; [| rewrite E2; by eexists _, _].
  unfold CreateTLogItrObject. rewrite E3. cbn [obind]. rewrite E4. by eexists _, _.
Qed.

Lemma sequence_inv seq h pins argv :
  INV h pins -> ample h pins -> Forall (valid_term h) argv -> (1 <= length argv)%nat ->
  exists h' r, GetSnapshotSequenceNumber seq h argv = Ok (h', r) /\ INV h' pins.
Proof.
  intros HI Ha Hv Hl. destruct argv as [|t argv]; [cbn in Hl; lia |].
  apply Forall_cons in Hv as [Hv _]. unfold GetSnapshotSequenceNumber, RetrieveSnapshotObject.
  cbn [elem lookup list_lookup obind].
  destruct (retrieve_spec KSnapshot false h pins t HI Hv) as ([id|] & -> & Hp); cbn [obind];
    [| by eexists _, _].
  destruct (Hp id eq_refl) as (o & Ho & Hc & Hk).
  destruct (pin_spec h pins id o HI) as (h1 & -> & HI1 & He1 & Ho1 & _); try done.
  { by apply (ample_evolves h pins []); [| | cbn; lia]. }
  cbn [obind]. unfold deref. rewrite Ho1. cbn [obind].
  assert (Hn : m_Native o = true).
  { apply (oi_native _ _ _ _ (inv_obj _ _ HI _ _ Ho)); [lia | by rewrite Hk]. }
  cbn. rewrite Hn.
  destruct (inv_RefDec h1 pins id HI1) as (h3 & -> & HI3 & _).
  { apply room_small. by apply (ample_evolves h pins []); [| | cbn; lia]. }
  by eexists _, _.
Qed.

(** The arguments of the column-family calls: both objects are pinned, the
    database is open in the sense that its [m_Db] is there. *)
Lemma cf_arguments_spec h pins argv :
  INV h pins -> ample h pins -> Forall (valid_term h) argv -> (1 <= length argv)%nat ->
  (exists h1, cf_arguments h argv = Ok (h1, None) /\ INV h1 pins) \/
  (exists h1 d c l db cf, cf_arguments h argv = Ok (h1, Some (d, c, l)) /\
     INV h1 (l ++ pins) /\ evolves h h1 /\ (length l <= 2)%nat /\ c ∈ l /\
     h1 !! d = Some db /\ m_Native db = true /\ h1 !! c = Some cf /\ o_kind cf = KColumnFamily /\
     m_CloseRequested cf = 0 /\ (cf_handles h -> m_Native cf = true)).
Proof.
  intros HI Ha Hv Hl. destruct argv as [|t0 [|t1 argv]]; [cbn in Hl; lia | |].
  - apply Forall_cons in Hv as [Hv _]. unfold cf_arguments, enif_get_cf.
    destruct (get_ref_spec KColumnFamily h pins t0 HI) as [[-> _] | (h1 & c & o & -> & _ & HI1 & He1 & Ho & Hk & Hc & ->)];
      [by apply (ample_evolves h pins []); [| | cbn; lia] | done | left; by exists h | right]. cbn [obind].
    set (h1 := <[c:=_]> h) in *. unfold deref.
    assert (Hc1 : h1 !! c = Some (set_refs (m_RefCount o + 1) o)) by (unfold h1; by rewrite lookup_insert_eq).
    rewrite Hc1. cbn [obind].
    destruct (live_child h1 (c :: pins) c (set_refs (m_RefCount o + 1) o) HI1) as (d & db & Hd & Hdb & _ & _ & _ & Hn);
      [done | cbn; by rewrite Hk | cbn; lia |]. rewrite Hd.
    exists h1, d, c, [c], db, (set_refs (m_RefCount o + 1) o).
    split_and!; try done; [cbn; lia | by left |]. intros Hcf. cbn. by apply (Hcf c o).
  - apply Forall_cons in Hv as [Hv0 Hv]. apply Forall_cons in Hv as [Hv1 _].
    unfold cf_arguments, enif_get_db, enif_get_cf.
    destruct (get_ref_spec KDb h pins t0 HI) as [[-> _] | (h1 & d & o & -> & _ & HI1 & He1 & Ho & Hk & Hc & ->)];
      [by apply (ample_evolves h pins []); [| | cbn; lia] | done | left; by exists h |]. cbn [obind].
    set (h1 := <[d:=_]> h) in *.
    assert (Hd1 : h1 !! d = Some (set_refs (m_RefCount o + 1) o)) by (unfold h1; by rewrite lookup_insert_eq).
    assert (Hn : m_Native o = true).
    { apply (oi_native _ _ _ _ (inv_obj _ _ HI _ _ Ho)); [lia | by rewrite Hk]. }
    destruct (get_ref_spec KColumnFamily h1 (d :: pins) t1 HI1)
      as [[-> _] | (h2 & c & oc & -> & _ & HI2 & He2 & Hoc & Hck & Hcc & ->)];
      [by apply (ample_evolves h pins [d]); [| | cbn; lia] | by apply (valid_evolves h) | |]; cbn [obind].
    + left. destruct (inv_RefDec h1 pins d HI1) as (h3 & E3 & HI3 & _).
      { apply room_small. by apply (ample_evolves h pins []); [| | cbn; lia]. }
      unfold release. rewrite E3. by exists h3.
    + right. assert (Hcd : c <> d) by (intros ->; rewrite Hd1 in Hoc; simplify_eq; cbn in Hck; congruence).
      exists (<[c:=set_refs (m_RefCount oc + 1) oc]> h1), d, c, [c; d], (set_refs (m_RefCount o + 1) o),
        (set_refs (m_RefCount oc + 1) oc).
      split_and!; try done.
      * by etransitivity.
      * by left.
      * by rewrite lookup_insert_ne.
      * by rewrite lookup_insert_eq.
      * intros Hcf. cbn. apply (Hcf c oc); try done. unfold h1 in Hoc. by rewrite lookup_insert_ne in Hoc.
Qed.

(** Clearing the handle of an open column family. *)
Lemma inv_clear_handle h pins c o :
  INV h pins -> h !! c = Some o -> o_kind o = KColumnFamily ->
  INV (<[c:=set_native false o]> h) pins /\ evolves h (<[c:=set_native false o]> h).
Proof.
  intros HI Ho Hk. split.
  - destruct (inv_obj _ _ HI _ _ Ho) as [H1 H2 H3 H4 H5 H6 H7 H8 H9 H10].
    apply (inv_update h pins _ c o); try done; [intros j Hj; by apply (inv_pins _ _ HI) |].
    split; cbn; try done. intros H. by destruct (H3 H).
  - apply (evolves_insert h c o); [done |]. split; try done; intros []; done.
Qed.

Lemma drop_inv st h pins argv :
  INV h pins -> ample h pins -> Forall (valid_term h) argv -> (1 <= length argv)%nat -> cf_handles h ->
  exists h' r, DropColumnFamily st h argv = Ok (h', r) /\ INV h' pins.
Proof.
  intros HI Ha Hv Hl Hcf. unfold DropColumnFamily.
  destruct (cf_arguments_spec h pins argv HI Ha Hv Hl)
    as [(h1 & -> & HI1) | (h1 & d & c & l & db & cf & -> & HI1 & He1 & Hlen & Hin & Hdb & Hdn & Hc & Hck & Hcc & Hcn)];
    cbn [obind]; [by eexists _, _ |].
  unfold deref. rewrite Hdb, Hc. cbn [obind]. rewrite Hdn, (Hcn Hcf). cbn [andb].
  destruct (release_all_spec l h1 pins HI1) as (h2 & -> & HI2 & _);
    [apply (ample_evolves h); [done | done | lia] |]. by eexists _, _.
Qed.

Lemma destroy_inv st h pins argv :
  INV h pins -> ample h pins -> Forall (valid_term h) argv -> (1 <= length argv)%nat ->
  exists h' r, DestroyColumnFamily st h argv = Ok (h', r) /\ INV h' pins.
Proof.
  intros HI Ha Hv Hl. unfold DestroyColumnFamily.
  destruct (cf_arguments_spec h pins argv HI Ha Hv Hl)
    as [(h1 & -> & HI1) | (h1 & d & c & l & db & cf & -> & HI1 & He1 & Hlen & Hin & Hdb & Hdn & Hc & Hck & Hcc & _)];
    cbn [obind]; [by eexists _, _ |].
  unfold deref. rewrite Hdb, Hc. cbn [obind]. rewrite Hdn. cbn [negb].
  destruct (inv_clear_handle h1 (l ++ pins) c cf HI1 Hc Hck) as [HI2 He2].
  set (h2 := <[c:=set_native false cf]> h1) in *.
  assert (Hev2 : evolves h h2) by (by etransitivity).
  destruct (status_ok st).
  - destruct (inv_InitiateCloseRequest h2 (l ++ pins) c (set_native false cf) HI2) as (h3 & -> & HI3 & He3 & _).
    { apply (ample_evolves h); [done | done | lia]. } { unfold h2. by rewrite lookup_insert_eq. }
    cbn [obind]. destruct (release_all_spec l h3 pins HI3) as (h4 & -> & HI4 & _).
    { apply (ample_evolves h); [done | by etransitivity | lia]. }
    by eexists _, _.
  - destruct (release_all_spec l h2 pins HI2) as (h3 & -> & HI3 & _);
      [apply (ample_evolves h); [done | done | lia] |]. by eexists _, _.
Qed.

(** ** Theorems *)

(** Each of these calls, on any arguments whose resources are allocated, runs
    without undefined behaviour and keeps the reference-count invariant: it
    releases exactly the references it takes.  (An open column family must still
    have its handle, and [transaction/2] be given a database that was opened as an
    optimistic transaction database.) *)
Theorem handle_nifs_safe (optimistic : nat -> bool) (n : handle_nif) (h : heap) (pins : list nat)
    (argv : list term) :
  INV h pins -> ample h pins -> Forall (valid_term h) argv -> (nif_arity n <= length argv)%nat ->
  cf_handles h -> class_matches optimistic n argv ->
  exists h' r, run_nif optimistic n h argv = Ok (h', r) /\ INV h' pins.
Proof.
  intros HI Ha Hv Hl Hcf Hcm. destruct n; cbn [run_nif nif_arity] in *.
  - by apply (close_or_badarg_inv KDb false).
  - by apply (close_or_badarg_inv KBackupEngine false).
  - by apply (close_or_badarg_inv KItr true).
  - by apply (close_or_badarg_inv KTLogItr false).
  - by apply (release_handle_inv KSnapshot).
  - by apply (release_handle_inv KTransaction).
  - by apply (release_handle_inv KTransaction).
  - by apply (create_under_inv KSnapshot).
  - unfold NewTransaction. destruct (length argv =? 2)%nat; cbn [negb]; [| by eexists _, _].
    apply (create_under_inv KTransaction); try done. intros d h0 Hd. by rewrite (Hcm d Hd).
  - by apply tlog_inv.
  - by apply sequence_inv.
  - by apply drop_inv.
  - by apply destroy_inv.
Qed.

Lemma class_matches_dec optimistic n argv :
  class_matches optimistic n argv \/
  (n = NNewTransaction /\ exists d, argv !! 0%nat = Some (Tres RDb d) /\ optimistic d = false).
Proof.
  destruct n; try by left. cbn [class_matches].
  destruct (argv !! 0%nat) as [[| | | | | | | |[] d|]|]; try by left.
  destruct (optimistic d) eqn:E; [left; by intros d' [= <-] | right; by split; [| exists d]].
Qed.

(** A defined [NewTransaction] on a database of another class refused its arguments. *)
Lemma refused_inv optimistic h pins argv h' r d :
  INV h pins -> ample h pins -> Forall (valid_term h) argv ->
  argv !! 0%nat = Some (Tres RDb d) -> optimistic d = false ->
  NewTransaction optimistic h argv = Ok (h', r) -> INV h' pins.
Proof.
  intros HI Ha Hv Hd Ho H. unfold NewTransaction in H. bind_step H; [by injection H as <- _ |].
  unfold create_under, elem in H. rewrite Hd in H. cbn [obind] in H. unfold enif_get_db in H.
  destruct (get_ref_spec KDb h pins (Tres RDb d) HI) as [[E1 _] | (h1 & id & o & E1 & Hr & _)];
    [| | rewrite E1 in H ..].
  { by apply (ample_evolves h pins []); [| | cbn; lia]. }
  { apply (proj1 (Forall_lookup _ _) Hv 0%nat _ Hd). }
  - cbn [obind] in H. by injection H as <- _.
  - apply retrieve_open in Hr as (_ & _ & _ & [= <-]). cbn [obind] in H. by rewrite Ho in H.
Qed.

Lemma retrieve_closed k ic h id o :
  h !! id = Some o -> m_CloseRequested o <> 0 -> Retrieve k ic h (Tres (res_kind_of k) id) = Ok None.
Proof.
  intros Ho Hc. unfold Retrieve. cbn [enif_get_resource]. rewrite decide_True by done.
  unfold deref. rewrite Ho. cbn [obind]. by rewrite (proj2 (Z.eqb_neq _ _)).
Qed.

Lemma destructor_done_elim h id :
  destructor_done h id = true -> exists o, h !! id = Some o /\ m_CloseRequested o = 3.
Proof. unfold destructor_done. case_match; [| done]. intros H'%Z.eqb_eq. by eexists. Qed.

(** C11.  [Close] on an open database that no call uses answers [ok] and destroys the
    database and every object opened on it.  Afterwards its handle is refused
    with [badarg] by [close] and [snapshot]; the iterators opened on it are
    refused by [iterator_close], and releasing one of its snapshots is a no-op. *)
Theorem close_invalidates_handles (h : heap) (pins : list nat) (d : nat) (db : obj) :
  INV h pins -> room h pins -> h !! d = Some db -> o_kind db = KDb -> m_CloseRequested db = 0 ->
  d ∉ pins -> (forall c oc, h !! c = Some oc -> m_DbPtr oc = Some d -> c ∉ pins) ->
  exists h', Close h [Tres RDb d] = Ok (h', Reply ATOM_OK) /\
    destructor_done h' d = true /\
    Close h' [Tres RDb d] = Ok (h', Badarg) /\ Snapshot h' [Tres RDb d] = Ok (h', Badarg) /\
    (forall c oc, h !! c = Some oc -> m_DbPtr oc = Some d ->
       destructor_done h' c = true /\
       (o_kind oc = KItr -> IteratorClose h' [Tres RItr c] = Ok (h', Badarg)) /\
       (o_kind oc = KSnapshot -> ReleaseSnapshot h' [Tres RSnapshot c] = Ok (h', Reply ATOM_OK))).
Proof.
  intros HI Hroom Hdb Hk Hc Hp Hch. apply cnt_zero in Hp.
  destruct (close_db_destroys h pins d db) as (h' & E & Hd & Hall); try done.
  { intros c oc Hoc Hd. apply cnt_zero. by apply (Hch c oc). }
  assert (Hret : forall k ic id, destructor_done h' id = true ->
            Retrieve k ic h' (Tres (res_kind_of k) id) = Ok None).
  { intros k ic id (o & Ho & H3)%destructor_done_elim. apply (retrieve_closed k ic h' id o); [done | lia]. }
  exists h'. split_and!; try done.
  - unfold Close, close_or_badarg, RetrieveDbObject. cbn [elem lookup list_lookup obind].
    unfold Retrieve. cbn [enif_get_resource res_kind_of]. rewrite decide_True by done.
    unfold deref. rewrite Hdb. cbn [obind]. rewrite Hc. cbn [Z.eqb negb].
    rewrite decide_False by done. cbn [obind]. by rewrite E.
  - unfold Close, close_or_badarg, RetrieveDbObject. cbn [elem lookup list_lookup obind].
    pose proof (Hret KDb false d Hd) as Hr. cbn [res_kind_of] in Hr. by rewrite Hr.
  - unfold Snapshot, create_under, enif_get_db, get_ref. cbn [elem lookup list_lookup obind].
    pose proof (Hret KDb false d Hd) as Hr. cbn [res_kind_of] in Hr. by rewrite Hr.
  - intros c oc Hoc Hdp. pose proof (Hall c oc Hoc Hdp) as Hcd. split_and!; [done | |].
    + intros _. unfold IteratorClose, close_or_badarg, RetrieveItrObject.
      cbn [elem lookup list_lookup obind]. pose proof (Hret KItr true c Hcd) as Hr. cbn [res_kind_of] in Hr. by rewrite Hr.
    + intros _. unfold ReleaseSnapshot, release_handle, RetrieveSnapshotObject.
      cbn [elem lookup list_lookup obind]. pose proof (Hret KSnapshot false c Hcd) as Hr. cbn [res_kind_of] in Hr. by rewrite Hr.
Qed.

(** When [DestroyColumnFamilyHandle] fails, the call reports the error but has
    already cleared the handle: the column family stays open with a NULL handle,
    and the next call that uses it passes NULL to RocksDB. *)
Theorem destroy_failure_leaves_null (status : Status) (h : heap) (pins : list nat) (c : nat) (o : obj) :
  INV h pins -> ample h pins -> h !! c = Some o -> o_kind o = KColumnFamily ->
  m_CloseRequested o = 0 -> status_ok status = false ->
  exists h', DestroyColumnFamily status h [Tres RColumnFamily c] =
      Ok (h', Reply (error_tuple ATOM_ERROR status)) /\
    RetrieveColumnFamilyObject h' (Tres RColumnFamily c) = Ok (Some c) /\
    forall st, DropColumnFamily st h' [Tres RColumnFamily c] = Undef.
Proof.
  intros HI Ha Ho Hk Hc Hst.
  assert (Hroom : room h pins) by (by apply (ample_evolves h pins []); [| | cbn; lia]).
  destruct (live_child h pins c o HI Ho) as (d & db & Hd & Hdb & Hdk & Hcd & Hdc & Hdn);
    [by rewrite Hk | lia |].
  pose proof (refs_bound h pins c o HI Ho) as Hb. unfold room in Hroom.
  assert (Hget : forall x, x = o \/ x = set_native false o ->
     enif_get_cf (<[c:=x]> h) (Tres RColumnFamily c) =
     Ok (<[c:=set_refs (m_RefCount o + 1) x]> h, Some c)).
  { intros x Hx. assert (Hxf : m_CloseRequested x = 0 /\ m_RefCount x = m_RefCount o)
      by (destruct Hx as [-> | ->]; done). destruct Hxf as [Hx1 Hx2].
    unfold enif_get_cf, get_ref, Retrieve. cbn [enif_get_resource res_kind_of]. rewrite decide_True by done.
    unfold deref. rewrite lookup_insert_eq. cbn [obind]. rewrite Hx1. cbn [Z.eqb negb].
    rewrite decide_False by done. cbn [obind]. unfold assign. rewrite decide_False by done. cbn [obind].
    unfold RefInc, deref. rewrite lookup_insert_eq. cbn [obind]. rewrite Hx2, wrap_small by lia.
    rewrite insert_insert_eq, lookup_insert_eq. done. }
  set (o1 := set_refs (m_RefCount o + 1) o).
  assert (Hunpin : RefDec (<[c:=set_native false o1]> h) c = Ok (<[c:=set_native false o]> h)).
  { unfold RefDec, deref. rewrite lookup_insert_eq. cbn [obind].
    change (o_kind (set_native false o1)) with (o_kind o). rewrite Hk. cbn [is_child].
    unfold child_RefDec, RefDec_with, deref. rewrite lookup_insert_eq. cbn [obind].
    change (m_CloseRequested (set_native false o1)) with (m_CloseRequested o). rewrite Hc.
    rewrite andb_false_r, insert_insert_eq. do 2 f_equal.
    change (m_RefCount (set_native false o1)) with (m_RefCount o + 1).
    rewrite Z.add_simpl_r, wrap_small by lia. by destruct o. }
  exists (<[c:=set_native false o]> h). split_and!.
  - unfold DestroyColumnFamily, cf_arguments. pose proof (Hget o (or_introl eq_refl)) as Hg.
    rewrite (insert_id h c o) in Hg by done. rewrite Hg. cbn [obind]. fold o1.
    unfold deref. rewrite lookup_insert_eq. cbn [obind]. change (m_DbPtr o1) with (m_DbPtr o).
    rewrite Hd. cbn [obind]. rewrite lookup_insert_ne, Hdb by done. cbn [obind]. rewrite Hdn. cbn [negb].
    rewrite lookup_insert_eq. cbn [obind]. rewrite Hst, insert_insert_eq. cbn [release_all].
    by rewrite Hunpin.
  - unfold RetrieveColumnFamilyObject, Retrieve. cbn [enif_get_resource res_kind_of].
    rewrite decide_True by done. unfold deref. rewrite lookup_insert_eq. cbn [obind].
    change (m_CloseRequested (set_native false o)) with (m_CloseRequested o). by rewrite Hc.
  - intros st. unfold DropColumnFamily, cf_arguments. rewrite (Hget (set_native false o)) by (by right).
    cbn [obind]. unfold deref. rewrite lookup_insert_eq. cbn [obind].
    change (m_DbPtr (set_refs (m_RefCount o + 1) (set_native false o))) with (m_DbPtr o).
    rewrite Hd. cbn [obind]. rewrite lookup_insert_ne, Hdb by done. cbn [obind].
    rewrite lookup_insert_eq. cbn [obind]. by rewrite andb_false_r.
Qed.

(** ** Witnesses *)

Module HandleNifWitness.
Import RefSystemWitness.

Lemma inv_itr : INV h_itr [].
Proof. apply (reachable_inv s_itr), reach_itr. Qed.

(** A database with one column family (1). *)
Definition h_cf : heap := ok_pair (CreateChild KColumnFamily h_db 0).

Lemma inv_cf : INV h_cf [].
Proof.
  apply (reachable_inv {| st_heap := h_cf; st_found := []; st_pins := [] |}).
  eapply rtc_r; [apply reach_db |].
  apply other_timely, (step_create h_db [] [] KColumnFamily 0 (the_obj h_db 0) h_cf 1);
    [done | room_tac | look | vm_compute; reflexivity | vm_compute; discriminate | vm_compute; reflexivity].
Qed.

Lemma valid_db : Forall (valid_term h_itr) [Tres RDb 0].
Proof.
  repeat constructor. intros k id [= Hk <-]. exists (the_obj h_itr 0). split; [look |].
  by destruct k.
Qed.

Lemma no_cf : cf_handles h_itr.
Proof.
  intros c o Hc Hk _. exfalso.
  assert (Hall : forallb (fun p => negb (bool_decide (o_kind p.2 = KColumnFamily)))
                   (map_to_list h_itr) = true) by (vm_compute; reflexivity).
  rewrite forallb_forall in Hall. specialize (Hall (c, o)). cbn in Hall.
  rewrite bool_decide_eq_true_2 in Hall by done. discriminate Hall.
  by apply list_elem_of_In, elem_of_map_to_list.
Qed.

Lemma handle_nifs_safe_witness :
  exists h' r, run_nif (fun _ => false) NSnapshot h_itr [Tres RDb 0] = Ok (h', r) /\ INV h' [].
Proof.
  apply (handle_nifs_safe (fun _ => false) NSnapshot h_itr [] [Tres RDb 0]);
    [apply inv_itr | vm_compute; reflexivity | apply valid_db | cbn; lia | apply no_cf | exact I].
Defined.

Lemma close_invalidates_handles_witness :
  exists h', Close h_itr [Tres RDb 0] = Ok (h', Reply ATOM_OK) /\
    destructor_done h' 0 = true /\
    Close h' [Tres RDb 0] = Ok (h', Badarg) /\ Snapshot h' [Tres RDb 0] = Ok (h', Badarg) /\
    (forall c oc, h_itr !! c = Some oc -> m_DbPtr oc = Some 0%nat ->
       destructor_done h' c = true /\
       (o_kind oc = KItr -> IteratorClose h' [Tres RItr c] = Ok (h', Badarg)) /\
       (o_kind oc = KSnapshot -> ReleaseSnapshot h' [Tres RSnapshot c] = Ok (h', Reply ATOM_OK))).
Proof.
  apply (close_invalidates_handles h_itr [] 0 (the_obj h_itr 0));
    [apply inv_itr | room_tac | look | vm_compute; reflexivity | vm_compute; reflexivity |
     intros Hin; inversion Hin | intros c oc _ _ Hin; inversion Hin].
Defined.

Definition invalid : Status := {| code := kInvalidArgument; to_text := "Invalid argument" |}.

Lemma destroy_failure_leaves_null_witness :
  exists h', DestroyColumnFamily invalid h_cf [Tres RColumnFamily 1] =
      Ok (h', Reply (error_tuple ATOM_ERROR invalid)) /\
    RetrieveColumnFamilyObject h' (Tres RColumnFamily 1) = Ok (Some 1%nat) /\
    forall st, DropColumnFamily st h' [Tres RColumnFamily 1] = Undef.
Proof.
  apply (destroy_failure_leaves_null invalid h_cf [] 1 (the_obj h_cf 1));
    [apply inv_cf | vm_compute; reflexivity | look | vm_compute; reflexivity | vm_compute; reflexivity |
     vm_compute; reflexivity].
Defined.
End HandleNifWitness.
