(* ===== verification/HandleGrow.v ===== *)
(** * The heap of handles only grows

    The calls of [HandleNif] and the parts of [RefObjects] they use never remove an
    object from the heap: what is allocated stays allocated, open or destroyed, until
    the runtime frees it. *)

From stdpp Require Import base list numbers strings gmap.
From Stdlib Require Import ZArith Lia.
From S2P Require Import Prelude Terms RefObjects HandleNif.

Definition grows (h h' : heap) : Prop := (dom h : gset nat) ⊆ dom h'.

Lemma grows_insert h h' i o : grows h h' -> grows h (<[i := o]> h').
Proof. unfold grows. rewrite dom_insert. set_solver. Qed.

Lemma grows_from h h' i o : grows (<[i := o]> h) h' -> grows h h'.
Proof. unfold grows. rewrite dom_insert. set_solver. Qed.

Lemma grows_refl h : grows h h.
Proof. unfold grows. done. Qed.

#[local] Hint Resolve grows_refl : core.

Lemma grows_trans h1 h2 h3 : grows h1 h2 -> grows h2 h3 -> grows h1 h3.
Proof. unfold grows. set_solver. Qed.

(** A call made of writes to the heap. *)
Ltac grow H :=
  cbv zeta in H; repeat bind_step H; try (injection H as ?; subst); try done;
  repeat first [apply grows_refl | apply grows_insert].

Lemma ref_inc_grows h i h' : RefInc h i = Ok h' -> grows h h'.
Proof. unfold RefInc. intros H. grow H. Qed.

Lemma remove_reference_grows k h d c h' : RemoveReference k h d c = Ok h' -> grows h h'.
Proof. unfold RemoveReference. intros H. grow H. Qed.

Lemma add_reference_grows k h d c h' : AddReference k h d c = Ok h' -> grows h h'.
Proof. unfold AddReference. intros H. grow H. Qed.

Lemma release_native_grows h c h' : release_native h c = Ok h' -> grows h h'.
Proof. unfold release_native. intros H. grow H. Qed.

Lemma unlink_grows h c h' : unlink h c = Ok h' -> grows h h'.
Proof. unfold unlink. intros H. bind_step H. bind_step H; [by apply remove_reference_grows in H |]. grow H. Qed.

Lemma erl_dtor_grows h i h' : ErlRefObject_dtor h i = Ok h' -> grows h h'.
Proof. unfold ErlRefObject_dtor. intros H. grow H. Qed.

Lemma ref_dec_with_grows dtor :
  (forall h i h', dtor h i = Ok h' -> grows h h') ->
  forall h i h', RefDec_with dtor h i = Ok h' -> grows h h'.
Proof.
  intros Hd h i h' H. unfold RefDec_with in H. bind_step H. cbv zeta in H. bind_step H.
  - apply Hd in H. by apply grows_from in H.
  - grow H.
Qed.

Lemma root_dec_grows h i h' : root_RefDec h i = Ok h' -> grows h h'.
Proof.
  apply ref_dec_with_grows. clear. intros h i h' H. unfold root_dtor in H. bind_step H.
  apply erl_dtor_grows in H. by apply grows_from in H.
Qed.

Lemma child_body_grows k h c h' : child_dtor_body k h c = Ok h' -> grows h h'.
Proof.
  assert (H1 : forall h h', (let! h1 := release_native h c in unlink h1 c) = Ok h' -> grows h h').
  { intros h0 h0' H. bind_step H. apply release_native_grows in E. apply unlink_grows in H. by eapply grows_trans. }
  assert (H2 : forall h h', (let! h1 := unlink h c in release_native h1 c) = Ok h' -> grows h h').
  { intros h0 h0' H. bind_step H. apply unlink_grows in E. apply release_native_grows in H. by eapply grows_trans. }
  by destruct k; [apply H2 | apply H2 | apply H1 | apply H1 | apply H2 | apply H2 | apply H2].
Qed.

Lemma child_dec_grows h i h' : child_RefDec h i = Ok h' -> grows h h'.
Proof.
  apply ref_dec_with_grows. clear. intros h i h' H. unfold child_dtor in H. bind_step H. bind_step H.
  apply child_body_grows in E0. bind_step H. apply erl_dtor_grows in H.
  eapply grows_trans; [exact E0 |]. eapply grows_trans; [| exact H].
  destruct (m_DbPtr a); [by apply root_dec_grows in E1 | injection E1 as ->; apply grows_refl].
Qed.

Lemma ref_dec_grows h i h' : RefDec h i = Ok h' -> grows h h'.
Proof. unfold RefDec. intros H. bind_step H. bind_step H; [by apply child_dec_grows in H | by apply root_dec_grows in H]. Qed.

Lemma assign_grows h p q h' : assign h p q = Ok h' -> grows h h'.
Proof.
  unfold assign. intros H. bind_step H; [grow H |]. bind_step H.
  assert (grows h a) as Ha by (destruct p; [by apply ref_dec_grows in E0 | injection E0 as ->; apply grows_refl]).
  destruct q; [apply ref_inc_grows in H; by eapply grows_trans | by injection H as <-].
Qed.

Lemma release_grows h p h' : release h p = Ok h' -> grows h h'.
Proof. destruct p; cbn; [apply ref_dec_grows | intros [= ->]; apply grows_refl]. Qed.

Lemma get_ref_grows k h t h' p : get_ref k h t = Ok (h', p) -> grows h h'.
Proof.
  unfold get_ref. intros H. bind_step H. bind_step H. apply assign_grows in E0.
  destruct a as [id|]; [| by injection H as <- _]. bind_step H.
  destruct k; try (by injection H as <- _). destruct (m_Native a); [by injection H as <- _ |].
  bind_step H. apply release_grows in E2. injection H as <- _. by eapply grows_trans.
Qed.

Lemma create_child_grows k h d h' id : CreateChild k h d = Ok (h', id) -> grows h h'.
Proof.
  unfold CreateChild. cbv zeta. intros H. bind_step H. bind_step H. bind_step H. injection H as <- _.
  apply ref_inc_grows in E, E1. apply add_reference_grows in E0. apply grows_from in E.
  eapply grows_trans; [exact E |]. by eapply grows_trans.
Qed.

Lemma release_all_grows pins : forall h h', release_all h pins = Ok h' -> grows h h'.
Proof.
  induction pins as [|i pins IH]; intros h h' H; cbn [release_all] in H; [by injection H as -> |].
  bind_step H. apply ref_dec_grows in E. apply IH in H. by eapply grows_trans.
Qed.

Lemma close_child_grows h c h' : close_child h c = Ok h' -> grows h h'.
Proof.
  unfold close_child. intros H. bind_step H. bind_step H; [| by injection H as ->].
  apply child_dec_grows in H. by apply grows_from in H.
Qed.

Lemma drain_grows k d : forall fuel h h', drain fuel k h d = Ok h' -> grows h h'.
Proof.
  induction fuel as [|fuel IH]; intros h h' H; cbn [drain] in H; bind_step H;
    (destruct (get_list k a); [by injection H as -> |]); [done |].
  bind_step H. apply close_child_grows, grows_from in E0. apply IH in H. by eapply grows_trans.
Qed.

Lemma drain_all_grows k h d h' : drain_all k h d = Ok h' -> grows h h'.
Proof. unfold drain_all. intros H. bind_step H. by apply drain_grows in H. Qed.

Lemma close_grows h i h' : InitiateCloseRequest h i = Ok h' -> grows h h'.
Proof.
  unfold InitiateCloseRequest. intros H. bind_step H. bind_step H; [| by injection H as ->].
  unfold Shutdown in H. bind_step H.
  assert (Hs : grows (<[i := set_close 1 a]> h) h' -> grows h h') by apply grows_from. apply Hs.
  destruct (o_kind a0); [| by apply root_dec_grows in H | by apply child_dec_grows in H ..].
  unfold DbObject_Shutdown in H. do 5 bind_step H.
  repeat match goal with E : drain_all _ _ _ = Ok _ |- _ => apply drain_all_grows in E end.
  apply root_dec_grows in H.
  repeat (eapply grows_trans; [eassumption |]). apply grows_refl.
Qed.

Lemma create_under_grows k create h argv h' r :
  (forall h d h2 id, create h d = Ok (h2, id) -> grows h h2) ->
  create_under k create h argv = Ok (h', r) -> grows h h'.
Proof.
  unfold create_under, enif_get_db. intros Hcr H. bind_step H. bind_step H. destruct a0 as [h1 [d|]].
  2: { injection H as <- _. by apply get_ref_grows in E0. }
  bind_step H. destruct a0 as [h2 id]. bind_step H. injection H as <- _.
  apply get_ref_grows in E0. apply Hcr in E1. apply release_grows in E2.
  eapply grows_trans; [exact E0 |]. by eapply grows_trans.
Qed.

Lemma cf_arguments_grows h argv h' a : cf_arguments h argv = Ok (h', a) -> grows h h'.
Proof.
  unfold cf_arguments, enif_get_db, enif_get_cf. intros H. destruct argv as [|t0 [|t1 rest]]; [done | |].
  - bind_step H. destruct a0 as [h1 [c|]]; [| injection H as <- _; by apply get_ref_grows in E].
    bind_step H. bind_step H. injection H as <- _. by apply get_ref_grows in E.
  - bind_step H. destruct a0 as [h1 [d|]]; [| injection H as <- _; by apply get_ref_grows in E].
    bind_step H. destruct a0 as [h2 [c|]].
    + injection H as <- _. apply get_ref_grows in E, E0. by eapply grows_trans.
    + bind_step H. injection H as <- _. apply get_ref_grows in E, E0. apply release_grows in E1.
      eapply grows_trans; [exact E |]. by eapply grows_trans.
Qed.

(** The calls on handles. *)
Lemma run_nif_grows opt n h argv h' r : run_nif opt n h argv = Ok (h', r) -> grows h h'.
Proof.
  assert (Hclose : forall f, close_or_badarg f h argv = Ok (h', r) -> grows h h').
  { intros f H. unfold close_or_badarg in H. bind_step H. bind_step H. destruct a0; [| by injection H as <- _].
    bind_step H. injection H as <- _. by apply close_grows in E1. }
  assert (Hrel : forall f, release_handle f h argv = Ok (h', r) -> grows h h').
  { intros f H. unfold release_handle in H. bind_step H. bind_step H. bind_step H. apply assign_grows in E1.
    destruct a0; [| by injection H as <- _]. bind_step H. bind_step H. injection H as <- _.
    apply close_grows in E2. apply release_grows in E3. eapply grows_trans; [exact E1 |]. by eapply grows_trans. }
  intros H. destruct n; cbn [run_nif] in H; try (by eapply Hclose); try (by eapply Hrel).
  - eapply create_under_grows; [| exact H]. intros ? ? ? ? Hc. by apply create_child_grows in Hc.
  - unfold NewTransaction in H. bind_step H; [by injection H as <- _ |].
    eapply create_under_grows; [| exact H]. intros ? d ? ? Hc. cbn beta in Hc.
    destruct (opt d); [by apply create_child_grows in Hc | done].
  - unfold TransactionLogIterator, enif_get_db in H. bind_step H. bind_step H. destruct a0 as [h1 p].
    apply get_ref_grows in E0. destruct p as [d|]; [| by injection H as <- _].
    repeat bind_step H; injection H as <- _;
      repeat match goal with
      | E : release _ _ = Ok _ |- _ => apply release_grows in E
      | E : CreateTLogItrObject _ _ = Ok _ |- _ => apply create_child_grows in E
      end; eauto using grows_trans.
  - unfold GetSnapshotSequenceNumber in H. bind_step H. bind_step H. bind_step H. apply assign_grows in E1.
    destruct a0 as [id|]; [| by injection H as <- _]. repeat bind_step H. injection H as <- _.
    match goal with E : release _ _ = Ok _ |- _ => apply release_grows in E end. eauto using grows_trans.
  - unfold DropColumnFamily in H. bind_step H. destruct a as [h1 args]. apply cf_arguments_grows in E.
    destruct args as [[[d c] pins]|]; [| by injection H as <- _]. repeat bind_step H. injection H as <- _.
    match goal with E : release_all _ _ = Ok _ |- _ => apply release_all_grows in E end. eauto using grows_trans.
  - unfold DestroyColumnFamily in H. bind_step H. destruct a as [h1 args]. apply cf_arguments_grows in E.
    destruct args as [[[d c] pins]|]; [| by injection H as <- _]. cbv zeta in H. repeat bind_step H; injection H as <- _;
    repeat match goal with
    | E : release_all _ _ = Ok _ |- _ => apply release_all_grows in E
    | E : InitiateCloseRequest _ _ = Ok _ |- _ => apply close_grows in E
    end; repeat match goal with E : grows (<[_ := _]> _) _ |- _ => apply grows_from in E end;
    eauto using grows_trans.
Qed.
