(* ===== verification/WriteBatchLib.v ===== *)
(** * Write batches: the library interface and the log handler

    [rocksdb::WriteBatch] as the sources use it: the class [WriteBatchLib] has
    the operations, [WriteBatchLaws] what [rocksdb/write_batch.h] documents about
    them, in terms of a view of a batch as its updates and its save points.
    [ListBatch] is an instance that satisfies the laws.

    On top of it, the [TransactionLogHandler] of [c_src/transaction_log.h], which
    turns the updates of a batch into Erlang tuples, and the write options of
    [c_src/erocksdb_db.cc]. *)

From stdpp Require Import base list numbers strings countable.
From Stdlib Require Import ZArith Lia.
From S2P Require Import Prelude Terms.

(** ** Updates and handlers *)

(** One update of a batch, with the id of its column family (0: the default). *)
Inductive wb_op :=
| WPut (cf : Z) (key value : bytes)
| WMerge (cf : Z) (key value : bytes)
| WDelete (cf : Z) (key : bytes)
| WSingleDelete (cf : Z) (key : bytes)
| WDeleteRange (cf : Z) (begin_key end_key : bytes).

Definition op_cf (op : wb_op) : Z :=
  match op with
  | WPut cf _ _ | WMerge cf _ _ | WDelete cf _ | WSingleDelete cf _ | WDeleteRange cf _ _ => cf
  end.

Definition is_delete_range (op : wb_op) : bool :=
  match op with WDeleteRange _ _ _ => true | _ => false end.

(** [rocksdb::WriteBatch::Handler]: the virtual methods called for the updates,
    over the state [S] of the handler object. *)
Record Handler (S : Type) := {
  PutCF : Z -> bytes -> bytes -> S -> S * Status;
  MergeCF : Z -> bytes -> bytes -> S -> S * Status;
  DeleteCF : Z -> bytes -> S -> S * Status;
  SingleDeleteCF : Z -> bytes -> S -> S * Status;
  DeleteRangeCF : Z -> bytes -> bytes -> S -> S * Status;
}.
Arguments PutCF {S} _.
Arguments MergeCF {S} _.
Arguments DeleteCF {S} _.
Arguments SingleDeleteCF {S} _.
Arguments DeleteRangeCF {S} _.

Definition call_handler {S} (h : Handler S) (op : wb_op) (s : S) : S * Status :=
  match op with
  | WPut cf k v => PutCF h cf k v s
  | WMerge cf k v => MergeCF h cf k v s
  | WDelete cf k => DeleteCF h cf k s
  | WSingleDelete cf k => SingleDeleteCF h cf k s
  | WDeleteRange cf b e => DeleteRangeCF h cf b e s
  end.

(** The updates are handed over in order, until a method does not return OK. *)
Fixpoint run_handler {S} (h : Handler S) (l : list wb_op) (s : S) : S * Status :=
  match l with
  | [] => (s, StatusOK)
  | op :: r =>
      let '(s1, st) := call_handler h op s in
      if status_ok st then run_handler h r s1 else (s1, st)
  end.

(** ** rocksdb::WriteOptions *)

Record WriteOptions := {
  sync : bool;
  disableWAL : bool;
  ignore_missing_column_families : bool;
  no_slowdown : bool;
  low_pri : bool;
}.

(** The constructor's defaults. *)
Definition default_WriteOptions : WriteOptions :=
  {| sync := false; disableWAL := false; ignore_missing_column_families := false;
     no_slowdown := false; low_pri := false |}.

(** An item that is not a pair with a known key changes nothing. *)
Definition parse_write_option (item : term) (o : WriteOptions) : WriteOptions :=
  match enif_get_tuple item with
  | Some [key; v] =>
      let b := is_atom "true" v in
      if is_atom "sync" key then
        {| sync := b; disableWAL := disableWAL o;
           ignore_missing_column_families := ignore_missing_column_families o;
           no_slowdown := no_slowdown o; low_pri := low_pri o |}
      else if is_atom "disable_wal" key then
        {| sync := sync o; disableWAL := b;
           ignore_missing_column_families := ignore_missing_column_families o;
           no_slowdown := no_slowdown o; low_pri := low_pri o |}
      else if is_atom "ignore_missing_column_families" key then
        {| sync := sync o; disableWAL := disableWAL o; ignore_missing_column_families := b;
           no_slowdown := no_slowdown o; low_pri := low_pri o |}
      else if is_atom "no_slowdown" key then
        {| sync := sync o; disableWAL := disableWAL o;
           ignore_missing_column_families := ignore_missing_column_families o;
           no_slowdown := b; low_pri := low_pri o |}
      else if is_atom "low_pri" key then
        {| sync := sync o; disableWAL := disableWAL o;
           ignore_missing_column_families := ignore_missing_column_families o;
           no_slowdown := no_slowdown o; low_pri := b |}
      else o
  | _ => o
  end.

(** [fold(env, list, parse_write_option, opts)]: the parser always returns
    [ATOM_OK], so the fold visits every cell. *)
Definition fold_write_options (list : term) : WriteOptions :=
  fold_left (fun o item => parse_write_option item o) (list_cells list) default_WriteOptions.

(** ** The library *)

Class WriteBatchLib := {
  wb : Type;                                                  (* rocksdb::WriteBatch *)
  store : Type;                                               (* what the databases hold *)
  wb_new : wb;
  wb_add : wb_op -> wb -> wb * Status;                        (* Put, Merge, Delete, ... *)
  wb_clear : wb -> wb;
  wb_set_save_point : wb -> wb;
  wb_rollback : wb -> wb * Status;
  wb_count : wb -> Z;                                         (* uint32_t *)
  wb_data_size : wb -> Z;                                     (* size_t *)
  wb_data : wb -> bytes;                                      (* the serialized batch *)
  wb_of_data : bytes -> wb;                                   (* WriteBatch(std::string) *)
  wb_iterate : forall {S : Type}, Handler S -> wb -> S -> S * Status;
  db_write : store -> nat -> WriteOptions -> option wb -> store * Status;  (* DB::Write *)
}.

(** [Status::NotFound()], the answer of a rollback without a save point. *)
Definition StatusNotFound : Status := {| code := kNotFound; to_text := "NotFound: " |}.

(** Only handlers whose methods never ask for the same update again. *)
Definition no_retry {S} (h : Handler S) : Prop :=
  forall op s, code (call_handler h op s).2 <> kTryAgain.

(** [wb_updates] and [wb_saves] are the updates of a batch and the lengths at its
    save points, the latest first; [wb_accepts] tells the updates the library
    takes (keys and values have at most 2^32 - 1 bytes); [db_apply] is what a write
    of updates does to a database. *)
Class WriteBatchLaws (L : WriteBatchLib) := {
  wb_updates : wb -> list wb_op;
  wb_saves : wb -> list nat;
  wb_accepts : wb_op -> bool;
  db_apply : store -> nat -> WriteOptions -> list wb_op -> store * Status;
  new_view : wb_updates wb_new = [] /\ wb_saves wb_new = [];
  add_accepted : forall op w, wb_accepts op = true ->
    (wb_add op w).2 = StatusOK /\
    wb_updates (wb_add op w).1 = wb_updates w ++ [op] /\
    wb_saves (wb_add op w).1 = wb_saves w;
  add_rejected : forall op w, wb_accepts op = false ->
    status_ok (wb_add op w).2 = false /\
    wb_updates (wb_add op w).1 = wb_updates w /\ wb_saves (wb_add op w).1 = wb_saves w;
  clear_view : forall w, wb_updates (wb_clear w) = [] /\ wb_saves (wb_clear w) = [];
  save_view : forall w, wb_updates (wb_set_save_point w) = wb_updates w /\
    wb_saves (wb_set_save_point w) = length (wb_updates w) :: wb_saves w;
  rollback_none : forall w, wb_saves w = [] ->
    (wb_rollback w).2 = StatusNotFound /\
    wb_updates (wb_rollback w).1 = wb_updates w /\ wb_saves (wb_rollback w).1 = [];
  rollback_some : forall w n r, wb_saves w = n :: r ->
    (wb_rollback w).2 = StatusOK /\
    wb_updates (wb_rollback w).1 = take n (wb_updates w) /\ wb_saves (wb_rollback w).1 = r;
  count_view : forall w, wb_count w = u32 (zlen (wb_updates w));
  data_view : forall w, wb_updates (wb_of_data (wb_data w)) = wb_updates w;
  iterate_view : forall S (h : Handler S) w s, no_retry h ->
    (wb_iterate h w s).1 = (run_handler h (wb_updates w) s).1;
  write_view : forall s d o w, db_write s d o (Some w) = db_apply s d o (wb_updates w);
}.

(** ** TransactionLogHandler *)

(** [t_List] holds the rows, the latest first. *)
Definition log_row (op_atom : term) (cf : Z) (fields : list term) (t_List : term) :
    term * Status :=
  let row := if cf =? 0 then Ttuple (op_atom :: fields)
             else Ttuple (op_atom :: Tint cf :: fields) in
  (Tcons row t_List, StatusOK).

(** The four methods the class overrides; [DeleteRangeCF] is inherited, and
    answers InvalidArgument. *)
Definition TransactionLogHandler : Handler term :=
  {| PutCF := fun cf key value =>
       log_row ATOM_PUT cf [slice_to_binary key; slice_to_binary value];
     MergeCF := fun cf key value =>
       log_row ATOM_MERGE cf [slice_to_binary key; slice_to_binary value];
     DeleteCF := fun cf key => log_row ATOM_DELETE cf [slice_to_binary key];
     SingleDeleteCF := fun cf key => log_row ATOM_SINGLE_DELETE cf [slice_to_binary key];
     DeleteRangeCF := fun _ _ _ t_List =>
       (t_List, {| code := kInvalidArgument;
                   to_text := "Invalid argument: DeleteRangeCF not implemented" |}) |}.

(** [enif_make_reverse_list] *)
Definition enif_make_reverse_list (t : term) : term := make_list (rev (list_cells t)).

(** The handler starts with the empty list; the status of [Iterate] is ignored. *)
Definition batch_log `{WriteBatchLib} (w : wb) : term :=
  enif_make_reverse_list (wb_iterate TransactionLogHandler w Tnil).1.

(** ** What the log of a batch says *)

Definition row_of (op : wb_op) : term :=
  match op with
  | WPut cf k v => if cf =? 0 then Ttuple [ATOM_PUT; Tbin k; Tbin v]
                   else Ttuple [ATOM_PUT; Tint cf; Tbin k; Tbin v]
  | WMerge cf k v => if cf =? 0 then Ttuple [ATOM_MERGE; Tbin k; Tbin v]
                     else Ttuple [ATOM_MERGE; Tint cf; Tbin k; Tbin v]
  | WDelete cf k => if cf =? 0 then Ttuple [ATOM_DELETE; Tbin k]
                    else Ttuple [ATOM_DELETE; Tint cf; Tbin k]
  | WSingleDelete cf k => if cf =? 0 then Ttuple [ATOM_SINGLE_DELETE; Tbin k]
                          else Ttuple [ATOM_SINGLE_DELETE; Tint cf; Tbin k]
  | WDeleteRange _ _ _ => Tnil
  end.

(** Read a row back. *)
Definition op_of_row (t : term) : option wb_op :=
  match t with
  | Ttuple [Tatom a; Tbin k; Tbin v] =>
      if bool_decide (a = "put"%string) then Some (WPut 0 k v)
      else if bool_decide (a = "merge"%string) then Some (WMerge 0 k v) else None
  | Ttuple [Tatom a; Tint cf; Tbin k; Tbin v] =>
      if bool_decide (a = "put"%string) then Some (WPut cf k v)
      else if bool_decide (a = "merge"%string) then Some (WMerge cf k v) else None
  | Ttuple [Tatom a; Tbin k] =>
      if bool_decide (a = "delete"%string) then Some (WDelete 0 k)
      else if bool_decide (a = "single_delete"%string) then Some (WSingleDelete 0 k) else None
  | Ttuple [Tatom a; Tint cf; Tbin k] =>
      if bool_decide (a = "delete"%string) then Some (WDelete cf k)
      else if bool_decide (a = "single_delete"%string) then Some (WSingleDelete cf k) else None
  | _ => None
  end.

(** The updates before the first range deletion. *)
Fixpoint logged (l : list wb_op) : list wb_op :=
  match l with
  | [] => []
  | op :: r => if is_delete_range op then [] else op :: logged r
  end.

(** ** Lemmas *)

Lemma op_of_row_of op : is_delete_range op = false -> op_of_row (row_of op) = Some op.
Proof. destruct op; cbn [is_delete_range row_of]; intros; try done; by case_match; simplify_eq;
         [rewrite (proj1 (Z.eqb_eq _ _) ltac:(eassumption)) |]. Qed.

Lemma handler_no_retry : no_retry TransactionLogHandler.
Proof. intros [] s; by cbn. Qed.

Lemma handler_row op t :
  is_delete_range op = false ->
  call_handler TransactionLogHandler op t = (Tcons (row_of op) t, StatusOK).
Proof. destruct op; cbn; intros; try done; unfold log_row; by case_match. Qed.

Lemma run_log_rows l t :
  list_cells (run_handler TransactionLogHandler l t).1 = rev (row_of <$> logged l) ++ list_cells t.
Proof.
  revert t. induction l as [|op l IH]; intros t; cbn [run_handler logged]; [done |].
  destruct (is_delete_range op) eqn:E.
  - by destruct op.
  - rewrite handler_row by done. change (status_ok StatusOK) with true. cbv iota.
    rewrite IH. cbn [list_cells]. rewrite fmap_cons. cbn [rev]. by rewrite <- app_assoc.
Qed.

Lemma batch_log_rows `{WriteBatchLaws} (w : wb) :
  batch_log w = make_list (row_of <$> logged (wb_updates w)).
Proof.
  unfold batch_log, enif_make_reverse_list.
  rewrite iterate_view by apply handler_no_retry.
  by rewrite run_log_rows, app_nil_r, rev_involutive.
Qed.

Lemma logged_all l : forallb (fun op => negb (is_delete_range op)) l = true -> logged l = l.
Proof.
  induction l as [|op l IH]; cbn [logged forallb]; [done |].
  rewrite andb_true_iff, negb_true_iff. intros [-> ?]. f_equal. auto.
Qed.

(** ** An instance *)

Module ListBatch.

Record batch := { updates : list wb_op; saves : list nat }.

Definition fits (s : bytes) : bool := zlen s <? 2 ^ 32.

Definition accepts (op : wb_op) : bool :=
  match op with
  | WPut _ k v | WMerge _ k v => fits k && fits v
  | WDelete _ k | WSingleDelete _ k => fits k
  | WDeleteRange _ _ _ => true
  end.

Definition too_large : Status := {| code := kInvalidArgument; to_text := "key is too large" |}.

(** A serialization of the updates: the bits of their number, one per byte. *)
Definition op_code (op : wb_op) : nat * Z * bytes * bytes :=
  match op with
  | WPut cf k v => (0%nat, cf, k, v)
  | WMerge cf k v => (1%nat, cf, k, v)
  | WDelete cf k => (2%nat, cf, k, [])
  | WSingleDelete cf k => (3%nat, cf, k, [])
  | WDeleteRange cf b e => (4%nat, cf, b, e)
  end.

Definition code_op (c : nat * Z * bytes * bytes) : wb_op :=
  match c with
  | (0%nat, cf, k, v) => WPut cf k v
  | (1%nat, cf, k, v) => WMerge cf k v
  | (2%nat, cf, k, _) => WDelete cf k
  | (3%nat, cf, k, _) => WSingleDelete cf k
  | (_, cf, k, v) => WDeleteRange cf k v
  end.

#[global] Instance wb_op_eq_dec : EqDecision wb_op.
Proof. solve_decision. Defined.

#[global] Instance wb_op_countable : Countable wb_op.
Proof. refine (inj_countable' op_code code_op _). by intros []. Defined.

Fixpoint put_bits (p : positive) : bytes :=
  match p with
  | xH => []
  | xO p => Byte.x00 :: put_bits p
  | xI p => Byte.x01 :: put_bits p
  end.

Fixpoint get_bits (s : bytes) : positive :=
  match s with
  | [] => xH
  | Byte.x00 :: r => xO (get_bits r)
  | _ :: r => xI (get_bits r)
  end.

Lemma get_put_bits p : get_bits (put_bits p) = p.
Proof. induction p; cbn; congruence. Qed.

Definition add (op : wb_op) (w : batch) : batch * Status :=
  if accepts op then ({| updates := updates w ++ [op]; saves := saves w |}, StatusOK)
  else (w, too_large).

Definition rollback (w : batch) : batch * Status :=
  match saves w with
  | [] => (w, StatusNotFound)
  | n :: r => ({| updates := take n (updates w); saves := r |}, StatusOK)
  end.

(** Each database of the store is the log of what was written to it; a write
    without a batch is refused. *)
Definition write (s : list (nat * list wb_op)) (d : nat) (o : WriteOptions) (w : option batch) :
    list (nat * list wb_op) * Status :=
  match w with
  | Some w => (s ++ [(d, updates w)], StatusOK)
  | None => (s, {| code := kInvalidArgument; to_text := "Batch is nullptr!" |})
  end.

#[export] Instance lib : WriteBatchLib :=
  {| wb := batch; store := list (nat * list wb_op);
     wb_new := {| updates := []; saves := [] |};
     wb_add := add;
     wb_clear := fun _ => {| updates := []; saves := [] |};
     wb_set_save_point := fun w =>
       {| updates := updates w; saves := length (updates w) :: saves w |};
     wb_rollback := rollback;
     wb_count := fun w => u32 (zlen (updates w));
     wb_data_size := fun w => 12 + zlen (put_bits (encode (updates w)));
     wb_data := fun w => put_bits (encode (updates w));
     wb_of_data := fun b => {| updates := default [] (decode (get_bits b)); saves := [] |};
     wb_iterate := fun _ h w s => run_handler h (updates w) s;
     db_write := write |}.

#[export] Instance laws : WriteBatchLaws lib.
Proof.
  refine {| wb_updates := (updates : wb -> _); wb_saves := (saves : wb -> _);
            wb_accepts := accepts;
            db_apply := fun (s : store) d (_ : WriteOptions) l =>
              ((s : list (nat * list wb_op)) ++ [(d, l)], StatusOK) |}; try done.
  - intros op w E. cbn. unfold add. by rewrite E.
  - intros op w E. cbn. unfold add. by rewrite E.
  - intros w E. cbn in *. unfold rollback. by rewrite E.
  - intros w n r E. cbn in *. unfold rollback. by rewrite E.
  - intros w. cbn. by rewrite get_put_bits, countable.decode_encode.
Defined.

End ListBatch.
