(* ===== verification/Batch.v ===== *)
(** * Write batches

    [c_src/batch.cc]: the native functions on the batch resource, a [struct
    Batch] with a pointer to a [rocksdb::WriteBatch] and the environment that
    keeps copies of the terms put into it.

    The state of the functions is the heap of reference-counted objects (for the
    database and column family handles), the batch resources, and what the
    databases hold.  The contents of the write batches are behind the interface
    of [WriteBatchLib]. *)

From stdpp Require Import base list numbers strings gmap.
From Stdlib Require Import ZArith Lia.
From S2P Require Import Prelude Terms RefObjects WriteBatchLib.

(** ** State *)

(** [rocksdb::WriteBatch*]: null, a live object, or memory that was freed. *)
Inductive wbptr `{WriteBatchLib} :=
| WNull
| WLive (w : wb)
| WFreed.

Record Batch `{WriteBatchLib} := {
  b_wb : wbptr;
  b_env : option (list term);       (* null, or the terms copied into it *)
}.

Record sys `{WriteBatchLib} := {
  s_heap : heap;
  s_batches : gmap nat Batch;
  s_store : store;
}.

Section Nifs.
Context `{L : WriteBatchLib} `{E : NifEnv}.

(** [ColumnFamilyHandle::GetID] of the handle of a column-family object. *)
Context (cf_id : nat -> Z).

Definition with_heap (s : sys) (h : heap) : sys :=
  {| s_heap := h; s_batches := s_batches s; s_store := s_store s |}.

Definition with_batch (s : sys) (id : nat) (b : Batch) : sys :=
  {| s_heap := s_heap s; s_batches := <[id := b]> (s_batches s); s_store := s_store s |}.

Definition with_store (s : sys) (d : store) : sys :=
  {| s_heap := s_heap s; s_batches := s_batches s; s_store := d |}.

Definition batch_deref (s : sys) (id : nat) : outcome Batch :=
  match s_batches s !! id with Some b => Ok b | None => Undef end.

(** [wb->...] *)
Definition wb_deref (b : Batch) : outcome wb :=
  match b_wb b with WLive w => Ok w | WNull | WFreed => Undef end.

(** [cleanup_obj_ptr]: the destructor and [enif_free] of what is not null. *)
Definition cleanup_obj_ptr (p : wbptr) : outcome wbptr :=
  match p with WNull => Ok WNull | WLive _ => Ok WNull | WFreed => Undef end.

Definition cleanup_batch (b : Batch) : outcome Batch :=
  let! p := cleanup_obj_ptr (b_wb b) in Ok {| b_wb := p; b_env := None |}.

(** The destructor of the resource, run when its last reference goes. *)
Definition batch_resource_cleanup (s : sys) (id : nat) : outcome sys :=
  let! b := batch_deref s id in
  let! _ := cleanup_batch b in
  Ok {| s_heap := s_heap s; s_batches := delete id (s_batches s); s_store := s_store s |}.

(** ** Creation and release *)

Definition fresh_batch (s : sys) : nat := fresh (dom (s_batches s) : gset nat).

(** [alloc_ok]: the [enif_alloc] of the write batch succeeds. *)
Definition NewBatch (alloc_ok : bool) (s : sys) : outcome (sys * reply) :=
  if negb alloc_ok then Ok (s, Reply (error_tuple_msg ATOM_ERROR "out of memory"))
  else if negb alloc_resource_ok
  then Ok (s, Reply (error_tuple_msg ATOM_ERROR "out of memory"))
  else
    let id := fresh_batch s in
    if negb alloc_env_ok
    then
      (* ~WriteBatch(), enif_free(wb), enif_release_resource(batch) *)
      let! s1 := batch_resource_cleanup (with_batch s id {| b_wb := WFreed; b_env := None |}) id in
      Ok (s1, Reply (error_tuple_msg ATOM_ERROR "out of memory"))
    else Ok (with_batch s id {| b_wb := WLive wb_new; b_env := Some [] |},
             Reply (Ttuple [ATOM_OK; Tres RBatch id])).

(** The first argument of the other functions: the batch, or badarg. *)
Definition on_batch (s : sys) (argv : list term) (k : nat -> Batch -> outcome (sys * reply)) :
    outcome (sys * reply) :=
  let! t := elem argv 0 in
  match enif_get_resource RBatch t with
  | None => Ok (s, Badarg)
  | Some id => let! b := batch_deref s id in k id b
  end.

Definition ReleaseBatch (s : sys) (argv : list term) : outcome (sys * reply) :=
  on_batch s argv (fun id b =>
    let! b1 := cleanup_batch b in Ok (with_batch s id b1, Reply ATOM_OK)).

(** ** Updates *)

(** [enif_make_copy(batch_ptr->env, t)] for each of [ts]. *)
Definition keep_terms (ts : list term) (b : Batch) : outcome Batch :=
  match b_env b with
  | Some l => Ok {| b_wb := b_wb b; b_env := Some (l ++ ts) |}
  | None => Undef
  end.

(** Copy the terms and call the update method; its status is not looked at. *)
Definition add_update (s : sys) (id : nat) (b : Batch) (ts : list term) (op : wb_op) :
    outcome sys :=
  let! b1 := keep_terms ts b in
  let! w := wb_deref b1 in
  Ok (with_batch s id {| b_wb := WLive (wb_add op w).1; b_env := b_env b1 |}).

(** The id under which a method called with [cf->m_ColumnFamily] stores: a null
    handle stands for the default column family. *)
Definition column_family_id (h : heap) (c : nat) : outcome Z :=
  let! o := deref h c in Ok (if m_Native o then cf_id c else 0).

(** The form of the updates with a column family: pin it, read the binaries,
    call the method, release it. *)
Definition cf_update (s : sys) (id : nat) (b : Batch) (argv : list term)
    (decode : list term -> outcome (option (list term * (Z -> wb_op)))) : outcome (sys * reply) :=
  let! t1 := elem argv 1 in
  let! (h1, cf) := enif_get_cf (s_heap s) t1 in
  match cf with
  | None => Ok (with_heap s h1, Badarg)
  | Some c =>
      let! args := decode argv in
      match args with
      | None => let! h2 := release h1 cf in Ok (with_heap s h2, Badarg)
      | Some (ts, op) =>
          let! fam := column_family_id h1 c in
          let! s1 := add_update (with_heap s h1) id b ts (op fam) in
          let! h2 := release h1 cf in
          Ok (with_heap s1 h2, Reply ATOM_OK)
      end
  end.

Definition default_update (s : sys) (id : nat) (b : Batch) (argv : list term)
    (decode : list term -> outcome (option (list term * (Z -> wb_op)))) : outcome (sys * reply) :=
  let! args := decode argv in
  match args with
  | None => Ok (s, Badarg)
  | Some (ts, op) => let! s1 := add_update s id b ts (op 0) in Ok (s1, Reply ATOM_OK)
  end.

(** A key at position [i] and a value after it; [extra] terms before them are
    copied into the environment as well. *)
Definition key_value (op : Z -> bytes -> bytes -> wb_op) (extra i : nat) (argv : list term) :
    outcome (option (list term * (Z -> wb_op))) :=
  let! kt := elem argv i in
  match enif_inspect_binary kt with
  | None => Ok None
  | Some k =>
      let! vt := elem argv (S i) in
      match enif_inspect_binary vt with
      | None => Ok None
      | Some v => Ok (Some (take extra (drop 1 argv) ++ [kt; vt], fun cf => op cf k v))
      end
  end.

Definition key_only (op : Z -> bytes -> wb_op) (extra i : nat) (argv : list term) :
    outcome (option (list term * (Z -> wb_op))) :=
  let! kt := elem argv i in
  match enif_inspect_binary kt with
  | None => Ok None
  | Some k => Ok (Some (take extra (drop 1 argv) ++ [kt], fun cf => op cf k))
  end.

Definition PutBatch (s : sys) (argv : list term) : outcome (sys * reply) :=
  on_batch s argv (fun id b =>
    if (3 <? length argv)%nat then cf_update s id b argv (key_value WPut 1 2)
    else default_update s id b argv (key_value WPut 0 1)).

Definition MergeBatch (s : sys) (argv : list term) : outcome (sys * reply) :=
  on_batch s argv (fun id b =>
    if (3 <? length argv)%nat then cf_update s id b argv (key_value WMerge 1 2)
    else default_update s id b argv (key_value WMerge 0 1)).

Definition DeleteBatch (s : sys) (argv : list term) : outcome (sys * reply) :=
  on_batch s argv (fun id b =>
    if (2 <? length argv)%nat then cf_update s id b argv (key_only WDelete 1 2)
    else default_update s id b argv (key_only WDelete 0 1)).

Definition SingleDeleteBatch (s : sys) (argv : list term) : outcome (sys * reply) :=
  on_batch s argv (fun id b =>
    if (2 <? length argv)%nat then cf_update s id b argv (key_only WSingleDelete 1 2)
    else default_update s id b argv (key_only WSingleDelete 0 1)).

(** The column family term is not copied here. *)
Definition DeleteRangeBatch (s : sys) (argv : list term) : outcome (sys * reply) :=
  on_batch s argv (fun id b =>
    if (3 <? length argv)%nat then cf_update s id b argv (key_value WDeleteRange 0 2)
    else default_update s id b argv (key_value WDeleteRange 0 1)).

(** ** Writing, clearing, save points *)

(** [enif_clear_env] *)
Definition clear_env (env : option (list term)) : outcome (option (list term)) :=
  match env with Some _ => Ok (Some []) | None => Undef end.

(** The pointer handed to [DB::Write]. *)
Definition wb_arg (b : Batch) : outcome (option wb) :=
  match b_wb b with WNull => Ok None | WLive w => Ok (Some w) | WFreed => Undef end.

(** The batch is cleared whatever the status of the write. *)
Definition WriteBatch (s : sys) (argv : list term) : outcome (sys * reply) :=
  let! t0 := elem argv 0 in
  let! (h1, db) := enif_get_db (s_heap s) t0 in
  match db with
  | None => Ok (with_heap s h1, Badarg)
  | Some d =>
      let! t1 := elem argv 1 in
      match enif_get_resource RBatch t1 with
      | None => let! h2 := release h1 db in Ok (with_heap s h2, Badarg)
      | Some id =>
          let! b := batch_deref s id in
          let! t2 := elem argv 2 in
          let! p := wb_arg b in
          let '(st, status) := db_write (s_store s) d (fold_write_options t2) p in
          let p1 := match p with Some w => WLive (wb_clear w) | None => WNull end in
          let! env := clear_env (b_env b) in
          let! h2 := release h1 db in
          Ok (with_heap (with_store (with_batch s id {| b_wb := p1; b_env := env |}) st) h2,
              Reply (if status_ok status then ATOM_OK else error_tuple ATOM_ERROR status))
      end
  end.

Definition ClearBatch (s : sys) (argv : list term) : outcome (sys * reply) :=
  on_batch s argv (fun id b =>
    let! w := wb_deref b in
    let! env := clear_env (b_env b) in
    Ok (with_batch s id {| b_wb := WLive (wb_clear w); b_env := env |}, Reply ATOM_OK)).

Definition BatchSetSavePoint (s : sys) (argv : list term) : outcome (sys * reply) :=
  on_batch s argv (fun id b =>
    let! w := wb_deref b in
    Ok (with_batch s id {| b_wb := WLive (wb_set_save_point w); b_env := b_env b |},
        Reply ATOM_OK)).

Definition BatchRollbackToSavePoint (s : sys) (argv : list term) : outcome (sys * reply) :=
  on_batch s argv (fun id b =>
    let! w := wb_deref b in
    let '(w1, status) := wb_rollback w in
    Ok (with_batch s id {| b_wb := WLive w1; b_env := b_env b |},
        Reply (if status_ok status then ATOM_OK else error_tuple ATOM_ERROR status))).

(** ** Reading *)

(** Conversion to a 32-bit [int]. *)
Definition to_int (z : Z) : Z := let m := u32 z in if m <? 2 ^ 31 then m else m - 2 ^ 32.

Definition BatchCount (s : sys) (argv : list term) : outcome (sys * reply) :=
  on_batch s argv (fun id b =>
    let! w := wb_deref b in Ok (s, Reply (Tint (to_int (wb_count w))))).

Definition BatchDataSize (s : sys) (argv : list term) : outcome (sys * reply) :=
  on_batch s argv (fun id b =>
    let! w := wb_deref b in Ok (s, Reply (Tint (to_int (wb_data_size w))))).

Definition BatchToList (s : sys) (argv : list term) : outcome (sys * reply) :=
  on_batch s argv (fun id b =>
    let! w := wb_deref b in Ok (s, Reply (batch_log w))).

End Nifs.

(** ** Specification

    A batch is the list of its updates and the lengths at its save points. *)

Record abatch := { a_ops : list wb_op; a_saves : list nat }.

(** The calls on a batch, with the handles and binaries they are given. *)
Inductive call :=
| CPut (cf : option nat) (key value : bytes)
| CMerge (cf : option nat) (key value : bytes)
| CDelete (cf : option nat) (key : bytes)
| CSingleDelete (cf : option nat) (key : bytes)
| CDeleteRange (cf : option nat) (begin_key end_key : bytes)
| CClear | CSavePoint | CRollback | CCount | CToList
| CWrite (db : nat) (opts : term).

Section Spec.
Context `{L : WriteBatchLib} `{E : NifEnv} (cf_id : nat -> Z).

Definition cf_arg (cf : option nat) : list term :=
  match cf with Some c => [Tres RColumnFamily c] | None => [] end.

Definition run_call (s : sys) (id : nat) (c : call) : outcome (sys * reply) :=
  let b := Tres RBatch id in
  match c with
  | CPut cf k v => PutBatch cf_id s (b :: cf_arg cf ++ [Tbin k; Tbin v])
  | CMerge cf k v => MergeBatch cf_id s (b :: cf_arg cf ++ [Tbin k; Tbin v])
  | CDelete cf k => DeleteBatch cf_id s (b :: cf_arg cf ++ [Tbin k])
  | CSingleDelete cf k => SingleDeleteBatch cf_id s (b :: cf_arg cf ++ [Tbin k])
  | CDeleteRange cf k e => DeleteRangeBatch cf_id s (b :: cf_arg cf ++ [Tbin k; Tbin e])
  | CClear => ClearBatch s [b]
  | CSavePoint => BatchSetSavePoint s [b]
  | CRollback => BatchRollbackToSavePoint s [b]
  | CCount => BatchCount s [b]
  | CToList => BatchToList s [b]
  | CWrite d opts => WriteBatch s [Tres RDb d; b; opts]
  end.

Fixpoint run_calls (s : sys) (id : nat) (l : list call) : outcome (sys * list reply) :=
  match l with
  | [] => Ok (s, [])
  | c :: r =>
      let! (s1, rep) := run_call s id c in
      let! (s2, reps) := run_calls s1 id r in
      Ok (s2, rep :: reps)
  end.

Definition cf_usable (h : heap) (cf : option nat) : bool :=
  match cf with Some c => usable h KColumnFamily c | None => true end.

Definition call_usable (h : heap) (c : call) : bool :=
  match c with
  | CPut cf _ _ | CMerge cf _ _ | CDelete cf _ | CSingleDelete cf _ | CDeleteRange cf _ _ =>
      cf_usable h cf
  | CWrite d _ => usable h KDb d
  | _ => true
  end.

Definition family (cf : option nat) : Z := match cf with Some c => cf_id c | None => 0 end.

(** The update of a call, if it is one. *)
Definition update_of (c : call) : option wb_op :=
  match c with
  | CPut cf k v => Some (WPut (family cf) k v)
  | CMerge cf k v => Some (WMerge (family cf) k v)
  | CDelete cf k => Some (WDelete (family cf) k)
  | CSingleDelete cf k => Some (WSingleDelete (family cf) k)
  | CDeleteRange cf k e => Some (WDeleteRange (family cf) k e)
  | _ => None
  end.

Context `{LW : !WriteBatchLaws L}.

(** An update RocksDB does not take leaves the batch as it is and is answered
    with ok like the others. *)
Definition spec_add (op : wb_op) (a : abatch) : abatch :=
  if wb_accepts op then {| a_ops := a_ops a ++ [op]; a_saves := a_saves a |} else a.

(** What each call does to a batch and answers, in all cases. *)
Definition observed_call (st : store) (a : abatch) (c : call) : store * abatch * term :=
  match c with
  | CClear => (st, {| a_ops := []; a_saves := [] |}, ATOM_OK)
  | CSavePoint => (st, {| a_ops := a_ops a; a_saves := length (a_ops a) :: a_saves a |}, ATOM_OK)
  | CRollback =>
      match a_saves a with
      | [] => (st, a, error_tuple ATOM_ERROR StatusNotFound)
      | n :: r => (st, {| a_ops := take n (a_ops a); a_saves := r |}, ATOM_OK)
      end
  | CCount => (st, a, Tint (to_int (zlen (a_ops a))))
  | CToList => (st, a, make_list (row_of <$> logged (a_ops a)))
  | CWrite d opts =>
      let '(st1, status) := db_apply st d (fold_write_options opts) (a_ops a) in
      (st1, {| a_ops := []; a_saves := [] |},
       if status_ok status then ATOM_OK else error_tuple ATOM_ERROR status)
  | _ => (st, match update_of c with Some op => spec_add op a | None => a end, ATOM_OK)
  end.

Fixpoint observed_calls (st : store) (a : abatch) (l : list call) : store * abatch * list term :=
  match l with
  | [] => (st, a, [])
  | c :: r =>
      let '(st1, a1, t) := observed_call st a c in
      let '(st2, a2, ts) := observed_calls st1 a1 r in
      (st2, a2, t :: ts)
  end.

(** The row [write_actions()] has for an update: it lists puts, deletes and single
    deletes; for a column family it has the handle, of which the batch keeps the
    number only, so just the default family has documented rows. *)
Definition documented_row (op : wb_op) : option term :=
  match op with
  | WPut 0 k v => Some (Ttuple [Tatom "put"; Tbin k; Tbin v])
  | WDelete 0 k => Some (Ttuple [Tatom "delete"; Tbin k])
  | WSingleDelete 0 k => Some (Ttuple [Tatom "single_delete"; Tbin k])
  | _ => None
  end.

(** The calls as [rocksdb.erl] documents them, [None] where it promises what the
    library cannot give: [batch_rollback] returns [ok], but RocksDB has nothing to
    roll back to without a save point; [batch_tolist] returns all the operations;
    [batch_count] their number, in an [int]; an update is added, but RocksDB refuses
    one that is too large. *)
Definition spec_call (st : store) (a : abatch) (c : call) : option (store * abatch * term) :=
  match c with
  | CClear => Some (st, {| a_ops := []; a_saves := [] |}, ATOM_OK)
  | CSavePoint => Some (st, {| a_ops := a_ops a; a_saves := length (a_ops a) :: a_saves a |}, ATOM_OK)
  | CRollback =>
      match a_saves a with
      | [] => None
      | n :: r => Some (st, {| a_ops := take n (a_ops a); a_saves := r |}, ATOM_OK)
      end
  | CCount => if zlen (a_ops a) <? 2 ^ 31 then Some (st, a, Tint (zlen (a_ops a))) else None
  | CToList => rows ← mapM documented_row (a_ops a); Some (st, a, make_list rows)
  | CWrite d opts =>
      let '(st1, status) := db_apply st d (fold_write_options opts) (a_ops a) in
      Some (st1, {| a_ops := []; a_saves := [] |},
            if status_ok status then ATOM_OK else error_tuple ATOM_ERROR status)
  | CPut _ _ _ | CMerge _ _ _ | CDelete _ _ | CSingleDelete _ _ | CDeleteRange _ _ _ =>
      op ← update_of c;
      if wb_accepts op then Some (st, {| a_ops := a_ops a ++ [op]; a_saves := a_saves a |}, ATOM_OK) else None
  end.

Fixpoint spec_calls (st : store) (a : abatch) (l : list call) : option (store * abatch * list term) :=
  match l with
  | [] => Some (st, a, [])
  | c :: r =>
      '(st1, a1, t) ← spec_call st a c;
      '(st2, a2, ts) ← spec_calls st1 a1 r;
      Some (st2, a2, t :: ts)
  end.

(** A live batch with these contents. *)
Definition holds (b : Batch) (a : abatch) : Prop :=
  exists w env, b = {| b_wb := WLive w; b_env := Some env |} /\
    wb_updates w = a_ops a /\ wb_saves w = a_saves a.

(** ** Lemmas *)

Lemma usable_pin h k c :
  k <> KItr -> usable h k c = true ->
  exists h1, get_ref k h (Tres (res_kind_of k) c) = Ok (h1, Some c) /\
    release h1 (Some c) = Ok h /\ column_family_id cf_id h1 c = Ok (cf_id c).
Proof.
  intros Hk Hu. destruct (usable_pinned h k c Hk Hu) as (o & Ho & Hget & Hrel & Hn).
  eexists. split_and!; [exact Hget | exact Hrel |].
  unfold column_family_id, deref, pinned. rewrite lookup_insert_eq. cbn [obind set_refs m_Native].
  by rewrite Hn.
Qed.

Lemma add_update_spec s id b a ts op :
  holds b a -> exists b', add_update s id b ts op = Ok (with_batch s id b') /\
    holds b' (spec_add op a).
Proof.
  intros (w & env & -> & Hu & Hs). unfold add_update, spec_add. cbn [keep_terms b_env b_wb obind wb_deref].
  eexists. split; [done |]. eexists _, _. split; [done |].
  destruct (wb_accepts op) eqn:Ea.
  - destruct (add_accepted op w Ea) as (_ & -> & ->). by rewrite Hu, Hs.
  - destruct (add_rejected op w Ea) as (_ & -> & ->). done.
Qed.

Lemma default_update_spec s id b a argv decode ts op o :
  decode argv = Ok (Some (ts, op)) -> op 0 = o -> holds b a ->
  exists b', default_update s id b argv decode = Ok (with_batch s id b', Reply ATOM_OK) /\
    holds b' (spec_add o a).
Proof.
  intros Hd <- Hb. unfold default_update. rewrite Hd. cbn [obind].
  destruct (add_update_spec s id b a ts (op 0) Hb) as (b' & -> & ?). by eexists.
Qed.

Lemma cf_update_spec s id b a argv decode ts op o c :
  elem argv 1 = Ok (Tres RColumnFamily c) -> usable (s_heap s) KColumnFamily c = true ->
  decode argv = Ok (Some (ts, op)) -> op (cf_id c) = o -> holds b a ->
  exists b', cf_update cf_id s id b argv decode = Ok (with_batch s id b', Reply ATOM_OK) /\
    holds b' (spec_add o a).
Proof.
  intros Ht Hc Hd <- Hb. unfold cf_update. rewrite Ht. cbn [obind].
  destruct (usable_pin _ KColumnFamily c ltac:(done) Hc) as (h1 & Hget & Hrel & Hid).
  change (enif_get_cf ?h (Tres RColumnFamily c))
    with (get_ref KColumnFamily h (Tres (res_kind_of KColumnFamily) c)).
  rewrite Hget. cbn [obind]. rewrite Hd. cbn [obind]. rewrite Hid. cbn [obind].
  destruct (add_update_spec (with_heap s h1) id b a ts (op (cf_id c)) Hb) as (b' & -> & ?).
  cbn [obind]. rewrite Hrel. by eexists.
Qed.

Lemma logged_before l cf k e r :
  forallb (fun op => negb (is_delete_range op)) l = true ->
  logged (l ++ WDeleteRange cf k e :: r) = l.
Proof.
  induction l as [|op l IH]; cbn [app logged forallb]; [done |].
  rewrite andb_true_iff, negb_true_iff. intros [-> ?]. f_equal. auto.
Qed.

Lemma to_int_u32 z : to_int (u32 z) = to_int z.
Proof. unfold to_int. by rewrite wrap_idemp. Qed.

(** The state after a call that changed only the batch and the databases. *)
Definition after (s : sys) (id : nat) (b : Batch) (st : store) : sys :=
  {| s_heap := s_heap s; s_batches := <[id := b]> (s_batches s); s_store := st |}.

Lemma write_step s id b a d opts :
  s_batches s !! id = Some b -> holds b a -> usable (s_heap s) KDb d = true ->
  let '(st1, a1, t) := observed_call (s_store s) a (CWrite d opts) in
  exists b', run_call s id (CWrite d opts) = Ok (after s id b' st1, Reply t) /\ holds b' a1.
Proof.
  intros Hb (w & env & -> & Hu & Hs) Hd. cbn [observed_call run_call].
  destruct (db_apply _ _ _ _) as [st1 status] eqn:Ea.
  destruct (usable_pin _ KDb d ltac:(done) Hd) as (h1 & Hget & Hrel & _).
  unfold WriteBatch. cbn [elem lookup list_lookup obind].
  change (enif_get_db ?h (Tres RDb d)) with (get_ref KDb h (Tres (res_kind_of KDb) d)).
  rewrite Hget. cbn [obind]. cbn [enif_get_resource]. rewrite decide_True by done.
  unfold batch_deref. rewrite Hb. cbn [obind wb_arg b_wb].
  rewrite write_view, Hu, Ea. cbn [clear_env b_env obind]. rewrite Hrel. cbn [obind].
  eexists. split; [done |]. eexists _, _. split; [done |]. apply clear_view.
Qed.

Lemma call_step s id b a c :
  s_batches s !! id = Some b -> holds b a -> call_usable (s_heap s) c = true ->
  let '(st1, a1, t) := observed_call (s_store s) a c in
  exists b', run_call s id c = Ok (after s id b' st1, Reply t) /\ holds b' a1.
Proof.
  intros Hb Ha Hc.
  assert (Hon : forall argv k, on_batch s (Tres RBatch id :: argv) k = k id b).
  { intros argv k. unfold on_batch. cbn [elem lookup list_lookup obind enif_get_resource].
    rewrite decide_True by done. unfold batch_deref. by rewrite Hb. }
  destruct c as [cf ? ?|cf ? ?|cf ?|cf ?|cf ? ?| | | | | |d opts];
    [| | | | | | | | | | by apply (write_step s id b a)].
  all: cbn [observed_call run_call update_of].
  1-5: unfold PutBatch, MergeBatch, DeleteBatch, SingleDeleteBatch, DeleteRangeBatch; rewrite Hon;
    destruct cf as [c|]; cbn [cf_arg app length Nat.ltb Nat.leb family];
    [by eapply cf_update_spec | by eapply (default_update_spec s id b a)].
  all: unfold ClearBatch, BatchSetSavePoint, BatchRollbackToSavePoint, BatchCount, BatchToList;
    rewrite Hon; destruct Ha as (w & env & -> & Hu & Hs);
    cbn [wb_deref b_wb b_env obind clear_env].
  - eexists. split; [done |]. eexists _, _. split; [done |]. apply clear_view.
  - eexists. split; [done |]. eexists _, _. split; [done |].
    destruct (save_view w) as [-> ->]. cbn. by rewrite Hu, Hs.
  - destruct (a_saves a) as [|n r] eqn:Er.
    + destruct (rollback_none w Hs) as (Hst & Hu1 & Hs1).
      destruct (wb_rollback w) as [w1 st]. cbn in Hst, Hu1, Hs1. subst st.
      eexists. split; [done |]. eexists _, _. split; [done |]. by rewrite Hu1, Hs1, Er.
    + destruct (rollback_some w n r Hs) as (Hst & Hu1 & Hs1).
      destruct (wb_rollback w) as [w1 st]. cbn in Hst, Hu1, Hs1. subst st.
      eexists. split; [done |]. eexists _, _. split; [done |]. cbn. by rewrite Hu1, Hs1, Hu.
  - eexists. split; [unfold after; rewrite count_view, to_int_u32, Hu, insert_id by done; by destruct s |].
    by eexists _, _.
  - eexists. split; [unfold after; rewrite batch_log_rows, Hu, insert_id by done; by destruct s |].
    by eexists _, _.
Qed.

Lemma calls_refine l s id b a :
  s_batches s !! id = Some b -> holds b a -> forallb (call_usable (s_heap s)) l = true ->
  let '(st1, a1, ts) := observed_calls (s_store s) a l in
  exists b', run_calls s id l = Ok (after s id b' st1, Reply <$> ts) /\ holds b' a1.
Proof.
  revert s b a. induction l as [|c l IH]; intros s b a Hb Ha Hl; cbn [observed_calls run_calls].
  - exists b. split; [unfold after; rewrite insert_id by done; by destruct s | done].
  - cbn [forallb] in Hl. apply andb_true_iff in Hl as [Hc Hl].
    pose proof (call_step s id b a c Hb Ha Hc) as Hstep.
    destruct (observed_call _ _ _) as [[st1 a1] t]. destruct Hstep as (b1 & -> & Ha1). cbn [obind].
    specialize (IH (after s id b1 st1) b1 a1 (lookup_insert_eq _ _ _) Ha1 Hl).
    cbn [s_store after] in IH.
    destruct (observed_calls st1 a1 l) as [[st2 a2] ts]. destruct IH as (b2 & -> & Ha2).
    exists b2. split; [| done]. cbn [obind]. unfold after. cbn. by rewrite insert_insert_eq.
Qed.

Lemma spec_updates l ops a st :
  update_of <$> l = Some <$> ops -> forallb wb_accepts ops = true ->
  observed_calls st a l =
  (st, {| a_ops := a_ops a ++ ops; a_saves := a_saves a |}, replicate (length l) ATOM_OK).
Proof.
  revert ops a. induction l as [|c l IH]; intros [|op ops] a Hu Hacc; try done.
  - cbn. rewrite app_nil_r. by destruct a.
  - rewrite !fmap_cons in Hu. injection Hu as Hc Hl.
    cbn [forallb] in Hacc. apply andb_true_iff in Hacc as [Hop Hacc].
    assert (Hs : observed_call st a c = (st, spec_add op a, ATOM_OK))
      by (destruct c; try done; cbn [observed_call]; by rewrite Hc).
    cbn [observed_calls]. rewrite Hs, (IH ops _ Hl Hacc). unfold spec_add. rewrite Hop.
    cbn [a_ops a_saves length replicate]. by rewrite <- app_assoc.
Qed.

Lemma observed_calls_app l1 l2 st a :
  observed_calls st a (l1 ++ l2) =
  let '(st1, a1, ts1) := observed_calls st a l1 in
  let '(st2, a2, ts2) := observed_calls st1 a1 l2 in (st2, a2, ts1 ++ ts2).
Proof.
  revert st a. induction l1 as [|c l1 IH]; intros st a; cbn [app observed_calls].
  - by destruct (observed_calls st a l2) as [[? ?] ?].
  - destruct (observed_call st a c) as [[st1 a1] t]. rewrite IH.
    destruct (observed_calls st1 a1 l1) as [[st2 a2] ts]. by destruct (observed_calls st2 a2 l2) as [[? ?] ?].
Qed.

Lemma NewBatch_live s :
  alloc_resource_ok = true -> alloc_env_ok = true ->
  exists id b, NewBatch true s = Ok (with_batch s id b, Reply (Ttuple [ATOM_OK; Tres RBatch id])) /\
    s_batches s !! id = None /\ holds b {| a_ops := []; a_saves := [] |}.
Proof.
  intros Hr He. unfold NewBatch. rewrite Hr, He. cbn [negb].
  eexists _, _. split; [done |]. split.
  - apply not_elem_of_dom, is_fresh.
  - eexists _, _. split; [done |]. apply new_view.
Qed.

Lemma documented_rows ops rows :
  mapM documented_row ops = Some rows -> row_of <$> logged ops = rows.
Proof.
  intros H. apply mapM_Some in H.
  assert (Hn : forallb (fun op => negb (is_delete_range op)) ops = true).
  { apply forallb_forall. intros op Hop%list_elem_of_In. apply list_elem_of_lookup in Hop as [i Hi].
    destruct (Forall2_lookup_l _ _ _ _ _ H Hi) as (t & _ & Ht). by destruct op. }
  rewrite (logged_all ops Hn). clear Hn. induction H as [|op t ops rows Ht _ IH]; [done |]. cbn [fmap list_fmap].
  f_equal; [| done]. destruct op as [[] ? ?|?|[] ?|[] ?|]; try done; cbn in Ht |- *; by simplify_eq.
Qed.

(** Where the documentation has an answer, it is the one observed. *)
Lemma spec_observed st a c r : spec_call st a c = Some r -> observed_call st a c = r.
Proof.
  destruct c; cbn [spec_call observed_call update_of option_bind mbind option_ret]; unfold spec_add; intros H;
    repeat case_match; simplify_eq; try done.
  - do 2 f_equal. unfold to_int. cbv zeta. rewrite wrap_small by lia. by rewrite (proj2 (Z.ltb_lt _ _)) by lia.
  - apply bind_Some in H as (rows & Hr & [= <-]). by rewrite (documented_rows _ _ Hr).
Qed.

Lemma spec_calls_observed l : forall st a r, spec_calls st a l = Some r -> observed_calls st a l = r.
Proof.
  induction l as [|c l IH]; intros st a r H; cbn [spec_calls observed_calls] in *; [by simplify_eq |].
  apply bind_Some in H as ([[st1 a1] t] & Hc & H). apply bind_Some in H as ([[st2 a2] ts] & Hl & [= <-]).
  by rewrite (spec_observed _ _ _ _ Hc), (IH _ _ _ Hl).
Qed.

(** ** Properties *)

(** C6.  Refinement of the documented batch: a sequence of calls on a live batch, with
    usable database and column-family handles, that stays where [rocksdb.erl]
    documents the answers runs without undefined behaviour and answers as documented:
    updates append, [batch_clear] empties, [batch_savepoint] and [batch_rollback] cut
    back to the latest save point, [batch_count] is the number of operations,
    [batch_tolist] lists all of them in order, and [write_batch] applies them to the
    database in order and empties the batch.  The heap of handles, with all its
    reference counts, and the other batches are as before.  Not covered, because the
    code does not do there what is documented: a rollback without a save point
    answers an error, [batch_tolist] with a range deletion stops there, and with a
    column family has its number for the handle (merges have no documented row), a
    count beyond an [int], an update too large for RocksDB. *)
Theorem batch_refines (s : sys) (id : nat) (b : Batch) (a a1 : abatch) (l : list call) (st1 : store)
    (ts : list term) :
  s_batches s !! id = Some b -> holds b a -> forallb (call_usable (s_heap s)) l = true ->
  spec_calls (s_store s) a l = Some (st1, a1, ts) ->
  exists s' b', run_calls s id l = Ok (s', Reply <$> ts) /\
    s_batches s' !! id = Some b' /\ holds b' a1 /\
    s_store s' = st1 /\ s_heap s' = s_heap s /\
    (forall j, j <> id -> s_batches s' !! j = s_batches s !! j).
Proof.
  intros Hb Ha Hl Hspec. pose proof (calls_refine l s id b a Hb Ha Hl) as H.
  rewrite (spec_calls_observed _ _ _ _ Hspec) in H. destruct H as (b' & Hrun & Ha').
  exists (after s id b' st1), b'. cbn. rewrite lookup_insert_eq. split_and!; try done.
  intros j Hj. by rewrite lookup_insert_ne.
Qed.

(** A rollback without a save point answers an error, where [ok] is specified. *)
Theorem rollback_without_savepoint (s : sys) (id : nat) (b : Batch) (a : abatch) :
  s_batches s !! id = Some b -> holds b a -> a_saves a = [] ->
  exists b', run_call s id CRollback = Ok (after s id b' (s_store s), Reply (error_tuple ATOM_ERROR StatusNotFound)) /\
    holds b' a.
Proof.
  intros Hb Ha Hs. pose proof (call_step s id b a CRollback Hb Ha eq_refl) as H.
  cbn [observed_call] in H. by rewrite Hs in H.
Qed.

(** Round trip: the list of a new batch filled with any sequence of updates
    other than range deletions reads back as exactly those updates, in order and
    with their column families. *)
Theorem batch_tolist_roundtrip (s : sys) (l : list call) (ops : list wb_op) :
  alloc_resource_ok = true -> alloc_env_ok = true ->
  update_of <$> l = Some <$> ops -> forallb wb_accepts ops = true ->
  forallb (fun op => negb (is_delete_range op)) ops = true ->
  forallb (call_usable (s_heap s)) l = true ->
  exists s1 id s2 rows,
    NewBatch true s = Ok (s1, Reply (Ttuple [ATOM_OK; Tres RBatch id])) /\
    run_calls s1 id (l ++ [CToList]) =
      Ok (s2, (Reply <$> replicate (length l) ATOM_OK) ++ [Reply (make_list rows)]) /\
    op_of_row <$> rows = Some <$> ops.
Proof.
  intros Hr He Hu Hacc Hnd Hl.
  destruct (NewBatch_live s Hr He) as (id & b & Hnew & _ & Hb).
  pose proof (calls_refine (l ++ [CToList]) (with_batch s id b) id b _
                (lookup_insert_eq _ _ _) Hb) as H.
  cbn [s_heap s_store with_batch] in H.
  rewrite forallb_app, Hl in H. specialize (H eq_refl).
  rewrite observed_calls_app, (spec_updates l ops) in H by done.
  cbn [observed_calls observed_call a_ops app] in H. destruct H as (b' & Hrun & _).
  eexists _, id, _, (row_of <$> logged ops). split_and!; [exact Hnew | |].
  - by rewrite Hrun, fmap_app.
  - rewrite (logged_all ops Hnd). rewrite <- list_fmap_compose. apply list_fmap_ext.
    intros i op Hop. apply op_of_row_of. rewrite forallb_forall in Hnd.
    apply negb_true_iff, Hnd. by eapply list_elem_of_In, list_elem_of_lookup_2.
Qed.

(** A batch with a range deletion does not list "all the operations in the
    batch": the list ends before the first range deletion, while the count
    includes it and all that follow. *)
Theorem tolist_stops_at_delete_range (s : sys) (id : nat) (b : Batch) (a : abatch)
    (before rest : list wb_op) (cf : Z) (k e : bytes) :
  s_batches s !! id = Some b -> holds b a ->
  a_ops a = before ++ WDeleteRange cf k e :: rest ->
  forallb (fun op => negb (is_delete_range op)) before = true ->
  zlen (a_ops a) < 2 ^ 31 ->
  BatchToList s [Tres RBatch id] = Ok (s, Reply (make_list (row_of <$> before))) /\
  BatchCount s [Tres RBatch id] = Ok (s, Reply (Tint (zlen before + 1 + zlen rest))).
Proof.
  intros Hb Ha Hops Hbefore Hlen.
  unfold BatchToList, BatchCount, on_batch.
  cbn [elem lookup list_lookup obind enif_get_resource]. rewrite decide_True by done.
  unfold batch_deref. rewrite Hb. destruct Ha as (w & env & -> & Hu & Hs).
  cbn [obind wb_deref b_wb]. rewrite batch_log_rows, count_view, to_int_u32, Hu, Hops.
  rewrite Hops in Hlen. split.
  - by rewrite logged_before.
  - do 4 f_equal. unfold to_int. rewrite length_app in *. cbn [length] in *.
    cbv zeta. rewrite wrap_small by lia. rewrite (proj2 (Z.ltb_lt _ _)) by lia. lia.
Qed.

(** Round trip of a save point: whatever updates are added after it, a
    rollback leaves the batch with the contents it had when the save point was
    set, and answers ok. *)
Theorem savepoint_rollback (s : sys) (id : nat) (b : Batch) (a : abatch) (l : list call)
    (ops : list wb_op) :
  s_batches s !! id = Some b -> holds b a -> forallb (call_usable (s_heap s)) l = true ->
  update_of <$> l = Some <$> ops -> forallb wb_accepts ops = true ->
  exists s' b', run_calls s id ([CSavePoint] ++ l ++ [CRollback]) =
      Ok (s', Reply <$> replicate (length l + 2) ATOM_OK) /\
    s_batches s' !! id = Some b' /\ holds b' a /\ s_store s' = s_store s.
Proof.
  intros Hb Ha Hl Hu Hacc.
  pose proof (calls_refine ([CSavePoint] ++ l ++ [CRollback]) s id b a Hb Ha) as H.
  rewrite !forallb_app, Hl in H. specialize (H eq_refl).
  rewrite !observed_calls_app in H. cbn [observed_calls observed_call] in H.
  rewrite observed_calls_app, (spec_updates l ops) in H by done.
  cbn [observed_calls observed_call a_saves a_ops] in H. rewrite take_app_length in H.
  destruct H as (b' & Hrun & Hb'). exists (after s id b' (s_store s)), b'.
  split_and!; [| cbn; by rewrite lookup_insert_eq | by destruct a | done].
  rewrite Hrun. do 3 f_equal. rewrite Nat.add_comm, replicate_add. cbn [Nat.add replicate app].
  f_equal. by rewrite <- replicate_cons_app.
Qed.

(** After [release_batch] the resource is still accepted by every function:
    releasing again is harmless, but any other call on it dereferences a null
    pointer. *)
Theorem released_batch_undefined (s : sys) (id : nat) (b : Batch) (a : abatch) :
  s_batches s !! id = Some b -> holds b a ->
  exists s1, ReleaseBatch s [Tres RBatch id] = Ok (s1, Reply ATOM_OK) /\
    ReleaseBatch s1 [Tres RBatch id] = Ok (s1, Reply ATOM_OK) /\
    forall c, call_usable (s_heap s) c = true -> run_call s1 id c = Undef.
Proof.
  intros Hb (w & env & -> & _).
  set (dead := {| b_wb := WNull; b_env := None |}).
  assert (Hon : forall s0 b0 argv k, s_batches s0 !! id = Some b0 ->
            on_batch s0 (Tres RBatch id :: argv) k = k id b0).
  { intros s0 b0 argv k E0. unfold on_batch. cbn [elem lookup list_lookup obind enif_get_resource].
    rewrite decide_True by done. unfold batch_deref. by rewrite E0. }
  assert (Hd : s_batches (with_batch s id dead) !! id = Some dead) by apply lookup_insert_eq.
  exists (with_batch s id dead). split_and!.
  - unfold ReleaseBatch. by rewrite (Hon _ _ _ _ Hb).
  - unfold ReleaseBatch. rewrite (Hon _ _ _ _ Hd). unfold dead, with_batch, cleanup_batch.
    cbn [cleanup_obj_ptr b_wb obind s_heap s_batches s_store]. by rewrite insert_insert_eq.
  - intros c Hc. destruct c as [cf ? ?|cf ? ?|cf ?|cf ?|cf ? ?| | | | | |d opts]; cbn [run_call].
    1-5: unfold PutBatch, MergeBatch, DeleteBatch, SingleDeleteBatch, DeleteRangeBatch;
      rewrite (Hon _ _ _ _ Hd); destruct cf as [c|]; [| done];
      destruct (usable_pin _ KColumnFamily c ltac:(done) Hc) as (h1 & Hget & _ & Hid);
      cbn [cf_arg app length Nat.ltb Nat.leb]; unfold cf_update;
      cbn [elem lookup list_lookup obind s_heap with_batch];
      change (enif_get_cf ?h (Tres RColumnFamily c))
        with (get_ref KColumnFamily h (Tres (res_kind_of KColumnFamily) c));
      rewrite Hget; cbn; by rewrite Hid.
    1-5: unfold ClearBatch, BatchSetSavePoint, BatchRollbackToSavePoint, BatchCount, BatchToList;
      by rewrite (Hon _ _ _ _ Hd).
    destruct (usable_pin _ KDb d ltac:(done) Hc) as (h1 & Hget & _).
    unfold WriteBatch. cbn [elem lookup list_lookup obind s_heap with_batch].
    change (enif_get_db ?h (Tres RDb d)) with (get_ref KDb h (Tres (res_kind_of KDb) d)).
    rewrite Hget. cbn [obind enif_get_resource]. rewrite decide_True by done.
    unfold batch_deref. rewrite Hd. cbn [obind wb_arg b_wb dead].
    by destruct (db_write _ _ _ _).
Qed.

(** When the environment cannot be allocated, [NewBatch] destroys the write batch
    and then releases the resource that still points to it: its destructor
    destroys and frees it again. *)
Theorem new_batch_double_free (s : sys) :
  alloc_resource_ok = true -> alloc_env_ok = false -> NewBatch true s = Undef.
Proof.
  intros Hr He. unfold NewBatch. rewrite Hr, He. cbn [negb].
  unfold batch_resource_cleanup, batch_deref, with_batch. cbn [s_batches].
  by rewrite lookup_insert_eq.
Qed.

End Spec.

(** ** Witnesses *)

Module BatchWitness.
Import ListBatch.

Definition the_env : NifEnv :=
  {| binary_to_term := fun _ => None; term_to_binary := fun _ => None;
     compare_eq := fun _ _ => false; new_binary_ok := fun _ => true;
     alloc_env_ok := true; alloc_resource_ok := true |}.
#[local] Existing Instance the_env.

(** A database (0) with one column family (1), whose id is 7. *)
Definition the_heap : heap :=
  <[1%nat := set_refs 1 (new_obj KColumnFamily (Some 0%nat))]>
    {[0%nat := set_refs 2 (set_list KColumnFamily [1%nat] (new_obj KDb None))]}.
Definition the_cf_id (_ : nat) : Z := 7.

Definition ka : bytes := [Byte.x61].
Definition kb : bytes := [Byte.x62].

Definition filled : Batch :=
  {| b_wb := WLive ({| updates := [WPut 0 ka kb; WDeleteRange 7 ka kb; WDelete 0 kb];
                       saves := [1%nat] |} : wb);
     b_env := Some [] |}.
Definition contents : abatch :=
  {| a_ops := [WPut 0 ka kb; WDeleteRange 7 ka kb; WDelete 0 kb]; a_saves := [1%nat] |}.
Definition the_sys : sys :=
  {| s_heap := the_heap; s_batches := {[5%nat := filled]}; s_store := ([] : store) |}.

Lemma filled_holds : holds filled contents.
Proof. by eexists _, _. Defined.

Definition script : list call :=
  [CRollback; CToList; CMerge (Some 1%nat) kb ka; CDeleteRange None ka kb; CCount; CWrite 0 Tnil;
   CSavePoint; CDelete None ka; CToList; CRollback; CToList].

(** The state and the answers the documentation gives for the script. *)
Definition script_spec := spec_calls the_cf_id (s_store the_sys) contents script.
Definition script_end : store := match script_spec with Some (st, _, _) => st | None => s_store the_sys end.
Definition script_answers : list term := match script_spec with Some (_, _, ts) => ts | None => [] end.
Definition script_batch : abatch := match script_spec with Some (_, a, _) => a | None => contents end.

Lemma batch_refines_witness :
  exists s' b', run_calls the_cf_id the_sys 5 script = Ok (s', Reply <$> script_answers) /\
    s_batches s' !! 5%nat = Some b' /\ holds b' script_batch /\
    s_store s' = script_end /\ s_heap s' = s_heap the_sys /\
    (forall j, j <> 5%nat -> s_batches s' !! j = s_batches the_sys !! j).
Proof.
  apply (batch_refines the_cf_id the_sys 5 filled contents script_batch script script_end script_answers);
    [reflexivity | apply filled_holds | vm_compute; reflexivity | vm_compute; reflexivity].
Defined.

Example script_length : length script_answers = 11%nat.
Proof. vm_compute. reflexivity. Qed.

Definition fill : list call := [CPut None ka kb; CMerge (Some 1%nat) kb ka; CSingleDelete None ka].
Definition fill_ops : list wb_op := [WPut 0 ka kb; WMerge 7 kb ka; WSingleDelete 0 ka].

Lemma batch_tolist_roundtrip_witness :
  exists s1 id s2 rows,
    NewBatch true the_sys = Ok (s1, Reply (Ttuple [ATOM_OK; Tres RBatch id])) /\
    run_calls the_cf_id s1 id (fill ++ [CToList]) =
      Ok (s2, (Reply <$> replicate (length fill) ATOM_OK) ++ [Reply (make_list rows)]) /\
    op_of_row <$> rows = Some <$> fill_ops.
Proof.
  apply (batch_tolist_roundtrip the_cf_id the_sys fill fill_ops);
    [reflexivity | reflexivity | reflexivity | vm_compute; reflexivity | reflexivity |
     vm_compute; reflexivity].
Defined.

Lemma tolist_stops_at_delete_range_witness :
  BatchToList the_sys [Tres RBatch 5] = Ok (the_sys, Reply (make_list (row_of <$> [WPut 0 ka kb]))) /\
  BatchCount the_sys [Tres RBatch 5] = Ok (the_sys, Reply (Tint (1 + 1 + 1))).
Proof.
  apply (tolist_stops_at_delete_range the_sys 5 filled contents [WPut 0 ka kb] [WDelete 0 kb] 7 ka kb);
    [reflexivity | apply filled_holds | reflexivity | reflexivity | vm_compute; reflexivity].
Defined.

Lemma savepoint_rollback_witness :
  exists s' b', run_calls the_cf_id the_sys 5 ([CSavePoint] ++ fill ++ [CRollback]) =
      Ok (s', Reply <$> replicate (length fill + 2) ATOM_OK) /\
    s_batches s' !! 5%nat = Some b' /\ holds b' contents /\ s_store s' = s_store the_sys.
Proof.
  apply (savepoint_rollback the_cf_id the_sys 5 filled contents fill fill_ops);
    [reflexivity | apply filled_holds | vm_compute; reflexivity | reflexivity |
     vm_compute; reflexivity].
Defined.

Lemma released_batch_undefined_witness :
  exists s1, ReleaseBatch the_sys [Tres RBatch 5] = Ok (s1, Reply ATOM_OK) /\
    ReleaseBatch s1 [Tres RBatch 5] = Ok (s1, Reply ATOM_OK) /\
    forall c, call_usable (s_heap the_sys) c = true -> run_call the_cf_id s1 5 c = Undef.
Proof.
  apply (released_batch_undefined the_cf_id the_sys 5 filled contents);
    [reflexivity | apply filled_holds].
Defined.
End BatchWitness.
