(* ===== verification/ErlWrite.v ===== *)
(** * Writing through the Erlang module

    [write/3], [merge/4,5] and [batch_merge/3,4] of [src/rocksdb.erl], with
    [encode_merge_value/1]: the Erlang code over the native functions of [Batch].

    [write/3] makes a batch, adds the operations one by one, writes the batch and
    releases it in the [after] clause.  The theorems show that a list of well-formed
    operations is one atomic write of exactly those updates, and that nothing is
    written when the call raises, whatever its arguments. *)

From stdpp Require Import base list numbers strings gmap.
From Stdlib Require Import ZArith Lia.
From S2P Require Import Prelude Terms RefObjects WriteBatchLib Batch Erl.

Section Write.
Context `{L : WriteBatchLib} `{E : NifEnv} (cf_id : nat -> Z).

(** The value of a native call. *)
Definition native (m : outcome (sys * reply)) : outcome (sys * erl term) :=
  let! (s, r) := m in Ok (s, nif_result r).

(** [{posting_add, Key}] and [{posting_delete, Key}] with a binary key are encoded;
    a binary is passed on; anything else matches no clause. *)
Definition encode_merge_value (v : term) : erl term :=
  match v with
  | Ttuple [tag; Tbin key] =>
      if is_atom "posting_add" tag || is_atom "posting_delete" tag then
        match term_to_binary v with Some b => Val (Tbin b) | None => Err (Tatom "system_limit") end
      else Err function_clause
  | Tbin _ => Val v
  | _ => Err function_clause
  end.

Definition batch_merge (s : sys) (args : list term) (value : term) : outcome (sys * erl term) :=
  match encode_merge_value value with
  | Val v => native (MergeBatch cf_id s (args ++ [v]))
  | Err e => Ok (s, Err e)
  end.

(** The clauses of [write_1/4] on an operation. *)
Definition write_op (batch op : term) (s : sys) : outcome (sys * erl term) :=
  match op with
  | Ttuple [tag; key] =>
      if is_atom "delete" tag then native (DeleteBatch cf_id s [batch; key])
      else if is_atom "single_delete" tag then native (SingleDeleteBatch cf_id s [batch; key])
      else Ok (s, Err ATOM_BADARG)
  | Ttuple [tag; a; b] =>
      if is_atom "put" tag then native (PutBatch cf_id s [batch; a; b])
      else if is_atom "merge" tag then batch_merge s [batch; a] b
      else if is_atom "delete" tag then native (DeleteBatch cf_id s [batch; a; b])
      else if is_atom "single_delete" tag then native (SingleDeleteBatch cf_id s [batch; a; b])
      else Ok (s, Err ATOM_BADARG)
  | Ttuple [tag; cf; key; value] =>
      if is_atom "put" tag then native (PutBatch cf_id s [batch; cf; key; value])
      else if is_atom "merge" tag then batch_merge s [batch; cf; key] value
      else Ok (s, Err ATOM_BADARG)
  | _ => Ok (s, Err ATOM_BADARG)
  end.

(** The results of the batch functions are dropped; an exception stops the loop. *)
Fixpoint write_1 (ops batch db opts : term) (s : sys) : outcome (sys * erl term) :=
  match ops with
  | Tcons op rest =>
      let! (s1, r) := write_op batch op s in
      match r with
      | Val _ => write_1 rest batch db opts s1
      | Err e => Ok (s1, Err e)
      end
  | Tnil => native (WriteBatch s [db; batch; opts])
  | _ => Ok (s, Err function_clause)
  end.

(** [{ok, Batch} = batch(), try write_1(...) after release_batch(Batch) end] *)
Definition write (alloc_ok : bool) (s : sys) (db ops opts : term) : outcome (sys * erl term) :=
  let! (s1, r) := native (NewBatch alloc_ok s) in
  match r with
  | Val (Ttuple [ok; batch]) =>
      if is_atom "ok" ok then
        let! (s2, res) := write_1 ops batch db opts s1 in
        let! (s3, rel) := native (ReleaseBatch s2 [batch]) in
        Ok (s3, match rel with Val _ => res | Err e => Err e end)
      else Ok (s1, Err (badmatch (Ttuple [ok; batch])))
  | Val t => Ok (s1, Err (badmatch t))
  | Err e => Ok (s1, Err e)
  end.

(** ** The operations as updates *)

(** The term of an update, as [write_actions()] documents it. *)
Definition op_term (c : call) : option term :=
  let tag a := Tatom a in
  match c with
  | CPut cf k v => Some (Ttuple (tag "put" :: cf_arg cf ++ [Tbin k; Tbin v]))
  | CMerge cf k v => Some (Ttuple (tag "merge" :: cf_arg cf ++ [Tbin k; Tbin v]))
  | CDelete cf k => Some (Ttuple (tag "delete" :: cf_arg cf ++ [Tbin k]))
  | CSingleDelete cf k => Some (Ttuple (tag "single_delete" :: cf_arg cf ++ [Tbin k]))
  | _ => None
  end.

Lemma write_op_run s id c t :
  op_term c = Some t -> write_op (Tres RBatch id) t s = native (run_call cf_id s id c).
Proof.
  destruct c as [[cf|] k v|[cf|] k v|[cf|] k|[cf|] k| | | | | | |]; cbn [op_term cf_arg app];
    intros [= <-]; cbn [write_op]; eval_atoms; reflexivity.
Qed.
End Write.

Section Spec.
Context `{L : WriteBatchLib} `{E : NifEnv} `{LW : !WriteBatchLaws L} (cf_id : nat -> Z).

(** The updates of a list of operations that RocksDB takes. *)
Definition accepted (l : list call) : list wb_op :=
  filter (fun op => wb_accepts op = true) (omap (update_of cf_id) l).

Lemma op_term_update c t st a :
  op_term c = Some t ->
  exists op, update_of cf_id c = Some op /\ observed_call cf_id st a c = (st, spec_add op a, ATOM_OK).
Proof. destruct c; intros [=]; eexists; done. Qed.

Lemma accepted_cons c l op a :
  update_of cf_id c = Some op ->
  a_ops (spec_add op a) ++ accepted l = a_ops a ++ accepted (c :: l).
Proof.
  intros Hop. unfold accepted, spec_add. cbn [omap list_omap]. rewrite Hop, filter_cons.
  destruct (wb_accepts op); [| done]. rewrite decide_True by done. cbn [a_ops]. by rewrite <- app_assoc.
Qed.

(** The loop over well-formed operations runs the calls and then the write. *)
Lemma write_1_calls l terms s id b a db opts :
  s_batches s !! id = Some b -> holds b a ->
  op_term <$> l = Some <$> terms -> forallb (call_usable (s_heap s)) l = true ->
  exists b' a', write_1 cf_id (make_list terms) (Tres RBatch id) db opts s =
      native (WriteBatch (with_batch s id b') [db; Tres RBatch id; opts]) /\
    holds b' a' /\ a_ops a' = a_ops a ++ accepted l.
Proof.
  revert terms s b a. induction l as [|c l IH]; intros [|t terms] s b a Hb Ha Ht Hu; try done.
  { exists b, a. cbn [make_list write_1]. unfold with_batch, accepted. rewrite insert_id by done.
    cbn [omap list_omap filter list_filter]. rewrite app_nil_r. by destruct s. }
  rewrite !fmap_cons in Ht. injection Ht as Ht Hts.
  cbn [forallb] in Hu. apply andb_true_iff in Hu as [Hc Hu].
  destruct (op_term_update c t (s_store s) a Ht) as (op & Hop & Hspec).
  pose proof (call_step cf_id s id b a c Hb Ha Hc) as Hstep. rewrite Hspec in Hstep.
  destruct Hstep as (b1 & Hrun & Ha1).
  cbn [make_list write_1]. rewrite (write_op_run cf_id s id c t Ht), Hrun. cbn [native obind nif_result].
  destruct (IH terms (after s id b1 (s_store s)) b1 (spec_add op a)) as (b' & a' & -> & Ha' & Hops);
    [apply lookup_insert_eq | done | done | done |].
  exists b', a'. split_and!; [| done | by rewrite Hops, (accepted_cons c)].
  unfold with_batch, after. cbn [s_heap s_batches s_store]. by rewrite insert_insert_eq.
Qed.

Lemma release_live s id b a :
  s_batches s !! id = Some b -> holds b a ->
  ReleaseBatch s [Tres RBatch id] =
    Ok (with_batch s id {| b_wb := WNull; b_env := None |}, Reply ATOM_OK).
Proof.
  intros Hb (w & env & -> & _). unfold ReleaseBatch, on_batch.
  cbn [elem lookup list_lookup obind enif_get_resource]. rewrite decide_True by done.
  unfold batch_deref. by rewrite Hb.
Qed.

(** C15.  [write/3] with well-formed operations on open handles is one atomic write: it
    applies to the database, in one [DB::Write], the updates of the operations in
    their order (those RocksDB takes) and answers its status; the batch it made is
    released, and no handle's reference count and no other batch has changed. *)
Theorem erl_write_refines (s : sys) (d : nat) (l : list call) (terms : list term) (opts : term) :
  alloc_resource_ok = true -> alloc_env_ok = true ->
  op_term <$> l = Some <$> terms -> forallb (call_usable (s_heap s)) l = true ->
  usable (s_heap s) KDb d = true ->
  let '(st1, status) := db_apply (s_store s) d (fold_write_options opts) (accepted l) in
  exists s' id, write cf_id true s (Tres RDb d) (make_list terms) opts =
      Ok (s', Val (if status_ok status then ATOM_OK else error_tuple ATOM_ERROR status)) /\
    s_store s' = st1 /\ s_heap s' = s_heap s /\
    s_batches s !! id = None /\
    s_batches s' = <[id := {| b_wb := WNull; b_env := None |}]> (s_batches s).
Proof.
  intros Hr He Ht Hl Hd. destruct (NewBatch_live s Hr He) as (id & b & Hnew & Hnone & Hb).
  destruct (write_1_calls l terms (with_batch s id b) id b _ (Tres RDb d) opts
              (lookup_insert_eq _ _ _) Hb Ht Hl) as (b' & a' & Hw & Ha' & Hops).
  cbn [a_ops app] in Hops.
  pose proof (write_step cf_id (with_batch (with_batch s id b) id b') id b' a' d opts
                (lookup_insert_eq _ _ _) Ha' Hd) as Hstep.
  cbn [observed_call s_store with_batch] in Hstep. rewrite Hops in Hstep.
  destruct (db_apply _ _ _ _) as [st1 status]. destruct Hstep as (b2 & Hrun & Hb2).
  cbn [run_call] in Hrun. eexists _, id. split; [| split; [| split; [| split]]].
  - unfold write. rewrite Hnew. cbn [native obind nif_result]. eval_atoms.
    rewrite Hw, Hrun. cbn [native obind nif_result].
    erewrite release_live; [done | apply lookup_insert_eq | done].
  - done.
  - done.
  - done.
  - unfold after, with_batch. cbn [s_batches]. by rewrite !insert_insert_eq.
Qed.
End Spec.

(** ** What is written when the arguments are anything *)

Section Any.
Context `{L : WriteBatchLib} `{E : NifEnv} (cf_id : nat -> Z).

(** The call leaves what the databases hold. *)
Definition keeps_store {A : Type} (s : sys) (m : outcome (sys * A)) : Prop :=
  forall s' r, m = Ok (s', r) -> s_store s' = s_store s.

Lemma keeps_ok {A : Type} (s s1 : sys) (r : A) : s_store s1 = s_store s -> keeps_store s (Ok (s1, r)).
Proof. by intros H s' r' [= <- <-]. Qed.

Lemma keeps_bind {A B : Type} (s : sys) (m : outcome A) (k : A -> outcome (sys * B)) :
  (forall a, m = Ok a -> keeps_store s (k a)) -> keeps_store s (let! a := m in k a).
Proof. intros Hk s' r. destruct m as [a|] eqn:Em; cbn [obind]; [by apply Hk | done]. Qed.

Lemma keeps_undef {A : Type} (s : sys) : keeps_store s (Undef : outcome (sys * A)).
Proof. done. Qed.

Ltac keeps :=
  repeat first
    [ progress intros
    | apply keeps_ok; reflexivity
    | apply keeps_undef
    | apply keeps_bind; let a := fresh "a" in let Ha := fresh "Ha" in intros a Ha
    | match goal with
      | |- keeps_store _ (match ?x with _ => _ end) => destruct x
      | |- keeps_store _ (let '(_, _) := ?x in _) => destruct x
      end ].

Lemma add_update_store s id b ts op s1 :
  add_update s id b ts op = Ok s1 -> s_store s1 = s_store s.
Proof.
  unfold add_update. destruct (keep_terms ts b) as [b1|]; [| done]. cbn [obind].
  destruct (wb_deref b1); [| done]. by intros [= <-].
Qed.

Lemma default_update_store s id b argv decode : keeps_store s (default_update s id b argv decode).
Proof.
  unfold default_update. keeps. apply keeps_ok. by eapply add_update_store.
Qed.

Lemma cf_update_store s id b argv decode : keeps_store s (cf_update cf_id s id b argv decode).
Proof.
  unfold cf_update. keeps. apply keeps_ok. cbn [with_heap s_store].
  by erewrite add_update_store by eassumption.
Qed.

Lemma on_batch_store s argv k :
  (forall id b, keeps_store s (k id b)) -> keeps_store s (on_batch s argv k).
Proof. intros Hk. unfold on_batch. keeps. apply Hk. Qed.

Lemma update_store s argv :
  keeps_store s (PutBatch cf_id s argv) /\ keeps_store s (MergeBatch cf_id s argv) /\
  keeps_store s (DeleteBatch cf_id s argv) /\ keeps_store s (SingleDeleteBatch cf_id s argv) /\
  keeps_store s (ReleaseBatch s argv).
Proof.
  unfold PutBatch, MergeBatch, DeleteBatch, SingleDeleteBatch, ReleaseBatch.
  split_and!; apply on_batch_store; intros id b;
    try (case_match; [apply cf_update_store | apply default_update_store]).
  keeps.
Qed.

Lemma native_store (s : sys) (m : outcome (sys * reply)) : keeps_store s m -> keeps_store s (native m).
Proof.
  intros Hm s' r. unfold native. destruct m as [[s1 r1]|]; cbn [obind]; [| done].
  intros [= <- _]. by apply (Hm s1 r1).
Qed.

Lemma write_op_store s batch op : keeps_store s (write_op cf_id batch op s).
Proof.
  unfold write_op, batch_merge.
  repeat case_match; try (by apply keeps_ok); apply native_store; apply update_store.
Qed.

Lemma new_batch_store alloc_ok s : keeps_store s (NewBatch alloc_ok s).
Proof.
  unfold NewBatch, batch_resource_cleanup. keeps. apply keeps_ok.
  destruct (batch_deref _ _); [| done]. cbn [obind] in *. destruct (cleanup_batch _); [| done].
  cbn [obind] in *. by injection Ha as <-.
Qed.

(** The result of the loop: an exception with nothing written, or one write. *)
Definition written (s s' : sys) (opts : term) (r : erl term) : Prop :=
  match r with
  | Err _ => s_store s' = s_store s
  | Val t => exists d p status, db_write (s_store s) d (fold_write_options opts) p = (s_store s', status) /\
      t = if status_ok status then ATOM_OK else error_tuple ATOM_ERROR status
  end.

Lemma write_batch_written s db batch opts s' r :
  native (WriteBatch s [db; batch; opts]) = Ok (s', r) -> written s s' opts r.
Proof.
  unfold WriteBatch. cbn [elem lookup list_lookup obind].
  destruct (enif_get_db _ _) as [[h1 [d|]]|]; cbn [obind native]; [| by intros [= <- <-] | done].
  destruct (enif_get_resource RBatch batch) as [id|].
  - destruct (batch_deref s id) as [b|]; cbn [obind]; [| done].
    destruct (wb_arg b) as [p|]; cbn [obind]; [| done].
    destruct (db_write _ _ _ _) as [st status] eqn:Ew.
    destruct (clear_env _); cbn [obind]; [| done]. destruct (release _ _); cbn [obind]; [| done].
    intros [= <- <-]. cbn [nif_result written s_store with_heap with_store]. by exists d, p, status.
  - destruct (release _ _); cbn [obind]; [| done]. by intros [= <- <-].
Qed.

Lemma write_1_written ops batch db opts s s' r :
  write_1 cf_id ops batch db opts s = Ok (s', r) -> written s s' opts r.
Proof.
  revert s. induction ops; intros s; cbn [write_1]; try (by intros [= <- <-]).
  - apply write_batch_written.
  - destruct (write_op cf_id batch ops1 s) as [[s1 r1]|] eqn:Eo; cbn [obind]; [| done].
    pose proof (write_op_store s batch ops1 s1 r1 Eo) as Hs.
    destruct r1; [| intros [= <- <-]; exact Hs].
    intros H%IHops2. unfold written in *. by rewrite Hs in H.
Qed.

(** The batch of [{ok, Batch}] is a batch, which [release_batch] accepts. *)
Lemma new_batch_shape alloc_ok s s1 ok batch :
  native (NewBatch alloc_ok s) = Ok (s1, Val (Ttuple [ok; batch])) -> is_atom "ok" ok = true ->
  exists id, batch = Tres RBatch id.
Proof.
  unfold NewBatch, batch_resource_cleanup, error_tuple_msg. destruct alloc_ok; cbn [negb native obind nif_result];
    [| by intros [= _ <- _]].
  destruct alloc_resource_ok; cbn [negb native obind nif_result]; [| by intros [= _ <- _]].
  destruct alloc_env_ok; cbn [negb native obind nif_result]; [intros [= _ _ <-] _; by eexists |].
  destruct (batch_deref _ _); cbn [obind]; [| done]. destruct (cleanup_batch _); cbn [obind nif_result]; [| done].
  by intros [= _ <- _].
Qed.

Lemma release_reply s id s' r :
  native (ReleaseBatch s [Tres RBatch id]) = Ok (s', r) -> r = Val ATOM_OK.
Proof.
  unfold ReleaseBatch, on_batch. cbn [elem lookup list_lookup obind enif_get_resource].
  rewrite decide_True by done. destruct (batch_deref s id); cbn [obind native]; [| done].
  destruct (cleanup_batch _); cbn [obind nif_result]; [| done]. by intros [= _ <-].
Qed.

(** C26.  All or nothing: whatever the database, the operations and the options are
    (malformed operations, closed handles, an improper list), when [write/3] raises
    the databases hold what they held, and otherwise they hold what one [DB::Write]
    left, whose status is the answer. *)
Theorem write_all_or_nothing (alloc_ok : bool) (s s' : sys) (db ops opts : term) (r : erl term) :
  write cf_id alloc_ok s db ops opts = Ok (s', r) -> written s s' opts r.
Proof.
  unfold write.
  destruct (native (NewBatch alloc_ok s)) as [[s1 r1]|] eqn:En; cbn [obind]; [| done].
  pose proof (native_store _ _ (new_batch_store alloc_ok s) _ _ En) as Hs1.
  assert (Herr : forall e, Ok (s1, Err e) = Ok (s', r) -> written s s' opts r) by (by intros e [= <- <-]).
  destruct r1 as [t|e]; [| apply Herr]. destruct t as [| | | | | |[|ok [|batch [|]]]| | |]; try apply Herr.
  destruct (is_atom "ok" ok) eqn:Eok; [| apply Herr].
  destruct (new_batch_shape alloc_ok s s1 ok batch En Eok) as [id ->].
  destruct (write_1 cf_id ops (Tres RBatch id) db opts s1) as [[s2 res]|] eqn:E1; cbn [obind]; [| done].
  apply write_1_written in E1.
  destruct (native (ReleaseBatch s2 [Tres RBatch id])) as [[s3 rel]|] eqn:Er; cbn [obind]; [| done].
  pose proof (native_store _ _ (proj2 (proj2 (proj2 (proj2 (update_store s2 [Tres RBatch id]))))) _ _ Er) as Hs3.
  apply release_reply in Er as ->. intros [= <- <-]. unfold written in *. by rewrite Hs3, <- Hs1.
Qed.
End Any.

(** ** Witnesses *)

Module ErlWriteWitness.
Import ListBatch BatchWitness.
#[local] Existing Instance the_env.

Definition ops : list call := [CPut None ka kb; CMerge (Some 1%nat) kb ka; CSingleDelete None ka].
Definition op_terms : list term := omap op_term ops.

Lemma erl_write_refines_witness :
  let '(st1, status) := db_apply (s_store the_sys) 0 (fold_write_options Tnil) (accepted the_cf_id ops) in
  exists s' id, ErlWrite.write the_cf_id true the_sys (Tres RDb 0) (make_list op_terms) Tnil =
      Ok (s', Val (if status_ok status then ATOM_OK else error_tuple ATOM_ERROR status)) /\
    s_store s' = st1 /\ s_heap s' = s_heap the_sys /\
    s_batches the_sys !! id = None /\
    s_batches s' = <[id := {| b_wb := WNull; b_env := None |}]> (s_batches the_sys).
Proof.
  apply (erl_write_refines the_cf_id the_sys 0 ops op_terms Tnil);
    [reflexivity | reflexivity | reflexivity | vm_compute; reflexivity | vm_compute; reflexivity].
Defined.

Definition state_of (m : outcome (sys * erl term)) : sys :=
  match m with Ok (s, _) => s | Undef => the_sys end.

Definition raises (a : string) (m : outcome (sys * erl term)) : bool :=
  match m with Ok (_, Err e) => is_atom a e | _ => false end.

Lemma raises_state a m : raises a m = true -> m = Ok (state_of m, Err (Tatom a)).
Proof.
  destruct m as [[s [t|e]]|]; cbn [raises]; try done. destruct e as [b| | | | | | | | |]; cbn [is_atom]; try done.
  intros <-%bool_decide_eq_true. done.
Qed.

(** A valid operation followed by one that matches no clause. *)
Definition bad_ops : term := make_list (op_terms ++ [Ttuple [Tatom "put"; Tbin ka]]).

Lemma write_all_or_nothing_witness :
  written the_sys (state_of (ErlWrite.write the_cf_id true the_sys (Tres RDb 0) bad_ops Tnil)) Tnil (Err ATOM_BADARG).
Proof.
  apply (write_all_or_nothing the_cf_id true the_sys _ (Tres RDb 0) bad_ops Tnil).
  apply (raises_state "badarg"). vm_compute. reflexivity.
Defined.
End ErlWriteWitness.
