(* ===== verification/TransactionLog.v ===== *)
(** * Reading the transaction log

    [c_src/transaction_log.cc]: [TransactionLogNextUpdate],
    [TransactionLogNextBinaryUpdate] and [WriteBinaryUpdate], with which one
    database is replayed into another.  (Opening and closing the iterator is in
    [HandleNif].)

    [rocksdb::TransactionLogIterator] is behind the class [TLogLib]; its laws say
    that it walks over a list of batches with their sequence numbers. *)

From stdpp Require Import base list numbers strings gmap.
From Stdlib Require Import ZArith Lia.
From S2P Require Import Prelude Terms RefObjects WriteBatchLib Batch.

(** ** The iterator of the library *)

Class TLogLib `{WriteBatchLib} := {
  tlog : Type;
  tl_valid : tlog -> bool;
  tl_status : tlog -> Status;
  tl_get_batch : tlog -> Z * wb;          (* BatchResult: sequence, writeBatchPtr *)
  tl_next : tlog -> tlog;
}.

(** [tl_rest]: the batches not read yet. *)
Class TLogLaws `{L : WriteBatchLib} (LW : WriteBatchLaws L) (T : TLogLib) := {
  tl_rest : tlog -> list (Z * list wb_op);
  valid_rest : forall i, tl_valid i = negb (length (tl_rest i) =? 0)%nat;
  status_valid : forall i, tl_valid i = true -> tl_status i = StatusOK;
  batch_head : forall i seq ops r, tl_rest i = (seq, ops) :: r ->
    (tl_get_batch i).1 = seq /\ wb_updates (tl_get_batch i).2 = ops;
  next_rest : forall i b r, tl_rest i = b :: r -> tl_rest (tl_next i) = r;
}.

(** ** State *)

(** The handles, the iterators behind the open log handles, and the databases. *)
Record lsys `{TLogLib} := {
  l_heap : heap;
  l_iters : gmap nat tlog;
  l_store : store;
}.

Section Nifs.
Context `{T : TLogLib}.

Definition lwith_heap (s : lsys) (h : heap) : lsys :=
  {| l_heap := h; l_iters := l_iters s; l_store := l_store s |}.

Definition lwith_iter (s : lsys) (id : nat) (i : tlog) : lsys :=
  {| l_heap := l_heap s; l_iters := <[id := i]> (l_iters s); l_store := l_store s |}.

Definition lwith_store (s : lsys) (d : store) : lsys :=
  {| l_heap := l_heap s; l_iters := l_iters s; l_store := d |}.

(** [enif_make_int64] of a [uint64_t]. *)
Definition to_int64 (z : Z) : Z := let m := u64 z in if m <? 2 ^ 63 then m else m - 2 ^ 64.

(** The shared shape of the two readers: pin the handle, check the iterator, make
    the answer from the batch, advance. *)
Definition next_with (answer : Z -> wb -> term) (s : lsys) (argv : list term) :
    outcome (lsys * reply) :=
  let! t := elem argv 0 in
  let! (h1, p) := get_ref KTLogItr (l_heap s) t in
  match p with
  | None => Ok (lwith_heap s h1, Badarg)
  | Some id =>
      let! o := deref h1 id in
      match m_Native o, l_iters s !! id with
      | true, Some itr =>
          if negb (tl_valid itr) then
            let! h2 := release h1 p in
            Ok (lwith_heap s h2, Reply (Ttuple [ATOM_ERROR; ATOM_INVALID_ITERATOR]))
          else if negb (status_ok (tl_status itr)) then
            let! h2 := release h1 p in
            Ok (lwith_heap s h2, Reply (error_tuple ATOM_ERROR (tl_status itr)))
          else
            let '(seq, w) := tl_get_batch itr in
            let! h2 := release h1 p in
            Ok (lwith_heap (lwith_iter s id (tl_next itr)) h2, Reply (answer seq w))
      | _, _ => Undef
      end
  end.

Definition TransactionLogNextUpdate : lsys -> list term -> outcome (lsys * reply) :=
  next_with (fun seq w =>
    Ttuple [ATOM_OK; Tint (to_int64 seq); batch_log w; Tbin (wb_data w)]).

Definition TransactionLogNextBinaryUpdate : lsys -> list term -> outcome (lsys * reply) :=
  next_with (fun seq w => Ttuple [ATOM_OK; Tint (to_int64 seq); Tbin (wb_data w)]).

Definition WriteBinaryUpdate (s : lsys) (argv : list term) : outcome (lsys * reply) :=
  let! t0 := elem argv 0 in
  let! (h1, db) := enif_get_db (l_heap s) t0 in
  match db with
  | None => Ok (lwith_heap s h1, Badarg)
  | Some d =>
      let! t1 := elem argv 1 in
      match enif_inspect_binary t1 with
      | None => let! h2 := release h1 db in Ok (lwith_heap s h2, Badarg)
      | Some bin =>
          let! t2 := elem argv 2 in
          let '(st, status) :=
            db_write (l_store s) d (fold_write_options t2) (Some (wb_of_data bin)) in
          let! h2 := release h1 db in
          Ok (lwith_heap (lwith_store s st) h2,
              Reply (if status_ok status then ATOM_OK else error_tuple ATOM_ERROR status))
      end
  end.

End Nifs.

(** ** Replaying a log *)

Section Replay.
Context `{T : TLogLib}.

(** Read a binary update and write it to database [db], at most [n] times. *)
Fixpoint replay (n : nat) (s : lsys) (itr db : nat) (opts : term) :
    outcome (lsys * list (Z * reply)) :=
  match n with
  | O => Ok (s, [])
  | S n =>
      let! (s1, r) := TransactionLogNextBinaryUpdate s [Tres RTLogItr itr] in
      match r with
      | Reply (Ttuple [_; Tint seq; bin]) =>
          let! (s2, r2) := WriteBinaryUpdate s1 [Tres RDb db; bin; opts] in
          let! (s3, l) := replay n s2 itr db opts in
          Ok (s3, (seq, r2) :: l)
      | _ => Ok (s1, [])
      end
  end.

Context {LW : WriteBatchLaws H} {TL : TLogLaws LW T}.

Definition status_reply (st : Status) : reply :=
  Reply (if status_ok st then ATOM_OK else error_tuple ATOM_ERROR st).

(** The batches of a log applied to a database one after the other. *)
Fixpoint apply_log (st : store) (db : nat) (o : WriteOptions) (l : list (Z * list wb_op)) :
    store * list (Z * reply) :=
  match l with
  | [] => (st, [])
  | (seq, ops) :: r =>
      let '(st1, status) := db_apply st db o ops in
      let '(st2, reps) := apply_log st1 db o r in
      (st2, (to_int64 seq, status_reply status) :: reps)
  end.

Lemma next_step answer s itr i seq ops r :
  usable (l_heap s) KTLogItr itr = true -> l_iters s !! itr = Some i ->
  tl_rest i = (seq, ops) :: r ->
  exists w, wb_updates w = ops /\
    next_with answer s [Tres RTLogItr itr] =
      Ok (lwith_iter s itr (tl_next i), Reply (answer seq w)).
Proof.
  intros Hu Hi Hr. destruct (usable_pin (fun _ => 1) _ KTLogItr itr ltac:(done) Hu)
    as (h1 & Hget & Hrel & Hid).
  destruct (batch_head i seq ops r Hr) as [Hseq Hops].
  assert (Hv : tl_valid i = true) by (by rewrite valid_rest, Hr).
  exists (tl_get_batch i).2. split; [done |]. unfold next_with.
  cbn [elem lookup list_lookup obind].
  change (Tres RTLogItr itr) with (Tres (res_kind_of KTLogItr) itr). rewrite Hget. cbn [obind].
  assert (Hn : exists o, deref h1 itr = Ok o /\ m_Native o = true).
  { unfold column_family_id in Hid. destruct (deref h1 itr) as [o|]; [| done].
    exists o. cbn in Hid. by destruct (m_Native o). }
  destruct Hn as (o & -> & Hn). cbn [obind]. rewrite Hn, Hi, Hv. cbn [negb].
  rewrite status_valid by done. cbn [negb]. change (status_ok StatusOK) with true. cbv iota.
  destruct (tl_get_batch i) as [seq' w]. cbn in Hseq. subst seq'. cbn [negb]. rewrite Hrel. done.
Qed.

Lemma next_end answer s itr i :
  usable (l_heap s) KTLogItr itr = true -> l_iters s !! itr = Some i -> tl_rest i = [] ->
  next_with answer s [Tres RTLogItr itr] =
    Ok (s, Reply (Ttuple [ATOM_ERROR; ATOM_INVALID_ITERATOR])).
Proof.
  intros Hu Hi Hr. destruct (usable_pin (fun _ => 1) _ KTLogItr itr ltac:(done) Hu)
    as (h1 & Hget & Hrel & Hid).
  assert (Hv : tl_valid i = false) by (by rewrite valid_rest, Hr).
  unfold next_with. cbn [elem lookup list_lookup obind].
  change (Tres RTLogItr itr) with (Tres (res_kind_of KTLogItr) itr). rewrite Hget. cbn [obind].
  unfold column_family_id in Hid. destruct (deref h1 itr) as [o|]; [| done].
  cbn in Hid. destruct (m_Native o) eqn:Hn; [| done]. cbn [obind].
  rewrite Hn, Hi, Hv. cbn [negb]. rewrite Hrel. by destruct s.
Qed.

Lemma write_binary_step s db bin opts :
  usable (l_heap s) KDb db = true ->
  let '(st, status) := db_apply (l_store s) db (fold_write_options opts)
                         (wb_updates (wb_of_data bin)) in
  WriteBinaryUpdate s [Tres RDb db; Tbin bin; opts] = Ok (lwith_store s st, status_reply status).
Proof.
  intros Hu. destruct (usable_pin (fun _ => 1) _ KDb db ltac:(done) Hu) as (h1 & Hget & Hrel & _).
  rewrite <- write_view. destruct (db_write _ _ _ _) as [st status] eqn:E.
  unfold WriteBinaryUpdate. cbn [elem lookup list_lookup obind enif_inspect_binary].
  change (enif_get_db ?h (Tres RDb db)) with (get_ref KDb h (Tres (res_kind_of KDb) db)).
  rewrite Hget. cbn [obind]. rewrite E, Hrel. done.
Qed.

(** ** Properties *)

(** C37.  Replaying a log: reading the binary updates of a transaction-log
    iterator one after the other and writing each to a database applies exactly
    the batches of the log, in order, range deletions included, with the
    sequence numbers of the log; after them the iterator answers
    invalid_iterator.  The handles keep their reference counts. *)
Theorem log_replay (s : lsys) (itr db n : nat) (i : tlog) (opts : term) :
  usable (l_heap s) KTLogItr itr = true -> usable (l_heap s) KDb db = true ->
  l_iters s !! itr = Some i -> (length (tl_rest i) <= n)%nat ->
  let '(st, reps) := apply_log (l_store s) db (fold_write_options opts) (tl_rest i) in
  exists s', replay n s itr db opts = Ok (s', reps) /\
    l_store s' = st /\ l_heap s' = l_heap s /\
    TransactionLogNextBinaryUpdate s' [Tres RTLogItr itr] =
      Ok (s', Reply (Ttuple [ATOM_ERROR; ATOM_INVALID_ITERATOR])).
Proof.
  revert s i. induction n as [|n IH]; intros s i Hti Hdb Hi Hn;
    destruct (tl_rest i) as [|[seq ops] r] eqn:Hr; cbn [apply_log].
  - exists s. split_and!; try done. by apply (next_end _ s itr i).
  - cbn in Hn. lia.
  - exists s. cbn [replay]. unfold TransactionLogNextBinaryUpdate at 1.
    rewrite (next_end _ s itr i) by done. split_and!; try done. by apply (next_end _ s itr i).
  - cbn [replay].
    destruct (next_step (fun seq w => Ttuple [ATOM_OK; Tint (to_int64 seq); Tbin (wb_data w)])
                s itr i seq ops r Hti Hi Hr) as (w & Hw & Hnext).
    unfold TransactionLogNextBinaryUpdate at 1. rewrite Hnext. cbn [obind].
    pose proof (write_binary_step (lwith_iter s itr (tl_next i)) db (wb_data w) opts Hdb) as Hwr.
    rewrite data_view, Hw in Hwr. cbn [l_store lwith_iter] in Hwr.
    destruct (db_apply _ _ _ _) as [st1 status]. rewrite Hwr. cbn [obind].
    specialize (IH (lwith_store (lwith_iter s itr (tl_next i)) st1) (tl_next i) Hti Hdb
                  (lookup_insert_eq _ _ _)).
    rewrite (next_rest i _ r Hr) in IH. cbn [length] in Hn. specialize (IH ltac:(lia)).
    cbn [l_store lwith_store] in IH.
    destruct (apply_log st1 _ _ _) as [st2 reps]. destruct IH as (s' & -> & Hst & Hh & Hend).
    by exists s'.
Qed.
End Replay.

(** ** Witness *)

Module TransactionLogWitness.
Import ListBatch.

#[export] Instance list_tlog : TLogLib (H := lib) :=
  {| tlog := list (Z * list wb_op);
     tl_valid := fun i => negb (length i =? 0)%nat;
     tl_status := fun _ => StatusOK;
     tl_get_batch := fun i => match i with
       | (seq, ops) :: _ => (seq, ({| updates := ops; saves := [] |} : wb))
       | [] => (0, wb_new)
       end;
     tl_next := fun i => tail i |}.

#[export] Instance list_tlog_laws : TLogLaws laws list_tlog.
Proof.
  refine {| tl_rest := (fun i : tlog => (i : list (Z * list wb_op))) |}; try done.
  - intros i seq ops r E. cbn in *. by subst i.
  - intros i b r E. cbn in *. by subst i.
Defined.

(** Database 0, log iterator 1 of it, and database 2. *)
Definition the_heap : heap :=
  <[2%nat := set_refs 1 (new_obj KDb None)]>
    (<[1%nat := set_refs 1 (new_obj KTLogItr (Some 0%nat))]>
      {[0%nat := set_refs 2 (set_list KTLogItr [1%nat] (new_obj KDb None))]}).
Definition the_log : list (Z * list wb_op) :=
  [(4, [WPut 0 [Byte.x61] [Byte.x62]; WDeleteRange 0 [] [Byte.x63]]); (6, [WDelete 0 [Byte.x61]])].
Definition the_lsys : lsys :=
  {| l_heap := the_heap; l_iters := {[1%nat := (the_log : @tlog lib list_tlog)]}; l_store := ([] : @store lib) |}.

Lemma log_replay_witness :
  let '(st, reps) := apply_log (l_store the_lsys) 2 (fold_write_options Tnil) the_log in
  exists s', replay 3 the_lsys 1 2 Tnil = Ok (s', reps) /\
    l_store s' = st /\ l_heap s' = l_heap the_lsys /\
    TransactionLogNextBinaryUpdate s' [Tres RTLogItr 1] =
      Ok (s', Reply (Ttuple [ATOM_ERROR; ATOM_INVALID_ITERATOR])).
Proof.
  refine (log_replay the_lsys 1 2 3 (the_log : @tlog lib list_tlog) Tnil _ _ _ _);
    [vm_compute; reflexivity | vm_compute; reflexivity | reflexivity | cbn; lia].
Defined.
End TransactionLogWitness.
