(* ===== verification/Options.v ===== *)
(** * Option parsing

    The parsers of [c_src/erocksdb_db.cc] that turn Erlang option lists into the
    option structs of RocksDB.

    A struct is the list of its assigned fields, the latest first; a field that is
    not in it has the default of the library.  Each parser is a chain of tests on
    the first element of a pair; here it is a table from atoms to actions that is
    searched in the order of the chain, and the actions are the shapes the code
    repeats (a boolean, an integer of some width, an enumeration, a handle).  What
    does not have one of these shapes is a function of its own.

    The defaults set by [OptimizeLevelStyleCompaction] and [IncreaseParallelism]
    are parameters. *)

From stdpp Require Import base list numbers strings.
From Stdlib Require Import ZArith Lia.
From S2P Require Import Prelude Terms CompactionFilter.

(** ** Structs *)

Inductive MergeOperator :=
| ErlangMergeOperator
| BitsetMergeOperator (cap : Z)
| CounterMergeOperator
| PostingListMergeOperator.

(** The value of a field: a boolean, a number of the field's C++ type, a [double]
    (from a float, or converted from an [int]), a string, an enumerator, a
    reference to a resource, an object made by a constructor of RocksDB, a merge
    operator, a filter factory, or a list or struct of values. *)
Inductive val :=
| VBool (b : bool)
| VNum (z : Z)
| VDouble (bits : Z)
| VDoubleOfInt (z : Z)
| VText (s : bytes)
| VEnum (name : string)
| VHandle (k : res_kind) (id : nat)
| VObj (name : string) (args : list Z)
| VMergeOp (m : MergeOperator)
| VFilter (f : ErlangCompactionFilterFactory)
| VList (l : list val)
| VStruct (fields : list (string * val)).

Abbreviation struct := (list (string * val)).

Fixpoint sget (f : string) (s : struct) : option val :=
  match s with
  | [] => None
  | (g, v) :: r => if decide (f = g) then Some v else sget f r
  end.

(** [opts.f = v] *)
Definition sset (f : string) (v : val) (s : struct) : struct := (f, v) :: s.

(** Several assignments, in order. *)
Definition sset_all (l : list (string * val)) (s : struct) : struct :=
  fold_left (fun s e => sset e.1 e.2 s) l s.

(** ** Parsers *)

(** What a parser returns: the struct and [ATOM_OK] or an error atom. *)
Definition parse_result := outcome (struct * term).

Definition pok (s : struct) : parse_result := Ok (s, ATOM_OK).

(** The template [fold] of [atoms.h]: apply [fun] to the cells of a list until it
    returns something else than ok. *)
Fixpoint fold_cells {A} (f : term -> A -> outcome (A * term)) (l : list term) (acc : A) :
    outcome (A * term) :=
  match l with
  | [] => Ok (acc, ATOM_OK)
  | head :: r =>
      let! (acc1, result) := f head acc in
      if is_atom "ok" result then fold_cells f r acc1 else Ok (acc1, result)
  end.

Definition fold {A} (f : term -> A -> outcome (A * term)) (l : term) (acc : A) :
    outcome (A * term) := fold_cells f (list_cells l) acc.

(** The shapes of the branches. *)
Inductive action :=
| ANothing
| ABool (f : string)                       (* opts.f = (option[1] == ATOM_TRUE) *)
| AInt (f : string)                        (* enif_get_int into an int *)
| AIntSize (f : string) (w : Z)            (* enif_get_int into an unsigned type of w bits *)
| AIntDouble (f : string)                  (* enif_get_int into a double *)
| AUint (f : string)
| AUint64 (f : string)
| AInt64 (f : string)
| ADouble (f : string)
| AText (f : string)                       (* enif_get_string into a buffer of 4096 *)
| AEnum (f : string) (cases : list (string * string))
| AHandle (f : string) (k : res_kind)
| ACustom (fs : list string) (g : term -> struct -> parse_result).

Definition find_atom {A} (t : term) (table : list (string * A)) : option A :=
  snd <$> find (fun e => is_atom e.1 t) table.

(** The value a simple action reads from the second element of the pair. *)
Definition read_value (a : action) (v : term) : option (string * val) :=
  match a with
  | ANothing | ACustom _ _ => None
  | ABool f => Some (f, VBool (is_atom "true" v))
  | AInt f => (fun z => (f, VNum z)) <$> enif_get_int v
  | AIntSize f w => (fun z => (f, VNum (wrap w z))) <$> enif_get_int v
  | AIntDouble f => (fun z => (f, VDoubleOfInt z)) <$> enif_get_int v
  | AUint f => (fun z => (f, VNum z)) <$> enif_get_uint v
  | AUint64 f => (fun z => (f, VNum z)) <$> enif_get_uint64 v
  | AInt64 f => (fun z => (f, VNum z)) <$> enif_get_int64 v
  | ADouble f => (fun z => (f, VDouble z)) <$> enif_get_double v
  | AText f => (fun s => (f, VText s)) <$> get_c_string 4096 v
  | AEnum f cases => (fun c => (f, VEnum c)) <$> find_atom v cases
  | AHandle f k => (fun id => (f, VHandle k id)) <$> enif_get_resource k v
  end.

Definition run_action (a : action) (v : term) (s : struct) : parse_result :=
  match a with
  | ACustom _ g => g v s
  | _ => match read_value a v with Some (f, x) => pok (sset f x s) | None => pok s end
  end.

(** A chain of tests on a pair. *)
Definition parse_table (table : list (string * action)) (item : term) (s : struct) : parse_result :=
  match enif_get_tuple item with
  | Some [key; v] =>
      match find_atom key table with Some a => run_action a v s | None => pok s end
  | _ => pok s
  end.

(** ** Block-based tables and FIFO compaction *)

Definition bbt_table : list (string * action) :=
  [ ("no_block_cache", ABool "no_block_cache");
    ("block_size", AIntSize "block_size" 64);
    ("block_cache", AHandle "block_cache" RCache);
    ("bloom_filter_policy", ACustom ["filter_policy"] (fun v s =>
       match enif_get_int v with
       | Some bits_per_key => pok (sset "filter_policy" (VObj "BloomFilterPolicy" [bits_per_key]) s)
       | None => pok s
       end));
    ("format_version", AIntSize "format_version" 32);
    ("cache_index_and_filter_blocks", ABool "cache_index_and_filter_blocks") ]%string.

Definition parse_bbt_option := parse_table bbt_table.

Definition fifo_table : list (string * action) :=
  [ ("max_table_files_size", AUint64 "max_table_files_size");
    ("allow_compaction", ABool "allow_compaction") ]%string.

Definition parse_compaction_options_fifo := parse_table fifo_table.

(** ** Database options *)

Section Parsers.
Context (increase_parallelism : Z -> struct) (optimize_level_style : Z -> struct).

(** [NewMemEnv], a directory in it, and [create_if_missing]. *)
Definition set_memenv (s : struct) : struct :=
  sset "create_if_missing" (VBool true) (sset "env" (VObj "MemEnv" []) s).

Definition parse_env (v : term) (s : struct) : parse_result :=
  if enif_is_atom v then
    if is_atom "memenv" v then pok (set_memenv s) else pok s
  else match enif_get_resource REnv v with
       | Some id => pok (sset "env" (VHandle REnv id) s)
       | None => pok s
       end.

(** [db_paths]: each string of the list is pushed as a path of target size 0. *)
Definition parse_db_paths (v : term) (s : struct) : parse_result :=
  let old := match sget "db_paths" s with Some (VList l) => l | _ => [] end in
  pok (sset "db_paths" (VList (old ++ (VText <$> omap (get_c_string 4096) (list_cells v)))) s).

Definition wal_recovery_modes : list (string * string) :=
  [ ("tolerate_corrupted_tail_records", "kTolerateCorruptedTailRecords");
    ("absolute_consistency", "kAbsoluteConsistency");
    ("point_in_time_recovery", "kPointInTimeRecovery");
    ("skip_any_corrupted_records", "kSkipAnyCorruptedRecords") ]%string.

Definition db_table : list (string * action) :=
  [ ("env", ACustom ["env"; "create_if_missing"] parse_env);
    ("statistics", AHandle "statistics" RStatistics);
    ("total_threads", ACustom (fst <$> increase_parallelism 1) (fun v s =>
       match enif_get_int v with
       | Some n => pok (sset_all (increase_parallelism n) s)
       | None => pok s
       end));
    ("create_if_missing", ABool "create_if_missing");
    ("create_missing_column_families", ABool "create_missing_column_families");
    ("error_if_exists", ABool "error_if_exists");
    ("paranoid_checks", ABool "paranoid_checks");
    ("max_open_files", AInt "max_open_files");
    ("max_total_wal_size", AUint64 "max_total_wal_size");
    ("use_fsync", ABool "use_fsync");
    ("db_paths", ACustom ["db_paths"] parse_db_paths);
    ("db_log_dir", AText "db_log_dir");
    ("wal_dir", AText "wal_dir");
    ("delete_obsolete_files_period_micros", AUint64 "delete_obsolete_files_period_micros");
    ("max_background_jobs", AInt "max_background_jobs");
    ("max_background_compactions", AInt "max_background_compactions");
    ("max_background_flushes", AInt "max_background_flushes");
    ("max_log_file_size", AUint "max_log_file_size");
    ("log_file_time_to_roll", AUint "log_file_time_to_roll");
    ("keep_log_file_num", AUint "keep_log_file_num");
    ("max_manifest_file_size", AUint64 "max_manifest_file_size");
    ("table_cache_numshardbits", AInt "table_cache_numshardbits");
    ("wal_ttl_seconds", AUint64 "WAL_ttl_seconds");
    ("wal_size_limit_mb", AUint64 "WAL_size_limit_MB");
    ("manifest_preallocation_size", AUint "manifest_preallocation_size");
    ("allow_mmap_reads", ABool "allow_mmap_reads");
    ("allow_mmap_writes", ABool "allow_mmap_writes");
    ("is_fd_close_on_exec", ABool "is_fd_close_on_exec");
    ("stats_dump_period_sec", AUint "stats_dump_period_sec");
    ("advise_random_on_open", ABool "advise_random_on_open");
    ("compaction_readahead_size", AUint "compaction_readahead_size");
    ("use_adaptive_mutex", ABool "use_adaptive_mutex");
    ("bytes_per_sync", AUint64 "bytes_per_sync");
    ("skip_stats_update_on_db_open", ABool "skip_stats_update_on_db_open");
    ("wal_recovery_mode", AEnum "wal_recovery_mode" wal_recovery_modes);
    ("allow_concurrent_memtable_write", ABool "allow_concurrent_memtable_write");
    ("enable_write_thread_adaptive_yield", ABool "enable_write_thread_adaptive_yield");
    ("db_write_buffer_size", AUint "db_write_buffer_size");
    ("in_memory", ACustom ["env"; "create_if_missing"] (fun v s =>
       if is_atom "true" v then pok (set_memenv s) else pok s));
    ("rate_limiter", AHandle "rate_limiter" RRateLimiter);
    ("sst_file_manager", AHandle "sst_file_manager" RSstFileManager);
    ("write_buffer_manager", AHandle "write_buffer_manager" RWriteBufferManager);
    ("max_subcompactions", AUint "max_subcompactions");
    ("atomic_flush", ABool "atomic_flush");
    ("manual_wal_flush", ABool "manual_wal_flush");
    ("use_direct_reads", ABool "use_direct_reads");
    ("use_direct_io_for_flush_and_compaction",
       ABool "use_direct_io_for_flush_and_compaction");
    ("enable_pipelined_write", ABool "enable_pipelined_write");
    ("unordered_write", ABool "unordered_write");
    ("two_write_queues", ABool "two_write_queues");
    ("max_manifest_space_amp_pct", AInt "max_manifest_space_amp_pct") ]%string.

Definition parse_db_option := parse_table db_table.

(** ** Column-family options *)

Definition compression_types : list (string * string) :=
  [ ("snappy", "kSnappyCompression"); ("zlib", "kZlibCompression");
    ("bzip2", "kBZip2Compression"); ("lz4", "kLZ4Compression"); ("lz4h", "kLZ4HCCompression");
    ("zstd", "kZSTD"); ("none", "kNoCompression") ]%string.

(** [compression] is declared without a value: an atom that is none of the types
    leaves it indeterminate, and it is copied all the same. *)
Definition parse_compression (f : string) (v : term) (s : struct) : parse_result :=
  match find_atom v compression_types with
  | Some c => pok (sset f (VEnum c) s)
  | None => Undef
  end.

Definition compression_opts_table : list (string * action) :=
  [ ("enabled", ABool "enabled"); ("window_bits", AInt "window_bits"); ("level", AInt "level");
    ("strategy", AInt "strategy"); ("max_dict_bytes", AUint "max_dict_bytes");
    ("zstd_max_train_bytes", AUint "zstd_max_train_bytes") ]%string.

(** A nested list parsed into a fresh struct, whose error atom is not looked at. *)
Definition parse_nested (parser : term -> struct -> parse_result) (f : string)
    (wrap_it : struct -> val) (v : term) (s : struct) : parse_result :=
  let! (nested, _) := fold parser v [] in pok (sset f (wrap_it nested) s).

Definition parse_compression_opts (f : string) : term -> struct -> parse_result :=
  parse_nested (parse_table compression_opts_table) f VStruct.

(** The settings of [in_memory_mode]. *)
Definition in_memory_mode_settings : struct :=
  [ ("prefix_extractor", VObj "FixedPrefixTransform" [10]);
    ("table_factory", VObj "PlainTableFactory" []);
    ("compression", VEnum "kNoCompression");
    ("memtable_prefix_bloom_size_ratio", VDouble 4598175219545276416);
    ("compaction_style", VEnum "kCompactionStyleUniversal");
    ("compaction_options_universal.size_ratio", VNum 10);
    ("compaction_options_universal.min_merge_width", VNum 2);
    ("compaction_options_universal.max_size_amplification_percent", VNum 50);
    ("level0_file_num_compaction_trigger", VNum 0);
    ("level0_slowdown_writes_trigger", VNum 8);
    ("level0_stop_writes_trigger", VNum 16);
    ("bloom_locality", VNum 1);
    ("write_buffer_size", VNum (Z.shiftl 32 20));
    ("max_write_buffer_number", VNum 2);
    ("min_write_buffer_number_to_merge", VNum 1) ]%string.

Definition parse_in_memory_mode (v : term) (s : struct) : parse_result :=
  if is_atom "true" v then pok (sset_all in_memory_mode_settings s) else pok s.

Definition merge_operators : list (string * MergeOperator) :=
  [ ("erlang_merge_operator", ErlangMergeOperator);
    ("bitset_merge_operator", BitsetMergeOperator 16000);
    ("counter_merge_operator", CounterMergeOperator);
    ("posting_list_merge_operator", PostingListMergeOperator) ]%string.

Definition parse_merge_operator (v : term) (s : struct) : parse_result :=
  if enif_is_atom v then
    match find_atom v merge_operators with
    | Some m => pok (sset "merge_operator" (VMergeOp m) s)
    | None => pok s
    end
  else match enif_get_tuple v with
       | Some (op :: cap :: _) =>
           if is_atom "bitset_merge_operator" op then
             match enif_get_uint cap with
             | Some cap => pok (sset "merge_operator" (VMergeOp (BitsetMergeOperator cap)) s)
             | None => Ok (s, ATOM_BADARG)
             end
           else pok s
       | _ => pok s
       end.

(** One of the two tests on [prefix_extractor]; the length is a [size_t]. *)
Definition parse_prefix (name object : string) (kind len : term) (s : struct) : parse_result :=
  if is_atom name kind then
    match enif_get_int len with
    | Some n => pok (sset "prefix_extractor" (VObj object [u64 n]) s)
    | None => Ok (s, ATOM_BADARG)
    end
  else pok s.

Definition parse_prefix_extractor (v : term) (s : struct) : parse_result :=
  match enif_get_tuple v with
  | Some [kind; len] =>
      let! (s1, r) := parse_prefix "fixed_prefix_transform" "FixedPrefixTransform" kind len s in
      if is_atom "ok" r
      then parse_prefix "capped_prefix_transform" "CappedPrefixTransform" kind len s1
      else Ok (s1, r)
  | _ => pok s
  end.

Definition parse_filter (v : term) (s : struct) : parse_result :=
  let current := match sget "compaction_filter_factory" s with Some (VFilter f) => Some f | _ => None end in
  match parse_compaction_filter v current with
  | inl err => Ok (s, err)
  | inr (Some f) => pok (sset "compaction_filter_factory" (VFilter f) s)
  | inr None => pok s
  end.

(** An unknown type stands for no compression here. *)
Definition parse_blob_compression (v : term) (s : struct) : parse_result :=
  pok (sset "blob_compression_type"
         (VEnum (default "kNoCompression"%string (find_atom v compression_types))) s).

Definition parse_memory_budget (v : term) (s : struct) : parse_result :=
  match enif_get_uint64 v with
  | Some budget => pok (sset_all (optimize_level_style budget) s)
  | None => pok s
  end.

(** The chain of [else if]. *)
Definition cf_table : list (string * action) :=
  [ ("block_cache_size_mb_for_point_lookup", ANothing);
    ("memtable_memory_budget", ACustom (fst <$> optimize_level_style 1) parse_memory_budget);
    ("write_buffer_size", AUint "write_buffer_size");
    ("max_write_buffer_number", AInt "max_write_buffer_number");
    ("min_write_buffer_number_to_merge", AInt "min_write_buffer_number_to_merge");
    ("compression", ACustom ["compression"] (parse_compression "compression"));
    ("bottommost_compression",
       ACustom ["bottommost_compression"] (parse_compression "bottommost_compression"));
    ("compression_opts", ACustom ["compression_opts"] (parse_compression_opts "compression_opts"));
    ("bottommost_compression_opts", ACustom ["bottommost_compression_opts"]
       (parse_compression_opts "bottommost_compression_opts"));
    ("num_levels", AInt "num_levels");
    ("ttl", AUint64 "ttl");
    ("level0_file_num_compaction_trigger", AInt "level0_file_num_compaction_trigger");
    ("level0_slowdown_writes_trigger", AInt "level0_slowdown_writes_trigger");
    ("level0_stop_writes_trigger", AInt "level0_stop_writes_trigger");
    ("target_file_size_base", AUint64 "target_file_size_base");
    ("target_file_size_multiplier", AInt "target_file_size_multiplier");
    ("target_file_size_is_upper_bound", ABool "target_file_size_is_upper_bound");
    ("max_bytes_for_level_base", AUint64 "max_bytes_for_level_base");
    ("max_bytes_for_level_multiplier", AIntDouble "max_bytes_for_level_multiplier");
    ("max_compaction_bytes", AIntSize "max_compaction_bytes" 64);
    ("arena_block_size", AUint "arena_block_size");
    ("disable_auto_compactions", ABool "disable_auto_compactions");
    ("compaction_style", AEnum "compaction_style"
       [ ("level", "kCompactionStyleLevel"); ("universal", "kCompactionStyleUniversal");
         ("fifo", "kCompactionStyleFIFO"); ("none", "kCompactionStyleNone") ]);
    ("compaction_pri", AEnum "compaction_pri"
       [ ("compensated_size", "kByCompensatedSize");
         ("oldest_largest_seq_first", "kOldestLargestSeqFirst");
         ("oldest_smallest_seq_first", "kOldestSmallestSeqFirst") ]);
    ("compaction_options_fifo", ACustom ["compaction_options_fifo"]
       (parse_nested parse_compaction_options_fifo "compaction_options_fifo" VStruct));
    ("max_sequential_skip_in_iterations", AUint64 "max_sequential_skip_in_iterations");
    ("inplace_update_support", ABool "inplace_update_support");
    ("inplace_update_num_locks", AUint "inplace_update_num_locks");
    ("block_based_table_options", ACustom ["table_factory"]
       (parse_nested parse_bbt_option "table_factory"
          (fun o => VStruct [("BlockBasedTableFactory", VStruct o)])));
    ("in_memory_mode", ACustom (fst <$> in_memory_mode_settings) parse_in_memory_mode);
    ("level_compaction_dynamic_level_bytes", ABool "level_compaction_dynamic_level_bytes");
    ("optimize_filters_for_hits", ABool "optimize_filters_for_hits");
    ("merge_operator", ACustom ["merge_operator"] parse_merge_operator);
    ("prefix_extractor", ACustom ["prefix_extractor"] parse_prefix_extractor);
    ("comparator", AEnum "comparator"
       [ ("bytewise_comparator", "BytewiseComparator");
         ("reverse_bytewise_comparator", "ReverseBytewiseComparator") ]);
    ("compaction_filter", ACustom ["compaction_filter_factory"] parse_filter);
    ("enable_blob_files", ABool "enable_blob_files");
    ("min_blob_size", AUint64 "min_blob_size");
    ("blob_file_size", AUint64 "min_blob_size");
    ("blob_compression_type", ACustom ["blob_compression_type"] parse_blob_compression);
    ("enable_blob_garbage_collection", ABool "enable_blob_garbage_collection");
    ("blob_garbage_collection_age_cutoff", ADouble "blob_garbage_collection_age_cutoff") ]%string.

(** The [if]s after the chain, each tested whatever the chain did. *)
Definition cf_tail_table : list (string * action) :=
  [ ("blob_garbage_collection_force_threshold", ADouble "blob_garbage_collection_force_threshold");
    ("blob_compaction_readahead_size", AUint64 "blob_compaction_readahead_size");
    ("blob_file_starting_level", AInt "blob_file_starting_level");
    ("blob_cache", AHandle "blob_cache" RCache);
    ("prepopulate_blob_cache", AEnum "prepopulate_blob_cache"
       [ ("disable", "kDisable"); ("flush_only", "kFlushOnly") ]) ]%string.

(** One more test on the same item. *)
Definition then_test (item : term) (acc : parse_result) (e : string * action) : parse_result :=
  let! (s, _) := acc in parse_table [e] item s.

(** The chain returns early with an error atom; otherwise the tests after it are
    made one by one. *)
Definition parse_cf_option (item : term) (s : struct) : parse_result :=
  let! (s1, r) := parse_table cf_table item s in
  if is_atom "ok" r
  then fold_left (then_test item) cf_tail_table (pok s1)
  else Ok (s1, r).

(** ** A column-family descriptor *)

(** [{Name, Options}]: a pair pushes a descriptor or fails; anything else is
    passed over. *)
Inductive descriptor_result :=
| DPush (name : bytes) (opts : struct)
| DSkip
| DRaise                       (* enif_make_badarg *)
| DReturn (t : term).          (* the error atom of the options, as a value *)

Definition parse_cf_descriptor (item : term) : outcome descriptor_result :=
  match enif_get_tuple item with
  | Some [name; options] =>
      match get_c_string 4096 name with
      | None => Ok DRaise
      | Some cf_name =>
          if negb (enif_is_list options) then Ok DRaise
          else
            let! (opts, result) := fold parse_cf_option options [] in
            if is_atom "ok" result then Ok (DPush cf_name opts) else Ok (DReturn result)
      end
  | _ => Ok DSkip
  end.

End Parsers.

(** ** Options of single calls *)

Definition flush_table : list (string * action) :=
  [ ("wait", ABool "wait"); ("allow_write_stall", ABool "allow_write_stall") ]%string.

Definition parse_flush_option := parse_table flush_table.

Definition compact_range_table : list (string * action) :=
  [ ("exclusive_manual_compaction", ABool "exclusive_manual_compaction");
    ("change_level", ABool "change_level");
    ("target_level", AInt "target_level");
    ("allow_write_stall", ABool "allow_write_stall");
    ("max_subcompactions", AUint "max_subcompactions");
    ("bottommost_level_compaction", AEnum "bottommost_level_compaction"
       [ ("skip", "kSkip"); ("if_have_compaction_filter", "kIfHaveCompactionFilter");
         ("force", "kForce"); ("force_optimized", "kForceOptimized") ]) ]%string.

Definition parse_compact_range_option := parse_table compact_range_table.

Definition flush_wal_table : list (string * action) :=
  [ ("sync", ABool "sync");
    ("rate_limiter_priority", AEnum "rate_limiter_priority"
       [ ("io_low", "IO_LOW"); ("io_mid", "IO_MID"); ("io_high", "IO_HIGH");
         ("io_user", "IO_USER"); ("io_total", "IO_TOTAL") ]) ]%string.

Definition parse_flush_wal_option := parse_table flush_wal_table.

Definition txn_db_table : list (string * action) :=
  [ ("max_num_locks", AInt64 "max_num_locks");
    ("num_stripes", AUint64 "num_stripes");
    ("transaction_lock_timeout", AInt64 "transaction_lock_timeout");
    ("default_lock_timeout", AInt64 "default_lock_timeout") ]%string.

Definition parse_txn_db_option := parse_table txn_db_table.

Definition ingest_table : list (string * action) :=
  [ ("move_files", ABool "move_files");
    ("failed_move_fall_back_to_copy", ABool "failed_move_fall_back_to_copy");
    ("snapshot_consistency", ABool "snapshot_consistency");
    ("allow_global_seqno", ABool "allow_global_seqno");
    ("allow_blocking_flush", ABool "allow_blocking_flush");
    ("ingest_behind", ABool "ingest_behind");
    ("verify_checksums_before_ingest", ABool "verify_checksums_before_ingest");
    ("verify_checksums_readahead_size", AUint64 "verify_checksums_readahead_size");
    ("verify_file_checksum", ABool "verify_file_checksum");
    ("fail_if_not_bottommost_level", ABool "fail_if_not_bottommost_level");
    ("allow_db_generated_files", ABool "allow_db_generated_files");
    ("fill_cache", ABool "fill_cache") ]%string.

Definition parse_ingest_external_file_option := parse_table ingest_table.

(** ** The options [rocksdb.erl] documents

    The keys of the types [db_options()], [cf_options()],
    [block_based_table_options()] and [compaction_options_fifo()]. *)

Definition documented_db : list string :=
  [ "env"; "total_threads"; "create_if_missing"; "create_missing_column_families";
    "error_if_exists"; "paranoid_checks"; "max_open_files"; "max_total_wal_size"; "use_fsync";
    "db_paths"; "db_log_dir"; "wal_dir"; "delete_obsolete_files_period_micros";
    "max_background_jobs"; "max_background_compactions"; "max_background_flushes";
    "max_log_file_size"; "log_file_time_to_roll"; "keep_log_file_num"; "max_manifest_file_size";
    "table_cache_numshardbits"; "wal_ttl_seconds"; "manual_wal_flush"; "wal_size_limit_mb";
    "manifest_preallocation_size"; "allow_mmap_reads"; "allow_mmap_writes"; "is_fd_close_on_exec";
    "stats_dump_period_sec"; "advise_random_on_open"; "access_hint"; "compaction_readahead_size";
    "use_adaptive_mutex"; "bytes_per_sync"; "skip_stats_update_on_db_open"; "wal_recovery_mode";
    "allow_concurrent_memtable_write"; "enable_write_thread_adaptive_yield";
    "db_write_buffer_size"; "in_memory"; "rate_limiter"; "sst_file_manager";
    "write_buffer_manager"; "max_subcompactions"; "atomic_flush"; "use_direct_reads";
    "use_direct_io_for_flush_and_compaction"; "enable_pipelined_write"; "unordered_write";
    "two_write_queues"; "statistics"; "max_manifest_space_amp_pct" ]%string.

Definition documented_cf : list string :=
  [ "block_cache_size_mb_for_point_lookup"; "memtable_memory_budget"; "write_buffer_size";
    "max_write_buffer_number"; "min_write_buffer_number_to_merge"; "enable_blob_files";
    "min_blob_size"; "blob_file_size"; "blob_compression_type"; "enable_blob_garbage_collection";
    "blob_garbage_collection_age_cutoff"; "blob_garbage_collection_force_threshold";
    "blob_compaction_readahead_size"; "blob_file_starting_level"; "blob_cache";
    "prepopulate_blob_cache"; "compression"; "bottommost_compression"; "compression_opts";
    "bottommost_compression_opts"; "num_levels"; "ttl"; "level0_file_num_compaction_trigger";
    "level0_slowdown_writes_trigger"; "level0_stop_writes_trigger"; "target_file_size_base";
    "target_file_size_multiplier"; "max_bytes_for_level_base"; "max_bytes_for_level_multiplier";
    "max_compaction_bytes"; "arena_block_size"; "disable_auto_compactions"; "compaction_style";
    "compaction_pri"; "compaction_options_fifo"; "filter_deletes";
    "max_sequential_skip_in_iterations"; "inplace_update_support"; "inplace_update_num_locks";
    "table_factory_block_cache_size"; "in_memory_mode"; "block_based_table_options";
    "level_compaction_dynamic_level_bytes"; "optimize_filters_for_hits"; "prefix_extractor";
    "merge_operator"; "compaction_filter"; "target_file_size_is_upper_bound" ]%string.

Definition documented_bbt : list string :=
  [ "no_block_cache"; "block_size"; "block_cache"; "block_cache_size"; "bloom_filter_policy";
    "format_version"; "cache_index_and_filter_blocks" ]%string.

Definition documented_fifo : list string := [ "max_table_file_size"; "allow_compaction" ]%string.

(** ** What the documented options mean

    The options whose value is a boolean, a number or a handle, by the types
    [rocksdb.erl] gives them, and the meaning of a value.  Numbers are those that fit an
    [int], of any sign where the type is [integer()]. *)

Inductive otype := OBoolean | ONonNeg | OInteger | OHandle (k : res_kind).

#[export] Instance otype_eq_dec : EqDecision otype.
Proof. solve_decision. Defined.

Definition db_option_types : list (string * otype) :=
  [ ("create_if_missing", OBoolean); ("create_missing_column_families", OBoolean);
    ("error_if_exists", OBoolean); ("paranoid_checks", OBoolean); ("max_open_files", OInteger);
    ("max_total_wal_size", ONonNeg); ("use_fsync", OBoolean);
    ("delete_obsolete_files_period_micros", ONonNeg); ("max_background_jobs", ONonNeg);
    ("max_background_compactions", ONonNeg); ("max_background_flushes", ONonNeg);
    ("max_log_file_size", ONonNeg); ("log_file_time_to_roll", ONonNeg);
    ("keep_log_file_num", ONonNeg); ("max_manifest_file_size", ONonNeg);
    ("table_cache_numshardbits", ONonNeg); ("wal_ttl_seconds", ONonNeg);
    ("manual_wal_flush", OBoolean); ("wal_size_limit_mb", ONonNeg);
    ("manifest_preallocation_size", ONonNeg); ("allow_mmap_reads", OBoolean);
    ("allow_mmap_writes", OBoolean); ("is_fd_close_on_exec", OBoolean);
    ("stats_dump_period_sec", ONonNeg); ("advise_random_on_open", OBoolean);
    ("compaction_readahead_size", ONonNeg); ("use_adaptive_mutex", OBoolean);
    ("bytes_per_sync", ONonNeg); ("skip_stats_update_on_db_open", OBoolean);
    ("allow_concurrent_memtable_write", OBoolean); ("enable_write_thread_adaptive_yield", OBoolean);
    ("db_write_buffer_size", ONonNeg); ("rate_limiter", OHandle RRateLimiter);
    ("sst_file_manager", OHandle RSstFileManager); ("write_buffer_manager", OHandle RWriteBufferManager);
    ("max_subcompactions", ONonNeg); ("atomic_flush", OBoolean); ("use_direct_reads", OBoolean);
    ("use_direct_io_for_flush_and_compaction", OBoolean); ("enable_pipelined_write", OBoolean);
    ("unordered_write", OBoolean); ("two_write_queues", OBoolean); ("statistics", OHandle RStatistics);
    ("max_manifest_space_amp_pct", OInteger) ]%string.

Definition cf_option_types : list (string * otype) :=
  [ ("write_buffer_size", ONonNeg); ("max_write_buffer_number", ONonNeg);
    ("min_write_buffer_number_to_merge", ONonNeg); ("enable_blob_files", OBoolean);
    ("min_blob_size", ONonNeg); ("enable_blob_garbage_collection", OBoolean);
    ("blob_compaction_readahead_size", ONonNeg); ("blob_file_starting_level", ONonNeg);
    ("blob_cache", OHandle RCache); ("num_levels", ONonNeg); ("ttl", ONonNeg);
    ("level0_file_num_compaction_trigger", OInteger); ("level0_slowdown_writes_trigger", OInteger);
    ("level0_stop_writes_trigger", OInteger); ("target_file_size_base", ONonNeg);
    ("target_file_size_multiplier", ONonNeg); ("max_bytes_for_level_base", ONonNeg);
    ("max_compaction_bytes", ONonNeg); ("arena_block_size", ONonNeg);
    ("disable_auto_compactions", OBoolean); ("max_sequential_skip_in_iterations", ONonNeg);
    ("inplace_update_support", OBoolean); ("inplace_update_num_locks", ONonNeg);
    ("level_compaction_dynamic_level_bytes", OBoolean); ("optimize_filters_for_hits", OBoolean);
    ("target_file_size_is_upper_bound", OBoolean) ]%string.

Definition bbt_option_types : list (string * otype) :=
  [ ("no_block_cache", OBoolean); ("block_size", ONonNeg); ("block_cache", OHandle RCache);
    ("format_version", ONonNeg); ("cache_index_and_filter_blocks", OBoolean) ]%string.

(** The options that set several fields at once, or another option's field. *)
Definition composite_db : list string := [ "env"; "in_memory"; "total_threads" ]%string.
Definition composite_cf : list string :=
  [ "memtable_memory_budget"; "in_memory_mode"; "blob_file_size" ]%string.

(** The field of an option has its name. *)
Definition option_field (key : string) : string :=
  if decide (key = "wal_ttl_seconds") then "WAL_ttl_seconds"
  else if decide (key = "wal_size_limit_mb") then "WAL_size_limit_MB" else key.

(** The value a term of the type stands for. *)
Definition option_value (ty : otype) (v : term) : option val :=
  match ty, v with
  | OBoolean, Tatom b => if decide (b = "true"%string) then Some (VBool true)
                         else if decide (b = "false"%string) then Some (VBool false) else None
  | ONonNeg, Tint n => if (0 <=? n) && (n <? 2 ^ 31) then Some (VNum n) else None
  | OInteger, Tint n => if in_int n then Some (VNum n) else None
  | OHandle k, Tres k' id => if decide (k' = k) then Some (VHandle k id) else None
  | _, _ => None
  end.

(** The value of a list of options for one key: that of the last item with the key. *)
Fixpoint last_value (key : string) (ty : otype) (l : list term) (old : option val) : option val :=
  match l with
  | [] => old
  | Ttuple [Tatom k; v] :: r => last_value key ty r (if decide (k = key) then option_value ty v else old)
  | _ :: r => last_value key ty r old
  end.

(** The value of [key] is of its type wherever it is given, and no composite option is
    used. *)
Definition item_typed (key : string) (ty : otype) (composite : list string) (item : term) : Prop :=
  match item with
  | Ttuple [Tatom k; v] => (k ∉ composite) /\ (k = key -> is_Some (option_value ty v))
  | _ => True
  end.

(** ** Which fields an item writes *)

Definition action_fields (a : action) : list string :=
  match a with
  | ANothing => []
  | ABool f | AInt f | AIntSize f _ | AIntDouble f | AUint f | AUint64 f | AInt64 f
  | ADouble f | AText f | AEnum f _ | AHandle f _ => [f]
  | ACustom fs _ => fs
  end.

(** The action an item selects. *)
Definition item_action (table : list (string * action)) (item : term) : option action :=
  match enif_get_tuple item with Some [key; _] => find_atom key table | _ => None end.

Definition item_writes (table : list (string * action)) (f : string) (item : term) : Prop :=
  exists a, item_action table item = Some a /\ f ∈ action_fields a.

(** A custom action writes its declared fields only. *)
Definition framed (a : action) : Prop :=
  match a with
  | ACustom fs g => forall v s s' r f, g v s = Ok (s', r) -> f ∉ fs -> sget f s' = sget f s
  | _ => True
  end.

Abbreviation table_framed table := (Forall (fun e => framed e.2) table).

(** ** Lemmas *)

Lemma sget_sset_eq f v s : sget f (sset f v s) = Some v.
Proof. cbn. by rewrite decide_True. Qed.

Lemma sget_sset_ne f g v s : f <> g -> sget f (sset g v s) = sget f s.
Proof. intros. cbn. by rewrite decide_False. Qed.

Lemma sget_sset_all f l s : f ∉ l.*1 -> sget f (sset_all l s) = sget f s.
Proof.
  unfold sset_all. revert s. induction l as [|[g v] l IH]; intros s Hf; [done |].
  cbn [fold_left fst snd]. rewrite fmap_cons, not_elem_of_cons in Hf. destruct Hf as [Hg Hl].
  rewrite IH by done. by apply sget_sset_ne.
Qed.

Lemma read_value_fields a v f x : read_value a v = Some (f, x) -> f ∈ action_fields a.
Proof.
  destruct a; cbn; intros H; try done; try (apply fmap_Some in H as (? & _ & H));
    simplify_eq; by apply list_elem_of_singleton.
Qed.

Lemma run_action_frame a v s s' r f :
  framed a -> run_action a v s = Ok (s', r) -> f ∉ action_fields a -> sget f s' = sget f s.
Proof.
  intros Hf H Hn. destruct a; [..| by eapply Hf]; unfold run_action, pok in H;
    (destruct (read_value _ v) as [[g x]|] eqn:E; [| by simplify_eq]);
    apply read_value_fields in E; simplify_eq;
    apply sget_sset_ne; by intros ->.
Qed.

Lemma find_atom_elem {A} t (table : list (string * A)) a :
  find_atom t table = Some a -> exists key, (key, a) ∈ table.
Proof.
  unfold find_atom. intros H. apply fmap_Some in H as ([key a'] & H & ->).
  apply List.find_some in H as [H _]. exists key. by apply list_elem_of_In.
Qed.

Lemma parse_table_frame table item s s' r f :
  table_framed table -> parse_table table item s = Ok (s', r) -> ~ item_writes table f item ->
  sget f s' = sget f s.
Proof.
  unfold parse_table, item_writes, item_action. intros Ht H Hn.
  destruct (enif_get_tuple item) as [[|key [|v [|]]]|]; try (unfold pok in H; by simplify_eq).
  destruct (find_atom key table) as [a|] eqn:E; [| unfold pok in H; by simplify_eq].
  destruct (find_atom_elem _ _ _ E) as [k Hk].
  eapply run_action_frame; [| exact H | intros Hf; apply Hn; by eexists].
  by apply (proj1 (Forall_forall _ _) Ht (k, a)).
Qed.

Lemma fold_cells_app {A} (f : term -> A -> outcome (A * term)) l1 l2 acc acc' :
  fold_cells f (l1 ++ l2) acc = Ok (acc', ATOM_OK) ->
  exists acc1, fold_cells f l1 acc = Ok (acc1, ATOM_OK) /\
    fold_cells f l2 acc1 = Ok (acc', ATOM_OK).
Proof.
  revert acc. induction l1 as [|h l1 IH]; intros acc H; [by exists acc |].
  cbn [app fold_cells] in *. destruct (f h acc) as [[acc1 r]|]; [| done]. cbn [obind] in *.
  destruct (is_atom "ok" r) eqn:Er; [by apply IH |].
  injection H as -> ->. by cbn in Er.
Qed.

Lemma fold_cells_frame table f l s s' r :
  table_framed table -> Forall (fun item => ~ item_writes table f item) l ->
  fold_cells (parse_table table) l s = Ok (s', r) -> sget f s' = sget f s.
Proof.
  intros Ht. revert s. induction l as [|item l IH]; intros s Hl H; [by simplify_eq/= |].
  cbn [fold_cells] in H. destruct (parse_table table item s) as [[s1 r1]|] eqn:E; [| done].
  cbn [obind] in H. inversion_clear Hl as [|? ? Hi Hl'].
  rewrite <- (parse_table_frame _ _ _ _ _ f Ht E Hi).
  destruct (is_atom "ok" r1); [by apply IH | by simplify_eq].
Qed.

(** The last item of a list that writes a field decides its value. *)
Lemma last_wins table key v l1 l2 s s' a f x :
  table_framed table ->
  find_atom (Tatom key) table = Some a -> read_value a v = Some (f, x) ->
  Forall (fun item => ~ item_writes table f item) l2 ->
  fold_cells (parse_table table) (l1 ++ Ttuple [Tatom key; v] :: l2) s = Ok (s', ATOM_OK) ->
  sget f s' = Some x.
Proof.
  intros Ht Ha Hx Hl2 H. apply fold_cells_app in H as (s1 & _ & H).
  cbn [fold_cells] in H. unfold parse_table at 1 in H. cbn [enif_get_tuple] in H.
  rewrite Ha in H.
  assert (Hrun : run_action a v s1 = pok (sset f x s1)).
  { destruct a; unfold run_action; by rewrite ?Hx. }
  rewrite Hrun in H. unfold pok in H. cbn [obind] in H.
  change (is_atom "ok" ATOM_OK) with true in H. cbv iota in H.
  rewrite (fold_cells_frame _ f _ _ _ _ Ht Hl2 H). apply sget_sset_eq.
Qed.

Lemma find_atom_cons {A} t k (a : A) l :
  find_atom t ((k, a) :: l) = if is_atom k t then Some a else find_atom t l.
Proof. unfold find_atom. cbn. by destruct (is_atom k t). Qed.

Lemma find_atom_Some {A} t (table : list (string * A)) a :
  find_atom t table = Some a -> exists k, t = Tatom k /\ k ∈ table.*1.
Proof.
  induction table as [|[k b] l IH]; [done |]. rewrite find_atom_cons, fmap_cons. intros H.
  destruct (is_atom k t) eqn:E; simplify_eq.
  - exists k. split; [by apply is_atom_true | by left].
  - destruct (IH H) as (k' & -> & Hk). exists k'. split; [done | by right].
Qed.

Lemma find_atom_pair {A} t (table : list (string * A)) a :
  find_atom t table = Some a -> exists k, t = Tatom k /\ (k, a) ∈ table.
Proof.
  induction table as [|[k b] l IH]; [done |]. rewrite find_atom_cons. intros H.
  destruct (is_atom k t) eqn:E; simplify_eq.
  - exists k. split; [by apply is_atom_true | by left].
  - destruct (IH H) as (k' & -> & Hk). exists k'. split; [done | by right].
Qed.

Lemma fold_cells_ext {A} (g h : term -> A -> outcome (A * term)) l acc :
  (forall t a, g t a = h t a) -> fold_cells g l acc = fold_cells h l acc.
Proof.
  intros Hg. revert acc. induction l as [|t l IH]; intros acc; [done |]. cbn [fold_cells].
  rewrite Hg. destruct (h t acc) as [[acc1 r]|]; [| done]. cbn [obind]. by rewrite IH.
Qed.

Lemma find_atom_None {A} k (table : list (string * A)) :
  k ∉ table.*1 -> find_atom (Tatom k) table = None.
Proof.
  intros Hk. destruct (find_atom _ table) eqn:E; [| done].
  apply find_atom_Some in E as (k' & [= <-] & ?). done.
Qed.

Lemma find_atom_app {A} t (l1 l2 : list (string * A)) :
  find_atom t (l1 ++ l2) = match find_atom t l1 with Some a => Some a | None => find_atom t l2 end.
Proof.
  induction l1 as [|[k a] l1 IH]; [done |]. cbn [app]. rewrite !find_atom_cons, IH.
  by destruct (is_atom k t).
Qed.

Definition simple (a : action) : bool :=
  match a with ACustom _ _ => false | _ => true end.

Lemma run_simple a v s : simple a = true -> exists s1, run_action a v s = pok s1.
Proof.
  destruct a; try done; intros _; unfold run_action;
    destruct (read_value _ v) as [[]|]; by eexists.
Qed.

Lemma simple_table_parses table item s :
  forallb (fun e => simple e.2) table = true -> exists s1, parse_table table item s = pok s1.
Proof.
  intros Hall. unfold parse_table. destruct (enif_get_tuple item) as [[|key [|v [|]]]|]; try by eexists.
  destruct (find_atom key table) as [a|] eqn:Ea; [| by eexists].
  destruct (find_atom_elem _ _ _ Ea) as [k Hk]. apply run_simple.
  exact (proj1 (forallb_forall _ _) Hall (k, a) (proj1 (list_elem_of_In _ _) Hk)).
Qed.

Lemma run_simple_defined a v s : simple a = true -> run_action a v s <> Undef.
Proof. intros Ha. by destruct (run_simple a v s Ha) as [s1 ->]. Qed.

(** The entries of a table with simple actions. *)
Ltac simple_actions :=
  repeat (apply Forall_cons; split; [try (intros ? ?; apply run_simple_defined; reflexivity) |]);
  [..| done].

(** Independent tests made one after the other are a chain. *)
Lemma tests_in_sequence table item s :
  NoDup table.*1 -> forallb (fun e => simple e.2) table = true ->
  fold_left (then_test item) table (pok s) = parse_table table item s.
Proof.
  revert s. induction table as [|[k a] table IH]; intros s Hnd Hs.
  { unfold parse_table. by destruct (enif_get_tuple item) as [[|? [|? [|]]]|]. }
  rewrite fmap_cons, NoDup_cons in Hnd. destruct Hnd as [Hk Hnd].
  cbn [forallb snd] in Hs. apply andb_true_iff in Hs as [Ha Hs].
  cbn [fold_left]. change (then_test item (pok s) (k, a)) with (parse_table [(k, a)] item s).
  assert (Hcons : forall l, parse_table ((k, a) :: l) item s =
            match enif_get_tuple item with
            | Some [key; v] => if is_atom k key then run_action a v s else parse_table l item s
            | _ => pok s
            end).
  { intros l. unfold parse_table. destruct (enif_get_tuple item) as [[|key [|v [|]]]|]; try done.
    rewrite find_atom_cons. by destruct (is_atom k key). }
  rewrite !Hcons.
  destruct (enif_get_tuple item) as [[|key [|v [|]]]|] eqn:Et;
    try (rewrite IH by done; unfold parse_table; by rewrite Et).
  destruct (is_atom k key) eqn:Ek.
  - apply is_atom_true in Ek as ->. destruct (run_simple a v s Ha) as [s1 ->].
    rewrite IH by done. unfold parse_table. rewrite Et. by rewrite find_atom_None.
  - assert (parse_table [] item s = pok s) as -> by (unfold parse_table; by rewrite Et).
    by rewrite IH.
Qed.

(** ** The fields of documented options *)

(** The action reads the values of a type into a field. *)
Definition action_reads (a : action) (ty : otype) (f : string) : bool :=
  match a, ty with
  | ABool g, OBoolean | AInt g, (OInteger | ONonNeg) | (AUint g | AUint64 g), ONonNeg => bool_decide (g = f)
  | AIntSize g w, ONonNeg => bool_decide (g = f) && (31 <=? w)
  | AHandle g k, OHandle k' => bool_decide (g = f) && bool_decide (k = k')
  | _, _ => false
  end.

(** [key] is read into its field, which no other option but the composite ones writes. *)
Definition reads_field (table : list (string * action)) (composite : list string)
    (key : string) (ty : otype) : bool :=
  match find_atom (Tatom key) table with
  | Some a => action_reads a ty (option_field key)
  | None => false
  end &&
  forallb (fun e => bool_decide (e.1 = key) || bool_decide (e.1 ∈ composite) ||
                    bool_decide (option_field key ∉ action_fields e.2)) table.

Lemma action_reads_value a ty f v x :
  action_reads a ty f = true -> option_value ty v = Some x -> read_value a v = Some (f, x).
Proof.
  intros Ha Hx. destruct a, ty; try discriminate Ha; cbn [action_reads] in Ha;
    try (apply andb_true_iff in Ha as [Ha Hk]);
    apply bool_decide_eq_true_1 in Ha as ->; destruct v; try discriminate Hx; cbn [option_value] in Hx;
    cbn [read_value].
  - repeat case_decide; simplify_eq; [done |]. unfold is_atom.
    by rewrite bool_decide_eq_false_2 by (intros [=]; congruence).
  - destruct ((0 <=? z) && (z <? 2 ^ 31)) eqn:E; simplify_eq. cbn [enif_get_int].
    by replace (in_int z) with true by (unfold in_int, INT_MIN, INT_MAX; lia).
  - cbn [enif_get_int]. destruct (in_int z); by simplify_eq.
  - destruct ((0 <=? z) && (z <? 2 ^ 31)) eqn:E; simplify_eq. cbn [enif_get_int].
    replace (in_int z) with true by (unfold in_int, INT_MIN, INT_MAX; lia). cbn [fmap option_fmap option_map].
    apply Z.leb_le in Hk. pose proof (Z.pow_le_mono_r 2 31 w ltac:(lia) Hk).
    by rewrite wrap_small by lia.
  - destruct ((0 <=? z) && (z <? 2 ^ 31)) eqn:E; simplify_eq. cbn [enif_get_uint].
    by replace ((0 <=? z) && (z <? 2 ^ 32)) with true by lia.
  - destruct ((0 <=? z) && (z <? 2 ^ 31)) eqn:E; simplify_eq. cbn [enif_get_uint64].
    by replace ((0 <=? z) && (z <? 2 ^ 64)) with true by lia.
  - apply bool_decide_eq_true_1 in Hk as ->. case_decide; simplify_eq. cbn [enif_get_resource].
    by rewrite decide_True.
Qed.

(** One item: it sets the field of [key] exactly when it is for [key]. *)
Lemma parse_item_field table composite key ty item s s' r :
  table_framed table -> reads_field table composite key ty = true ->
  item_typed key ty composite item -> parse_table table item s = Ok (s', r) ->
  sget (option_field key) s' = last_value key ty [item] (sget (option_field key) s).
Proof.
  intros Ht Hr Hi H. apply andb_true_iff in Hr as [Hr Hothers].
  assert (Hframe : ~ item_writes table (option_field key) item -> sget (option_field key) s' = sget (option_field key) s).
  { by apply parse_table_frame with (r := r). }
  unfold item_writes, item_action in Hframe.
  destruct item as [ | | | | | |[|[k| | | | | | | | |] [|v [|]]] | | | ];
    try (apply Hframe; intros (? & Ha & _); cbn [enif_get_tuple] in Ha;
         first [discriminate Ha | by apply find_atom_Some in Ha as (? & ? & _)]).
  cbn [last_value]. destruct Hi as [Hc Hv]. destruct (decide (k = key)) as [-> | Hne].
  - destruct (find_atom (Tatom key) table) as [a|] eqn:Ea; [| done]. destruct (Hv eq_refl) as [x Hx].
    pose proof (action_reads_value a ty _ v x Hr Hx) as Hread. unfold parse_table in H. cbn [enif_get_tuple] in H.
    rewrite Ea in H. destruct a; unfold run_action, pok in H; rewrite ?Hread in H; simplify_eq;
      rewrite sget_sset_eq; by rewrite Hx.
  - apply Hframe. intros (a & Ha & Hin). cbn [enif_get_tuple] in Ha.
    apply find_atom_pair in Ha as (k' & [= <-] & Hk). apply list_elem_of_In in Hk.
    pose proof (proj1 (forallb_forall _ _) Hothers (k, a) Hk) as Hk'. cbn [fst snd] in Hk'.
    rewrite (bool_decide_eq_false_2 (k = key)), (bool_decide_eq_false_2 (k ∈ composite)) in Hk' by done.
    by apply bool_decide_eq_true_1 in Hk'.
Qed.

Lemma last_value_cons key ty item l old :
  last_value key ty (item :: l) old = last_value key ty l (last_value key ty [item] old).
Proof. by destruct item as [ | | | | | |[|[] [|? [|]]] | | | ]. Qed.

(** A whole list. *)
Lemma parse_list_field table composite key ty l s s' :
  table_framed table -> reads_field table composite key ty = true ->
  Forall (item_typed key ty composite) l -> fold_cells (parse_table table) l s = Ok (s', ATOM_OK) ->
  sget (option_field key) s' = last_value key ty l (sget (option_field key) s).
Proof.
  intros Ht Hr Hl. revert s. induction Hl as [|item l Hi Hl IH]; intros s H; [by simplify_eq/= |].
  cbn [fold_cells] in H. destruct (parse_table table item s) as [[s1 r]|] eqn:E; [| done]. cbn [obind] in H.
  destruct (is_atom "ok" r) eqn:Er; [| injection H as -> ->; discriminate Er].
  rewrite last_value_cons, <- (parse_item_field table composite key ty item s s1 r) by done. by apply IH.
Qed.

(** The keys of a list of types. *)
Lemma typed_keys table composite types key ty :
  forallb (fun e => reads_field table composite e.1 e.2) types = true ->
  (key, ty) ∈ types -> reads_field table composite key ty = true.
Proof. intros H Hk. exact (proj1 (forallb_forall _ _) H (key, ty) (proj1 (list_elem_of_In _ _) Hk)). Qed.

(** ** Theorems *)

Section Theorems.
Context (ip ol : Z -> struct).

(** The two library calls set the same fields whatever their argument. *)
Hypothesis ip_fields : forall n, (ip n).*1 = (ip 1).*1.
Hypothesis ol_fields : forall n, (ol n).*1 = (ol 1).*1.

Definition cf_options_table : list (string * action) := cf_table ol ++ cf_tail_table.

Lemma parse_cf_option_table item s :
  parse_cf_option ol item s = parse_table cf_options_table item s.
Proof.
  unfold parse_cf_option, cf_options_table.
  assert (Hseq : forall s1, fold_left (then_test item) cf_tail_table (pok s1) =
                            parse_table cf_tail_table item s1).
  { intros s1. apply tests_in_sequence; [| done].
    apply (bool_decide_unpack _). vm_compute. done. }
  unfold parse_table at 1 2. destruct (enif_get_tuple item) as [[|key [|v [|]]]|] eqn:Et;
    try (unfold pok at 1; cbn [obind]; rewrite Hseq; unfold parse_table; by rewrite Et).
  rewrite find_atom_app. destruct (find_atom key (cf_table ol)) as [a|] eqn:Ea.
  - destruct (run_action a v s) as [[s1 r]|]; [| done]. cbn [obind].
    destruct (is_atom "ok" r) eqn:Er; [| done]. apply is_atom_true in Er as ->.
    rewrite Hseq. unfold parse_table. rewrite Et.
    apply find_atom_Some in Ea as (k & -> & Hk). rewrite find_atom_None; [done |].
    intros Hin. unfold cf_tail_table in Hin. cbn in Hin. unfold cf_table in Hk. cbn in Hk.
    revert Hin Hk. rewrite !list_elem_of_In. cbn. intros Hin Hk.
    repeat destruct Hin as [<- | Hin]; try done;
      repeat (destruct Hk as [Hk | Hk]; [discriminate Hk |]); done.
  - unfold pok at 1. cbn [obind]. rewrite Hseq. unfold parse_table. by rewrite Et.
Qed.
(** Close the frame of a custom action: walk through its tests; what is assigned
    is another field. *)
Ltac frame_tac :=
  repeat match goal with
  | H : context [match ?x with _ => _ end] |- _ => destruct x eqn:?; try discriminate H
  | H : Ok _ = Ok _ |- _ => injection H as <- <-
  end; try done;
  repeat (rewrite sget_sset_ne by (intros ->; apply_not_in)); done
with apply_not_in :=
  match goal with Hn : _ ∉ _ |- False => apply Hn; rewrite ?list_elem_of_In; cbn; tauto end.

Lemma sset_all_frame l fs f s :
  l.*1 = fs -> f ∉ fs -> sget f (sset_all l s) = sget f s.
Proof. intros <- ?. by apply sget_sset_all. Qed.

Lemma db_framed : table_framed (db_table ip).
Proof.
  unfold db_table. repeat (apply Forall_cons; split; [try exact I |]); [..| done];
    cbn [framed snd]; intros v s s' r f H Hn; cbv beta in H;
    unfold parse_env, parse_db_paths, set_memenv, pok in H.
  - frame_tac.
  - destruct (enif_get_int v) as [n|]; injection H as <- <-; [| done].
    by apply (sset_all_frame _ (ip 1).*1).
  - frame_tac.
  - frame_tac.
Qed.

Lemma bbt_framed : table_framed bbt_table.
Proof.
  unfold bbt_table. repeat (apply Forall_cons; split; [try exact I |]); [| done].
  cbn [framed snd]. intros v s s' r f H Hn. unfold pok in H. frame_tac.
Qed.

Lemma nested_framed parser g wr v s s' r f :
  parse_nested parser g wr v s = Ok (s', r) -> f <> g -> sget f s' = sget f s.
Proof.
  unfold parse_nested, pok. intros H Hf. destruct (fold parser v []) as [[n t]|]; [| done].
  cbn [obind] in H. injection H as <- <-. by apply sget_sset_ne.
Qed.

Lemma prefix_framed name object kind len s s' r f :
  parse_prefix name object kind len s = Ok (s', r) -> f <> "prefix_extractor"%string ->
  sget f s' = sget f s.
Proof.
  unfold parse_prefix, pok. intros H Hf. repeat case_match; simplify_eq; try done.
  by apply sget_sset_ne.
Qed.

Lemma prefix_extractor_framed v s s' r f :
  parse_prefix_extractor v s = Ok (s', r) -> f <> "prefix_extractor"%string ->
  sget f s' = sget f s.
Proof.
  unfold parse_prefix_extractor. intros H Hf.
  destruct (enif_get_tuple v) as [[|kind [|len [|]]]|]; try (unfold pok in H; by simplify_eq).
  destruct (parse_prefix _ _ kind len s) as [[s1 r1]|] eqn:E1; [| done]. cbn [obind] in H.
  apply (prefix_framed _ _ _ _ _ _ _ f) in E1; [| done].
  destruct (is_atom "ok" r1); [| by simplify_eq].
  apply (prefix_framed _ _ _ _ _ _ _ f) in H; [| done]. congruence.
Qed.

Lemma cf_framed : table_framed cf_options_table.
Proof.
  unfold cf_options_table, cf_table, cf_tail_table. cbn [app].
  repeat (apply Forall_cons; split; [try exact I |]); [..| done];
    cbn [framed snd]; intros v s s' r f H Hn; cbv beta in H;
    rewrite ?list_elem_of_singleton in Hn.
  - unfold parse_memory_budget, pok in H.
    destruct (enif_get_uint64 v) as [n|]; injection H as <- <-; [| done].
    by apply (sset_all_frame _ (ol 1).*1).
  - unfold parse_compression, pok in H. repeat case_match; simplify_eq. by apply sget_sset_ne.
  - unfold parse_compression, pok in H. repeat case_match; simplify_eq. by apply sget_sset_ne.
  - by eapply nested_framed.
  - by eapply nested_framed.
  - by eapply nested_framed.
  - by eapply nested_framed.
  - unfold parse_in_memory_mode, pok in H. destruct (is_atom "true" v); [| by simplify_eq].
    assert (s' = sset_all in_memory_mode_settings s) as -> by congruence.
    exact (sset_all_frame in_memory_mode_settings _ f s eq_refl Hn).
  - unfold parse_merge_operator, pok in H. repeat case_match; simplify_eq; try done;
      by apply sget_sset_ne.
  - by eapply prefix_extractor_framed.
  - unfold parse_filter, pok in H. repeat case_match; simplify_eq; try done; by apply sget_sset_ne.
  - unfold parse_blob_compression, pok in H. simplify_eq. by apply sget_sset_ne.
Qed.

Lemma parse_db_total item s : exists s1, parse_db_option ip item s = pok s1.
Proof.
  unfold parse_db_option, parse_table.
  destruct (enif_get_tuple item) as [[|key [|v [|]]]|]; try by eexists.
  destruct (find_atom key (db_table ip)) as [a|] eqn:Ea; [| by eexists].
  destruct (simple a) eqn:Es; [by apply run_simple |].
  destruct (find_atom_elem _ _ _ Ea) as [k Hk]. rewrite list_elem_of_In in Hk. cbn in Hk.
  repeat destruct Hk as [[= <- <-] | Hk]; try discriminate Es; try done;
    cbn [run_action]; unfold parse_env, parse_db_paths; repeat case_match; by eexists.
Qed.

Lemma fold_db_total l s : exists s', fold_cells (parse_db_option ip) l s = pok s'.
Proof.
  revert s. induction l as [|item l IH]; intros s; [by eexists |]. cbn [fold_cells].
  destruct (parse_db_total item s) as [s1 ->].
  unfold pok. cbn [obind]. apply IH.
Qed.

(** A fold of a function that always returns returns. *)
Lemma fold_cells_defined {A} (g : term -> A -> outcome (A * term)) l acc :
  (forall t a, g t a <> Undef) -> fold_cells g l acc <> Undef.
Proof.
  intros Hg. revert acc. induction l as [|t l IH]; intros acc; [done |]. cbn [fold_cells].
  pose proof (Hg t acc) as Ht. destruct (g t acc) as [[acc1 r]|]; [| done]. cbn [obind].
  by destruct (is_atom "ok" r).
Qed.

Lemma nested_defined table f wr v s :
  (forall t a, parse_table table t a <> Undef) -> parse_nested (parse_table table) f wr v s <> Undef.
Proof.
  intros Ht. unfold parse_nested, fold.
  pose proof (fold_cells_defined (parse_table table) (list_cells v) [] Ht) as H.
  by destruct (fold_cells _ _ _) as [[]|].
Qed.

Lemma table_defined table :
  Forall (fun e => forall v s, run_action e.2 v s <> Undef) table ->
  forall item s, parse_table table item s <> Undef.
Proof.
  intros Ht item s. unfold parse_table.
  destruct (enif_get_tuple item) as [[|key [|v [|]]]|]; try done.
  destruct (find_atom key table) as [a|] eqn:Ea; [| done].
  destruct (find_atom_elem _ _ _ Ea) as [k Hk].
  exact (proj1 (Forall_forall _ _) Ht (k, a) Hk v s).
Qed.

Lemma bbt_defined item s : parse_table bbt_table item s <> Undef.
Proof.
  apply table_defined. unfold bbt_table. simple_actions.
  intros v s1. cbn. by destruct (enif_get_int v).
Qed.

Lemma fifo_defined item s : parse_table fifo_table item s <> Undef.
Proof. apply table_defined. unfold fifo_table. simple_actions. Qed.

Lemma compression_opts_defined item s : parse_table compression_opts_table item s <> Undef.
Proof. apply table_defined. unfold compression_opts_table. simple_actions. Qed.

(** An option value whose branch leaves a variable without a value. *)
Definition bad_compression (item : term) : Prop :=
  exists key v, item = Ttuple [Tatom key; v] /\
    (key = "compression" \/ key = "bottommost_compression")%string /\
    find_atom v compression_types = None.

Lemma custom_defined key a v s :
  (key, a) ∈ cf_options_table -> simple a = false ->
  key <> "compression"%string -> key <> "bottommost_compression"%string ->
  run_action a v s <> Undef.
Proof.
  intros Hk Hs Hc Hb. rewrite list_elem_of_In in Hk. unfold cf_options_table in Hk. cbn in Hk.
  repeat destruct Hk as [[= <- <-] | Hk]; try discriminate Hs; try done; cbn [run_action];
    try (apply nested_defined; first [exact bbt_defined | exact fifo_defined
                                     | exact compression_opts_defined]);
    unfold parse_memory_budget, parse_in_memory_mode, parse_merge_operator,
      parse_prefix_extractor, parse_prefix, parse_filter, parse_blob_compression, pok.
  1-3, 5: by repeat case_match.
  destruct (enif_get_tuple v) as [[|x [|y [|]]]|]; try done.
  destruct (is_atom "fixed_prefix_transform" x), (enif_get_int y); cbn [obind is_atom ATOM_BADARG];
    try done; by repeat case_match.
Qed.

(** In an option list of a database or of a column family, the last item that
    writes a field decides its value: an item [{Key, V}] that is read into field
    [f], followed by items that do not write [f], leaves the value read from [V]
    there, whatever precedes and follows it. *)
Theorem option_last_wins key v l1 l2 s s' a f x :
  read_value a v = Some (f, x) ->
  (find_atom (Tatom key) (db_table ip) = Some a /\
   Forall (fun item => ~ item_writes (db_table ip) f item) l2 /\
   fold (parse_db_option ip) (make_list (l1 ++ Ttuple [Tatom key; v] :: l2)) s = Ok (s', ATOM_OK)) \/
  (find_atom (Tatom key) cf_options_table = Some a /\
   Forall (fun item => ~ item_writes cf_options_table f item) l2 /\
   fold (parse_cf_option ol) (make_list (l1 ++ Ttuple [Tatom key; v] :: l2)) s = Ok (s', ATOM_OK)) ->
  sget f s' = Some x.
Proof.
  unfold fold. rewrite list_cells_make_list. intros Hx [(Ha & Hl & H) | (Ha & Hl & H)].
  - by eapply last_wins; [apply db_framed | ..].
  - rewrite (fold_cells_ext _ _ _ _ parse_cf_option_table) in H.
    by eapply last_wins; [apply cf_framed | ..].
Qed.

(** Parsing database options always succeeds, whatever the list: unknown keys
    and values of the wrong type are passed over.  Parsing a column-family option
    is undefined exactly for a [compression] or [bottommost_compression] that is
    none of the known types. *)
Theorem options_defined :
  (forall l s, exists s', fold (parse_db_option ip) l s = Ok (s', ATOM_OK)) /\
  (forall item s, parse_cf_option ol item s = Undef <-> bad_compression item).
Proof.
  split; [intros; apply fold_db_total |]. intros item s. rewrite parse_cf_option_table. split.
  - unfold parse_table. intros H.
    destruct (enif_get_tuple item) as [[|key [|v [|]]]|] eqn:Et; try done.
    destruct (find_atom key cf_options_table) as [a|] eqn:Ea; [| done].
    destruct item as [ | | | | | |l | | | ]; try done. injection Et as ->.
    destruct (find_atom_pair _ _ _ Ea) as (k & -> & Hk).
    destruct (simple a) eqn:Es; [by apply run_simple_defined in H |].
    destruct (decide (k = "compression" \/ k = "bottommost_compression")%string) as [Hc | Hc].
    + exists k, v. repeat split; [done |].
      destruct Hc as [-> | ->]; vm_compute in Ea; injection Ea as <-;
        cbn [run_action] in H; unfold parse_compression in H; by case_match.
    + exfalso. revert H. apply (custom_defined k); tauto.
  - intros (key & v & -> & Hk & Hv). unfold parse_table. cbn [enif_get_tuple].
    assert (find_atom (Tatom key) cf_options_table =
            Some (ACustom [key] (parse_compression key))) as ->
      by (by destruct Hk as [-> | ->]).
    cbn [run_action]. unfold parse_compression. by rewrite Hv.
Qed.


(** The option [blob_file_size] is stored in [min_blob_size], replacing the
    value given there before, and no option list sets the field [blob_file_size]. *)
Theorem blob_file_size_lost :
  (forall n s, 0 <= n < 2 ^ 64 ->
     parse_cf_option ol (Ttuple [Tatom "blob_file_size"; Tint n]) s =
     Ok (sset "min_blob_size" (VNum n) s, ATOM_OK)) /\
  ("blob_file_size"%string ∉ (ol 1).*1 ->
   forall l s s' r, fold (parse_cf_option ol) l s = Ok (s', r) ->
     sget "blob_file_size" s' = sget "blob_file_size" s).
Proof.
  split.
  - intros n s Hn. rewrite parse_cf_option_table. unfold parse_table. cbn [enif_get_tuple].
    assert (find_atom (Tatom "blob_file_size") cf_options_table = Some (AUint64 "min_blob_size")) as ->
      by done.
    unfold run_action, read_value, enif_get_uint64.
    by replace ((0 <=? n) && (n <? 2 ^ 64)) with true by lia.
  - intros Hol l s s' r. unfold fold. rewrite (fold_cells_ext _ _ _ _ parse_cf_option_table).
    apply fold_cells_frame; [apply cf_framed |]. apply Forall_true. intros item (a & Ha & Hf).
    unfold item_action in Ha. destruct (enif_get_tuple item) as [[|key [|v [|]]]|]; try done.
    destruct (find_atom_pair _ _ _ Ha) as (k & -> & Hk).
    rewrite list_elem_of_In in Hk. unfold cf_options_table in Hk. cbn in Hk.
    repeat destruct Hk as [[= <- <-] | Hk]; try done; cbn [action_fields] in Hf;
      revert Hf; first [exact Hol | apply (bool_decide_unpack _); vm_compute; exact I].
Qed.

(** Every key of a list is read by a table, apart from the given ones, which
    change nothing. *)
Definition reads_but (documented : list string) (table : list (string * action))
    (dead : list string) : Prop :=
  Forall (fun key =>
    if decide (key ∈ dead)
    then forall v s, parse_table table (Ttuple [Tatom key; v]) s = pok s
    else exists a, find_atom (Tatom key) table = Some a) documented.

Lemma reads_but_intro documented table dead :
  forallb (fun key => bool_decide (key ∈ table.*1) || bool_decide (key ∈ dead)) documented &&
  forallb (fun key => bool_decide (key ∉ table.*1)) dead = true ->
  reads_but documented table dead.
Proof.
  intros H. apply andb_true_iff in H as [Hd Hdead].
  pose proof (proj1 (forallb_forall _ _) Hdead) as Hdead'.
  apply Forall_forall. intros key Hk. rewrite list_elem_of_In in Hk.
  pose proof (proj1 (forallb_forall _ _) Hd key Hk) as Hkey. cbv beta in Hkey.
  destruct (decide (key ∈ dead)) as [Hin | Hin].
  - intros v s. unfold parse_table. cbn [enif_get_tuple].
    rewrite find_atom_None; [done |].
    apply (bool_decide_eq_true_1 _ (Hdead' key (proj1 (list_elem_of_In _ _) Hin))).
  - rewrite (bool_decide_eq_false_2 (key ∈ dead)), orb_false_r in Hkey by done.
    apply bool_decide_eq_true_1, list_elem_of_fmap in Hkey as ([k a] & -> & Ha).
    destruct (find_atom (Tatom k) table) as [b|] eqn:E; [by exists b |]. exfalso.
    unfold find_atom in E. apply fmap_None in E.
    apply list_elem_of_In in Ha. apply (List.find_none _ _ E) in Ha. cbn in Ha.
    by rewrite bool_decide_eq_true_2 in Ha.
Qed.

(** Every option key that [rocksdb.erl] documents is one the parsers know,
    apart from [access_hint], [filter_deletes], [table_factory_block_cache_size],
    [block_cache_size] and [max_table_file_size], which are accepted and do nothing
    (the code knows the last as [max_table_files_size]).  The paths of [db_paths]
    are documented as records, which the parser passes over. *)
Theorem documented_options_read :
  reads_but documented_db (db_table ip) ["access_hint"%string] /\
  reads_but documented_cf cf_options_table ["filter_deletes"; "table_factory_block_cache_size"]%string /\
  reads_but documented_bbt bbt_table ["block_cache_size"%string] /\
  reads_but documented_fifo fifo_table ["max_table_file_size"%string] /\
  (forall path size s, sget "db_paths" s = None ->
     parse_db_option ip
       (Ttuple [Tatom "db_paths"; make_list [Ttuple [Tatom "db_path"; path; size]]]) s =
     pok (sset "db_paths" (VList []) s)).
Proof.
  split_and!; try (apply reads_but_intro; vm_compute; reflexivity).
  intros path size s Hs. unfold parse_db_option, parse_table. cbn [enif_get_tuple].
  assert (find_atom (Tatom "db_paths") (db_table ip) = Some (ACustom ["db_paths"%string] parse_db_paths))
    as -> by done.
  cbn [run_action]. unfold parse_db_paths. by rewrite Hs.
Qed.

End Theorems.

(** ** Witnesses *)

(** What the two library calls assign, for the witnesses. *)
Definition sample_parallelism (n : Z) : struct :=
  [("max_background_jobs"%string, VNum (if in_int n then n else 0))].

Definition sample_level_style (budget : Z) : struct :=
  [ ("write_buffer_size", VNum (budget / 4)); ("max_write_buffer_number", VNum 6);
    ("target_file_size_base", VNum (budget / 8)); ("max_bytes_for_level_base", VNum budget) ]%string.

Definition pair (k : string) (v : term) : term := Ttuple [Tatom k; v].

Lemma option_last_wins_witness :
  sget "max_background_jobs"
    [("max_background_jobs", VNum 2); ("max_background_jobs", VNum 8)]%string = Some (VNum 2).
Proof.
  apply (option_last_wins sample_parallelism sample_level_style (fun _ => eq_refl) (fun _ => eq_refl)
           "max_background_jobs" (Tint 2) [pair "total_threads" (Tint 8)] [pair "nonsense" Tnil]
           [] _ (AInt "max_background_jobs") "max_background_jobs" (VNum 2) eq_refl).
  left. split_and!; [done | | vm_compute; reflexivity].
  apply Forall_cons. split; [| done]. intros (a & Ha & _). vm_compute in Ha. discriminate Ha.
Defined.


Lemma blob_file_size_lost_witness :
  exists s, fold (parse_cf_option sample_level_style)
    (make_list [pair "min_blob_size" (Tint 100); pair "blob_file_size" (Tint 4096)]) [] =
    Ok (s, ATOM_OK) /\
  sget "min_blob_size" s = Some (VNum 4096) /\ sget "blob_file_size" s = None.
Proof.
  eexists. split; [vm_compute; reflexivity |]. split; [reflexivity |].
  destruct (blob_file_size_lost sample_level_style (fun _ => eq_refl)) as [_ H].
  apply (H ltac:(apply (bool_decide_unpack _); vm_compute; exact I)
    (make_list [pair "min_blob_size" (Tint 100); pair "blob_file_size" (Tint 4096)]) [] _ ATOM_OK).
  vm_compute. reflexivity.
Defined.
