(* ===== verification/DbLib.v ===== *)
(** * Databases: the library interface

    [rocksdb::DB] as the native functions of [c_src/erocksdb_db.cc] use it: the
    class [DbLib] has the methods, over the state [dbs] of all open databases;
    [DbLaws] says what [rocksdb/db.h] documents about reads, writes and snapshots,
    in terms of a view of each column family as a map from keys to entries.

    A call of the library may fail with any status: the laws speak of calls that
    answer OK, and of reads that answer NotFound.  [MapDb] is an instance. *)

From stdpp Require Import base list numbers strings gmap.
From Stdlib Require Import ZArith Lia Sorted.
From S2P Require Import Prelude StdMap Terms WriteBatchLib CompactionFilter Options.

(** ** Entries *)

(** A wide-column entity: names and values, ordered by name.  A plain value is the
    entity with the default column, whose name is empty, only. *)
Abbreviation columns := (list (bytes * bytes)).

Definition plain (v : bytes) : columns := [([], v)].

(** What [Get] returns of an entity: the value of its default column. *)
Definition default_value (c : columns) : bytes :=
  match c with ([], v) :: _ => v | _ => [] end.

Definition set_default (v : bytes) (c : columns) : columns :=
  match c with ([], _) :: r => ([], v) :: r | _ => ([], v) :: c end.

(** A base value, if any, and the merge operands on top of it, oldest first. *)
Record entry := { e_base : option columns; e_operands : list bytes }.

Definition plain_entry (c : columns) : entry := {| e_base := Some c; e_operands := [] |}.

Definition add_operand (v : bytes) (e : option entry) : entry :=
  match e with
  | Some e => {| e_base := e_base e; e_operands := e_operands e ++ [v] |}
  | None => {| e_base := None; e_operands := [v] |}
  end.

(** What a reader gets of an entry: [full_merge] is what RocksDB makes of a base value
    and the operands over it, by whatever full and partial merges of the column family's
    operator it performs.  That this is one function of the base value and the operands
    is what [rocksdb/merge_operator.h] asks of an operator: [PartialMergeMulti] has to
    combine operands so that applying the result is applying them in turn.  A theorem
    about one operator says which merges it lets [full_merge] stand for. *)
Definition resolve (full_merge : bytes -> option bytes -> list bytes -> option bytes)
    (k : bytes) (e : entry) : option columns :=
  match e_operands e with
  | [] => e_base e
  | ops => (fun v => set_default v (default [] (e_base e))) <$>
             full_merge k (default_value <$> e_base e) ops
  end.

Definition resolved (full_merge : bytes -> option bytes -> list bytes -> option bytes)
    (m : gmap bytes entry) (k : bytes) : option columns :=
  match m !! k with Some e => resolve full_merge k e | None => None end.

(** ** Handles and updates *)

(** A [rocksdb::ColumnFamilyHandle*]: [DefaultColumnFamily()] of the database, the
    handle held by a column-family object, or null. *)
Inductive cfh := DefaultCf | CfHandle (c : nat) | NullCf.

Inductive update :=
| UPut (k v : bytes)
| UMerge (k v : bytes)
| UDelete (k : bytes)
| USingleDelete (k : bytes)
| UDeleteRange (b e : bytes)
| UPutEntity (k : bytes) (c : columns).

Definition in_range (lt : bytes -> bytes -> bool) (b e k : bytes) : bool := negb (lt k b) && lt k e.

(** What an update that answers OK does to the map of its column family.  After a
    [SingleDelete] the key reads as absent only if it was written once; nothing is
    said of it here.  A merge only adds its operand: what the operands amount to is for
    the reader's [full_merge]. *)
Definition effect (lt : bytes -> bytes -> bool) (u : update) (m m' : gmap bytes entry) : Prop :=
  match u with
  | UPut k v => m' = <[k := plain_entry (plain v)]> m
  | UMerge k v => m' = <[k := add_operand v (m !! k)]> m
  | UDelete k => m' = delete k m
  | USingleDelete k => delete k m' = delete k m
  | UDeleteRange b e => m' = filter (fun kv => in_range lt b e kv.1 = false) m
  | UPutEntity k c => exists c', c' ≡ₚ c /\ StronglySorted bytes_lt c'.*1 /\
                                 m' = <[k := plain_entry c']> m
  end.

(** Calls that do not change what readers see. *)
Inductive admin :=
| AFlush (opts : struct) (c : cfh)
| ASyncWAL
| APauseBackgroundWork
| AContinueBackgroundWork
| ADisableManualCompaction
| AEnableManualCompaction
| AFlushWAL (opts : struct)
| ASetBackgroundThreads (n : Z) (priority : option string)
| ACompactRange (opts : struct) (c : cfh) (b e : option bytes)
| ACheckpoint (path : bytes).

(** ** The library *)

Class DbLib := {
  dbs : Type;
  lib_update : dbs -> nat -> WriteOptions -> cfh -> update -> dbs * Status;
  lib_get : dbs -> nat -> struct -> cfh -> bytes -> Status * bytes;
  lib_multi_get : dbs -> nat -> struct -> cfh -> list bytes -> list (Status * bytes);
  lib_get_entity : dbs -> nat -> struct -> cfh -> bytes -> Status * columns;
  lib_first_valid : dbs -> nat -> bool;         (* NewIterator, SeekToFirst, Valid *)
  lib_sequence : dbs -> nat -> Z;               (* GetLatestSequenceNumber: uint64_t *)
  lib_snapshot : dbs -> nat -> nat -> dbs;      (* GetSnapshot, kept in the snapshot object *)
  lib_property : dbs -> nat -> option cfh -> bytes -> option bytes;
  lib_sizes : dbs -> nat -> cfh -> list (bytes * bytes) -> Z -> list Z;
  lib_memtable_stats : dbs -> nat -> cfh -> bytes -> bytes -> Z * Z;
  lib_admin : dbs -> nat -> admin -> dbs * Status;
}.

(** Options with which a read sees all the data. *)
Definition plain_read (o : struct) : bool :=
  match sget "read_tier" o with
  | None => true
  | Some (VEnum t) => bool_decide (t = "kReadAllTier"%string)
  | Some _ => false
  end.

(** The map a read sees: that of its snapshot, or the current one. *)
Definition read_map_of {S} (snap : S -> nat -> option (nat * (Z -> gmap bytes entry)))
    (view : S -> nat -> Z -> gmap bytes entry) (s : S) (d : nat) (o : struct) (f : Z) :
    option (gmap bytes entry) :=
  match sget "snapshot" o with
  | Some (VHandle RSnapshot i) =>
      match snap s i with
      | Some (d', m) => if decide (d' = d) then Some (m f) else None
      | None => None
      end
  | _ => Some (view s d f)
  end.

(** What the answer of a read says of the map it saw. *)
Definition answers (merge : bytes -> option bytes -> list bytes -> option bytes)
    (m : gmap bytes entry) (k : bytes) (r : Status * bytes) : Prop :=
  (status_ok r.1 = true -> exists e, resolved merge m k = Some e /\ r.2 = default_value e) /\
  (IsNotFound r.1 = true -> m !! k = None).

(** [family]: the column family of a handle, when it belongs to the database;
    [view]: the contents of a column family; [snap]: the database of a snapshot and
    what it held.  The operands of an entry are those that were written, whether or not
    RocksDB has merged some of them in the meantime: that is part of [full_merge]. *)
Class DbLaws (L : DbLib) := {
  family : dbs -> nat -> cfh -> option Z;
  view : dbs -> nat -> Z -> gmap bytes entry;
  snap : dbs -> nat -> option (nat * (Z -> gmap bytes entry));
  key_lt : nat -> Z -> bytes -> bytes -> bool;                           (* the comparator *)
  full_merge : nat -> Z -> bytes -> option bytes -> list bytes -> option bytes;
  family_default : forall s d, family s d DefaultCf = Some 0;
  update_frame : forall s d o c u d', let s' := (lib_update s d o c u).1 in
    family s' d' = family s d' /\ snap s' = snap s;
  update_view : forall s d o c u f,
    family s d c = Some f -> status_ok (lib_update s d o c u).2 = true ->
    let s' := (lib_update s d o c u).1 in
    effect (key_lt d f) u (view s d f) (view s' d f) /\
    (forall d' f', (d', f') <> (d, f) -> view s' d' f' = view s d' f');
  get_view : forall s d o c f m k,
    family s d c = Some f -> plain_read o = true -> read_map_of snap view s d o f = Some m ->
    answers (full_merge d f) m k (lib_get s d o c k);
  multi_get_view : forall s d o c f m ks,
    family s d c = Some f -> plain_read o = true -> read_map_of snap view s d o f = Some m ->
    Forall2 (answers (full_merge d f) m) ks (lib_multi_get s d o c ks);
  entity_view : forall s d o c f m k,
    family s d c = Some f -> plain_read o = true -> read_map_of snap view s d o f = Some m ->
    let r := lib_get_entity s d o c k in
    (status_ok r.1 = true -> resolved (full_merge d f) m k = Some r.2) /\
    (IsNotFound r.1 = true -> m !! k = None);
  first_view : forall s d, lib_first_valid s d = true ->
    exists k, is_Some (resolved (full_merge d 0) (view s d 0) k);
  snapshot_frame : forall s d i, let s' := lib_snapshot s d i in
    (forall d', family s' d' = family s d') /\ (forall d' f, view s' d' f = view s d' f) /\
    snap s' i = Some (d, view s d) /\ (forall j, j <> i -> snap s' j = snap s j);
  admin_frame : forall s d a, let s' := (lib_admin s d a).1 in
    (forall d', family s' d' = family s d') /\ (forall d' f, view s' d' f = view s d' f) /\
    snap s' = snap s;
}.

(** ** An instance *)

Module MapDb.

Record state := {
  maps : nat -> Z -> gmap bytes entry;
  snaps : gmap nat (nat * (Z -> gmap bytes entry));
}.

Section Instance.

(** The merge operator of every column family. *)
Context (merge : bytes -> option bytes -> list bytes -> option bytes).

(** The handle of object [c] is that of family [c] of database 0. *)
Definition fam (d : nat) (c : cfh) : option Z :=
  match c with
  | DefaultCf => Some 0
  | CfHandle c => if decide (d = 0%nat) then Some (Z.of_nat c) else None
  | NullCf => None
  end.

Definition lt (a b : bytes) : bool := match bytes_cmp a b with Lt => true | _ => false end.

(** Insertion sort by name; equal names are refused. *)
Fixpoint insert_column (c : bytes * bytes) (l : columns) : columns :=
  match l with
  | [] => [c]
  | x :: r => if lt c.1 x.1 then c :: x :: r else x :: insert_column c r
  end.

Definition sort_columns (l : columns) : columns := foldr insert_column [] l.

Definition set_map (d : nat) (f : Z) (m : gmap bytes entry) (s : state) : state :=
  {| maps := fun d' f' => if decide (d' = d /\ f' = f) then m else maps s d' f'; snaps := snaps s |}.

Definition refused : Status := {| code := kInvalidArgument; to_text := "Invalid argument" |}.

#[global] Instance sorted_dec (l : list bytes) : base.Decision (StronglySorted bytes_lt l).
Proof.
  induction l as [|a l IH]; [left; constructor |].
  destruct (decide (Forall (fun b => bytes_cmp a b = Lt) l)) as [Ha | Ha].
  - destruct IH as [Hl | Hl]; [left; by constructor |]. right. by inversion 1.
  - right. by inversion 1.
Defined.

Definition run_update (s : state) (d : nat) (_ : WriteOptions) (c : cfh) (u : update) : state * Status :=
  match fam d c with
  | None => (s, refused)
  | Some f =>
      let m := maps s d f in
      match u with
      | UPut k v => (set_map d f (<[k := plain_entry (plain v)]> m) s, StatusOK)
      | UMerge k v => (set_map d f (<[k := add_operand v (m !! k)]> m) s, StatusOK)
      | UDelete k | USingleDelete k => (set_map d f (delete k m) s, StatusOK)
      | UDeleteRange b e =>
          (set_map d f (filter (fun kv => in_range lt b e kv.1 = false) m) s, StatusOK)
      | UPutEntity k l =>
          let l' := sort_columns l in
          if decide (StronglySorted bytes_lt l'.*1)
          then (set_map d f (<[k := plain_entry l']> m) s, StatusOK)
          else (s, {| code := kCorruption; to_text := "Corruption" |})
      end
  end.

Definition reading : state -> nat -> struct -> Z -> option (gmap bytes entry) :=
  read_map_of (fun s i => snaps s !! i) maps.

Definition get_entity (s : state) (d : nat) (o : struct) (c : cfh) (k : bytes) : Status * columns :=
  match fam d c with
  | None => (refused, [])
  | Some f =>
      match reading s d o f with
      | None => (refused, [])
      | Some m =>
          match m !! k with
          | None => (StatusNotFound, [])
          | Some e => match resolve merge k e with
                      | Some e => (StatusOK, e)
                      | None => ({| code := kCorruption; to_text := "Corruption" |}, [])
                      end
          end
      end
  end.

Definition get (s : state) (d : nat) (o : struct) (c : cfh) (k : bytes) : Status * bytes :=
  let '(st, e) := get_entity s d o c k in (st, default_value e).

Definition snapshot (s : state) (d i : nat) : state :=
  {| maps := maps s; snaps := <[i := (d, maps s d)]> (snaps s) |}.

Definition map_lib : DbLib :=
  {| dbs := state; lib_update := run_update; lib_get := get;
     lib_multi_get := fun s d o c ks => get s d o c <$> ks;
     lib_get_entity := get_entity;
     lib_first_valid := fun s d =>
       existsb (fun kv => match resolve merge kv.1 kv.2 with Some _ => true | None => false end)
         (map_to_list (maps s d 0));
     lib_sequence := fun _ _ => 0; lib_snapshot := snapshot;
     lib_property := fun _ _ _ _ => None;
     lib_sizes := fun _ _ _ rs _ => (fun _ => 0) <$> rs;
     lib_memtable_stats := fun _ _ _ _ _ => (0, 0);
     lib_admin := fun s _ _ => (s, StatusOK) |}.

Lemma get_entity_answers (s : state) d o c f m k :
  fam d c = Some f -> reading s d o f = Some m ->
  (status_ok (get_entity s d o c k).1 = true ->
     resolved merge m k = Some (get_entity s d o c k).2) /\
  (IsNotFound (get_entity s d o c k).1 = true -> m !! k = None).
Proof.
  intros Hf Hm. unfold get_entity, resolved. rewrite Hf, Hm.
  destruct (m !! k) as [e|]; [| done]. by destruct (resolve merge k e).
Qed.

Lemma get_answers (s : state) d o c f m k :
  fam d c = Some f -> reading s d o f = Some m -> answers merge m k (get s d o c k).
Proof.
  intros Hf Hm. destruct (get_entity_answers s d o c f m k Hf Hm) as [Hok Hnf].
  unfold answers, get. destruct (get_entity s d o c k) as [st e]. cbn in *.
  split; [| done]. intros H. exists e. by rewrite Hok.
Qed.

Lemma insert_column_perm c l : insert_column c l ≡ₚ c :: l.
Proof.
  induction l as [|x l IH]; cbn; [done |]. destruct (lt c.1 x.1); [done |].
  rewrite IH. apply Permutation_swap.
Qed.

Lemma sort_columns_perm l : sort_columns l ≡ₚ l.
Proof. induction l as [|x l IH]; cbn; [done |]. rewrite insert_column_perm. by f_equiv. Qed.

Lemma set_map_eq d f m s : maps (set_map d f m s) d f = m.
Proof. cbn. by rewrite decide_True. Qed.

Lemma set_map_ne d f m s d' f' : (d', f') <> (d, f) -> maps (set_map d f m s) d' f' = maps s d' f'.
Proof. intros H. cbn. rewrite decide_False; [done |]. intros [-> ->]. done. Qed.

#[local] Existing Instance map_lib.

Definition map_laws : DbLaws map_lib.
Proof.
  refine {| family := fun (_ : dbs) d c => fam d c;
            view := fun (s : dbs) => maps (s : state);
            snap := fun (s : dbs) i => snaps (s : state) !! i;
            key_lt := fun _ _ => lt; full_merge := fun _ _ => merge |}; try done.
  - intros s d o c u d'. cbn. unfold run_update.
    destruct (fam d c); [| done]. destruct u; cbn; try done. by case_decide.
  - intros s d o c u f Hf. change (fam d c = Some f) in Hf.
    cbn [lib_update map_lib]. unfold run_update. rewrite Hf.
    intros H. destruct u; cbn [snd fst] in *;
      try (split; [cbn [effect]; by rewrite set_map_eq | intros; by apply set_map_ne]).
    { split; [cbn [effect]; by rewrite set_map_eq, delete_delete_eq | intros; by apply set_map_ne]. }
    case_decide; [| done]. cbn [fst]. split; [| intros; by apply set_map_ne].
    cbn [effect]. eexists. rewrite set_map_eq. split_and!; [apply sort_columns_perm | done | done].
  - intros s d o c f m k Hf _ Hm. by eapply get_answers.
  - intros s d o c f m ks Hf _ Hm. cbn. induction ks; constructor; [by eapply get_answers | done].
  - intros s d o c f m k Hf _ Hm. by apply (get_entity_answers s d o c f m k).
  - intros s d H. cbn in H. apply existsb_exists in H as ([k e] & Hin & Hr).
    exists k. apply list_elem_of_In, elem_of_map_to_list in Hin. unfold resolved. cbn in *.
    rewrite Hin. by destruct (resolve merge k e).
  - intros s d i. cbn. split_and!; try done; [by rewrite lookup_insert_eq |].
    intros j Hj. by rewrite lookup_insert_ne.
Defined.

End Instance.
End MapDb.

(** A library whose state carries something more. *)
Module Extended.
Section Lift.
Context (L0 : DbLib) (X : Type).

Definition lift (s : @dbs L0 * X) (r : @dbs L0 * Status) : (@dbs L0 * X) * Status := ((r.1, s.2), r.2).

Definition prod_lib : DbLib :=
  {| dbs := @dbs L0 * X;
     lib_update := fun s d o c u => lift s (lib_update s.1 d o c u);
     lib_get := fun s => lib_get s.1;
     lib_multi_get := fun s => lib_multi_get s.1;
     lib_get_entity := fun s => lib_get_entity s.1;
     lib_first_valid := fun s => lib_first_valid s.1;
     lib_sequence := fun s => lib_sequence s.1;
     lib_snapshot := fun s d i => (lib_snapshot s.1 d i, s.2);
     lib_property := fun s => lib_property s.1;
     lib_sizes := fun s => lib_sizes s.1;
     lib_memtable_stats := fun s => lib_memtable_stats s.1;
     lib_admin := fun s d a => lift s (lib_admin s.1 d a) |}.

Context (LW0 : DbLaws L0).

Definition prod_laws : DbLaws prod_lib.
Proof.
  refine (@Build_DbLaws prod_lib (fun s => family s.1) (fun s => view s.1) (fun s => snap s.1)
            (key_lt (L := L0)) (full_merge (L := L0)) _ _ _ _ _ _ _ _ _).
  - exact (fun s => family_default (DbLaws := LW0) s.1).
  - exact (fun s => update_frame (DbLaws := LW0) s.1).
  - exact (fun s => update_view (DbLaws := LW0) s.1).
  - exact (fun s => get_view (DbLaws := LW0) s.1).
  - exact (fun s => multi_get_view (DbLaws := LW0) s.1).
  - exact (fun s => entity_view (DbLaws := LW0) s.1).
  - exact (fun s => first_view (DbLaws := LW0) s.1).
  - exact (fun s => snapshot_frame (DbLaws := LW0) s.1).
  - exact (fun s => admin_frame (DbLaws := LW0) s.1).
Defined.
End Lift.
End Extended.
