(* ===== verification/DbNif.v ===== *)
(** * Reading and writing a database

    The data functions of [c_src/erocksdb_db.cc]: [Get], [MultiGet], [Put],
    [Merge], [Delete], [SingleDelete], [DeleteRange], [PutEntity], [GetEntity],
    [IsEmpty], and the functions that inspect or maintain a database.  The state
    is the heap of reference-counted handles and the databases behind the
    interface [DbLib].

    A [ReferencePtr] local is [with_ref]: pin the object, run the scope, release
    it at its end. *)

From stdpp Require Import base list numbers strings gmap.
From Stdlib Require Import ZArith Lia Sorted.
From S2P Require Import Prelude StdMap Terms RefObjects WriteBatchLib CompactionFilter Options DbLib.

Record dsys `{DbLib} := { d_heap : heap; d_store : dbs }.

Section Nifs.
Context `{L : DbLib}.

Definition set_heap (s : dsys) (h : heap) : dsys := {| d_heap := h; d_store := d_store s |}.
Definition set_store (s : dsys) (st : dbs) : dsys := {| d_heap := d_heap s; d_store := st |}.

Abbreviation action_of := (dsys -> outcome (dsys * reply)).

(** ** Scopes *)

(** [if(!enif_get_db(...)) return badarg; ...] (or [enif_get_cf]) until the end of
    the scope of the pointer. *)
Definition with_ref (k : obj_kind) (t : term) (body : nat -> action_of) : action_of := fun s =>
  let! (h1, p) := get_ref k (d_heap s) t in
  match p with
  | None => Ok (set_heap s h1, Badarg)
  | Some id =>
      let! (s2, r) := body id (set_heap s h1) in
      let! h3 := release (d_heap s2) p in
      Ok (set_heap s2 h3, r)
  end.

Definition answer (r : reply) : action_of := fun s => Ok (s, r).

(** [cf_ptr->m_ColumnFamily] *)
Definition cf_pointer (h : heap) (c : nat) : outcome cfh :=
  let! o := deref h c in Ok (if m_Native o then CfHandle c else NullCf).

(** A method of the library called with a null handle dereferences it. *)
Definition use_cf {A} (c : cfh) (k : outcome A) : outcome A :=
  match c with NullCf => Undef | _ => k end.

(** The database of the first argument. *)
Definition on_db (argv : list term) (body : nat -> action_of) : action_of := fun s =>
  let! t := elem argv 0 in with_ref KDb t body s.

(** The column family of the second argument when there is one, or the default. *)
Definition on_family (given : bool) (argv : list term) (body : cfh -> action_of) : action_of := fun s =>
  if given then
    let! t := elem argv 1 in
    with_ref KColumnFamily t (fun c s => let! p := cf_pointer (d_heap s) c in body p s) s
  else body DefaultCf s.

(** A binary argument. *)
Definition with_binary (argv : list term) (i : nat) (body : bytes -> action_of) : action_of := fun s =>
  let! t := elem argv i in
  match enif_inspect_binary t with Some b => body b s | None => Ok (s, Badarg) end.

(** ** Read options *)

Definition read_table : list (string * action) :=
  [ ("read_tier", AEnum "read_tier"
       [ ("read_all_tier", "kReadAllTier"); ("block_cache_tier", "kBlockCacheTier");
         ("persisted_tier", "kPersistedTier"); ("memtable_tier", "kMemtableTier") ]);
    ("verify_checksums", ABool "verify_checksums");
    ("fill_cache", ABool "fill_cache");
    ("iterate_upper_bound", ANothing);
    ("tailing", ABool "tailing");
    ("total_order_seek", ABool "total_order_seek");
    ("auto_refresh_iterator_with_snapshot", ABool "auto_refresh_iterator_with_snapshot");
    ("readahead_size", AUint64 "readahead_size");
    ("async_io", ABool "async_io") ]%string.

(** The snapshot object is pinned only while its pointer is copied. *)
Definition parse_snapshot (v : term) (acc : heap * struct) : outcome ((heap * struct) * term) :=
  let '(h, o) := acc in
  let! p := RetrieveSnapshotObject h v in
  let! h1 := assign h None p in
  match p with
  | None => Ok ((h1, o), ATOM_BADARG)
  | Some id =>
      let! so := deref h1 id in
      let ptr := if m_Native so then VHandle RSnapshot id else VObj "nullptr" [] in
      let! h2 := release h1 p in
      Ok ((h2, sset "snapshot" ptr o), ATOM_OK)
  end.

Definition parse_read_option (item : term) (acc : heap * struct) : outcome ((heap * struct) * term) :=
  match enif_get_tuple item with
  | Some [key; v] =>
      if is_atom "snapshot" key then parse_snapshot v acc
      else let! (o, r) := parse_table read_table item acc.2 in Ok ((acc.1, o), r)
  | _ => Ok (acc, ATOM_OK)
  end.

(** [fold(env, list, parse_read_option, opts)], whose result is not looked at. *)
Definition with_read_options (t : term) (body : struct -> action_of) : action_of := fun s =>
  let! (acc, _) := fold parse_read_option t (d_heap s, []) in
  body acc.2 (set_heap s acc.1).

(** ** Reads *)

Definition get_answer (r : Status * bytes) : term :=
  if status_ok r.1 then Ttuple [ATOM_OK; Tbin r.2]
  else if IsNotFound r.1 then ATOM_NOT_FOUND
  else if IsCorruption r.1 then error_tuple ATOM_CORRUPTION r.1
  else error_tuple ATOM_UNKNOWN_STATUS_ERROR r.1.

(** [get(Db, Key, Opts)] or [get(Db, Cf, Key, Opts)]: the column family is looked up
    after the options. *)
Definition Get (argv : list term) : action_of :=
  on_db argv (fun d =>
    let given := (length argv =? 4)%nat in
    let i := if given then 2%nat else 1%nat in
    with_binary argv i (fun key s =>
      let! ot := elem argv (S i) in
      with_read_options ot (fun opts =>
        on_family given argv (fun c s =>
          use_cf c (Ok (s, Reply (get_answer (lib_get (d_store s) d opts c key)))))) s)).

(** The loop over the keys: [num_keys] cells, each a binary. *)
Definition read_keys (t : term) : option (list bytes) := mapM enif_inspect_binary (list_cells t).

(** The loop that builds the result from the arrays of statuses and values, whose
    elements the library fills. *)
Fixpoint results_from (answer : Status * bytes -> term) (rs : list (Status * bytes)) (n : nat)
    (acc : term) : term :=
  match n with
  | O => acc
  | S n => results_from answer rs n (Tcons (answer (default (StatusOK, []) (rs !! n))) acc)
  end.

Definition multi_results : list (Status * bytes) -> nat -> term -> term := results_from get_answer.

Definition MultiGet (argv : list term) : action_of :=
  on_db argv (fun d =>
    let given := (length argv =? 4)%nat in
    let i := if given then 2%nat else 1%nat in
    on_family given argv (fun c s =>
      let! kt := elem argv i in
      match enif_get_list_length kt with
      | None => Ok (s, Badarg)
      | Some O => Ok (s, Reply Tnil)
      | Some n =>
          match read_keys kt with
          | None => Ok (s, Badarg)
          | Some keys =>
              let! ot := elem argv (S i) in
              with_read_options ot (fun opts s =>
                use_cf c (Ok (s, Reply (multi_results
                  (lib_multi_get (d_store s) d opts c keys) n Tnil)))) s
          end
      end)).

(** ** Writes *)

Definition status_term (st : Status) : term :=
  if status_ok st then ATOM_OK else error_tuple ATOM_ERROR st.

Definition write_at (d : nat) (c : cfh) (opts : term) (u : update) : action_of := fun s =>
  use_cf c (
    let '(st, status) := lib_update (d_store s) d (fold_write_options opts) c u in
    Ok (set_store s st, Reply (status_term status))).

Definition Put (argv : list term) : action_of :=
  on_db argv (fun d =>
    let given := (4 <? length argv)%nat in
    let i := if given then 2%nat else 1%nat in
    on_family given argv (fun c =>
      with_binary argv i (fun k => with_binary argv (S i) (fun v s =>
        let! ot := elem argv (if given then 4%nat else 3%nat) in
        write_at d c ot (UPut k v) s)))).

(** The options are read from [argv[3]] with and without a column family. *)
Definition Merge (argv : list term) : action_of :=
  on_db argv (fun d =>
    let given := (4 <? length argv)%nat in
    let i := if given then 2%nat else 1%nat in
    on_family given argv (fun c =>
      with_binary argv i (fun k => with_binary argv (S i) (fun v s =>
        let! ot := elem argv 3 in
        write_at d c ot (UMerge k v) s)))).

(** The options are read from [argv[2]] with and without a column family. *)
Definition delete_with (u : bytes -> update) (argv : list term) : action_of :=
  on_db argv (fun d =>
    let given := (3 <? length argv)%nat in
    let i := if given then 2%nat else 1%nat in
    on_family given argv (fun c =>
      with_binary argv i (fun k s =>
        let! ot := elem argv 2 in
        write_at d c ot (u k) s))).

Definition Delete : list term -> action_of := delete_with UDelete.
Definition SingleDelete : list term -> action_of := delete_with USingleDelete.

Definition DeleteRange (argv : list term) : action_of :=
  on_db argv (fun d =>
    let given := (length argv =? 5)%nat in
    let i := if given then 2%nat else 1%nat in
    on_family given argv (fun c =>
      with_binary argv i (fun b => with_binary argv (S i) (fun e s =>
        let! ot := elem argv (S (S i)) in
        write_at d c ot (UDeleteRange b e) s)))).

(** ** Wide columns *)

(** One element of the column list: a pair of binaries. *)
Definition read_column (t : term) : option (bytes * bytes) :=
  match enif_get_tuple t with
  | Some [n; v] =>
      match enif_inspect_binary n, enif_inspect_binary v with
      | Some n, Some v => Some (n, v)
      | _, _ => None
      end
  | _ => None
  end.

Definition PutEntity (argv : list term) : action_of :=
  on_db argv (fun d =>
    let given := (4 <? length argv)%nat in
    let i := if given then 2%nat else 1%nat in
    on_family given argv (fun c =>
      with_binary argv i (fun k s =>
        let! ct := elem argv (S i) in
        if negb (enif_is_list ct) then Ok (s, Badarg)
        else
          match mapM read_column (list_cells ct) with
          | None => Ok (s, Badarg)
          | Some cols =>
              let! ot := elem argv (S (S i)) in
              write_at d c ot (UPutEntity k cols) s
          end))).

Definition column_term (c : bytes * bytes) : term := Ttuple [Tbin c.1; Tbin c.2].

(** [for (it = cols.rbegin(); ...) result_list = cons(tuple, result_list)] *)
Definition column_list (cols : columns) : term :=
  fold_left (fun acc c => Tcons (column_term c) acc) (rev cols) Tnil.

Definition entity_answer (r : Status * columns) : term :=
  if status_ok r.1 then Ttuple [ATOM_OK; column_list r.2]
  else if IsNotFound r.1 then ATOM_NOT_FOUND
  else if IsCorruption r.1 then error_tuple ATOM_CORRUPTION r.1
  else error_tuple ATOM_UNKNOWN_STATUS_ERROR r.1.

Definition GetEntity (argv : list term) : action_of :=
  on_db argv (fun d =>
    let given := (length argv =? 4)%nat in
    let i := if given then 2%nat else 1%nat in
    with_binary argv i (fun key s =>
      let! ot := elem argv (S i) in
      with_read_options ot (fun opts =>
        on_family given argv (fun c s =>
          use_cf c (Ok (s, Reply (entity_answer (lib_get_entity (d_store s) d opts c key)))))) s)).

(** ** Inspection *)

Definition IsEmpty (argv : list term) : action_of :=
  on_db argv (fun d s =>
    Ok (s, Reply (if lib_first_valid (d_store s) d then ATOM_FALSE else ATOM_TRUE))).

Definition GetLatestSequenceNumber (argv : list term) : action_of :=
  on_db argv (fun d s => Ok (s, Reply (Tint (lib_sequence (d_store s) d)))).

(** The column family of [GetProperty]: a handle that cannot be retrieved is not an
    error, the property of the database is read then. *)
Definition GetProperty (argv : list term) : action_of := fun s =>
  let! t := elem argv 0 in
  let! p := RetrieveDbObject (d_heap s) t in
  let! h1 := assign (d_heap s) None p in
  match p with
  | None => Ok (set_heap s h1, Badarg)
  | Some d =>
      let given := (length argv =? 3)%nat in
      let! nt := elem argv (if given then 2%nat else 1%nat) in
      let! ct := elem argv 1 in
      let! cf := if given then RetrieveColumnFamilyObject h1 ct else Ok None in
      let! h2 := assign h1 None cf in
      let finish r :=
        let! h3 := release h2 cf in
        let! h4 := release h3 p in
        Ok (set_heap s h4, r) in
      match enif_inspect_binary nt with
      | None => finish Badarg
      | Some name =>
          let! db := deref h2 d in
          if negb (m_Native db) then Undef
          else
            let! fam := match cf with
                        | Some c => let! f := cf_pointer h2 c in use_cf f (Ok (Some f))
                        | None => Ok None
                        end in
            finish (Reply (match lib_property (d_store s) d fam name with
                           | Some v => Ttuple [ATOM_OK; Tbin v]
                           | None => ATOM_ERROR
                           end))
      end
  end.

(** [SizeApproximationFlags]: NONE = 0, INCLUDE_MEMTABLES = 1, INCLUDE_FILES = 2. *)
Definition size_flags : list (string * Z) :=
  [ ("none", 0); ("include_memtables", 1); ("include_files", 2); ("include_both", 3) ]%string.

Definition GetApproximateSizes (argv : list term) : action_of :=
  on_db argv (fun d =>
    let given := (length argv =? 5)%nat in
    let i := if given then 2%nat else 1%nat in
    on_family given argv (fun c s =>
      let! ft := elem argv (S i) in
      match find_atom ft size_flags with
      | None => Ok (s, Badarg)
      | Some flag =>
          let! rt := elem argv i in
          match enif_get_list_length rt, mapM read_column (list_cells rt) with
          | Some n, Some ranges =>
              use_cf c (Ok (s, Reply (make_list (Tint <$> lib_sizes (d_store s) d c ranges flag))))
          | _, _ => Ok (s, Badarg)
          end
      end)).

Definition GetApproximateMemTableStats (argv : list term) : action_of :=
  on_db argv (fun d =>
    let given := (length argv =? 4)%nat in
    let i := if given then 2%nat else 1%nat in
    on_family given argv (fun c =>
      with_binary argv i (fun b => with_binary argv (S i) (fun e s =>
        use_cf c (
          let '(count, size) := lib_memtable_stats (d_store s) d c b e in
          Ok (s, Reply (Ttuple [ATOM_OK; Ttuple [Tint count; Tint size]]))))))).

(** ** Maintenance *)

Definition admin_call (d : nat) (a : admin) : action_of := fun s =>
  let '(st, status) := lib_admin (d_store s) d a in
  Ok (set_store s st, Reply (status_term status)).

(** A bound of a range: [undefined] assigns the null pointer to a [Slice], which
    makes it empty; the address of the slice is passed in every case. *)
Definition range_bound (t : term) : option (option bytes) :=
  if is_atom "undefined" t then Some (Some [])
  else Some <$> enif_inspect_binary t.

Definition CompactRange (argv : list term) : action_of :=
  on_db argv (fun d =>
    let given := (length argv =? 5)%nat in
    let i := if given then 2%nat else 1%nat in
    on_family given argv (fun c s =>
      let! bt := elem argv i in
      match range_bound bt with
      | None => Ok (s, Badarg)
      | Some b =>
          let! et := elem argv (S i) in
          match range_bound et with
          | None => Ok (s, Badarg)
          | Some e =>
              let! ot := elem argv (S (S i)) in
              let! (opts, _) := fold parse_compact_range_option ot [] in
              use_cf c (admin_call d (ACompactRange opts c b e) s)
          end
      end)).

Definition Flush (argv : list term) : action_of :=
  on_db argv (fun d s =>
    let! ot := elem argv 2 in
    let! (opts, _) := fold parse_flush_option ot [] in
    let! t := elem argv 1 in
    if is_atom "default_column_family" t then admin_call d (AFlush opts DefaultCf) s
    else with_ref KColumnFamily t (fun c s =>
           let! p := cf_pointer (d_heap s) c in
           use_cf p (admin_call d (AFlush opts p) s)) s).

Definition SyncWal (argv : list term) : action_of := on_db argv (fun d => admin_call d ASyncWAL).

Definition PauseBackgroundWork (argv : list term) : action_of :=
  on_db argv (fun d => admin_call d APauseBackgroundWork).

Definition ContinueBackgroundWork (argv : list term) : action_of :=
  on_db argv (fun d => admin_call d AContinueBackgroundWork).

(** The methods that return nothing. *)
Definition void_call (d : nat) (a : admin) : action_of := fun s =>
  Ok (set_store s (lib_admin (d_store s) d a).1, Reply ATOM_OK).

Definition DisableManualCompaction (argv : list term) : action_of :=
  on_db argv (fun d => void_call d ADisableManualCompaction).

Definition EnableManualCompaction (argv : list term) : action_of :=
  on_db argv (fun d => void_call d AEnableManualCompaction).

Definition FlushWal (argv : list term) : action_of :=
  on_db argv (fun d s =>
    let! ot := elem argv 1 in
    if negb (enif_is_list ot) then Ok (s, Badarg)
    else
      let! (opts, _) := fold parse_flush_wal_option ot [] in
      admin_call d (AFlushWAL opts) s).

Definition SetDBBackgroundThreads (argv : list term) : action_of :=
  on_db argv (fun d s =>
    let! nt := elem argv 1 in
    match enif_get_int nt with
    | None => Ok (s, Badarg)
    | Some n =>
        if (length argv =? 3)%nat then
          let! pt := elem argv 2 in
          if is_atom "priority_high" pt then void_call d (ASetBackgroundThreads n (Some "HIGH"%string)) s
          else if is_atom "priority_low" pt then void_call d (ASetBackgroundThreads n (Some "LOW"%string)) s
          else Ok (s, Badarg)
        else void_call d (ASetBackgroundThreads n None) s
    end).

(** [created]: [Checkpoint::Create] succeeds; otherwise its status is
    [create_status] and the pointer it would have set is deleted unset. *)
Definition Checkpoint (created : bool) (argv : list term) : action_of :=
  on_db argv (fun d s =>
    let! pt := elem argv 1 in
    match get_c_string 4096 pt with
    | None => Ok (s, Badarg)
    | Some path => if created then admin_call d (ACheckpoint path) s else Undef
    end).

(** [erocksdb::Snapshot]: take the snapshot and keep it in a new object. *)
Definition TakeSnapshot (argv : list term) : action_of :=
  on_db argv (fun d s =>
    let! (h1, id) := CreateSnapshotObject (d_heap s) d in
    Ok ({| d_heap := h1; d_store := lib_snapshot (d_store s) d id |},
        Reply (Ttuple [ATOM_OK; Tres RSnapshot id]))).

(** [erocksdb::SupportedCompressions]: the known types among those of the library. *)
Definition SupportedCompressions (supported : list string) : term :=
  make_list (omap (fun c => Tatom ∘ fst <$> find (fun e => bool_decide (e.2 = c)) compression_types)
               supported).

(** ** Files and metadata *)

(** One path: a binary, or a string that fits the buffer. *)
Definition read_path (t : term) : option bytes :=
  match enif_inspect_binary t with
  | Some b => Some b
  | None => match enif_get_string 4096 t with GString s => Some (c_string s) | _ => None end
  end.

(** [lib_ingest] is [DB::IngestExternalFile]. *)
Definition IngestExternalFile
    (lib_ingest : dbs -> nat -> cfh -> list bytes -> struct -> dbs * Status)
    (argv : list term) : action_of :=
  on_db argv (fun d =>
    let given := (length argv =? 4)%nat in
    let i := if given then 2%nat else 1%nat in
    on_family given argv (fun c s =>
      let! ft := elem argv i in
      match enif_get_list_length ft with
      | None | Some O => Ok (s, Badarg)
      | Some _ =>
          match mapM read_path (list_cells ft) with
          | None => Ok (s, Badarg)
          | Some files =>
              let! ot := elem argv (S i) in
              let! (opts, _) := fold parse_ingest_external_file_option ot [] in
              use_cf c (
                let '(st, status) := lib_ingest (d_store s) d c files opts in
                Ok (set_store s st, Reply (status_term status)))
          end
      end)).

Record BlobMetaData := {
  blob_file_number : Z; blob_file_name : bytes; blob_file_path : bytes; blob_file_size : Z;
  total_blob_count : Z; total_blob_bytes : Z; garbage_blob_count : Z; garbage_blob_bytes : Z;
}.

Record ColumnFamilyMetaData := {
  cf_size : Z; cf_file_count : Z; cf_name : bytes; cf_blob_file_size : Z;
  cf_blob_files : list BlobMetaData;
}.

Definition blob_map (b : BlobMetaData) : term :=
  Tmap [ (Tatom "blob_file_number", Tint (blob_file_number b));
         (Tatom "blob_file_name", Tbin (blob_file_name b));
         (Tatom "blob_file_path", Tbin (blob_file_path b));
         (Tatom "size", Tint (blob_file_size b));
         (Tatom "total_blob_count", Tint (total_blob_count b));
         (Tatom "total_blob_bytes", Tint (total_blob_bytes b));
         (Tatom "garbage_blob_count", Tint (garbage_blob_count b));
         (Tatom "garbage_blob_bytes", Tint (garbage_blob_bytes b)) ].

(** The loop runs over the vector from its end and puts each map in front of the
    list; the list is then reversed once more. *)
Definition blob_files_list (l : list BlobMetaData) : term :=
  enif_make_reverse_list (fold_left (fun acc b => Tcons (blob_map b) acc) (rev l) Tnil).

Definition metadata_term (m : ColumnFamilyMetaData) : term :=
  Tmap [ (Tatom "size", Tint (cf_size m)); (Tatom "file_count", Tint (cf_file_count m));
         (Tatom "name", Tbin (cf_name m)); (Tatom "blob_file_size", Tint (cf_blob_file_size m));
         (Tatom "blob_files", blob_files_list (cf_blob_files m)) ].

(** [lib_metadata] is [DB::GetColumnFamilyMetaData]. *)
Definition GetColumnFamilyMetaData (lib_metadata : dbs -> nat -> cfh -> ColumnFamilyMetaData)
    (argv : list term) : action_of :=
  on_db argv (fun d =>
    on_family (length argv =? 2)%nat argv (fun c s =>
      use_cf c (Ok (s, Reply (Ttuple [ATOM_OK; metadata_term (lib_metadata (d_store s) d c)]))))).

End Nifs.
