(* ===== verification/DbSpec.v ===== *)
(** * A database as a map

    What the data functions of [DbNif] promise: a database is a map from keys to
    entries for each column family; a sequence of reads and writes through usable
    handles answers as that map does, leaves the handles as they were, and reads
    through a snapshot see the map as it was when the snapshot was taken. *)

From stdpp Require Import base list numbers strings gmap.
From Stdlib Require Import ZArith Lia Sorted.
From S2P Require Import Prelude StdMap Terms RefObjects RefInv RefSystem WriteBatchLib CompactionFilter ScalarMerge Options DbLib DbNif.

(** ** Calls *)

Inductive dcall :=
| DGet (cf : option nat) (k : bytes) (opts : list term)
| DMultiGet (cf : option nat) (ks : list bytes) (opts : list term)
| DGetEntity (cf : option nat) (k : bytes) (opts : list term)
| DWrite (cf : option nat) (u : update) (opts : term).

Definition cf_args (cf : option nat) : list term :=
  match cf with Some c => [Tres RColumnFamily c] | None => [] end.

Definition handle_of (cf : option nat) : cfh :=
  match cf with Some c => CfHandle c | None => DefaultCf end.

Definition call_cf (c : dcall) : option nat :=
  match c with DGet cf _ _ | DMultiGet cf _ _ | DGetEntity cf _ _ | DWrite cf _ _ => cf end.

Definition call_reads (c : dcall) : list term :=
  match c with DGet _ _ o | DMultiGet _ _ o | DGetEntity _ _ o => o | DWrite _ _ _ => [] end.

Section Spec.
Context `{L : DbLib}.

Definition write_args (u : update) : list term :=
  match u with
  | UPut k v | UMerge k v => [Tbin k; Tbin v]
  | UDelete k | USingleDelete k => [Tbin k]
  | UDeleteRange b e => [Tbin b; Tbin e]
  | UPutEntity k c => [Tbin k; make_list (column_term <$> c)]
  end.

Definition write_nif (u : update) : list term -> dsys -> outcome (dsys * reply) :=
  match u with
  | UPut _ _ => Put
  | UMerge _ _ => Merge
  | UDelete _ => Delete
  | USingleDelete _ => SingleDelete
  | UDeleteRange _ _ => DeleteRange
  | UPutEntity _ _ => PutEntity
  end.

Definition run_dcall (d : nat) (c : dcall) : dsys -> outcome (dsys * reply) :=
  let db := Tres RDb d in
  match c with
  | DGet cf k o => Get (db :: cf_args cf ++ [Tbin k; make_list o])
  | DMultiGet cf ks o => MultiGet (db :: cf_args cf ++ [make_list (Tbin <$> ks); make_list o])
  | DGetEntity cf k o => GetEntity (db :: cf_args cf ++ [Tbin k; make_list o])
  | DWrite cf u o => write_nif u (db :: cf_args cf ++ write_args u ++ [o])
  end.

Fixpoint run_dcalls (d : nat) (l : list dcall) (s : dsys) : outcome (dsys * list reply) :=
  match l with
  | [] => Ok (s, [])
  | c :: r =>
      let! (s1, rep) := run_dcall d c s in
      let! (s2, reps) := run_dcalls d r s1 in
      Ok (s2, rep :: reps)
  end.

(** ** Read options that are all accepted *)

Definition item_snapshot (item : term) : option term :=
  match enif_get_tuple item with
  | Some [key; v] => if is_atom "snapshot" key then Some v else None
  | _ => None
  end.

(** The snapshots among the options can be used. *)
Definition item_ok (h : heap) (item : term) : bool :=
  match item_snapshot item with
  | None => true
  | Some v => match enif_get_resource RSnapshot v with
              | Some i => usable h KSnapshot i
              | None => false
              end
  end.

Definition read_step (o : struct) (item : term) : struct :=
  match item_snapshot item with
  | Some v => match enif_get_resource RSnapshot v with
              | Some i => sset "snapshot" (VHandle RSnapshot i) o
              | None => o
              end
  | None => match parse_table read_table item o with Ok (o', _) => o' | Undef => o end
  end.

Definition read_struct (l : list term) : struct := fold_left read_step l [].

Definition call_usable (h : heap) (d : nat) (c : dcall) : bool :=
  usable h KDb d &&
  match call_cf c with Some c => usable h KColumnFamily c | None => true end &&
  forallb (item_ok h) (call_reads c) && plain_read (read_struct (call_reads c)).

(** ** Lemmas *)

Lemma with_ref_ok k c (body : nat -> dsys -> outcome (dsys * reply)) s st r :
  k <> KItr -> usable (d_heap s) k c = true ->
  (forall h1, (forall k' c', k' <> k -> usable (d_heap s) k' c' = true -> usable h1 k' c' = true) ->
     cf_pointer h1 c = Ok (CfHandle c) ->
     body c (set_heap s h1) = Ok ({| d_heap := h1; d_store := st |}, r)) ->
  with_ref k (Tres (res_kind_of k) c) body s = Ok ({| d_heap := d_heap s; d_store := st |}, r).
Proof.
  intros Hk Hu Hb. destruct (usable_pinned _ k c Hk Hu) as (o & Ho & Hget & Hrel & Hn).
  unfold with_ref. rewrite Hget. cbn [obind].
  rewrite (Hb (pinned (d_heap s) c o)).
  - cbn [obind d_heap]. by rewrite Hrel.
  - intros k' c' Hk' Hu'. apply usable_pinned_other; [done | | done].
    by eapply usable_kind_ne.
  - unfold cf_pointer, deref, pinned. rewrite lookup_insert_eq. cbn [obind m_Native set_refs].
    by rewrite Hn.
Qed.

Lemma on_db_ok d argv (body : nat -> dsys -> outcome (dsys * reply)) s st r :
  usable (d_heap s) KDb d = true ->
  (forall h1, (forall k' c', k' <> KDb -> usable (d_heap s) k' c' = true -> usable h1 k' c' = true) ->
     body d (set_heap s h1) = Ok ({| d_heap := h1; d_store := st |}, r)) ->
  on_db (Tres RDb d :: argv) body s = Ok ({| d_heap := d_heap s; d_store := st |}, r).
Proof.
  intros Hu Hb. unfold on_db. cbn [elem lookup list_lookup obind].
  change (Tres RDb d) with (Tres (res_kind_of KDb) d). apply with_ref_ok; [done | done |].
  intros h1 Hk _. by apply Hb.
Qed.

Lemma on_db_read d argv (body : nat -> dsys -> outcome (dsys * reply)) s r :
  usable (d_heap s) KDb d = true ->
  (forall h1, (forall k' c', k' <> KDb -> usable (d_heap s) k' c' = true -> usable h1 k' c' = true) ->
     body d (set_heap s h1) = Ok ({| d_heap := h1; d_store := d_store s |}, r)) ->
  on_db (Tres RDb d :: argv) body s = Ok (s, r).
Proof. intros Hu Hb. rewrite (on_db_ok _ _ _ s (d_store s) r Hu Hb). by destruct s. Qed.

Lemma on_family_ok cf t rest (body : cfh -> dsys -> outcome (dsys * reply)) s st r :
  match cf with Some c => usable (d_heap s) KColumnFamily c | None => true end = true ->
  (forall h1, (forall c', usable (d_heap s) KSnapshot c' = true -> usable h1 KSnapshot c' = true) ->
     body (handle_of cf) (set_heap s h1) = Ok ({| d_heap := h1; d_store := st |}, r)) ->
  on_family (match cf with Some _ => true | None => false end) (t :: cf_args cf ++ rest) body s =
    Ok ({| d_heap := d_heap s; d_store := st |}, r).
Proof.
  intros Hu Hb. unfold on_family. destruct cf as [c|].
  - cbn [elem lookup list_lookup obind cf_args app].
    change (Tres RColumnFamily c) with (Tres (res_kind_of KColumnFamily) c).
    apply with_ref_ok; [done | done |]. intros h1 Hk Hp. cbn [d_heap set_heap]. rewrite Hp.
    cbn [obind]. apply Hb. intros c'. by apply Hk.
  - specialize (Hb (d_heap s) ltac:(done)). cbn [handle_of] in Hb. by destruct s.
Qed.

(** A snapshot that can be used is pinned and released. *)
Lemma parse_snapshot_ok h i o :
  usable h KSnapshot i = true ->
  parse_snapshot (Tres RSnapshot i) (h, o) = Ok ((h, sset "snapshot" (VHandle RSnapshot i) o), ATOM_OK).
Proof.
  intros H. destruct (usable_pin_any h KSnapshot i H ltac:(done)) as (so & Hso & Hret & Has & _ & Hrel & Hn).
  unfold parse_snapshot, RetrieveSnapshotObject.
  change (Tres RSnapshot i) with (Tres (res_kind_of KSnapshot) i). rewrite Hret. cbn [obind].
  rewrite Has. cbn [obind]. unfold deref, pinned at 1. rewrite lookup_insert_eq.
  cbn [obind m_Native set_refs]. rewrite Hn. fold (pinned h i so). by rewrite Hrel.
Qed.

Lemma parse_read_ok h item o :
  item_ok h item = true -> parse_read_option item (h, o) = Ok ((h, read_step o item), ATOM_OK).
Proof.
  unfold item_ok, parse_read_option, read_step, item_snapshot. intros H.
  destruct (simple_table_parses read_table item o eq_refl) as [o' Ho].
  destruct (enif_get_tuple item) as [[|key [|v [|]]]|] eqn:Et;
    try (rewrite Ho in *; unfold parse_table in Ho; rewrite Et in Ho; unfold pok in *;
         simplify_eq; cbn [obind]; done).
  destruct (is_atom "snapshot" key).
  - destruct (enif_get_resource RSnapshot v) as [i|] eqn:Er; [| done].
    destruct v as [| | | | | | | |rk j|]; try done. cbn in Er. case_decide; [| done]. simplify_eq.
    by apply parse_snapshot_ok.
  - cbn [fst snd]. rewrite Ho. done.
Qed.

Lemma fold_reads_ok h l o :
  forallb (item_ok h) l = true ->
  fold_cells parse_read_option l (h, o) = Ok ((h, fold_left read_step l o), ATOM_OK).
Proof.
  revert o. induction l as [|item l IH]; intros o H; [done |].
  cbn [forallb] in H. apply andb_true_iff in H as [Hi Hl].
  cbn [fold_cells fold_left]. rewrite parse_read_ok by done. cbn [obind].
  by apply IH.
Qed.

Lemma read_options_ok l (body : struct -> dsys -> outcome (dsys * reply)) s :
  forallb (item_ok (d_heap s)) l = true ->
  with_read_options (make_list l) body s = body (read_struct l) s.
Proof.
  intros Hl. unfold with_read_options, fold. rewrite list_cells_make_list, fold_reads_ok by done.
  cbn [obind fst snd]. by destruct s.
Qed.

Lemma items_ok_weaken h h1 l :
  (forall c, usable h KSnapshot c = true -> usable h1 KSnapshot c = true) ->
  forallb (item_ok h) l = true -> forallb (item_ok h1) l = true.
Proof.
  intros Hk. rewrite !forallb_forall. intros H item Hin. specialize (H item Hin).
  unfold item_ok in *. destruct (item_snapshot item); [| done].
  destruct (enif_get_resource _ _); [| done]. by apply Hk.
Qed.

Lemma results_from_eq answer rs acc :
  results_from answer rs (length rs) acc = foldr Tcons acc (answer <$> rs).
Proof.
  revert acc. induction rs as [|r rs IH] using rev_ind; intros acc; [done |].
  rewrite length_app, Nat.add_comm. cbn [length Nat.add results_from].
  rewrite lookup_app_r, Nat.sub_diag by done. cbn [lookup list_lookup default].
  rewrite fmap_app, foldr_app. cbn [fmap list_fmap foldr]. rewrite <- IH.
  enough (H : forall n acc', (n <= length rs)%nat ->
            results_from answer (rs ++ [r]) n acc' = results_from answer rs n acc') by (by apply H).
  induction n as [|n IHn]; intros acc' Hn; [done |]. cbn [results_from].
  rewrite lookup_app_l by lia. apply IHn. lia.
Qed.

Lemma multi_results_eq rs acc :
  multi_results rs (length rs) acc = foldr Tcons acc (get_answer <$> rs).
Proof. apply results_from_eq. Qed.

Lemma foldr_cons_list l : foldr Tcons Tnil l = make_list l.
Proof. induction l; cbn; congruence. Qed.

Lemma read_column_term c : read_column (column_term c) = Some c.
Proof. by destruct c. Qed.

Lemma column_list_eq cols : column_list cols = make_list (column_term <$> cols).
Proof.
  unfold column_list. induction cols as [|c cols IH]; [done |].
  cbn [rev]. rewrite fold_left_app. cbn [fold_left]. by rewrite IH.
Qed.

Lemma enif_is_list_make l : enif_is_list (make_list l) = true.
Proof. by destruct l. Qed.

Lemma fold_write_binary b : fold_write_options (Tbin b) = default_WriteOptions.
Proof. done. Qed.

Lemma mapM_columns c : mapM read_column (column_term <$> c) = Some c.
Proof. apply mapM_fmap_Some. by intros []. Qed.

Lemma mapM_binaries ks : mapM enif_inspect_binary (Tbin <$> ks) = Some ks.
Proof. by apply mapM_fmap_Some. Qed.

(** ** What each call does *)

Lemma write_at_ok d cf o u s :
  write_at d (handle_of cf) o u s =
    let '(st, status) := lib_update (d_store s) d (fold_write_options o) (handle_of cf) u in
    Ok ({| d_heap := d_heap s; d_store := st |}, Reply (status_term status)).
Proof. unfold write_at. by destruct cf. Qed.

(** The options a write passes to the library: [Merge], [Delete] and [SingleDelete]
    with a column family take them from the wrong argument. *)
Definition options_used (cf : option nat) (u : update) (opts : term) : WriteOptions :=
  match cf, u with
  | Some _, (UMerge _ _ | UDelete _ | USingleDelete _) => default_WriteOptions
  | _, _ => fold_write_options opts
  end.

Lemma dwrite_step d cf u o s :
  call_usable (d_heap s) d (DWrite cf u o) = true ->
  let '(st, status) := lib_update (d_store s) d (options_used cf u o) (handle_of cf) u in
  run_dcall d (DWrite cf u o) s =
    Ok ({| d_heap := d_heap s; d_store := st |}, Reply (status_term status)).
Proof.
  unfold call_usable. cbn [call_cf call_reads forallb]. rewrite !andb_true_iff.
  intros [[[Hd Hc] _] _].
  destruct (lib_update _ _ _ _ _) as [st status] eqn:E. cbn [run_dcall].
  destruct u as [k v|k v|k|k|b e|k c]; cbn [write_nif write_args];
    unfold Put, Merge, Delete, SingleDelete, delete_with, DeleteRange, PutEntity;
    (apply on_db_ok; [done |]; intros h1 Hk);
    destruct cf as [cf|]; cbv zeta; cbn [cf_args app length Nat.ltb Nat.leb Nat.eqb];
    first [refine (on_family_ok (Some cf) _ _ _ (set_heap s h1) st (Reply (status_term status)) _ _)
          | refine (on_family_ok None _ _ _ (set_heap s h1) st (Reply (status_term status)) _ _)];
    try done; try (by apply Hk); intros h2 _; unfold with_binary;
    cbn [elem lookup list_lookup obind enif_inspect_binary];
    rewrite ?enif_is_list_make, ?list_cells_make_list, ?mapM_columns;
    cbn [negb elem lookup list_lookup obind];
    (rewrite write_at_ok; cbn [d_store d_heap set_heap]; cbn [options_used handle_of] in *;
     by rewrite ?fold_write_binary, E).
Qed.

Lemma get_step d cf k o s :
  call_usable (d_heap s) d (DGet cf k o) = true ->
  run_dcall d (DGet cf k o) s =
    Ok (s, Reply (get_answer (lib_get (d_store s) d (read_struct o) (handle_of cf) k))).
Proof.
  unfold call_usable. cbn [call_cf call_reads]. rewrite !andb_true_iff. intros [[[Hd Hc] Ho] _].
  cbn [run_dcall]. unfold Get. apply on_db_read; [done |]. intros h1 Hk. cbv zeta.
  destruct cf as [cf|]; cbn [cf_args app length Nat.ltb Nat.leb Nat.eqb]; unfold with_binary;
    cbn [elem lookup list_lookup obind enif_inspect_binary];
    (rewrite read_options_ok by (by eapply items_ok_weaken; [| exact Ho]; intros; apply Hk));
    first [refine (on_family_ok (Some cf) _ _ _ (set_heap s h1) _ _ _ _)
          | refine (on_family_ok None _ _ _ (set_heap s h1) _ _ _ _)]; try done; by apply Hk.
Qed.

Lemma get_entity_step d cf k o s :
  call_usable (d_heap s) d (DGetEntity cf k o) = true ->
  run_dcall d (DGetEntity cf k o) s =
    Ok (s, Reply (entity_answer (lib_get_entity (d_store s) d (read_struct o) (handle_of cf) k))).
Proof.
  unfold call_usable. cbn [call_cf call_reads]. rewrite !andb_true_iff. intros [[[Hd Hc] Ho] _].
  cbn [run_dcall]. unfold GetEntity. apply on_db_read; [done |]. intros h1 Hk. cbv zeta.
  destruct cf as [cf|]; cbn [cf_args app length Nat.ltb Nat.leb Nat.eqb]; unfold with_binary;
    cbn [elem lookup list_lookup obind enif_inspect_binary];
    (rewrite read_options_ok by (by eapply items_ok_weaken; [| exact Ho]; intros; apply Hk));
    first [refine (on_family_ok (Some cf) _ _ _ (set_heap s h1) _ _ _ _)
          | refine (on_family_ok None _ _ _ (set_heap s h1) _ _ _ _)]; try done; by apply Hk.
Qed.

Lemma multi_get_step d cf ks o s :
  call_usable (d_heap s) d (DMultiGet cf ks o) = true ->
  length (lib_multi_get (d_store s) d (read_struct o) (handle_of cf) ks) = length ks ->
  run_dcall d (DMultiGet cf ks o) s =
    Ok (s, Reply (make_list (get_answer <$>
             lib_multi_get (d_store s) d (read_struct o) (handle_of cf) ks))).
Proof.
  unfold call_usable. cbn [call_cf call_reads]. rewrite !andb_true_iff. intros [[[Hd Hc] Ho] _] Hlen.
  cbn [run_dcall]. unfold MultiGet. apply on_db_read; [done |]. intros h1 Hk. cbv zeta.
  destruct cf as [cf|]; cbn [cf_args app length Nat.ltb Nat.leb Nat.eqb];
    first [refine (on_family_ok (Some cf) _ _ _ (set_heap s h1) _ _ _ _)
          | refine (on_family_ok None _ _ _ (set_heap s h1) _ _ _ _)]; try done; try (by apply Hk);
    intros h2 Hk2; cbn [elem lookup list_lookup obind];
    rewrite list_length_make_list, length_fmap;
    unfold read_keys; rewrite list_cells_make_list, mapM_binaries;
    (destruct ks as [|k ks]; [by destruct (lib_multi_get _ _ _ _ _) |]);
    cbn [length] in *; cbn [elem lookup list_lookup obind];
    (rewrite read_options_ok by (eapply items_ok_weaken; [exact Hk2 |];
       eapply items_ok_weaken; [| exact Ho]; intros; by apply Hk));
    cbn [use_cf handle_of d_store set_heap] in *; rewrite <- Hlen, multi_results_eq, foldr_cons_list; done.
Qed.

End Spec.

(** ** The specification *)

Section Refinement.
Context `{L : DbLib} {LW : DbLaws L}.

Abbreviation maps := (Z -> gmap bytes entry).

(** What a term says about a key of a map: the value, or that there is none, or
    that the read failed. *)
Definition read_error (t : term) : Prop :=
  exists a st, t = error_tuple a st /\ (a = ATOM_CORRUPTION \/ a = ATOM_UNKNOWN_STATUS_ERROR).

Definition get_says (merge : bytes -> option bytes -> list bytes -> option bytes)
    (m : gmap bytes entry) (k : bytes) (t : term) : Prop :=
  (exists e, resolved merge m k = Some e /\ t = Ttuple [ATOM_OK; Tbin (default_value e)]) \/
  (m !! k = None /\ t = ATOM_NOT_FOUND) \/ read_error t.

Definition entity_says (merge : bytes -> option bytes -> list bytes -> option bytes)
    (m : gmap bytes entry) (k : bytes) (t : term) : Prop :=
  (exists e, resolved merge m k = Some e /\ t = Ttuple [ATOM_OK; make_list (column_term <$> e)]) \/
  (m !! k = None /\ t = ATOM_NOT_FOUND) \/ read_error t.

(** The map a read with these options sees. *)
Definition seen (snaps : nat -> option (nat * maps)) (d : nat) (V : maps) (o : struct) (f : Z) :
    option (gmap bytes entry) :=
  match sget "snapshot" o with
  | Some (VHandle RSnapshot i) =>
      match snaps i with
      | Some (d', m) => if decide (d' = d) then Some (m f) else None
      | None => None
      end
  | _ => Some (V f)
  end.

(** The answers the specification allows for a call on the maps [V] of database
    [d], with the maps after it.  A write that fails may leave any contents. *)
Definition allowed (fam : option nat -> Z) (snaps : nat -> option (nat * maps)) (d : nat)
    (V : maps) (c : dcall) (V' : maps) (r : reply) : Prop :=
  match c with
  | DGet cf k o => V' = V /\ exists m t, seen snaps d V (read_struct o) (fam cf) = Some m /\
      r = Reply t /\ get_says (full_merge d (fam cf)) m k t
  | DMultiGet cf ks o => V' = V /\ exists m ts, seen snaps d V (read_struct o) (fam cf) = Some m /\
      r = Reply (make_list ts) /\ Forall2 (get_says (full_merge d (fam cf)) m) ks ts
  | DGetEntity cf k o => V' = V /\ exists m t, seen snaps d V (read_struct o) (fam cf) = Some m /\
      r = Reply t /\ entity_says (full_merge d (fam cf)) m k t
  | DWrite cf u _ =>
      (r = Reply ATOM_OK /\ effect (key_lt d (fam cf)) u (V (fam cf)) (V' (fam cf)) /\
       (forall f, f <> fam cf -> V' f = V f)) \/
      (exists st, status_ok st = false /\ r = Reply (error_tuple ATOM_ERROR st))
  end.

Inductive allowed_run (fam : option nat -> Z) (snaps : nat -> option (nat * maps)) (d : nat) :
    maps -> list dcall -> maps -> list reply -> Prop :=
| run_nil V : allowed_run fam snaps d V [] V []
| run_cons V c V1 r l V2 rs :
    allowed fam snaps d V c V1 r -> allowed_run fam snaps d V1 l V2 rs ->
    allowed_run fam snaps d V (c :: l) V2 (r :: rs).

(** The options of a read see a map: its snapshot, if any, is one of [d]. *)
Definition call_sees (snaps : nat -> option (nat * maps)) (d : nat) (c : dcall) : Prop :=
  match sget "snapshot" (read_struct (call_reads c)) with
  | Some (VHandle RSnapshot i) => exists m, snaps i = Some (d, m)
  | _ => True
  end.

Lemma get_answer_says merge m k r :
  answers merge m k r -> get_says merge m k (get_answer r).
Proof.
  destruct r as [st v]. intros [Hok Hnf]. cbn [fst snd] in *. unfold get_says, get_answer. cbn [fst snd].
  destruct (status_ok st) eqn:Es.
  - left. destruct (Hok eq_refl) as (e & He & ->). by exists e.
  - right. destruct (IsNotFound st) eqn:En; [left; split; [by apply Hnf | done] |]. right.
    destruct (IsCorruption st); eexists _, st; (split; [done |]); [by left | by right].
Qed.

Lemma entity_answer_says merge m k (r : Status * columns) :
  (status_ok r.1 = true -> resolved merge m k = Some r.2) /\ (IsNotFound r.1 = true -> m !! k = None) ->
  entity_says merge m k (entity_answer r).
Proof.
  destruct r as [st e]. intros [Hok Hnf]. cbn [fst snd] in *. unfold entity_says, entity_answer. cbn [fst snd].
  destruct (status_ok st) eqn:Es.
  - left. exists e. rewrite column_list_eq. split; [by apply Hok | done].
  - right. destruct (IsNotFound st) eqn:En; [left; split; [by apply Hnf | done] |]. right.
    destruct (IsCorruption st); eexists _, st; (split; [done |]); [by left | by right].
Qed.

Lemma seen_some (s : dbs) d c f :
  call_sees (snap s) d c ->
  exists m, seen (snap s) d (view s d) (read_struct (call_reads c)) f = Some m /\
    read_map_of snap view s d (read_struct (call_reads c)) f = Some m.
Proof.
  unfold call_sees, seen, read_map_of. intros H.
  destruct (sget "snapshot" _) as [[| | | | | |[] i| | | | |]|]; try by eexists.
  destruct H as [m ->]. rewrite decide_True by done. by eexists.
Qed.

Lemma dcall_refines fam d c s :
  call_usable (d_heap s) d c = true -> call_sees (snap (d_store s)) d c ->
  family (d_store s) d (handle_of (call_cf c)) = Some (fam (call_cf c)) ->
  exists s' r, run_dcall d c s = Ok (s', r) /\ d_heap s' = d_heap s /\
    snap (d_store s') = snap (d_store s) /\ family (d_store s') d = family (d_store s) d /\
    allowed fam (snap (d_store s)) d (view (d_store s) d) c (view (d_store s') d) r.
Proof.
  intros Hu Hs Hf. pose proof Hu as Hu'. unfold call_usable in Hu'. rewrite !andb_true_iff in Hu'.
  destruct Hu' as [_ Hp]. destruct (seen_some (d_store s) d c (fam (call_cf c)) Hs) as (m & Hm & Hm').
  destruct c as [cf k o|cf ks o|cf k o|cf u o]; cbn [call_cf call_reads] in *.
  - rewrite get_step by done. eexists _, _. split_and!; try done. split; [done |]. exists m. eexists. split_and!; try done.
    apply get_answer_says. by apply get_view.
  - pose proof (multi_get_view _ d _ _ _ m ks Hf Hp Hm') as Hall.
    rewrite multi_get_step by (try done; by rewrite (Forall2_length _ _ _ Hall)).
    eexists _, _. split_and!; try done. split; [done |]. exists m. eexists. split_and!; try done.
    apply Forall2_fmap_r. eapply Forall2_impl; [exact Hall |]. intros k r. apply get_answer_says.
  - rewrite get_entity_step by done. eexists _, _. split_and!; try done. split; [done |]. exists m. eexists.
    split_and!; try done. apply entity_answer_says. by apply (entity_view _ d _ _ _ m k Hf Hp Hm').
  - pose proof (dwrite_step d cf u o s Hu) as Hw.
    pose proof (update_frame (d_store s) d (options_used cf u o) (handle_of cf) u d) as [Hfam Hsnap].
    pose proof (update_view (d_store s) d (options_used cf u o) (handle_of cf) u _ Hf) as Hv.
    destruct (lib_update _ _ _ _ _) as [st status]. cbn [fst snd] in *. rewrite Hw.
    eexists _, _. split_and!; try done. cbn [allowed d_store]. unfold status_term.
    destruct (status_ok status) eqn:Es; [left | right; by exists status].
    destruct (Hv eq_refl) as [He Ho]. split_and!; [done | done |].
    intros f Hne. apply Ho. congruence.
Qed.

(** A call changes the databases by at most one update. *)
Lemma dcall_store (f : Z) d c s s' r :
  call_usable (d_heap s) d c = true -> call_sees (snap (d_store s)) d c ->
  family (d_store s) d (handle_of (call_cf c)) = Some f -> run_dcall d c s = Ok (s', r) ->
  d_store s' = d_store s \/ exists o c' u, d_store s' = (lib_update (d_store s) d o c' u).1.
Proof.
  intros Hu Hsee Hf H. destruct c as [cf k o|cf ks o|cf k o|cf u o].
  - rewrite get_step in H by done. simplify_eq. by left.
  - cbn [call_cf] in Hf. destruct (seen_some (d_store s) d _ f Hsee) as (m & _ & Hm).
    unfold call_usable in Hu. pose proof Hu as Hu'. rewrite !andb_true_iff in Hu'. destruct Hu' as [_ Hp].
    pose proof (multi_get_view _ d _ _ f m ks Hf Hp Hm) as Hall.
    rewrite multi_get_step in H by (try done; by rewrite (Forall2_length _ _ _ Hall)). simplify_eq. by left.
  - rewrite get_entity_step in H by done. simplify_eq. by left.
  - right. exists (options_used cf u o), (handle_of cf), u.
    pose proof (dwrite_step d cf u o s Hu) as Hw.
    destruct (lib_update _ _ _ _ _) as [st status]. rewrite Hw in H. by simplify_eq.
Qed.

Lemma dcalls_refine fam d l s :
  Forall (fun c => call_usable (d_heap s) d c = true /\ call_sees (snap (d_store s)) d c /\
                   family (d_store s) d (handle_of (call_cf c)) = Some (fam (call_cf c))) l ->
  exists s' rs, run_dcalls d l s = Ok (s', rs) /\ d_heap s' = d_heap s /\
    snap (d_store s') = snap (d_store s) /\ family (d_store s') d = family (d_store s) d /\
    allowed_run fam (snap (d_store s)) d (view (d_store s) d) l (view (d_store s') d) rs.
Proof.
  revert s. induction l as [|c l IH]; intros s Hl; cbn [run_dcalls].
  - eexists _, _. split_and!; try done. constructor.
  - apply Forall_cons in Hl as [(Hu & Hs & Hf) Hl].
    destruct (dcall_refines fam d c s Hu Hs Hf) as (s1 & r & -> & Hh & Hsn & Hfa & Ha). cbn [obind].
    destruct (IH s1) as (s2 & rs & -> & Hh2 & Hsn2 & Hfa2 & Hr).
    { eapply Forall_impl; [exact Hl |]. intros c'. by rewrite Hh, Hsn, Hfa. }
    cbn [obind]. eexists _, _. split_and!; try done; try congruence.
    econstructor; [exact Ha |]. by rewrite <- Hsn.
Qed.

(** ** Consequences *)

(** The keys an update may change. *)
Definition touches (lt : bytes -> bytes -> bool) (u : update) (k : bytes) : bool :=
  match u with
  | UPut k' _ | UMerge k' _ | UDelete k' | USingleDelete k' | UPutEntity k' _ => bool_decide (k' = k)
  | UDeleteRange b e => in_range lt b e k
  end.

Lemma effect_untouched lt u m m' k :
  effect lt u m m' -> touches lt u k = false -> m' !! k = m !! k.
Proof.
  destruct u as [k' v|k' v|k'|k'|b e|k' c]; cbn [effect touches]; rewrite ?bool_decide_eq_false;
    intros He Hk.
  - subst. by rewrite lookup_insert_ne.
  - subst. by rewrite lookup_insert_ne.
  - subst. by rewrite lookup_delete_ne.
  - rewrite <- (lookup_delete_ne m k' k), <- He by done. by rewrite lookup_delete_ne.
  - subst. destruct (m !! k) eqn:E.
    + by apply map_lookup_filter_Some.
    + apply map_lookup_filter_None. by left.
  - destruct He as (c' & _ & _ & ->). by rewrite lookup_insert_ne.
Qed.

(** Calls that keep a key of a family, and whose writes are answered with ok. *)
Definition keeps_key (fam : option nat -> Z) (d : nat) (f : Z) (k : bytes) (c : dcall) (r : reply) : Prop :=
  match c with
  | DWrite cf u _ => r = Reply ATOM_OK /\ (fam cf = f -> touches (key_lt d f) u k = false)
  | _ => True
  end.

Lemma error_tuple_not_ok a st : error_tuple a st <> ATOM_OK.
Proof. unfold error_tuple. by destruct (IsIncomplete st). Qed.

Lemma allowed_keeps fam snaps d V c V' r f k :
  allowed fam snaps d V c V' r -> keeps_key fam d f k c r -> V' f !! k = V f !! k.
Proof.
  destruct c as [cf k' o|cf ks o|cf k' o|cf u o]; cbn [allowed keeps_key]; try by intros [-> _].
  intros [(_ & He & Hf) | (st & _ & ->)] [Hr Hk].
  - destruct (decide (fam cf = f)) as [<- | Hne]; [| by rewrite Hf by done].
    by eapply effect_untouched; [exact He | apply Hk].
  - injection Hr as Hr. by apply error_tuple_not_ok in Hr.
Qed.

Lemma allowed_run_keeps fam snaps d V l V' rs f k :
  allowed_run fam snaps d V l V' rs -> Forall2 (keeps_key fam d f k) l rs -> V' f !! k = V f !! k.
Proof.
  induction 1 as [V|V c V1 r l V2 rs Ha Hr IH]; intros Hk; [done |].
  apply Forall2_cons in Hk as [Hc Hk]. rewrite IH by done. by eapply allowed_keeps.
Qed.

Lemma allowed_run_app fam snaps d V l1 l2 V' rs :
  allowed_run fam snaps d V (l1 ++ l2) V' rs ->
  exists V1 rs1 rs2, rs = rs1 ++ rs2 /\ length rs1 = length l1 /\
    allowed_run fam snaps d V l1 V1 rs1 /\ allowed_run fam snaps d V1 l2 V' rs2.
Proof.
  revert V rs. induction l1 as [|c l1 IH]; intros V rs H; cbn [app] in H.
  - exists V, [], rs. split_and!; try done. constructor.
  - inversion H as [|? ? V1 r ? ? rs' Ha Hr]; subst.
    destruct (IH _ _ Hr) as (V2 & rs1 & rs2 & -> & Hlen & H1 & H2).
    exists V2, (r :: rs1), rs2. split_and!; try done; [cbn; lia |]. by econstructor.
Qed.

(** The successful write at the head of a run. *)
Lemma allowed_write_ok fam snaps d V cf u o V' :
  allowed fam snaps d V (DWrite cf u o) V' (Reply ATOM_OK) ->
  effect (key_lt d (fam cf)) u (V (fam cf)) (V' (fam cf)).
Proof.
  intros [(_ & He & _) | (st & _ & H)]; [done |]. injection H as H. by apply eq_sym, error_tuple_not_ok in H.
Qed.

Lemma seen_current snaps d V f : seen snaps d V (read_struct []) f = Some (V f).
Proof. done. Qed.

(** A run that starts with a successful write, keeps its key, and reads it. *)
Lemma write_then_read fam snaps d V cf u o l V' rs r c k :
  allowed_run fam snaps d V (DWrite cf u o :: l ++ [c]) V' (Reply ATOM_OK :: rs ++ [r]) ->
  Forall2 (keeps_key fam d (fam cf) k) l rs ->
  exists V1 V2, effect (key_lt d (fam cf)) u (V (fam cf)) (V1 (fam cf)) /\
    V2 (fam cf) !! k = V1 (fam cf) !! k /\ allowed fam snaps d V2 c V' r.
Proof.
  intros H Hk. inversion H as [|? ? V1 ? ? ? ? Hw Hrun]; subst.
  apply allowed_run_app in Hrun as (V2 & rs1 & rs2 & Hrs & Hlen & H1 & H2).
  pose proof (Forall2_length _ _ _ Hk) as Hl.
  assert (rs1 = rs /\ rs2 = [r]) as [-> ->] by (apply app_inj_1 in Hrs; [naive_solver | lia]).
  inversion H2 as [|? ? V3 ? ? ? ? Hc Hend]; subst. inversion Hend; subst.
  exists V1, V2. split_and!; [by eapply allowed_write_ok | by eapply allowed_run_keeps | done].
Qed.

(** *** Counters *)

(** The full merge RocksDB does for a family with the counter operator. *)
Definition counter_merge (base : option bytes) (ops : list bytes) : option bytes :=
  match CounterFullMergeV2 base ops [] with Ok r => r | Undef => None end.

(** The base value and the operands of a key. *)
Definition base_of (e : option entry) : option columns := e ≫= e_base.
Definition pending (e : option entry) : list bytes := match e with Some e => e_operands e | None => [] end.

Lemma add_operand_eq v e :
  add_operand v e = {| e_base := base_of e; e_operands := pending e ++ [v] |}.
Proof. by destruct e. Qed.

(** Merges that are answered ok add their operands. *)
Lemma merges_accumulate fam snaps d V cf k vs o V' :
  allowed_run fam snaps d V ((fun v => DWrite cf (UMerge k v) o) <$> vs) V'
    (replicate (length vs) (Reply ATOM_OK)) ->
  vs <> [] ->
  V' (fam cf) !! k = Some {| e_base := base_of (V (fam cf) !! k); e_operands := pending (V (fam cf) !! k) ++ vs |}.
Proof.
  revert V. induction vs as [|v vs IH]; intros V H Hne; [done |]. cbn [fmap list_fmap length replicate] in *.
  inversion H as [|? ? V1 ? ? ? ? Hw Hrun]; subst. apply allowed_write_ok in Hw. cbn [effect] in Hw.
  rewrite add_operand_eq in Hw. destruct vs as [|v' vs].
  - inversion Hrun; subst. by rewrite Hw, lookup_insert_eq.
  - rewrite (IH _ Hrun) by done. rewrite Hw, lookup_insert_eq. cbn. by rewrite <- app_assoc.
Qed.

(** ** Properties *)

(** C8.  Refinement: any sequence of gets, multi-gets, entity reads and writes on a
    database, through usable handles and snapshots, runs without undefined
    behaviour, leaves the handles with all their reference counts as they were, and
    answers as the maps of the column families do: a read gives the value of the
    key in the map it sees (the current one or that of its snapshot), not_found if
    there is none, or an error; a write answered with ok has exactly its effect. *)
Theorem db_refines (fam : option nat -> Z) (d : nat) (l : list dcall) (s : dsys) :
  Forall (fun c => call_usable (d_heap s) d c = true /\ call_sees (snap (d_store s)) d c /\
                   family (d_store s) d (handle_of (call_cf c)) = Some (fam (call_cf c))) l ->
  exists s' rs, run_dcalls d l s = Ok (s', rs) /\ d_heap s' = d_heap s /\
    snap (d_store s') = snap (d_store s) /\
    allowed_run fam (snap (d_store s)) d (view (d_store s) d) l (view (d_store s') d) rs.
Proof.
  intros Hl. destruct (dcalls_refine fam d l s Hl) as (s' & rs & ? & ? & ? & _ & ?).
  by exists s', rs.
Qed.

(** The calls of a run are usable, and the handles belong to the database. *)
Definition runs (fam : option nat -> Z) (d : nat) (s : dsys) (l : list dcall) : Prop :=
  Forall (fun c => call_usable (d_heap s) d c = true /\ call_sees (snap (d_store s)) d c /\
                   family (d_store s) d (handle_of (call_cf c)) = Some (fam (call_cf c))) l.

Lemma runs_allowed fam d s l s' rs :
  runs fam d s l -> run_dcalls d l s = Ok (s', rs) ->
  allowed_run fam (snap (d_store s)) d (view (d_store s) d) l (view (d_store s') d) rs.
Proof.
  intros Hl Hrun. destruct (dcalls_refine fam d l s Hl) as (s1 & rs1 & Hr & _ & _ & _ & Ha).
  rewrite Hr in Hrun. by simplify_eq.
Qed.

(** C25.  Round trips: after a put answered with ok and any calls that do not write
    the key again (and whose writes are answered with ok), a get answers the value
    or an error; a put_entity gives back its columns, sorted by name; after a
    delete the key is not found. *)
Theorem write_read_roundtrip (fam : option nat -> Z) (d : nat) (s s' : dsys) (cf : option nat)
    (k : bytes) (o : term) (l : list dcall) (rs : list reply) (r : reply) :
  Forall2 (keeps_key fam d (fam cf) k) l rs ->
  (forall v, runs fam d s (DWrite cf (UPut k v) o :: l ++ [DGet cf k []]) ->
     run_dcalls d (DWrite cf (UPut k v) o :: l ++ [DGet cf k []]) s =
       Ok (s', Reply ATOM_OK :: rs ++ [r]) ->
     r = Reply (Ttuple [ATOM_OK; Tbin v]) \/ exists t, r = Reply t /\ read_error t) /\
  (forall c, runs fam d s (DWrite cf (UPutEntity k c) o :: l ++ [DGetEntity cf k []]) ->
     run_dcalls d (DWrite cf (UPutEntity k c) o :: l ++ [DGetEntity cf k []]) s =
       Ok (s', Reply ATOM_OK :: rs ++ [r]) ->
     (exists c', c' ≡ₚ c /\ StronglySorted bytes_lt c'.*1 /\
        r = Reply (Ttuple [ATOM_OK; make_list (column_term <$> c')])) \/
     exists t, r = Reply t /\ read_error t) /\
  (runs fam d s (DWrite cf (UDelete k) o :: l ++ [DGet cf k []]) ->
   run_dcalls d (DWrite cf (UDelete k) o :: l ++ [DGet cf k []]) s =
     Ok (s', Reply ATOM_OK :: rs ++ [r]) ->
   r = Reply ATOM_NOT_FOUND \/ exists t, r = Reply t /\ read_error t).
Proof.
  intros Hk. split_and!; [intros v Hl Hrun | intros c Hl Hrun | intros Hl Hrun];
    apply (runs_allowed _ _ _ _ _ _ Hl) in Hrun;
    destruct (write_then_read _ _ _ _ _ _ _ _ _ _ _ _ _ Hrun Hk) as (V1 & V2 & He & Hkeep & Ha);
    cbn [effect] in He; cbn [allowed] in Ha; destruct Ha as (_ & m & t & Hm & -> & Hsays);
    rewrite seen_current in Hm; injection Hm as <-.
  - assert (Hv : V2 (fam cf) !! k = Some (plain_entry (plain v)))
      by (by rewrite Hkeep, He, lookup_insert_eq).
    destruct Hsays as [(e & Hr & ->) | [[Hn _] | Herr]]; [left | congruence | right; by eexists].
    unfold resolved in Hr. rewrite Hv in Hr. cbn in Hr. by simplify_eq.
  - destruct He as (c' & Hp & Hs & He).
    assert (Hv : V2 (fam cf) !! k = Some (plain_entry c')) by (by rewrite Hkeep, He, lookup_insert_eq).
    destruct Hsays as [(e & Hr & ->) | [[Hn _] | Herr]]; [left | congruence | right; by eexists].
    unfold resolved in Hr. rewrite Hv in Hr. cbn in Hr. simplify_eq. by exists e.
  - assert (Hv : V2 (fam cf) !! k = None) by (by rewrite Hkeep, He, lookup_delete_eq).
    destruct Hsays as [(e & Hr & ->) | [[_ ->] | Herr]]; [| by left | right; by eexists].
    unfold resolved in Hr. by rewrite Hv in Hr.
Qed.

(** C24.  Snapshot isolation: a get through a snapshot, after any sequence of calls
    on the database, answers from the map the column family had when the snapshot
    was taken. *)
Theorem snapshot_isolation (fam : option nat -> Z) (d i : nat) (s s1 s2 : dsys) (l : list dcall)
    (rs : list reply) (r : reply) (cf : option nat) (k : bytes) :
  usable (d_heap s) KDb d = true ->
  TakeSnapshot [Tres RDb d] s = Ok (s1, Reply (Ttuple [ATOM_OK; Tres RSnapshot i])) ->
  runs fam d s1 (l ++ [DGet cf k [Ttuple [Tatom "snapshot"; Tres RSnapshot i]]]) ->
  run_dcalls d (l ++ [DGet cf k [Ttuple [Tatom "snapshot"; Tres RSnapshot i]]]) s1 =
    Ok (s2, rs ++ [r]) ->
  length rs = length l ->
  exists t, r = Reply t /\
    get_says (full_merge d (fam cf)) (view (d_store s) d (fam cf)) k t.
Proof.
  intros Hu Hsnap Hl Hrun Hlen.
  apply (runs_allowed _ _ _ _ _ _ Hl) in Hrun.
  apply allowed_run_app in Hrun as (V1 & rs1 & rs2 & Hrs & Hlen1 & _ & H2).
  assert (rs1 = rs /\ rs2 = [r]) as [-> ->] by (apply app_inj_1 in Hrs; [naive_solver | lia]).
  inversion H2 as [|? ? V3 ? ? ? ? Ha Hend]; subst. destruct Ha as (_ & m & t & Hm & -> & Hsays).
  exists t. split; [done |].
  enough (Hs : snap (d_store s1) i = Some (d, view (d_store s) d)).
  { unfold seen in Hm.
    assert (Hsg : sget "snapshot" (read_struct [Ttuple [Tatom "snapshot"; Tres RSnapshot i]]) =
                  Some (VHandle RSnapshot i)) by done.
    rewrite Hsg in Hm. cbv iota beta in Hm. rewrite Hs, decide_True in Hm by done. by injection Hm as <-. }
  unfold TakeSnapshot, on_db in Hsnap. cbn [elem lookup list_lookup obind] in Hsnap.
  destruct (usable_pinned _ KDb d ltac:(done) Hu) as (o & _ & Hget & _).
  unfold with_ref in Hsnap. change (Tres RDb d) with (Tres (res_kind_of KDb) d) in Hsnap.
  rewrite Hget in Hsnap. cbn [obind] in Hsnap.
  destruct (CreateSnapshotObject _ d) as [[h1 id]|]; [| done]. cbn [obind d_heap] in Hsnap.
  destruct (release h1 (Some d)) as [h3|]; [| done]. cbn [obind] in Hsnap.
  injection Hsnap as <- <-. cbn [d_store set_heap].
  by destruct (snapshot_frame (d_store s) d id) as (_ & _ & ? & _).
Qed.


End Refinement.

(** ** Options that are not applied *)

Section Ignored.
Context `{L : DbLib}.

Lemma closed_snapshot_stops h i so o rest :
  h !! i = Some so -> m_CloseRequested so <> 0 ->
  fold parse_read_option (make_list (Ttuple [Tatom "snapshot"; Tres RSnapshot i] :: rest)) (h, o) =
    Ok ((h, o), ATOM_BADARG).
Proof.
  intros Hi Hc. unfold fold. rewrite list_cells_make_list. cbn [fold_cells].
  unfold parse_read_option. cbn [enif_get_tuple].
  change (is_atom "snapshot" (Tatom "snapshot")) with true. cbv iota.
  unfold parse_snapshot, RetrieveSnapshotObject, Retrieve. cbn [enif_get_resource res_kind_of].
  rewrite decide_True by done. unfold deref. rewrite Hi. cbn [obind].
  rewrite (proj2 (Z.eqb_neq _ _)) by done. cbn [negb obind].
  unfold assign. by rewrite decide_True.
Qed.

(** A snapshot handle that was released is not an error of a read: the option
    and those after it are dropped, and the read answers from the current data. *)
Theorem closed_snapshot_reads_current (s : dsys) (d i : nat) (so : obj) (key : bytes)
    (rest : list term) :
  usable (d_heap s) KDb d = true -> d_heap s !! i = Some so -> m_CloseRequested so <> 0 ->
  run_dcall d (DGet None key (Ttuple [Tatom "snapshot"; Tres RSnapshot i] :: rest)) s =
  run_dcall d (DGet None key []) s.
Proof.
  intros Hu Hi Hc. cbn [run_dcall cf_args app].
  assert (Hne : i <> d).
  { intros ->. apply usable_obj in Hu as (o & Ho & _ & ? & _). congruence. }
  unfold Get, on_db. cbn [elem lookup list_lookup obind length Nat.eqb].
  destruct (usable_pinned _ KDb d ltac:(done) Hu) as (o & Ho & Hget & _ & _).
  unfold with_ref. change (Tres RDb d) with (Tres (res_kind_of KDb) d). rewrite Hget. cbn [obind].
  unfold with_binary. cbn [elem lookup list_lookup obind enif_inspect_binary].
  unfold with_read_options. cbn [d_heap set_heap].
  rewrite (closed_snapshot_stops _ i so) by (try done; unfold pinned; by rewrite lookup_insert_ne).
  done.
Qed.

(** The write options of [merge/5], [delete/4] and [single_delete/4], the forms
    with a column family, are never read: whatever they are, the update is made with
    the defaults (no sync, the log enabled).  [put/5], [delete_range/5] and the forms
    without a column family use theirs. *)
Theorem cf_write_options_ignored (s : dsys) (d c : nat) (o : term) :
  usable (d_heap s) KDb d = true -> usable (d_heap s) KColumnFamily c = true ->
  forall u, let opts := match u with
                        | UMerge _ _ | UDelete _ | USingleDelete _ => default_WriteOptions
                        | _ => fold_write_options o
                        end in
  let '(st, status) := lib_update (d_store s) d opts (CfHandle c) u in
  run_dcall d (DWrite (Some c) u o) s =
    Ok ({| d_heap := d_heap s; d_store := st |}, Reply (status_term status)).
Proof.
  intros Hd Hc u. apply (dwrite_step d (Some c) u o s).
  unfold call_usable. cbn [call_cf call_reads forallb]. by rewrite Hd, Hc.
Qed.

(** [compact_range] with both bounds undefined asks for the range from the
    empty key to the empty key, as if the bounds were empty binaries, and not for
    the whole database. *)
Theorem compact_range_undefined_bounds (s : dsys) (d : nat) (o : term) :
  usable (d_heap s) KDb d = true ->
  CompactRange [Tres RDb d; Tatom "undefined"; Tatom "undefined"; o] s =
    CompactRange [Tres RDb d; Tbin []; Tbin []; o] s /\
  exists opts, (let '(st, status) := lib_admin (d_store s) d (ACompactRange opts DefaultCf (Some []) (Some [])) in
    CompactRange [Tres RDb d; Tatom "undefined"; Tatom "undefined"; o] s =
      Ok ({| d_heap := d_heap s; d_store := st |}, Reply (status_term status))).
Proof.
  intros Hd. split; [done |].
  assert (Ho : exists opts r, fold parse_compact_range_option o [] = Ok (opts, r)).
  { pose proof (fold_cells_defined parse_compact_range_option (list_cells o) []) as H.
    unfold fold. destruct (fold_cells _ _ _) as [[opts r]|]; [by exists opts, r |]. exfalso. apply H; [| done].
    apply table_defined. unfold compact_range_table. simple_actions. }
  destruct Ho as (opts & r & Ho). exists opts.
  destruct (lib_admin _ _ _) as [st status] eqn:E.
  unfold CompactRange. apply on_db_ok; [done |]. intros h1 _.
  cbn [length Nat.eqb on_family elem lookup list_lookup obind].
  change (range_bound (Tatom "undefined")) with (Some (Some (@nil Byte.byte))). cbv iota.
  rewrite Ho. cbn [obind use_cf]. unfold admin_call. cbn [d_store set_heap]. by rewrite E.
Qed.

(** [get_approximate_sizes/4], the form with a column family, never answers: the
    code expects five arguments for it, so it takes the list of ranges for the flag
    and raises badarg. *)
Theorem sizes_of_family_badarg (s : dsys) (d : nat) (cf ranges flags : term) :
  usable (d_heap s) KDb d = true -> enif_is_list ranges = true ->
  GetApproximateSizes [Tres RDb d; cf; ranges; flags] s = Ok (s, Badarg).
Proof.
  intros Hd Hr. unfold GetApproximateSizes. apply on_db_read; [done |]. intros h1 _.
  cbn [length Nat.eqb on_family elem lookup list_lookup obind].
  destruct (find_atom ranges size_flags) eqn:E; [| done].
  apply find_atom_Some in E as (k & -> & _). done.
Qed.

(** [get_column_family_metadata] lists the blob files in the reverse of the order
    RocksDB reports. *)
Lemma blob_files_reversed (l : list BlobMetaData) :
  blob_files_list l = make_list (blob_map <$> rev l).
Proof.
  unfold blob_files_list, enif_make_reverse_list. f_equal.
  assert (Hc : forall acc, list_cells (fold_left (fun acc b => Tcons (blob_map b) acc) (rev l) acc) =
                 (blob_map <$> l) ++ list_cells acc).
  { induction l as [|b l IH]; intros acc; [done |]. cbn [rev]. rewrite fold_left_app. cbn [fold_left list_cells].
    by rewrite IH. }
  rewrite Hc, app_nil_r. by rewrite <- map_rev.
Qed.

End Ignored.

(** ** Witnesses *)

Module DbWitness.

(** Databases whose families merge with the counter operator. *)
#[local] Instance the_lib : DbLib := MapDb.map_lib (fun _ => counter_merge).
#[local] Instance the_laws : DbLaws the_lib := MapDb.map_laws (fun _ => counter_merge).

(** Database 0 with column family 1 and a released snapshot 2. *)
Definition the_heap : heap :=
  <[2%nat := set_close 3 (new_obj KSnapshot (Some 0%nat))]>
    (<[1%nat := set_refs 1 (new_obj KColumnFamily (Some 0%nat))]>
      {[0%nat := set_refs 2 (set_list KColumnFamily [1%nat] (new_obj KDb None))]}).

Definition the_dsys : dsys :=
  {| d_heap := the_heap; d_store := ({| MapDb.maps := fun _ _ => ∅; MapDb.snaps := ∅ |} : dbs) |}.

Definition the_fam (cf : option nat) : Z := match cf with Some c => Z.of_nat c | None => 0 end.

Definition ka : bytes := [Byte.x61].
Definition kb : bytes := [Byte.x62].
Definition cf1 : option nat := Some 1%nat.

(** A call without a snapshot through the handles of the witness. *)
Lemma the_call (s : dsys) c :
  call_usable (d_heap s) 0 c = true -> call_reads c = [] -> call_cf c ∈ [cf1; None] ->
  call_usable (d_heap s) 0 c = true /\ call_sees (snap (d_store s)) 0 c /\
  family (d_store s) 0 (handle_of (call_cf c)) = Some (the_fam (call_cf c)).
Proof.
  intros Hu Hr Hc. split; [done |]. unfold call_sees. rewrite Hr. split; [done |].
  rewrite list_elem_of_In in Hc. destruct Hc as [<- | [<- | []]]; done.
Qed.

Ltac the_calls :=
  repeat (apply Forall_cons; split;
    [apply the_call; [vm_compute; reflexivity | reflexivity | rewrite list_elem_of_In; cbn; tauto] |]);
  apply Forall_nil; exact I.

(** The replies of a run; evaluating them leaves the state alone. *)
Definition replies (l : list dcall) (s : dsys) : list reply :=
  match run_dcalls 0 l s with Ok (_, rs) => rs | Undef => [] end.

Lemma run_replies l s rs :
  replies l s = rs -> rs <> [] -> exists s', run_dcalls 0 l s = Ok (s', rs).
Proof. unfold replies. intros <- Hne. destruct (run_dcalls 0 l s) as [[s' rs]|]; [by exists s' | done]. Defined.

Definition script : list dcall :=
  [DWrite cf1 (UPut ka kb) Tnil; DGet cf1 ka []; DMultiGet None [ka; kb] [];
   DWrite cf1 (UDeleteRange ka kb) Tnil].

Lemma db_refines_witness :
  exists s' rs, run_dcalls 0 script the_dsys = Ok (s', rs) /\ d_heap s' = the_heap /\
    snap (d_store s') = snap (d_store the_dsys) /\
    allowed_run the_fam (snap (d_store the_dsys)) 0 (view (d_store the_dsys) 0) script
      (view (d_store s') 0) rs.
Proof. apply (db_refines the_fam 0 script the_dsys). the_calls. Defined.

Lemma write_read_roundtrip_witness :
  Reply (Ttuple [ATOM_OK; Tbin kb]) = Reply (Ttuple [ATOM_OK; Tbin kb]) \/
  exists t, Reply (Ttuple [ATOM_OK; Tbin kb]) = Reply t /\ read_error t.
Proof.
  destruct (run_replies (DWrite cf1 (UPut ka kb) Tnil :: [DGet None ka []] ++ [DGet cf1 ka []]) the_dsys
              (Reply ATOM_OK :: [Reply ATOM_NOT_FOUND] ++ [Reply (Ttuple [ATOM_OK; Tbin kb])])
              ltac:(vm_compute; reflexivity) ltac:(discriminate)) as [s' E].
  destruct (write_read_roundtrip the_fam 0 the_dsys s' cf1 ka Tnil [DGet None ka []]
           [Reply ATOM_NOT_FOUND] (Reply (Ttuple [ATOM_OK; Tbin kb]))) as (H & _).
  - apply Forall2_cons. split; [exact I | apply Forall2_nil; exact I].
  - apply (H kb); [the_calls | exact E].
Defined.


Lemma closed_snapshot_reads_current_witness :
  run_dcall 0 (DGet None ka [Ttuple [Tatom "snapshot"; Tres RSnapshot 2]]) the_dsys =
  run_dcall 0 (DGet None ka []) the_dsys.
Proof.
  apply (closed_snapshot_reads_current the_dsys 0 2 (set_close 3 (new_obj KSnapshot (Some 0%nat))) ka []);
    [vm_compute; reflexivity | reflexivity | discriminate].
Defined.

Definition sync_opts : term := make_list [Ttuple [Tatom "sync"; ATOM_TRUE]].

Lemma cf_write_options_ignored_witness :
  sync (fold_write_options sync_opts) = true /\
  let '(st, status) := lib_update (d_store the_dsys) 0 default_WriteOptions (CfHandle 1) (UDelete ka) in
  run_dcall 0 (DWrite cf1 (UDelete ka) sync_opts) the_dsys =
    Ok ({| d_heap := the_heap; d_store := st |}, Reply (status_term status)).
Proof.
  split; [reflexivity |].
  refine (cf_write_options_ignored the_dsys 0 1 sync_opts _ _ (UDelete ka));
    vm_compute; reflexivity.
Defined.

Lemma compact_range_undefined_bounds_witness :
  CompactRange [Tres RDb 0; Tatom "undefined"; Tatom "undefined"; Tnil] the_dsys =
    CompactRange [Tres RDb 0; Tbin []; Tbin []; Tnil] the_dsys.
Proof. apply (compact_range_undefined_bounds the_dsys 0 Tnil). vm_compute. reflexivity. Defined.

Lemma sizes_of_family_badarg_witness :
  GetApproximateSizes [Tres RDb 0; Tres RColumnFamily 1; make_list [column_term (ka, kb)]; Tatom "include_both"]
    the_dsys = Ok (the_dsys, Badarg).
Proof. apply sizes_of_family_badarg; [vm_compute; reflexivity | reflexivity]. Defined.

(** The state after a snapshot, whose object has id 3. *)
Definition after_snapshot : dsys :=
  match TakeSnapshot [Tres RDb 0] the_dsys with Ok (s, _) => s | Undef => the_dsys end.

Lemma take_snapshot : TakeSnapshot [Tres RDb 0] the_dsys =
  Ok (after_snapshot, Reply (Ttuple [ATOM_OK; Tres RSnapshot 3])).
Proof.
  assert (H : match TakeSnapshot [Tres RDb 0] the_dsys with Ok (_, r) => Some r | Undef => None end =
              Some (Reply (Ttuple [ATOM_OK; Tres RSnapshot 3]))) by (vm_compute; reflexivity).
  unfold after_snapshot. destruct (TakeSnapshot _ _) as [[s r]|]; [| discriminate H].
  injection H as ->. reflexivity.
Defined.

Definition snap_get : dcall := DGet cf1 ka [Ttuple [Tatom "snapshot"; Tres RSnapshot 3]].

Lemma snapshot_isolation_witness :
  exists t, Reply ATOM_NOT_FOUND = Reply t /\
    get_says (full_merge 0 (the_fam cf1)) (view (d_store the_dsys) 0 (the_fam cf1)) ka t.
Proof.
  destruct (run_replies ([DWrite cf1 (UPut ka kb) Tnil] ++ [snap_get]) after_snapshot
              ([Reply ATOM_OK] ++ [Reply ATOM_NOT_FOUND])
              ltac:(vm_compute; reflexivity) ltac:(discriminate)) as [s2 E].
  apply (snapshot_isolation the_fam 0 3 the_dsys after_snapshot s2 [DWrite cf1 (UPut ka kb) Tnil]
           [Reply ATOM_OK] (Reply ATOM_NOT_FOUND) cf1 ka).
  - vm_compute. reflexivity.
  - apply take_snapshot.
  - apply Forall_cons. split; [| apply Forall_cons; split; [| apply Forall_nil; exact I]].
    + apply the_call; [vm_compute; reflexivity | reflexivity | rewrite list_elem_of_In; cbn; tauto].
    + split; [vm_compute; reflexivity |]. split; [| reflexivity].
      exists (view (d_store the_dsys) 0). reflexivity.
  - exact E.
  - reflexivity.
Defined.
End DbWitness.
