(* ===== verification/DbOpen.v ===== *)
(** * Opening databases

    The functions of [c_src/erocksdb_db.cc] that open a database with its column
    families, destroy or repair one, create a column family with a time to live,
    read and set times to live, ingest files and report metadata.

    The state is the heap of handles, the flags [m_IsPessimistic] and [m_IsTTL] of
    the database objects with the class of the RocksDB object behind [m_Db], and the
    [m_ColumnFamily] of the column-family objects.  What RocksDB answers is a
    parameter: opening gives a status and the vector of handles it made. *)

From stdpp Require Import base list numbers strings gmap.
From Stdlib Require Import ZArith Lia.
From S2P Require Import Prelude Terms RefObjects RefInv RefSystem HandleNif WriteBatchLib CompactionFilter Options.

(** The class of the object that [m_Db] points to: the open function chose it, and
    the casts of [m_Db] to a class derived from [DB] rely on it. *)
Inductive db_class := PlainDB | DBWithTTL | OptimisticTransactionDB | TransactionDB.

Record db_flags := { m_IsPessimistic : bool; m_IsTTL : bool; db_is : db_class }.

(** A [ColumnFamilyHandle*] of RocksDB. *)
Definition cf_handle : Type := nat.

Record osys := { o_heap : heap; o_flags : gmap nat db_flags; o_families : gmap nat cf_handle }.

Definition with_oheap (s : osys) (h : heap) : osys :=
  {| o_heap := h; o_flags := o_flags s; o_families := o_families s |}.

(** May [m_Db] be used as an [OptimisticTransactionDB]? *)
Definition is_optimistic (flags : gmap nat db_flags) (d : nat) : bool :=
  match flags !! d with Some {| db_is := OptimisticTransactionDB |} => true | _ => false end.

Abbreviation descriptor := (bytes * struct)%type.

Section Open.

(** The library calls that fill option structs. *)
Context (increase_parallelism optimize_level_style : Z -> struct).

(** ** Pieces *)

(** [DbObject::CreateDbObject(Db, IsPessimistic, IsTTL)] with a [Db] of class [cls] *)
Definition create_db (cls : db_class) (pessimistic ttl : bool) (s : osys) : outcome (osys * nat) :=
  let! (h, d) := CreateDbObject (o_heap s) in
  Ok ({| o_heap := h;
         o_flags := <[d := {| m_IsPessimistic := pessimistic; m_IsTTL := ttl; db_is := cls |}]> (o_flags s);
         o_families := o_families s |}, d).

(** [ColumnFamilyObject::CreateColumnFamilyObject(Db, Handle)] *)
Definition create_family (d : nat) (handle : cf_handle) (s : osys) : outcome (osys * nat) :=
  let! (h, c) := CreateColumnFamilyObject (o_heap s) d in
  Ok ({| o_heap := h; o_flags := o_flags s; o_families := <[c := handle]> (o_families s) |}, c).

(** The loop over the descriptors: the vector, or what the function returns early. *)
Fixpoint collect_descriptors (l : list term) (acc : list descriptor) :
    outcome (reply + list descriptor) :=
  match l with
  | [] => Ok (inr acc)
  | item :: r =>
      let! res := parse_cf_descriptor optimize_level_style item in
      match res with
      | DPush name opts => collect_descriptors r (acc ++ [(name, opts)])
      | DSkip => collect_descriptors r acc
      | DRaise => Ok (inl Badarg)
      | DReturn t => Ok (inl (Reply t))
      end
  end.

(** [for (i = 0; i < num_cols; ++i) ... handles[i] ...]: one object for each handle;
    reading past the end of the vector is undefined. *)
Fixpoint create_families (n i : nat) (handles : list cf_handle) (d : nat) (s : osys) (acc : list nat) :
    outcome (osys * list nat) :=
  match n with
  | O => Ok (s, acc)
  | S n =>
      match handles !! i with
      | Some handle =>
          let! (s1, c) := create_family d handle s in
          create_families n (S i) handles d s1 (acc ++ [c])
      | None => Undef
      end
  end.

Definition cf_terms (l : list nat) : term := make_list (Tres RColumnFamily <$> l).

(** The end of the functions that open with column families. *)
Definition open_families (cls : db_class) (pessimistic : bool) (num_cols : nat)
    (handles : list cf_handle) (s : osys) : outcome (osys * reply) :=
  let! (s1, d) := create_db cls pessimistic false s in
  let! (s2, cfs) := create_families num_cols 0 handles d s1 [] in
  Ok (s2, Reply (Ttuple [ATOM_OK; Tres RDb d; cf_terms cfs])).

(** [num_cols] is not initialised: [enif_get_list_length] leaves it so for an
    improper list, and its result is not looked at. *)
Definition list_length_or_garbage (t : term) : outcome nat :=
  match enif_get_list_length t with Some n => Ok n | None => Undef end.

(** ** Opening *)

(** [Open]: [lib_open] is [DB::Open] or [DB::OpenForReadOnly]. *)
Definition Open (lib_open : bool -> struct -> struct -> bytes -> Status) (read_only : bool)
    (s : osys) (argv : list term) : outcome (osys * reply) :=
  let! t0 := elem argv 0 in
  let! t1 := elem argv 1 in
  match get_c_string 4096 t0, enif_is_list t1 with
  | Some db_name, true =>
      let! (db_opts, _) := fold (parse_db_option increase_parallelism) t1 [] in
      let! (cf_opts, _) := fold (parse_cf_option optimize_level_style) t1 [] in
      let status := lib_open read_only db_opts cf_opts db_name in
      if negb (status_ok status) then Ok (s, Reply (error_tuple ATOM_ERROR_DB_OPEN status))
      else
        let! (s1, d) := create_db PlainDB false false s in
        Ok (s1, Reply (Ttuple [ATOM_OK; Tres RDb d]))
  | _, _ => Ok (s, Badarg)
  end.

Definition OpenWithTTL (lib_open : bool -> Z -> struct -> struct -> bytes -> Status)
    (s : osys) (argv : list term) : outcome (osys * reply) :=
  let! t0 := elem argv 0 in
  let! t1 := elem argv 1 in
  let! t2 := elem argv 2 in
  let! t3 := elem argv 3 in
  match get_c_string 4096 t0, enif_is_list t1 && enif_is_number t2 && enif_is_atom t3, enif_get_int t2 with
  | Some db_name, true, Some ttl =>
      let! (db_opts, _) := fold (parse_db_option increase_parallelism) t1 [] in
      let! (cf_opts, _) := fold (parse_cf_option optimize_level_style) t1 [] in
      let status := lib_open (is_atom "true" t3) ttl db_opts cf_opts db_name in
      if negb (status_ok status) then Ok (s, Reply (error_tuple ATOM_ERROR_DB_OPEN status))
      else
        let! (s1, d) := create_db DBWithTTL false true s in
        Ok (s1, Reply (Ttuple [ATOM_OK; Tres RDb d]))
  | _, _, _ => Ok (s, Badarg)
  end.

(** [OpenWithCf] and [OpenOptimisticTransactionDB]: the number of handles they read
    is the length of the list of the third argument. *)
Definition open_with_cf (cls : db_class)
    (lib_open : struct -> list descriptor -> bytes -> Status * list cf_handle) (s : osys) (argv : list term) : outcome (osys * reply) :=
  let! t0 := elem argv 0 in
  let! t1 := elem argv 1 in
  let! t2 := elem argv 2 in
  match get_c_string 4096 t0, enif_is_list t1 && enif_is_list t2 with
  | Some db_name, true =>
      let! (db_opts, _) := fold (parse_db_option increase_parallelism) t1 [] in
      let! res := collect_descriptors (list_cells t2) [] in
      match res with
      | inl r => Ok (s, r)
      | inr column_families =>
          let '(status, handles) := lib_open db_opts column_families db_name in
          if negb (status_ok status) then Ok (s, Reply (error_tuple ATOM_ERROR_DB_OPEN status))
          else
            let! num_cols := list_length_or_garbage t2 in
            open_families cls false num_cols handles s
      end
  | _, _ => Ok (s, Badarg)
  end.

Definition OpenWithCf (lib_open : bool -> struct -> list descriptor -> bytes -> Status * list cf_handle)
    (read_only : bool) : osys -> list term -> outcome (osys * reply) :=
  open_with_cf PlainDB (lib_open read_only).

Definition OpenOptimisticTransactionDB
    (lib_open : struct -> list descriptor -> bytes -> Status * list cf_handle) :
    osys -> list term -> outcome (osys * reply) := open_with_cf OptimisticTransactionDB lib_open.

(** [rocksdb::kDefaultColumnFamilyName] *)
Definition default_name : bytes :=
  [Byte.x64; Byte.x65; Byte.x66; Byte.x61; Byte.x75; Byte.x6c; Byte.x74].

(** The number of handles read is the size of the vector of descriptors here. *)
Definition OpenPessimisticTransactionDB
    (lib_open : struct -> struct -> list descriptor -> bytes -> Status * list cf_handle)
    (s : osys) (argv : list term) : outcome (osys * reply) :=
  let! t0 := elem argv 0 in
  let! t1 := elem argv 1 in
  match get_c_string 4096 t0, enif_is_list t1 with
  | Some db_name, true =>
      let! (db_opts, _) := fold (parse_db_option increase_parallelism) t1 [] in
      let! (txn_opts, _) := fold parse_txn_db_option t1 [] in
      let! res :=
        if (length argv =? 3)%nat then
          let! t2 := elem argv 2 in
          if enif_is_list t2 then collect_descriptors (list_cells t2) [] else Ok (inl Badarg)
        else Ok (inr [(default_name, [])]) in
      match res with
      | inl r => Ok (s, r)
      | inr column_families =>
          let '(status, handles) := lib_open db_opts txn_opts column_families db_name in
          if negb (status_ok status) then Ok (s, Reply (error_tuple ATOM_ERROR_DB_OPEN status))
          else open_families TransactionDB true (length column_families) handles s
      end
  | _, _ => Ok (s, Badarg)
  end.

(** The descriptors of [OpenWithTTLCf]: triples with a time to live; the error of an
    option is not looked at. *)
Fixpoint collect_ttl (l : list term) (acc : list (descriptor * Z)) :
    outcome (option (list (descriptor * Z))) :=
  match l with
  | [] => Ok (Some acc)
  | item :: r =>
      match enif_get_tuple item with
      | Some [name; options; ttl] =>
          match get_c_string 4096 name with
          | None => Ok None
          | Some cf_name =>
              if negb (enif_is_list options) then Ok None
              else
                let! (opts, _) := fold (parse_cf_option optimize_level_style) options [] in
                match enif_get_int ttl with
                | None => Ok None
                | Some t => collect_ttl r (acc ++ [((cf_name, opts), t)])
                end
          end
      | _ => Ok None
      end
  end.

(** The objects are created from the last handle to the first, and each is put in
    front of the list; [rhandles] is the vector in reverse. *)
Fixpoint create_families_back (rhandles : list cf_handle) (d : nat) (s : osys) (acc : list nat) :
    outcome (osys * list nat) :=
  match rhandles with
  | [] => Ok (s, acc)
  | handle :: r => let! (s1, c) := create_family d handle s in create_families_back r d s1 (c :: acc)
  end.

Definition OpenWithTTLCf
    (lib_open : bool -> struct -> list (descriptor * Z) -> bytes -> Status * list cf_handle)
    (s : osys) (argv : list term) : outcome (osys * reply) :=
  let! t0 := elem argv 0 in
  let! t1 := elem argv 1 in
  let! t2 := elem argv 2 in
  let! t3 := elem argv 3 in
  match get_c_string 4096 t0, enif_is_list t1 && enif_is_list t2 && enif_is_atom t3 with
  | Some db_name, true =>
      let! (db_opts, _) := fold (parse_db_option increase_parallelism) t1 [] in
      let! res := collect_ttl (list_cells t2) [] in
      match res with
      | None => Ok (s, Badarg)
      | Some column_families =>
          let '(status, handles) := lib_open (is_atom "true" t3) db_opts column_families db_name in
          if negb (status_ok status) then Ok (s, Reply (error_tuple ATOM_ERROR_DB_OPEN status))
          else
            let! (s1, d) := create_db DBWithTTL false true s in
            let! (s2, cfs) := create_families_back (reverse handles) d s1 [] in
            Ok (s2, Reply (Ttuple [ATOM_OK; Tres RDb d; cf_terms cfs]))
      end
  | _, _ => Ok (s, Badarg)
  end.

(** ** Destroy and repair *)

Definition on_files (error : term) (lib_call : struct -> struct -> bytes -> Status)
    (argv : list term) : outcome reply :=
  let! t0 := elem argv 0 in
  let! t1 := elem argv 1 in
  match get_c_string 4096 t0, enif_is_list t1 with
  | Some name, true =>
      let! (db_opts, _) := fold (parse_db_option increase_parallelism) t1 [] in
      let! (cf_opts, _) := fold (parse_cf_option optimize_level_style) t1 [] in
      let status := lib_call db_opts cf_opts name in
      Ok (Reply (if status_ok status then ATOM_OK else error_tuple error status))
  | _, _ => Ok Badarg
  end.

Definition Destroy := on_files ATOM_ERROR_DB_DESTROY.
Definition Repair := on_files ATOM_ERROR_DB_REPAIR.

(** ** Times to live

    These functions use the objects without taking a reference. *)

Definition not_a_ttl_database : term := error_tuple_msg ATOM_ERROR "not a TTL database".

Definition on_ttl_db (s : osys) (argv : list term) (body : nat -> outcome (osys * reply)) :
    outcome (osys * reply) :=
  let! t := elem argv 0 in
  let! p := RetrieveDbObject (o_heap s) t in
  match p with
  | None => Ok (s, Badarg)
  | Some d =>
      match o_flags s !! d with
      | None => Undef
      | Some fl => if negb (m_IsTTL fl) then Ok (s, Reply not_a_ttl_database) else body d
      end
  end.

(** The handles of both objects are dereferenced. *)
Definition native (h : heap) (id : nat) : outcome unit :=
  let! o := deref h id in if m_Native o then Ok tt else Undef.

(** [answer]: the status and the time to live the library reports. *)
Definition GetTtl (answer : Status * Z) (s : osys) (argv : list term) : outcome (osys * reply) :=
  on_ttl_db s argv (fun d =>
    let! t1 := elem argv 1 in
    let! p := RetrieveColumnFamilyObject (o_heap s) t1 in
    match p with
    | None => Ok (s, Badarg)
    | Some c =>
        let! _ := native (o_heap s) d in
        let! _ := native (o_heap s) c in
        Ok (s, Reply (if status_ok answer.1 then Ttuple [ATOM_OK; Tint answer.2]
                      else error_tuple ATOM_ERROR answer.1))
    end).

Definition SetTtl (s : osys) (argv : list term) : outcome (osys * reply) :=
  on_ttl_db s argv (fun d =>
    let! _ := native (o_heap s) d in
    if (length argv =? 2)%nat then
      let! t1 := elem argv 1 in
      Ok (s, match enif_get_int t1 with Some _ => Reply ATOM_OK | None => Badarg end)
    else
      let! t1 := elem argv 1 in
      let! p := RetrieveColumnFamilyObject (o_heap s) t1 in
      match p with
      | None => Ok (s, Badarg)
      | Some c =>
          let! t2 := elem argv 2 in
          match enif_get_int t2 with
          | None => Ok (s, Badarg)
          | Some _ => let! _ := native (o_heap s) c in Ok (s, Reply ATOM_OK)
          end
      end).

Definition CreateColumnFamilyWithTtl (lib_create : struct -> bytes -> Z -> Status * cf_handle)
    (s : osys) (argv : list term) : outcome (osys * reply) :=
  on_ttl_db s argv (fun d =>
    let! t1 := elem argv 1 in
    let! t2 := elem argv 2 in
    let! t3 := elem argv 3 in
    match get_c_string 4096 t1, enif_is_list t2, enif_get_int t3 with
    | Some name, true, Some ttl =>
        let! (opts, _) := fold (parse_cf_option optimize_level_style) t2 [] in
        let! _ := native (o_heap s) d in
        let '(status, handle) := lib_create opts name ttl in
        if negb (status_ok status) then Ok (s, Reply (error_tuple ATOM_ERROR status))
        else
          let! (s1, c) := create_family d handle s in
          Ok (s1, Reply (Ttuple [ATOM_OK; Tres RColumnFamily c]))
    | _, _, _ => Ok (s, Badarg)
    end).

(** ** Column families *)

(** [enif_make_string(env, name.c_str(), ...)] *)
Definition name_term (name : bytes) : term := make_list ((fun b => Tint (byte_val b)) <$> c_string name).

(** The list is built by prepending and reversed at the end. *)
Definition ListColumnFamilies (lib_list : struct -> bytes -> Status * list bytes) (argv : list term) :
    outcome reply :=
  let! t0 := elem argv 0 in
  let! t1 := elem argv 1 in
  match get_c_string 4096 t0, enif_is_list t1 with
  | Some db_name, true =>
      let! (db_opts, _) := fold (parse_db_option increase_parallelism) t1 [] in
      let '(status, names) := lib_list db_opts db_name in
      if negb (status_ok status) then Ok (Reply (error_tuple ATOM_ERROR_DB_OPEN status))
      else
        let result := fold_left (fun acc n => Tcons (name_term n) acc) names Tnil in
        Ok (Reply (Ttuple [ATOM_OK; enif_make_reverse_list result]))
  | _, _ => Ok Badarg
  end.

(** An option that is refused is returned as it is. *)
Definition CreateColumnFamily (lib_create : struct -> bytes -> Status * cf_handle) (s : osys)
    (argv : list term) : outcome (osys * reply) :=
  let! t0 := elem argv 0 in
  let! (h1, p) := enif_get_db (o_heap s) t0 in
  let s1 := with_oheap s h1 in
  let finish s r := let! h' := release (o_heap s) p in Ok (with_oheap s h', r) in
  match p with
  | None => Ok (s1, Badarg)
  | Some d =>
      let! o := deref h1 d in
      if negb (m_CloseRequested o =? 0) then finish s1 Badarg
      else
        let! t1 := elem argv 1 in
        let! t2 := elem argv 2 in
        match get_c_string 4096 t1, enif_is_list t2 with
        | Some name, true =>
            let! (opts, result) := fold (parse_cf_option optimize_level_style) t2 [] in
            if negb (is_atom "ok" result) then finish s1 (Reply result)
            else
              let '(status, handle) := lib_create opts name in
              if status_ok status then
                let! (s2, c) := create_family d handle s1 in
                finish s2 (Reply (Ttuple [ATOM_OK; Tres RColumnFamily c]))
              else finish s1 (Reply (error_tuple ATOM_ERROR status))
        | _, _ => finish s1 Badarg
        end
  end.

End Open.

(** ** Lemmas *)

(** Room for [n] more objects. *)
Definition room_for (n : nat) (h : heap) (pins : list nat) : Prop :=
  zlen pins + Z.of_nat (size h) + Z.of_nat n + 16 < 2 ^ 32.

(** An open database and its column families. *)
Record open_db (h : heap) (d : nat) (cfs : list nat) : Prop := {
  od_db : exists db, h !! d = Some db /\ o_kind db = KDb /\ m_CloseRequested db = 0 /\
            m_Native db = true /\ m_ColumnFamilyList db = cfs /\
            m_RefCount db = 1 + Z.of_nat (length cfs);
  od_cfs : Forall (fun c => h !! c = Some (set_refs 1 (new_obj KColumnFamily (Some d)))) cfs;
  od_nodup : NoDup cfs;
}.

(** Nothing but database [d] and the new objects changed. *)
Definition extends (h h' : heap) (d : nat) : Prop :=
  forall j o, j <> d -> h !! j = Some o -> h' !! j = Some o.

(** The column-family object [c] got the RocksDB handle [handle]. *)
Definition has_handle (s : osys) (c : nat) (handle : cf_handle) : Prop :=
  o_families s !! c = Some handle.

(** The new objects got the handles [hs], the old ones keep theirs. *)
Definition assigned (s s' : osys) (new : list nat) (hs : list cf_handle) : Prop :=
  Forall2 (has_handle s') new hs /\
  forall c, is_Some (o_heap s !! c) -> o_families s' !! c = o_families s !! c.

Lemma create_family_step s pins d cfs handle :
  INV (o_heap s) pins -> room_for 1 (o_heap s) pins -> open_db (o_heap s) d cfs ->
  exists s1 c, create_family d handle s = Ok (s1, c) /\ o_heap s !! c = None /\ INV (o_heap s1) pins /\
    size (o_heap s1) = S (size (o_heap s)) /\ open_db (o_heap s1) d (cfs ++ [c]) /\
    extends (o_heap s) (o_heap s1) d /\ o_families s1 = <[c:=handle]> (o_families s) /\
    o_flags s1 = o_flags s.
Proof.
  intros HI Hroom [(db & Hdb & Hk & Hc & Hn & Hl & Hr) Hcfs Hnd]. unfold room_for in Hroom.
  set (h := o_heap s) in *.
  destruct (CreateChild_eq KColumnFamily h pins d db HI) as (id & Hid & Hne & E); try done.
  { unfold room. lia. }
  unfold create_family, CreateColumnFamilyObject. fold h. rewrite E. cbn [obind]. eexists _, id.
  assert (Hold : forall c, c ∈ cfs -> c <> id /\ c <> d).
  { intros c Hin. pose proof (proj1 (Forall_forall _ _) Hcfs c Hin) as Hcc.
    split; intros ->; [congruence |]. rewrite Hdb in Hcc. injection Hcc as ->. done. }
  split_and!; [done | done | | | | | done | done]; cbn [o_heap].
  - by apply inv_link; [| | | | lia | |].
  - rewrite map_size_insert_None by (by rewrite lookup_insert_ne).
    by rewrite map_size_insert_Some by (by eexists).
  - split.
    + exists (linked KColumnFamily id (set_refs (m_RefCount db + 1) db)).
      rewrite lookup_insert_ne, lookup_insert_eq by done. unfold linked. rewrite decide_False by done.
      split; [done |]. cbn. rewrite Hk, Hc, Hn, Hl, Hr, length_app. cbn. split_and!; try done. lia.
    + apply Forall_app. split; [| by apply Forall_singleton, lookup_insert_eq].
      apply Forall_forall. intros c Hin. destruct (Hold c Hin) as [Hci Hcd].
      rewrite !lookup_insert_ne by done. by apply (proj1 (Forall_forall _ _) Hcfs).
    + apply NoDup_app. split_and!; [done | | apply NoDup_singleton].
      intros c Hin ->%list_elem_of_singleton. by destruct (Hold id Hin).
  - intros j o Hj Ho. rewrite !lookup_insert_ne; try done. intros <-. congruence.
Qed.

Lemma assigned_cons s s1 s2 d c handle new hs :
  o_heap s !! c = None -> is_Some (o_heap s1 !! c) -> extends (o_heap s) (o_heap s1) d ->
  is_Some (o_heap s1 !! d) ->
  o_families s1 = <[c:=handle]> (o_families s) -> assigned s1 s2 new hs ->
  assigned s s2 (c :: new) (handle :: hs).
Proof.
  intros Hc Hc1 Hext Hd Hf [H2 Hold]. split.
  - constructor; [| done]. unfold has_handle. rewrite Hold by done. rewrite Hf. apply lookup_insert_eq.
  - intros x [o Hx]. rewrite Hold.
    + rewrite Hf, lookup_insert_ne; [done |]. intros ->. congruence.
    + destruct (decide (x = d)) as [-> | Hne]; [done |]. exists o. by apply Hext.
Qed.

Lemma open_db_is h d cfs c : open_db h d cfs -> c ∈ cfs -> is_Some (h !! c) /\ is_Some (h !! d).
Proof.
  intros [(db & Hdb & _) Hcfs _] Hin. split; [| by eexists].
  pose proof (proj1 (Forall_forall _ _) Hcfs c Hin) as Hc. cbn beta in Hc. rewrite Hc. by eexists.
Qed.

Lemma create_families_spec n i handles s pins d cfs :
  INV (o_heap s) pins -> room_for n (o_heap s) pins -> open_db (o_heap s) d cfs ->
  (i + n <= length handles)%nat ->
  exists s' new, create_families n i handles d s cfs = Ok (s', cfs ++ new) /\
    length new = n /\ INV (o_heap s') pins /\ open_db (o_heap s') d (cfs ++ new) /\
    extends (o_heap s) (o_heap s') d /\ assigned s s' new (take n (drop i handles)) /\
    o_flags s' = o_flags s.
Proof.
  revert i s cfs. induction n as [|n IH]; intros i s cfs HI Hroom Hd Hi; cbn [create_families].
  - exists s, []. rewrite app_nil_r. assert (He : extends (o_heap s) (o_heap s) d) by (by intros j o _ ?).
    split_and!; try done; by split; [constructor |].
  - destruct (lookup_lt_is_Some_2 handles i ltac:(lia)) as [handle Hh]. rewrite Hh.
    destruct (create_family_step s pins d cfs handle HI) as (s1 & c & -> & Hc & HI1 & Hsz & Hd1 & Hext & Hf & Hfl);
      [unfold room_for in *; lia | done |]. cbn [obind].
    destruct (IH (S i) s1 (cfs ++ [c]) HI1) as (s2 & new & -> & Hlen & HI2 & Hd2 & Hext2 & Ha & Hfl2);
      [unfold room_for in *; lia | done | lia |].
    rewrite <- app_assoc in *. exists s2, (c :: new). split_and!; try done; [cbn; lia | | | congruence].
    + intros j o Hj Ho. apply Hext2; [done |]. by apply Hext.
    + rewrite (drop_S _ _ _ Hh). cbn [take]. destruct (open_db_is _ _ _ c Hd1) as [Hc1 Hdd].
      { apply elem_of_app. right. by apply list_elem_of_singleton. }
      by eapply assigned_cons.
Qed.

(** Too few handles. *)
Lemma create_families_short n i handles s pins d cfs :
  INV (o_heap s) pins -> room_for n (o_heap s) pins -> open_db (o_heap s) d cfs ->
  (i <= length handles)%nat -> (length handles < i + n)%nat ->
  create_families n i handles d s cfs = Undef.
Proof.
  revert i s cfs. induction n as [|n IH]; intros i s cfs HI Hroom Hd Hi Hlt; cbn [create_families]; [lia |].
  destruct (handles !! i) as [handle|] eqn:E; [| done]. apply lookup_lt_Some in E.
  destruct (create_family_step s pins d cfs handle HI) as (s1 & c & -> & _ & HI1 & Hsz & Hd1 & _);
    [unfold room_for in *; lia | done |]. cbn [obind].
  apply IH; try done; unfold room_for in *; lia.
Qed.

Lemma create_db_spec cls p t s pins :
  INV (o_heap s) pins ->
  exists s1 d, create_db cls p t s = Ok (s1, d) /\ o_heap s !! d = None /\ INV (o_heap s1) pins /\
    size (o_heap s1) = S (size (o_heap s)) /\ open_db (o_heap s1) d [] /\
    extends (o_heap s) (o_heap s1) d /\ o_families s1 = o_families s /\
    o_flags s1 = <[d := {| m_IsPessimistic := p; m_IsTTL := t; db_is := cls |}]> (o_flags s).
Proof.
  intros HI. destruct (inv_CreateRoot KDb (o_heap s) pins HI) as (h & d & E & Hd & HI1 & ->); [done |].
  unfold create_db, CreateDbObject. rewrite E. cbn [obind]. eexists _, d. split_and!; try done; cbn [o_heap].
  - by rewrite map_size_insert_None.
  - split; [| by apply Forall_nil_2 | apply NoDup_nil_2].
    eexists. by rewrite lookup_insert_eq.
  - intros j o Hj Ho. by rewrite lookup_insert_ne.
Qed.

(** What a successful open leaves: a new database of its class, linked to exactly the
    column-family objects of the reply, whose [m_ColumnFamily] are the handles; the
    counts are exact and nothing else changed. *)
Record opened (s s' : osys) (pins : list nat) (d : nat) (cls : db_class) (p t : bool) (cfs : list nat)
    (handles : list cf_handle) : Prop := {
  op_new : o_heap s !! d = None;
  op_inv : INV (o_heap s') pins;
  op_db : open_db (o_heap s') d cfs;
  op_rest : extends (o_heap s) (o_heap s') d;
  op_handles : assigned s s' cfs handles;
  op_flags : o_flags s' = <[d := {| m_IsPessimistic := p; m_IsTTL := t; db_is := cls |}]> (o_flags s);
}.

Lemma opened_after s s1 s2 pins d cls p t cfs handles :
  o_heap s !! d = None -> extends (o_heap s) (o_heap s1) d -> o_families s1 = o_families s ->
  o_flags s1 = <[d := {| m_IsPessimistic := p; m_IsTTL := t; db_is := cls |}]> (o_flags s) ->
  INV (o_heap s2) pins -> open_db (o_heap s2) d cfs -> extends (o_heap s1) (o_heap s2) d ->
  assigned s1 s2 cfs handles -> o_flags s2 = o_flags s1 ->
  opened s s2 pins d cls p t cfs handles.
Proof.
  intros Hd Hext Hfam Hflag HI Hod Hext2 [Ha Hold] Hf2. split; try done; [| | congruence].
  - intros j o Hj Ho. apply Hext2; [done |]. by apply Hext.
  - split; [done |]. intros c [o Hc]. rewrite Hold, Hfam; [done |]. exists o. apply Hext; [| done].
    intros ->. congruence.
Qed.

Lemma open_families_spec cls p n handles s pins :
  INV (o_heap s) pins -> room_for (S n) (o_heap s) pins ->
  if (n <=? length handles)%nat then
    exists s' d cfs, open_families cls p n handles s =
        Ok (s', Reply (Ttuple [ATOM_OK; Tres RDb d; cf_terms cfs])) /\
      length cfs = n /\ opened s s' pins d cls p false cfs (take n handles)
  else open_families cls p n handles s = Undef.
Proof.
  intros HI Hroom.
  destruct (create_db_spec cls p false s pins HI) as (s1 & d & E & Hd & HI1 & Hsz & Hod & Hext & Hfam & Hfl).
  unfold open_families. rewrite E. cbn [obind].
  destruct (n <=? length handles)%nat eqn:Eh.
  - apply Nat.leb_le in Eh.
    destruct (create_families_spec n 0 handles s1 pins d [] HI1) as (s' & new & -> & Hlen & HI2 & Hod2 & Hext2 & Ha & Hf2);
      [unfold room_for in *; lia | done | lia |]. cbn [obind app].
    eexists _, d, new. split_and!; try done. by eapply (opened_after s s1).
  - apply Nat.leb_gt in Eh.
    rewrite (create_families_short n 0 handles s1 pins d []); try done; unfold room_for in *; lia.
Qed.

Lemma create_families_back_spec rhandles s pins d cfs :
  INV (o_heap s) pins -> room_for (length rhandles) (o_heap s) pins -> open_db (o_heap s) d (reverse cfs) ->
  exists s' new, create_families_back rhandles d s cfs = Ok (s', new ++ cfs) /\
    INV (o_heap s') pins /\ open_db (o_heap s') d (reverse (new ++ cfs)) /\
    extends (o_heap s) (o_heap s') d /\ assigned s s' (reverse new) rhandles /\ o_flags s' = o_flags s.
Proof.
  revert s cfs. induction rhandles as [|handle r IH]; intros s cfs HI Hroom Hd; cbn [create_families_back].
  - exists s, []. assert (He : extends (o_heap s) (o_heap s) d) by (by intros j o _ ?).
    split_and!; try done; by split; [constructor |].
  - cbn [length] in Hroom.
    destruct (create_family_step s pins d (reverse cfs) handle HI) as (s1 & c & -> & Hc & HI1 & Hsz & Hd1 & Hext & Hf & Hfl);
      [unfold room_for in *; lia | done |]. cbn [obind]. rewrite <- reverse_cons in Hd1.
    destruct (IH s1 (c :: cfs) HI1) as (s2 & new & -> & HI2 & Hd2 & Hext2 & Ha & Hfl2);
      [unfold room_for in *; lia | done |].
    exists s2, (new ++ [c]). rewrite <- app_assoc. cbn [app]. split_and!; try done; [| | congruence].
    + intros j o Hj Ho. apply Hext2; [done |]. by apply Hext.
    + rewrite reverse_app. cbn. destruct (open_db_is _ _ _ c Hd1) as [Hc1 Hdd]; [apply elem_of_reverse; by left |].
      by eapply assigned_cons.
Qed.

Lemma collect_length ol items acc cfs :
  collect_descriptors ol items acc = Ok (inr cfs) -> (length cfs <= length acc + length items)%nat.
Proof.
  revert acc. induction items as [|item items IH]; intros acc H; cbn [collect_descriptors length] in *.
  - simplify_eq. lia.
  - destruct (parse_cf_descriptor ol item) as [[name o| | |t]|]; cbn [obind] in H; try done;
      apply IH in H; rewrite ?length_app in H; cbn in *; lia.
Qed.

Lemma Forall2_compose {A B C} (P : A -> B -> Prop) (Q : C -> B -> Prop) (R : A -> C -> Prop) l1 l2 l3 :
  (forall a b c, P a b -> Q c b -> R a c) -> Forall2 P l1 l2 -> Forall2 Q l3 l2 -> Forall2 R l1 l3.
Proof.
  intros H H1. revert l3. induction H1 as [|a b l1 l2 Hp _ IH]; intros l3 H3; inversion H3; subst;
    constructor; eauto.
Qed.

(** The element [item] of the list is a pair whose first component is the name. *)
Definition names_family (item : term) (name : bytes) : Prop :=
  exists n o, enif_get_tuple item = Some [n; o] /\ get_c_string 4096 n = Some name.

Lemma descriptor_names ol item name o :
  parse_cf_descriptor ol item = Ok (DPush name o) -> names_family item name.
Proof.
  unfold parse_cf_descriptor, names_family. intros H. repeat (bind_step H || case_match); simplify_eq; eauto.
Qed.

(** When no element was passed over, the descriptors are those of the elements. *)
Lemma collect_names ol items acc cfs :
  collect_descriptors ol items acc = Ok (inr cfs) -> length cfs = (length acc + length items)%nat ->
  exists l, cfs = acc ++ l /\ Forall2 names_family items l.*1.
Proof.
  revert acc. induction items as [|item items IH]; intros acc H Hl; cbn [collect_descriptors length] in *.
  - simplify_eq. exists []. rewrite app_nil_r. split; [done | constructor].
  - destruct (parse_cf_descriptor ol item) as [[name o| | |t]|] eqn:Ed; cbn [obind] in H; try done.
    + destruct (IH _ H) as (l & -> & HF); [rewrite length_app; cbn; lia |].
      exists ((name, o) :: l). rewrite <- app_assoc. split; [done |].
      constructor; [by apply descriptor_names in Ed | done].
    + apply collect_length in H. lia.
Qed.

(** ** Properties *)

Section Properties.
Context (ip ol : Z -> struct).

(** [ColumnFamilyHandle::GetName] of RocksDB. *)
Context (handle_name : cf_handle -> bytes).

(** C32.  Opening with column families, as a plain or an optimistic transaction
    database, with a list whose elements were read as [cfs].  When RocksDB refuses,
    the call answers its error and nothing changes.  When it succeeds (it promises
    that [handles[i]] is the handle of the descriptor [i]) and every element of the
    list was a pair, the reply has a new database and one column-family object per
    element, and the [i]-th object of the reply holds the RocksDB handle of the
    family that the [i]-th element names; the database is of the class that was
    opened, links to exactly these objects and counts a reference for each; the
    reference counts of the whole heap stay exact and nothing else changes.  When an
    element that is not a pair was passed over, the vector of handles is read past
    its end. *)
Theorem open_with_cf_links (cls : db_class)
    (lib_open : struct -> list descriptor -> bytes -> Status * list cf_handle)
    (s : osys) (pins : list nat) (name opts : term) (items : list term) (db_name : bytes)
    (cfs : list descriptor) :
  (forall o l b, status_ok (lib_open o l b).1 = true -> handle_name <$> (lib_open o l b).2 = l.*1) ->
  INV (o_heap s) pins -> room_for (S (length items)) (o_heap s) pins ->
  get_c_string 4096 name = Some db_name -> enif_is_list opts = true ->
  collect_descriptors ol items [] = Ok (inr cfs) ->
  exists db_opts r, fold (parse_db_option ip) opts [] = Ok (db_opts, r) /\
  let call := open_with_cf ip ol cls lib_open s [name; opts; make_list items] in
  let '(status, handles) := lib_open db_opts cfs db_name in
  if negb (status_ok status) then call = Ok (s, Reply (error_tuple ATOM_ERROR_DB_OPEN status))
  else if (length items =? length cfs)%nat then
    exists s' d l, call = Ok (s', Reply (Ttuple [ATOM_OK; Tres RDb d; cf_terms l])) /\
      opened s s' pins d cls false false l handles /\
      Forall2 (fun item c => exists n hd, names_family item n /\ has_handle s' c hd /\ handle_name hd = n) items l
  else call = Undef.
Proof.
  intros Hlib HI Hroom Hname Hopts Hc.
  assert (Hlen : (length cfs <= length items)%nat) by (by apply (collect_length ol items [] cfs)).
  destruct (fold_db_total ip (list_cells opts) []) as [db_opts Hdb]. exists db_opts, ATOM_OK.
  split; [done |]. cbn zeta. specialize (Hlib db_opts cfs db_name).
  assert (Heq : open_with_cf ip ol cls lib_open s [name; opts; make_list items] =
                let '(status, handles) := lib_open db_opts cfs db_name in
                if negb (status_ok status) then Ok (s, Reply (error_tuple ATOM_ERROR_DB_OPEN status))
                else open_families cls false (length items) handles s).
  { unfold open_with_cf. cbn [elem lookup list_lookup obind].
    assert (Hil : enif_is_list (make_list items) = true) by (by destruct items).
    rewrite Hname, Hopts, Hil. cbn [andb]. unfold fold. rewrite Hdb. unfold pok. cbn [obind].
    rewrite list_cells_make_list, Hc. cbn [obind].
    destruct (lib_open db_opts cfs db_name) as [status handles]. destruct (status_ok status); [| done].
    cbn [negb]. unfold list_length_or_garbage. by rewrite list_length_make_list. }
  rewrite Heq. destruct (lib_open db_opts cfs db_name) as [status handles]. cbn [fst snd] in Hlib.
  destruct (status_ok status); cbn [negb]; [| done]. specialize (Hlib eq_refl).
  assert (Hhl : length handles = length cfs).
  { apply (f_equal length) in Hlib. by rewrite !length_fmap in Hlib. }
  pose proof (open_families_spec cls false (length items) handles s pins HI Hroom) as Hspec.
  destruct (length items =? length cfs)%nat eqn:El.
  - apply Nat.eqb_eq in El. rewrite (proj2 (Nat.leb_le _ _)) in Hspec by lia.
    destruct Hspec as (s' & d & l & E & _ & Hop). rewrite take_ge in Hop by lia. exists s', d, l.
    split; [done |]. split; [done |].
    destruct (collect_names ol items [] cfs Hc) as (l' & -> & HF); [done |]. cbn [app] in *.
    rewrite <- Hlib in HF. apply (Forall2_fmap_r handle_name) in HF. destruct (op_handles _ _ _ _ _ _ _ _ _ Hop) as [Ha _].
    eapply Forall2_compose; [| exact HF | exact Ha].
    intros item hd c Hn Hh. by exists (handle_name hd), hd.
  - apply Nat.eqb_neq in El. by rewrite (proj2 (Nat.leb_gt _ _)) in Hspec by lia.
Qed.

(** A pessimistic transaction database reads exactly the handles of the descriptors it
    passed on, so an element that is passed over does no harm. *)
Theorem open_pessimistic_links
    (lib_open : struct -> struct -> list descriptor -> bytes -> Status * list cf_handle)
    (s : osys) (pins : list nat) (name opts : term) (items : list term) (db_name : bytes)
    (cfs : list descriptor) :
  (forall o t l b, length (lib_open o t l b).2 = length l) ->
  (forall o t l b, status_ok (lib_open o t l b).1 = true) ->
  INV (o_heap s) pins -> room_for (S (length items)) (o_heap s) pins ->
  get_c_string 4096 name = Some db_name -> enif_is_list opts = true ->
  collect_descriptors ol items [] = Ok (inr cfs) ->
  exists s' d l o t, OpenPessimisticTransactionDB ip ol lib_open s [name; opts; make_list items] =
      Ok (s', Reply (Ttuple [ATOM_OK; Tres RDb d; cf_terms l])) /\
    opened s s' pins d TransactionDB true false l (lib_open o t cfs db_name).2.
Proof.
  intros Hn Hok HI Hroom Hname Hopts Hc.
  assert (Hlen : (length cfs <= length items)%nat) by (by apply (collect_length ol items [] cfs)).
  destruct (fold_db_total ip (list_cells opts) []) as [db_opts Hdb].
  assert (Ht : exists txn_opts r, fold parse_txn_db_option opts [] = Ok (txn_opts, r)).
  { pose proof (fold_cells_defined parse_txn_db_option (list_cells opts) []) as H.
    unfold fold. destruct (fold_cells parse_txn_db_option _ _) as [[o r]|]; [by exists o, r |]. exfalso. apply H; [| done].
    apply table_defined. unfold txn_db_table. simple_actions. }
  destruct Ht as (txn_opts & r & Ht).
  pose proof (Hn db_opts txn_opts cfs db_name) as Hn'. pose proof (Hok db_opts txn_opts cfs db_name) as Hok'.
  pose proof (open_families_spec TransactionDB true (length cfs) (lib_open db_opts txn_opts cfs db_name).2 s pins HI) as Hspec.
  rewrite Hn', Nat.leb_refl, take_ge in Hspec by lia.
  destruct (Hspec ltac:(unfold room_for in *; lia)) as (s' & d & l & E & _ & Hop).
  exists s', d, l, db_opts, txn_opts. split; [| done]. rewrite <- E.
  unfold OpenPessimisticTransactionDB. cbn [elem lookup list_lookup obind].
  rewrite Hname, Hopts, Ht. unfold fold at 1. rewrite Hdb. unfold pok. cbn [obind length Nat.eqb elem].
  assert (Hil : enif_is_list (make_list items) = true) by (by destruct items).
  cbn [lookup list_lookup obind]. rewrite Hil, list_cells_make_list, Hc. cbn [obind].
  destruct (lib_open db_opts txn_opts cfs db_name) as [status handles]. cbn [fst snd] in *.
  by rewrite Hok'.
Qed.

(** The loop of [OpenWithTTLCf] runs over the handles from the last to the first, and
    the list of the reply comes out in their order. *)
Theorem families_back_in_order (s : osys) (pins : list nat) (handles : list cf_handle) :
  INV (o_heap s) pins -> room_for (S (length handles)) (o_heap s) pins ->
  exists s1 d s' l, create_db DBWithTTL false true s = Ok (s1, d) /\
    create_families_back (reverse handles) d s1 [] = Ok (s', l) /\
    Forall2 (has_handle s') l handles /\ INV (o_heap s') pins /\ open_db (o_heap s') d (reverse l).
Proof.
  intros HI Hroom.
  destruct (create_db_spec DBWithTTL false true s pins HI) as (s1 & d & E & Hd & HI1 & Hsz & Hod & _).
  destruct (create_families_back_spec (reverse handles) s1 pins d [] HI1) as (s' & new & E2 & HI2 & Hod2 & _ & [Ha _] & _);
    [rewrite length_reverse; unfold room_for in *; lia | done |].
  rewrite app_nil_r in *. exists s1, d, s', new. split_and!; try done.
  apply Forall2_reverse in Ha. by rewrite !reverse_involutive in Ha.
Qed.

End Properties.

(** ** Witness *)

Module OpenWitness.

Definition empty_sys : osys := {| o_heap := ∅; o_flags := ∅; o_families := ∅ |}.

(** A library whose handles 0 and 1 are of the families "default" and "cf". *)
Definition cf_name : bytes := [Byte.x63; Byte.x66].
Definition name_of (hd : cf_handle) : bytes := if decide (hd = 0%nat) then default_name else cf_name.
Definition handle_of (d : descriptor) : cf_handle := if decide (d.1 = default_name) then 0%nat else 1%nat.
Definition known (d : descriptor) : bool := bool_decide (d.1 = default_name \/ d.1 = cf_name).
Definition lib_open (_ : struct) (l : list descriptor) (_ : bytes) : Status * list cf_handle :=
  if forallb known l then (StatusOK, handle_of <$> l) else ({| code := kCorruption; to_text := "no such family" |}, []).

Lemma lib_open_handles o l b :
  status_ok (lib_open o l b).1 = true -> name_of <$> (lib_open o l b).2 = l.*1.
Proof.
  unfold lib_open. destruct (forallb known l) eqn:E; [| done]. intros _. cbn [fst snd].
  induction l as [|d l IH]; [done |]. apply andb_prop in E as [Ed El]. cbn. rewrite (IH El). f_equal.
  unfold known in Ed. apply bool_decide_eq_true in Ed. unfold name_of, handle_of.
  by destruct Ed as [-> | ->].
Qed.

Definition db_path : term := enif_make_string "db".
Definition default_cf : term := Ttuple [enif_make_string "default"; Tnil].
Definition second_cf : term := Ttuple [enif_make_string "cf"; Tnil].

(** A list of pairs opens; with an atom among them, the handles run out. *)
Lemma open_with_cf_links_witness :
  (exists s' d l, open_with_cf sample_parallelism sample_level_style PlainDB lib_open empty_sys
       [db_path; Tnil; make_list [second_cf; default_cf]] =
       Ok (s', Reply (Ttuple [ATOM_OK; Tres RDb d; cf_terms l])) /\
     opened empty_sys s' [] d PlainDB false false l [1; 0]%nat) /\
  open_with_cf sample_parallelism sample_level_style PlainDB lib_open empty_sys
    [db_path; Tnil; make_list [default_cf; Tatom "cf"]] = Undef.
Proof.
  assert (Hi : INV (o_heap empty_sys) []) by apply inv_init.
  split.
  - destruct (open_with_cf_links sample_parallelism sample_level_style name_of PlainDB lib_open empty_sys []
             db_path Tnil [second_cf; default_cf] [Byte.x64; Byte.x62]
             [(cf_name, []); (default_name, [])]) as (o & r & _ & H);
      [exact lib_open_handles | exact Hi | vm_compute; reflexivity | vm_compute; reflexivity
       | reflexivity | vm_compute; reflexivity |].
    destruct H as (s' & d & l & E & Hop & _). by exists s', d, l.
  - destruct (open_with_cf_links sample_parallelism sample_level_style name_of PlainDB lib_open empty_sys []
             db_path Tnil [default_cf; Tatom "cf"] [Byte.x64; Byte.x62] [(default_name, [])]) as (o & r & _ & H);
      [exact lib_open_handles | exact Hi | vm_compute; reflexivity | vm_compute; reflexivity
       | reflexivity | vm_compute; reflexivity |].
    exact H.
Defined.
End OpenWitness.
