(* ===== verification/DbSafe.v ===== *)
(** * The data functions on arbitrary arguments

    Whatever terms the data functions of [DbNif] are given, in the arities of the
    function table of [c_src/erocksdb.cc], they run without undefined behaviour and
    leave every handle as it was: each pin is released, on every path. *)

From stdpp Require Import base list numbers strings gmap.
From Stdlib Require Import ZArith Lia.
From S2P Require Import Prelude Terms RefObjects RefInv RefSystem HandleNif WriteBatchLib CompactionFilter Options DbLib DbNif.

Section Safe.
Context `{L : DbLib}.

(** Open objects have their RocksDB object and room for [n] more references. *)
Definition ready (n : nat) (h : heap) : Prop :=
  forall id o, h !! id = Some o -> m_CloseRequested o = 0 ->
  m_Native o = true /\ 0 <= m_RefCount o /\ m_RefCount o + Z.of_nat n < 2 ^ 32.

Lemma ready_inv h pins : INV h pins -> ample h pins -> cf_handles h -> ready 4 h.
Proof.
  intros HI Ha Hcf id o Ho Hc. pose proof (refs_bound _ _ _ _ HI Ho) as Hb.
  unfold ample in Ha. split; [| lia].
  destruct (decide (o_kind o = KColumnFamily)) as [Hk | Hk]; [by apply (Hcf id o) |].
  apply (oi_native _ _ _ _ (inv_obj _ _ HI _ _ Ho)); [lia | done].
Qed.

(** A call that returns and leaves the handles alone. *)
Definition neutral (h : heap) (a : dsys -> outcome (dsys * reply)) : Prop :=
  forall st, exists st' r, a {| d_heap := h; d_store := st |} = Ok ({| d_heap := h; d_store := st' |}, r).

Lemma answer_neutral h (r : dsys -> reply) : neutral h (fun s => Ok (s, r s)).
Proof. intros st. by eexists _, _. Qed.

Lemma pinned_ready n h c o :
  ready (S n) h -> h !! c = Some o -> m_CloseRequested o = 0 -> ready n (pinned h c o).
Proof.
  intros Hr Ho Hc id o' Ho' Hc'. unfold pinned in Ho'. destruct (decide (id = c)) as [-> | Hne].
  - rewrite lookup_insert_eq in Ho'. simplify_eq. destruct (Hr c o Ho Hc) as (? & ? & ?). cbn.
    split; [done | lia].
  - rewrite lookup_insert_ne in Ho' by done. destruct (Hr id o' Ho' Hc') as (? & ? & ?). split; [done | lia].
Qed.

Lemma pinned_valid h c o t : h !! c = Some o -> valid_term h t -> valid_term (pinned h c o) t.
Proof.
  intros Ho Hv k id Ht. destruct (Hv k id Ht) as (o' & Ho' & Hk). unfold pinned.
  destruct (decide (id = c)) as [-> | Hne].
  - rewrite lookup_insert_eq. eexists. split; [done |]. cbn. congruence.
  - rewrite lookup_insert_ne by done. by exists o'.
Qed.

(** Pinning any argument. *)
Lemma retrieve_any n k h t :
  ready (S n) h -> valid_term h t -> k <> KItr ->
  Retrieve k false h t = Ok None \/
  exists c o, Retrieve k false h t = Ok (Some c) /\ h !! c = Some o /\ m_CloseRequested o = 0 /\
    assign h None (Some c) = Ok (pinned h c o) /\ release (pinned h c o) (Some c) = Ok h.
Proof.
  intros Hr Hv Hk. unfold Retrieve. destruct t as [| | | | | | | |rk id|]; try by left.
  cbn [enif_get_resource]. destruct (decide (res_kind_of k = rk)) as [<- |]; [| by left].
  destruct (Hv k id eq_refl) as (o & Ho & _). unfold deref. rewrite Ho. cbn [obind].
  destruct (m_CloseRequested o =? 0) eqn:Ec; cbn [negb]; [| by left]. apply Z.eqb_eq in Ec.
  rewrite decide_False by done. right. exists id, o.
  destruct (Hr id o Ho Ec) as (_ & H0 & H1). split_and!; try done; [| apply unpin; try done; lia].
  unfold assign. rewrite decide_False by done. cbn [obind]. unfold RefInc, deref. rewrite Ho. cbn [obind].
  by rewrite wrap_small by lia.
Qed.

Lemma with_ref_neutral n k t h (body : nat -> dsys -> outcome (dsys * reply)) :
  ready (S n) h -> valid_term h t -> k <> KItr ->
  (forall h1 c, ready n h1 -> (forall t', valid_term h t' -> valid_term h1 t') ->
     cf_pointer h1 c = Ok (CfHandle c) -> neutral h1 (body c)) ->
  neutral h (with_ref k t body).
Proof.
  intros Hr Hv Hk Hb st. unfold with_ref, get_ref. cbn [d_heap].
  destruct (retrieve_any n k h t Hr Hv Hk) as [-> | (c & o & -> & Ho & Hc & Ha & Hrel)]; cbn [obind].
  - unfold assign. rewrite decide_True by done. cbn [obind]. by eexists _, _.
  - rewrite Ha. cbn [obind]. unfold deref, pinned at 1. rewrite lookup_insert_eq. cbn [obind].
    destruct (Hr c o Ho Hc) as (Hn & _).
    assert (Hp : cf_pointer (pinned h c o) c = Ok (CfHandle c)).
    { unfold cf_pointer, deref, pinned. rewrite lookup_insert_eq. cbn. by rewrite Hn. }
    destruct (Hb (pinned h c o) c (pinned_ready n h c o Hr Ho Hc)
                (fun t' => pinned_valid h c o t' Ho) Hp st) as (st' & r & E).
    exists st', r. cbn [m_Native set_refs]. rewrite Hn. unfold set_heap. cbn [d_heap d_store].
    destruct k; cbn [obind]; rewrite E; cbn [obind d_heap]; by rewrite Hrel.
Qed.

Lemma on_db_neutral n h t argv (body : nat -> dsys -> outcome (dsys * reply)) :
  ready (S n) h -> valid_term h t ->
  (forall h1 d, ready n h1 -> (forall t', valid_term h t' -> valid_term h1 t') -> neutral h1 (body d)) ->
  neutral h (on_db (t :: argv) body).
Proof.
  intros Hr Hv Hb st. unfold on_db. cbn [elem lookup list_lookup obind].
  apply (with_ref_neutral n); [done | done | done |]. intros h1 d Hr1 Hv1 _. by apply Hb.
Qed.

(** Nothing is dereferenced through a handle that is not null. *)
Definition not_null (c : cfh) : Prop := match c with NullCf => False | _ => True end.

Lemma on_family_neutral n h given argv t (body : cfh -> dsys -> outcome (dsys * reply)) :
  ready (S n) h -> (given = true -> argv !! 1%nat = Some t /\ valid_term h t) ->
  (forall h1 c, ready n h1 -> (forall t', valid_term h t' -> valid_term h1 t') -> not_null c ->
     neutral h1 (body c)) ->
  neutral h (on_family given argv body).
Proof.
  intros Hr Hg Hb st. unfold on_family. destruct given.
  - destruct (Hg eq_refl) as [Ht Hv]. unfold elem. rewrite Ht. cbn [obind].
    apply (with_ref_neutral n); [done | done | done |]. intros h1 c Hr1 Hv1 Hp st1.
    cbn [d_heap]. rewrite Hp. cbn [obind]. by apply Hb.
  - apply Hb; [| done | done]. intros id o Ho Hc. destruct (Hr id o Ho Hc) as (? & ? & ?).
    split; [done | lia].
Qed.

Lemma binary_neutral h argv i t (body : bytes -> dsys -> outcome (dsys * reply)) :
  argv !! i = Some t -> (forall b, neutral h (body b)) -> neutral h (with_binary argv i body).
Proof.
  intros Ht Hb st. unfold with_binary, elem. rewrite Ht. cbn [obind].
  destruct (enif_inspect_binary t); [by apply Hb | by eexists _, _].
Qed.

(** The snapshot terms of an option list are valid. *)
Definition options_valid (h : heap) (t : term) : Prop :=
  Forall (fun item => forall key v, item = Ttuple [key; v] -> valid_term h v) (list_cells t).

Lemma parse_read_neutral h item o :
  ready 1 h -> (forall key v, item = Ttuple [key; v] -> valid_term h v) ->
  exists o' r, parse_read_option item (h, o) = Ok ((h, o'), r).
Proof.
  intros Hr Hv. unfold parse_read_option.
  destruct item as [| | | | | |l | | |]; try (by eexists _, _). cbn [enif_get_tuple].
  destruct l as [|key [|v [|]]]; try (by eexists _, _).
  destruct (is_atom "snapshot" key).
  - unfold parse_snapshot, RetrieveSnapshotObject.
    destruct (retrieve_any 0 KSnapshot h v Hr (Hv key v eq_refl) ltac:(done))
      as [-> | (c & so & -> & Ho & Hc & Ha & Hrel)]; cbn [obind].
    + unfold assign. rewrite decide_True by done. by eexists _, _.
    + rewrite Ha. cbn [obind]. unfold deref, pinned at 1. rewrite lookup_insert_eq. cbn [obind].
      rewrite Hrel. by eexists _, _.
  - cbn [fst snd].
    pose proof (table_defined read_table ltac:(unfold read_table; simple_actions)
                  (Ttuple [key; v]) o) as Hd.
    destruct (parse_table read_table _ o) as [[o' r]|]; [by eexists _, _ | done].
Qed.

Lemma fold_read_neutral h t o :
  ready 1 h -> options_valid h t -> exists o' r, fold parse_read_option t (h, o) = Ok ((h, o'), r).
Proof.
  intros Hr Hv. unfold fold. revert o. unfold options_valid in Hv.
  induction Hv as [|item l Hi Hl IH]; intros o; [by eexists _, _ |]. cbn [fold_cells].
  destruct (parse_read_neutral h item o Hr Hi) as (o' & r & ->). cbn [obind].
  destruct (is_atom "ok" r); [apply IH | by eexists _, _].
Qed.

Lemma read_options_neutral h t (body : struct -> dsys -> outcome (dsys * reply)) :
  ready 1 h -> options_valid h t -> (forall o, neutral h (body o)) ->
  neutral h (with_read_options t body).
Proof.
  intros Hr Hv Hb st. unfold with_read_options. cbn [d_heap].
  destruct (fold_read_neutral h t [] Hr Hv) as (o & r & ->). cbn [obind]. apply Hb.
Qed.

Lemma write_neutral h d c o u : not_null c -> neutral h (write_at d c o u).
Proof.
  intros Hc st. unfold write_at. destruct c; [..| done]; cbn [use_cf d_store];
    destruct (lib_update _ _ _ _ _); by eexists _, _.
Qed.

Lemma admin_neutral h d a : neutral h (admin_call d a).
Proof. intros st. unfold admin_call. cbn [d_store]. destruct (lib_admin _ _ _). by eexists _, _. Qed.

Lemma void_neutral h d a : neutral h (void_call d a).
Proof. intros st. by eexists _, _. Qed.

Lemma use_neutral h c (a : dsys -> outcome (dsys * reply)) :
  not_null c -> neutral h a -> neutral h (fun s => use_cf c (a s)).
Proof. intros Hc Ha st. destruct c; [apply Ha.. | done]. Qed.

Lemma options_valid_mono h h1 t :
  (forall t', valid_term h t' -> valid_term h1 t') -> options_valid h t -> options_valid h1 t.
Proof.
  intros Hv H. eapply Forall_impl; [exact H |]. intros item Hi key v Heq. by apply Hv, (Hi key).
Qed.

Lemma ready_le n m h : (m <= n)%nat -> ready n h -> ready m h.
Proof. intros Hm Hr id o Ho Hc. destruct (Hr id o Ho Hc) as (? & ? & ?). split; [done | lia]. Qed.

(** ** The functions *)

Inductive db_nif :=
| NGet | NMultiGet | NPut | NMerge | NDelete | NSingleDelete | NDeleteRange | NPutEntity
| NGetEntity | NIsEmpty | NGetLatestSequenceNumber | NGetProperty | NGetApproximateSizes
| NGetApproximateMemTableStats | NCompactRange | NFlush | NSyncWal | NPauseBackgroundWork
| NContinueBackgroundWork | NDisableManualCompaction | NEnableManualCompaction | NFlushWal
| NSetDBBackgroundThreads | NCheckpoint (created : bool).

Definition run_db_nif (n : db_nif) : list term -> dsys -> outcome (dsys * reply) :=
  match n with
  | NGet => Get | NMultiGet => MultiGet | NPut => Put | NMerge => Merge | NDelete => Delete
  | NSingleDelete => SingleDelete | NDeleteRange => DeleteRange | NPutEntity => PutEntity
  | NGetEntity => GetEntity | NIsEmpty => IsEmpty
  | NGetLatestSequenceNumber => GetLatestSequenceNumber | NGetProperty => GetProperty
  | NGetApproximateSizes => GetApproximateSizes
  | NGetApproximateMemTableStats => GetApproximateMemTableStats
  | NCompactRange => CompactRange | NFlush => Flush | NSyncWal => SyncWal
  | NPauseBackgroundWork => PauseBackgroundWork
  | NContinueBackgroundWork => ContinueBackgroundWork
  | NDisableManualCompaction => DisableManualCompaction
  | NEnableManualCompaction => EnableManualCompaction | NFlushWal => FlushWal
  | NSetDBBackgroundThreads => SetDBBackgroundThreads | NCheckpoint created => Checkpoint created
  end.

(** The arities of the function table of [erocksdb.cc]. *)
Definition arities (n : db_nif) : list nat :=
  match n with
  | NGet | NMultiGet | NDelete | NSingleDelete | NGetEntity | NGetApproximateSizes
  | NGetApproximateMemTableStats => [3; 4]
  | NPut | NMerge | NDeleteRange | NPutEntity | NCompactRange => [4; 5]
  | NGetProperty => [2; 3]
  | NFlush => [3]
  | NFlushWal | NSetDBBackgroundThreads | NCheckpoint _ => [2]
  | _ => [1]
  end%nat.

(** The last argument of the reads is an option list.  [Checkpoint::Create] succeeds:
    the function deletes an uninitialised pointer when it does not. *)
Definition options_ok (n : db_nif) (h : heap) (argv : list term) : Prop :=
  match n with
  | NGet | NMultiGet | NGetEntity => forall t, last argv = Some t -> options_valid h t
  | NCheckpoint created => created = true
  | _ => True
  end.

Lemma fold_table_defined table (t : term) :
  forallb (fun e => simple e.2) table = true ->
  exists o r, fold (parse_table table) t [] = Ok (o, r).
Proof.
  intros Ht. unfold fold.
  pose proof (fold_cells_defined (parse_table table) (list_cells t) []) as Hd.
  destruct (fold_cells (parse_table table) _ _) as [[o r]|]; [by exists o, r |].
  exfalso. apply Hd; [| done]. apply table_defined. apply Forall_forall. intros [k a] Hin v s.
  apply run_simple_defined.
  by apply (proj1 (forallb_forall _ _) Ht (k, a)), list_elem_of_In.
Qed.

(** The shape of most functions: the database, then the column family if given. *)
Lemma family_nif_neutral h t0 rest given (body : nat -> cfh -> dsys -> outcome (dsys * reply)) :
  ready 4 h -> valid_term h t0 -> Forall (valid_term h) rest ->
  (given = true -> (1 <= length rest)%nat) ->
  (forall h1 d c, ready 2 h1 -> (forall t', valid_term h t' -> valid_term h1 t') -> not_null c ->
     neutral h1 (body d c)) ->
  neutral h (on_db (t0 :: rest) (fun d => on_family given (t0 :: rest) (body d))).
Proof.
  intros Hr Hv0 Hv Hg Hb. apply (on_db_neutral 3); [done | done |]. intros h1 d Hr1 Hv1.
  apply (on_family_neutral 2 h1 given _ (default Tnil (rest !! 0%nat))); [done | |].
  - intros Hgt. specialize (Hg Hgt). destruct rest as [|t1 rest]; [cbn in Hg; lia |].
    split; [done |]. apply Hv1. by apply Forall_cons in Hv as [? _].
  - intros h2 c Hr2 Hv2 Hc. apply Hb; try done. intros t' Ht'. by apply Hv2, Hv1.
Qed.

(** The functions that look a column family up after the options. *)
Lemma read_nif_neutral h t0 rest given i
    (body : nat -> bytes -> struct -> cfh -> dsys -> outcome (dsys * reply)) :
  ready 4 h -> valid_term h t0 -> Forall (valid_term h) rest ->
  (given = true -> (1 <= length rest)%nat) ->
  (exists kt ot, (t0 :: rest) !! i = Some kt /\ (t0 :: rest) !! (S i) = Some ot /\ options_valid h ot) ->
  (forall h1 d k o c, not_null c -> neutral h1 (body d k o c)) ->
  neutral h (on_db (t0 :: rest) (fun d => with_binary (t0 :: rest) i (fun key s =>
    let! x := elem (t0 :: rest) (S i) in
    with_read_options x (fun o => on_family given (t0 :: rest) (body d key o)) s))).
Proof.
  intros Hr Hv0 Hv Hg (kt & ot & Hkt & Hot & Hov) Hb. apply (on_db_neutral 3); [done | done |]. intros h1 d Hr1 Hv1.
  eapply binary_neutral; [exact Hkt |]. intros key st. unfold elem. rewrite Hot. cbn [obind].
  apply read_options_neutral; [by apply (ready_le 3); [lia |] | by apply (options_valid_mono h) |].
  intros o. apply (on_family_neutral 2 h1 given _ (default Tnil (rest !! 0%nat))); [done | |].
  - intros Hgt. specialize (Hg Hgt). destruct rest as [|t1 rest]; [cbn in Hg; lia |].
    split; [done |]. apply Hv1. by apply Forall_cons in Hv as [? _].
  - intros h2 c _ _ Hc. by apply Hb.
Qed.

Lemma property_neutral h argv :
  ready 4 h -> Forall (valid_term h) argv -> (length argv = 2 \/ length argv = 3)%nat ->
  neutral h (GetProperty argv).
Proof.
  intros Hr Hv Hl st. destruct argv as [|t0 [|t1 rest]]; [cbn in Hl; lia | cbn in Hl; lia |].
  apply Forall_cons in Hv as [Hv0 Hv]. apply Forall_cons in Hv as [Hv1 _].
  unfold GetProperty, RetrieveDbObject, RetrieveColumnFamilyObject.
  cbn [elem lookup list_lookup obind d_heap d_store].
  destruct (retrieve_any 3 KDb h t0 Hr Hv0 ltac:(done)) as [-> | (d & o & -> & Ho & Hc & Ha & Hrel)];
    cbn [obind].
  { unfold assign. rewrite decide_True by done. by eexists _, _. }
  rewrite Ha. cbn [obind]. cbn [release] in Hrel. set (h1 := pinned h d o) in *.
  pose proof (pinned_ready 3 h d o Hr Ho Hc) as Hr1. fold h1 in Hr1.
  assert (Hd1 : exists o1, deref h1 d = Ok o1 /\ m_Native o1 = true).
  { destruct (Hr d o Ho Hc) as [Hn _]. unfold deref, h1, pinned. rewrite lookup_insert_eq. by eexists. }
  assert (Hn : exists nt, elem (t0 :: t1 :: rest) (if (length (t0 :: t1 :: rest) =? 3)%nat then 2 else 1)%nat = Ok nt).
  { destruct Hl as [Hl | Hl]; rewrite Hl; cbn [Nat.eqb]; [by eexists |].
    destruct rest; [cbn in Hl; lia | by eexists]. }
  destruct Hn as [nt ->]. cbn [obind].
  destruct (length (t0 :: t1 :: rest) =? 3)%nat.
  2: { cbn [obind]. unfold assign at 1. rewrite decide_True by done. cbn [obind release].
       destruct (enif_inspect_binary nt); [| rewrite Hrel; by eexists _, _].
       destruct Hd1 as (o1 & -> & Hn1). cbn [obind]. rewrite Hn1. cbn [negb obind release]. rewrite Hrel. by eexists _, _. }
  destruct (retrieve_any 2 KColumnFamily h1 t1 Hr1 (pinned_valid h d o t1 Ho Hv1) ltac:(done))
    as [-> | (c & co & -> & Hco & Hcc & Hca & Hcrel)]; cbn [obind].
  - unfold assign at 1. rewrite decide_True by done. cbn [obind release].
    destruct (enif_inspect_binary nt); [| rewrite Hrel; by eexists _, _].
    destruct Hd1 as (o1 & -> & Hn1). cbn [obind]. rewrite Hn1. cbn [negb obind release]. rewrite Hrel. by eexists _, _.
  - rewrite Hca. cbn [obind]. cbn [release] in Hcrel |- *.
    destruct (enif_inspect_binary nt); [| rewrite Hcrel; cbn [obind]; rewrite Hrel; by eexists _, _].
    assert (Hd2 : exists o2, deref (pinned h1 c co) d = Ok o2 /\ m_Native o2 = true).
    { destruct Hd1 as (o1 & Hd1 & Hn1). unfold deref, pinned in *. destruct (decide (d = c)) as [<- | Hne].
      - rewrite lookup_insert_eq. eexists. split; [done |]. cbn.
        rewrite Hco in Hd1. by simplify_eq.
      - rewrite lookup_insert_ne by done. by exists o1. }
    destruct Hd2 as (o2 & -> & Hn2). cbn [obind]. rewrite Hn2. cbn [negb].
    destruct (Hr1 c co Hco Hcc) as [Hcn _].
    unfold cf_pointer, deref, pinned at 1. rewrite lookup_insert_eq. cbn [obind m_Native set_refs].
    rewrite Hcn. cbn [use_cf obind release]. rewrite Hcrel. cbn [obind]. rewrite Hrel. by eexists _, _.
Qed.

(** The arguments of a call of known arity. *)
Ltac fixed_args argv Hl :=
  destruct argv as [|? [|? [|? [|? [|? [|? argv]]]]]]; try discriminate Hl.

(** Solve what is left once the arguments are known. *)
Ltac neutral_tac :=
  repeat match goal with
  | |- neutral _ (write_at _ _ _ _) => by apply write_neutral
  | |- neutral _ (admin_call _ _) => apply admin_neutral
  | |- neutral _ (void_call _ _) => apply void_neutral
  | |- neutral _ (with_binary _ _ _) => eapply binary_neutral; [reflexivity | intros ?]
  end.

(** A list of a length among two. *)
Lemma two_arities {A} (l : list A) a b : length l ∈ [a; b] -> length l = a \/ length l = b.
Proof. rewrite list_elem_of_In. intros [-> | [-> | []]]; tauto. Qed.

Lemma one_arity {A} (l : list A) a : length l ∈ [a] -> length l = a.
Proof. by rewrite list_elem_of_singleton. Qed.

Lemma write_nif_neutral n h argv :
  n ∈ [NPut; NMerge; NDelete; NSingleDelete; NDeleteRange; NPutEntity] ->
  ready 4 h -> Forall (valid_term h) argv -> length argv ∈ arities n ->
  neutral h (run_db_nif n argv).
Proof.
  intros Hn Hr Hv Hl. rewrite list_elem_of_In in Hn.
  destruct Hn as [<- | [<- | [<- | [<- | [<- | [<- | []]]]]]]; cbn [arities] in Hl;
    apply two_arities in Hl as [Hl | Hl]; fixed_args argv Hl;
    apply Forall_cons in Hv as [Hv0 Hv]; cbn [run_db_nif];
    unfold Put, Merge, Delete, SingleDelete, delete_with, DeleteRange, PutEntity; clear Hl;
    (apply family_nif_neutral; [done | done | done | cbn; lia |]); intros h1 d c Hr1 Hv1 Hc;
    cbn [length Nat.ltb Nat.leb Nat.eqb]; neutral_tac;
    intros st; cbn [elem lookup list_lookup obind].
  1-10: by apply write_neutral.
  all: destruct (enif_is_list _); cbn [negb]; [| by eexists _, _];
    destruct (mapM read_column _); [by apply write_neutral | by eexists _, _].
Qed.

Lemma get_nif_neutral n h argv :
  n ∈ [NGet; NGetEntity] -> ready 4 h -> Forall (valid_term h) argv -> length argv ∈ arities n ->
  options_ok n h argv -> neutral h (run_db_nif n argv).
Proof.
  intros Hn Hr Hv Hl Ho. rewrite list_elem_of_In in Hn.
  destruct Hn as [<- | [<- | []]]; cbn [arities options_ok] in *;
    apply two_arities in Hl as [Hl | Hl]; fixed_args argv Hl;
    apply Forall_cons in Hv as [Hv0 Hv]; cbn [run_db_nif]; unfold Get, GetEntity; clear Hl;
    cbn [length Nat.ltb Nat.leb Nat.eqb];
    (apply read_nif_neutral; [done | done | done | cbn; lia | eexists _, _; split_and!; try done; by apply Ho |]);
    intros h1 d k o c Hc; (apply use_neutral; [done | apply answer_neutral]).
Qed.

Lemma multi_get_neutral h argv :
  ready 4 h -> Forall (valid_term h) argv -> length argv ∈ [3; 4]%nat ->
  options_ok NMultiGet h argv -> neutral h (MultiGet argv).
Proof.
  intros Hr Hv Hl Ho. cbn [options_ok] in Ho.
  apply two_arities in Hl as [Hl | Hl]; fixed_args argv Hl;
    apply Forall_cons in Hv as [Hv0 Hv]; unfold MultiGet; clear Hl;
    (apply family_nif_neutral; [done | done | done | cbn; lia |]); intros h1 d c Hr1 Hv1 Hc st;
    cbn [length Nat.ltb Nat.leb Nat.eqb elem lookup list_lookup obind];
    (destruct (enif_get_list_length _) as [[|m]|]; [by eexists _, _ | | by eexists _, _]);
    (destruct (read_keys _); [| by eexists _, _]); cbn [elem lookup list_lookup obind];
    (apply read_options_neutral; [by apply (ready_le 2); [lia |]
       | apply (options_valid_mono h); [done | by apply Ho] |]);
    intros o; (apply use_neutral; [done | apply answer_neutral]).
Qed.

Lemma inspect_neutral n h argv :
  n ∈ [NGetApproximateSizes; NGetApproximateMemTableStats; NCompactRange] ->
  ready 4 h -> Forall (valid_term h) argv -> length argv ∈ arities n ->
  neutral h (run_db_nif n argv).
Proof.
  intros Hn Hr Hv Hl. rewrite list_elem_of_In in Hn.
  destruct Hn as [<- | [<- | [<- | []]]]; cbn [arities] in Hl;
    apply two_arities in Hl as [Hl | Hl]; fixed_args argv Hl;
    apply Forall_cons in Hv as [Hv0 Hv]; cbn [run_db_nif];
    unfold GetApproximateSizes, GetApproximateMemTableStats, CompactRange; clear Hl;
    (apply family_nif_neutral; [done | done | done | cbn; lia |]); intros h1 d c Hr1 Hv1 Hc;
    cbn [length Nat.ltb Nat.leb Nat.eqb]; neutral_tac; intros st;
    cbn [elem lookup list_lookup obind].
  1-2: (destruct (find_atom _ size_flags); [| by eexists _, _]); cbn [elem lookup list_lookup obind];
    (destruct (enif_get_list_length _); [| by eexists _, _]);
    (destruct (mapM read_column _); [| by eexists _, _]); destruct c; try done; by eexists _, _.
  1-2: destruct c; try done; cbn [use_cf]; destruct (lib_memtable_stats _ _ _ _ _); by eexists _, _.
  all: (destruct (range_bound _); [| by eexists _, _]); cbn [elem lookup list_lookup obind];
    (destruct (range_bound _); [| by eexists _, _]); cbn [elem lookup list_lookup obind];
    match goal with |- context [fold parse_compact_range_option ?t []] =>
      destruct (fold_table_defined compact_range_table t eq_refl) as (opts & r & E) end;
    unfold parse_compact_range_option; rewrite E; cbn [obind];
    destruct c; try done; apply admin_neutral.
Qed.

Lemma maintenance_neutral n h argv :
  n ∈ [NIsEmpty; NGetLatestSequenceNumber; NFlush; NSyncWal; NPauseBackgroundWork;
       NContinueBackgroundWork; NDisableManualCompaction; NEnableManualCompaction; NFlushWal;
       NSetDBBackgroundThreads; NCheckpoint true] ->
  ready 4 h -> Forall (valid_term h) argv -> length argv ∈ arities n ->
  neutral h (run_db_nif n argv).
Proof.
  intros Hn Hr Hv Hl. rewrite list_elem_of_In in Hn. cbn in Hn.
  repeat destruct Hn as [<- | Hn]; [..| done]; cbn [arities] in Hl; apply one_arity in Hl;
    fixed_args argv Hl; apply Forall_cons in Hv as [Hv0 Hv]; cbn [run_db_nif]; clear Hl;
    unfold IsEmpty, GetLatestSequenceNumber, Flush, SyncWal, PauseBackgroundWork,
      ContinueBackgroundWork, DisableManualCompaction, EnableManualCompaction, FlushWal,
      SetDBBackgroundThreads, Checkpoint;
    (apply (on_db_neutral 3); [done | done |]); intros h1 d Hr1 Hv1; neutral_tac;
    try (intros st; by eexists _, _); intros st; cbn [elem lookup list_lookup obind].
  - match goal with |- context [fold parse_flush_option ?t []] =>
      destruct (fold_table_defined flush_table t eq_refl) as (opts & r & E) end.
    unfold parse_flush_option. rewrite E. cbn [obind].
    destruct (is_atom _ _); [apply admin_neutral |].
    apply (with_ref_neutral 2); [done | | done |].
    { apply Hv1. by apply Forall_cons in Hv as [? _]. }
    intros h2 c Hr2 Hv2 Hp st2. cbn [d_heap]. rewrite Hp. cbn [obind use_cf]. apply admin_neutral.
  - destruct (enif_is_list _); cbn [negb]; [| by eexists _, _].
    match goal with |- context [fold parse_flush_wal_option ?t []] =>
      destruct (fold_table_defined flush_wal_table t eq_refl) as (opts & r & E) end.
    unfold parse_flush_wal_option. rewrite E. cbn [obind]. apply admin_neutral.
  - destruct (enif_get_int _); [| by eexists _, _]. cbn [length Nat.eqb]. apply void_neutral.
  - destruct (get_c_string _ _); [apply admin_neutral | by eexists _, _].
Qed.

Lemma db_nif_neutral n h argv :
  ready 4 h -> Forall (valid_term h) argv -> length argv ∈ arities n -> options_ok n h argv ->
  neutral h (run_db_nif n argv).
Proof.
  intros Hr Hv Hl Ho. destruct n; try (cbn [options_ok] in Ho; subst created).
  all: first
    [ apply write_nif_neutral; [rewrite list_elem_of_In; cbn; tauto | done | done | done]
    | apply get_nif_neutral; [rewrite list_elem_of_In; cbn; tauto | done | done | done | done]
    | by apply multi_get_neutral
    | apply inspect_neutral; [rewrite list_elem_of_In; cbn; tauto | done | done | done]
    | apply property_neutral; [done | done | by apply two_arities in Hl]
    | apply maintenance_neutral; [rewrite list_elem_of_In; cbn; tauto | done | done | done] ].
Qed.

(** On any arguments whose resources are allocated, in the arities of the
    function table, each data function returns (no path reaches undefined
    behaviour) and leaves every handle exactly as it found it, reference counts
    included.  (An open column family must still have its handle, and
    [Checkpoint::Create] succeed.) *)
Theorem db_nifs_neutral (n : db_nif) (s : dsys) (pins : list nat) (argv : list term) :
  INV (d_heap s) pins -> ample (d_heap s) pins -> cf_handles (d_heap s) ->
  Forall (valid_term (d_heap s)) argv -> length argv ∈ arities n -> options_ok n (d_heap s) argv ->
  exists s' r, run_db_nif n argv s = Ok (s', r) /\ d_heap s' = d_heap s.
Proof.
  intros HI Ha Hcf Hv Hl Ho. pose proof (ready_inv _ _ HI Ha Hcf) as Hr.
  enough (Hn : neutral (d_heap s) (run_db_nif n argv)).
  { destruct (Hn (d_store s)) as (st' & r & E). exists {| d_heap := d_heap s; d_store := st' |}, r.
    split; [| done]. rewrite <- E. by destruct s. }
  generalize dependent (d_heap s). clear s. intros h _ _ _ Hv Ho Hr.
  by apply db_nif_neutral.
Qed.

End Safe.

(** ** Witness *)

Module DbSafeWitness.
Import RefSystemWitness HandleNifWitness.

#[local] Instance safe_lib : DbLib := MapDb.map_lib (fun _ _ _ => None).

Definition cf_sys : dsys :=
  {| d_heap := h_cf; d_store := ({| MapDb.maps := fun _ _ => ∅; MapDb.snaps := ∅ |} : dbs) |}.

Lemma cf_native : cf_handles h_cf.
Proof.
  intros c o Hc _ _.
  assert (Hall : forallb (fun p => m_Native p.2) (map_to_list h_cf) = true) by (vm_compute; reflexivity).
  rewrite forallb_forall in Hall. apply (Hall (c, o)). by apply list_elem_of_In, elem_of_map_to_list.
Qed.

(** A put through a column-family handle whose value is not a binary. *)
Definition bad_put : list term := [Tres RDb 0; Tres RColumnFamily 1; Tbin []; Tint 5; Tnil].

Lemma db_nifs_neutral_witness :
  exists s' r, run_db_nif NPut bad_put cf_sys = Ok (s', r) /\ d_heap s' = h_cf.
Proof.
  apply (db_nifs_neutral NPut cf_sys [] bad_put).
  - apply inv_cf.
  - vm_compute. reflexivity.
  - apply cf_native.
  - repeat (apply Forall_cons; split); try (intros k id [=]; fail); [| | by apply Forall_nil_2].
    + intros k id [= Hk <-]. exists (the_obj h_cf 0). split; [look |]. by destruct k.
    + intros k id [= Hk <-]. exists (the_obj h_cf 1). split; [look |]. by destruct k.
  - cbn. rewrite list_elem_of_In. cbn. tauto.
  - exact I.
Defined.
End DbSafeWitness.
