(* ===== verification/Iter.v ===== *)
(** * Iterators

    [c_src/erocksdb_iter.cc]: the options of iterators, their creation (one, one per
    column family, or one over several), the moves, refresh, value preparation and
    columns.  [rocksdb::Iterator] is behind the class [IterLib].

    The bounds of an iterator are [Slice] objects on the C++ heap: the options
    RocksDB keeps point to them, and so does the object that deletes them.  They are
    modelled with their addresses, and an iterator that is moved after one of the
    slices it points to was deleted is undefined, as [rocksdb/options.h] requires
    them to outlive it. *)

From stdpp Require Import base list numbers strings gmap.
From Stdlib Require Import ZArith Lia Sorted.
From S2P Require Import Prelude StdMap Terms RefObjects WriteBatchLib CompactionFilter Options DbLib DbNif.

(** ** The library *)

Inductive move := MFirst | MLast | MNext | MPrev | MSeek (k : bytes) | MSeekForPrev (k : bytes).

(** The contents of [iterate_upper_bound] and [iterate_lower_bound]. *)
Record bounds := { b_upper : option bytes; b_lower : option bytes }.

Class IterLib `{L : DbLib} := {
  itr : Type;
  lib_new_iterator : dbs -> nat -> struct -> cfh -> itr;
  lib_new_iterators : dbs -> nat -> struct -> list cfh -> list itr;
  lib_coalescing : dbs -> nat -> struct -> list cfh -> option itr;
  itr_move : move -> bounds -> itr -> itr;
  itr_refresh : dbs -> itr -> itr * Status;
  itr_prepare : itr -> itr * bool;
  itr_valid : itr -> bool;
  itr_status : itr -> Status;
  itr_key : itr -> bytes;
  itr_value : itr -> bytes;
  itr_columns : itr -> columns;
}.

(** ** State *)

(** [ItrBounds]: addresses of slices. *)
Record ItrBounds := { upper_bound_slice : option nat; lower_bound_slice : option nat }.

(** An iterator of RocksDB with the addresses its options hold, and the members of
    the [ItrObject] that owns it. *)
Record itr_rec `{IterLib} := {
  m_Iterator : itr;
  r_opts : ItrBounds;
  r_own : ItrBounds;
}.

Record isys `{IterLib} := {
  i_db : dsys;
  i_slices : gmap nat bytes;
  i_iters : gmap nat itr_rec;
}.

Section Nifs.
Context `{IL : IterLib}.

Definition no_bounds : ItrBounds := {| upper_bound_slice := None; lower_bound_slice := None |}.

(** [new rocksdb::Slice(...)] *)
Definition new_slice (b : bytes) (sl : gmap nat bytes) : gmap nat bytes * nat :=
  let a := fresh (dom sl : gset nat) in (<[a := b]> sl, a).

(** [delete p], which does nothing for a null pointer. *)
Definition delete_slice (p : option nat) (sl : gmap nat bytes) : outcome (gmap nat bytes) :=
  match p with
  | None => Ok sl
  | Some a => match sl !! a with Some _ => Ok (delete a sl) | None => Undef end
  end.

Definition delete_bounds (b : ItrBounds) (sl : gmap nat bytes) : outcome (gmap nat bytes) :=
  let! sl1 := delete_slice (upper_bound_slice b) sl in delete_slice (lower_bound_slice b) sl1.

(** ** Options *)

Record pstate := { p_heap : heap; p_slices : gmap nat bytes; p_opts : struct; p_bounds : ItrBounds }.

Definition iter_table : list (string * action) :=
  [ ("verify_checksums", ABool "verify_checksums");
    ("fill_cache", ABool "fill_cache");
    ("tailing", ABool "tailing");
    ("total_order_seek", ABool "total_order_seek");
    ("prefix_same_as_start", ABool "prefix_same_as_start");
    ("auto_refresh_iterator_with_snapshot", ABool "auto_refresh_iterator_with_snapshot");
    ("auto_readahead_size", ABool "auto_readahead_size");
    ("allow_unprepared_value", ABool "allow_unprepared_value");
    ("readahead_size", AUint64 "readahead_size");
    ("async_io", ABool "async_io") ]%string.

(** The result says whether to go on; [return 0] otherwise. *)
Definition parse_upper (v : term) (p : pstate) : outcome (pstate * bool) :=
  match enif_inspect_binary v with
  | None => Ok (p, false)
  | Some b =>
      let '(sl, a) := new_slice b (p_slices p) in
      Ok ({| p_heap := p_heap p; p_slices := sl; p_opts := p_opts p;
             p_bounds := {| upper_bound_slice := Some a;
                            lower_bound_slice := lower_bound_slice (p_bounds p) |} |}, true)
  end.

Definition parse_lower (v : term) (p : pstate) : outcome (pstate * bool) :=
  match enif_inspect_binary v with
  | None =>
      let! sl := delete_slice (upper_bound_slice (p_bounds p)) (p_slices p) in
      Ok ({| p_heap := p_heap p; p_slices := sl; p_opts := p_opts p;
             p_bounds := {| upper_bound_slice := None;
                            lower_bound_slice := lower_bound_slice (p_bounds p) |} |}, false)
  | Some b =>
      let '(sl, a) := new_slice b (p_slices p) in
      Ok ({| p_heap := p_heap p; p_slices := sl; p_opts := p_opts p;
             p_bounds := {| upper_bound_slice := upper_bound_slice (p_bounds p);
                            lower_bound_slice := Some a |} |}, true)
  end.

Definition parse_iter_snapshot (v : term) (p : pstate) : outcome (pstate * bool) :=
  let! (acc, r) := parse_snapshot v (p_heap p, p_opts p) in
  if is_atom "ok" r
  then Ok ({| p_heap := acc.1; p_slices := p_slices p; p_opts := acc.2; p_bounds := p_bounds p |}, true)
  else
    let! sl := delete_bounds (p_bounds p) (p_slices p) in
    Ok ({| p_heap := acc.1; p_slices := sl; p_opts := acc.2; p_bounds := no_bounds |}, false).

Definition parse_iterator_option (item : term) (p : pstate) : outcome (pstate * bool) :=
  match enif_get_tuple item with
  | Some [key; v] =>
      if is_atom "iterate_upper_bound" key then parse_upper v p
      else if is_atom "iterate_lower_bound" key then parse_lower v p
      else if is_atom "snapshot" key then parse_iter_snapshot v p
      else
        let! (o, _) := parse_table iter_table item (p_opts p) in
        Ok ({| p_heap := p_heap p; p_slices := p_slices p; p_opts := o; p_bounds := p_bounds p |}, true)
  | _ => Ok (p, true)
  end.

Fixpoint parse_iterator_cells (l : list term) (p : pstate) : outcome (pstate * bool) :=
  match l with
  | [] => Ok (p, true)
  | item :: r =>
      let! (p1, go_on) := parse_iterator_option item p in
      if go_on then parse_iterator_cells r p1 else Ok (p1, false)
  end.

Definition parse_iterator_options (t : term) (p : pstate) : outcome (pstate * bool) :=
  if negb (enif_is_list t) then Ok (p, false) else parse_iterator_cells (list_cells t) p.

(** ** Creation *)

Definition start (s : isys) : pstate :=
  {| p_heap := d_heap (i_db s); p_slices := i_slices s; p_opts := []; p_bounds := no_bounds |}.

Definition with_parsed (s : isys) (p : pstate) : isys :=
  {| i_db := set_heap (i_db s) (p_heap p); i_slices := p_slices p; i_iters := i_iters s |}.

Definition with_iheap (s : isys) (h : heap) : isys :=
  {| i_db := set_heap (i_db s) h; i_slices := i_slices s; i_iters := i_iters s |}.

Definition with_slices (s : isys) (sl : gmap nat bytes) : isys :=
  {| i_db := i_db s; i_slices := sl; i_iters := i_iters s |}.

Definition with_itr (s : isys) (id : nat) (r : itr_rec) : isys :=
  {| i_db := i_db s; i_slices := i_slices s; i_iters := <[id := r]> (i_iters s) |}.

Definition iheap (s : isys) : heap := d_heap (i_db s).

(** [if(!enif_get_db(...)) return badarg] and the end of its scope. *)
Definition with_iref (k : obj_kind) (t : term) (body : nat -> isys -> outcome (isys * reply))
    (s : isys) : outcome (isys * reply) :=
  let! (h1, p) := get_ref k (iheap s) t in
  match p with
  | None => Ok (with_iheap s h1, Badarg)
  | Some id =>
      let! (s2, r) := body id (with_iheap s h1) in
      let! h3 := release (iheap s2) p in
      Ok (with_iheap s2 h3, r)
  end.

(** [CreateItrObject] and the two [Set...BoundSlice]. *)
Definition create_itr (d : nat) (i : itr) (opts own : ItrBounds) (s : isys) : outcome (isys * nat) :=
  let! (h1, id) := CreateItrObject (iheap s) d in
  Ok (with_itr (with_iheap s h1) id {| m_Iterator := i; r_opts := opts; r_own := own |}, id).

(** The new iterator owns the slices its options point to. *)
Definition Iterator (argv : list term) (s : isys) : outcome (isys * reply) :=
  let! t0 := elem argv 0 in
  with_iref KDb t0 (fun d s =>
    let given := (length argv =? 3)%nat in
    let! ot := elem argv (if given then 2%nat else 1%nat) in
    if negb (enif_is_list ot) then Ok (s, Badarg)
    else
      let! (p, ok) := parse_iterator_options ot (start s) in
      let s1 := with_parsed s p in
      if negb ok then Ok (s1, Badarg)
      else
        if given then
          let! t1 := elem argv 1 in
          let! (h2, cf) := enif_get_cf (iheap s1) t1 in
          match cf with
          | None =>
              let! sl := delete_bounds (p_bounds p) (i_slices s1) in
              Ok (with_slices (with_iheap s1 h2) sl, Badarg)
          | Some c =>
              let! f := cf_pointer h2 c in
              use_cf f (
                let i := lib_new_iterator (d_store (i_db s1)) d (p_opts p) f in
                let! h3 := release h2 cf in
                let! (s2, id) := create_itr d i (p_bounds p) (p_bounds p) (with_iheap s1 h3) in
                Ok (s2, Reply (Ttuple [ATOM_OK; Tres RItr id])))
          end
        else
          let i := lib_new_iterator (d_store (i_db s1)) d (p_opts p) DefaultCf in
          let! (s2, id) := create_itr d i (p_bounds p) (p_bounds p) s1 in
          Ok (s2, Reply (Ttuple [ATOM_OK; Tres RItr id]))) s.

(** The column families of a list; each is pinned only while its pointer is read. *)
Fixpoint family_list (l : list term) (h : heap) : outcome (heap * option (list cfh)) :=
  match l with
  | [] => Ok (h, Some [])
  | t :: r =>
      let! p := RetrieveColumnFamilyObject h t in
      let! h1 := assign h None p in
      match p with
      | None => Ok (h1, None)
      | Some c =>
          let! f := cf_pointer h1 c in
          let! h2 := release h1 p in
          let! (h3, rest) := family_list r h2 in
          Ok (h3, (fun fs => f :: fs) <$> rest)
      end
  end.

(** A copy of a slice for one iterator. *)
Definition clone_slice (p : option nat) (sl : gmap nat bytes) : outcome (gmap nat bytes * option nat) :=
  match p with
  | None => Ok (sl, None)
  | Some a => match sl !! a with
              | None => Undef
              | Some b => let '(sl1, a1) := new_slice b sl in Ok (sl1, Some a1)
              end
  end.

(** The loop of [Iterators]: the objects own clones, the options of RocksDB point to
    the original slices. *)
Fixpoint create_iterators (d : nat) (its : list itr) (b : ItrBounds) (s : isys) (acc : list nat) :
    outcome (isys * list nat) :=
  match its with
  | [] => Ok (s, acc)
  | i :: r =>
      let! (s1, id) := create_itr d i b no_bounds s in
      let! (sl1, u) := clone_slice (upper_bound_slice b) (i_slices s1) in
      let! (sl2, l) := clone_slice (lower_bound_slice b) sl1 in
      let s2 := with_itr (with_slices s1 sl2) id
        {| m_Iterator := i; r_opts := b; r_own := {| upper_bound_slice := u; lower_bound_slice := l |} |} in
      create_iterators d r b s2 (acc ++ [id])
  end.

Definition Iterators (argv : list term) (s : isys) : outcome (isys * reply) :=
  let! t0 := elem argv 0 in
  with_iref KDb t0 (fun d s =>
    let! ct := elem argv 1 in
    let! ot := elem argv 2 in
    if negb (enif_is_list ct && enif_is_list ot) then Ok (s, Badarg)
    else
      let! (p, ok) := parse_iterator_options ot (start s) in
      let s1 := with_parsed s p in
      if negb ok then Ok (s1, Badarg)
      else
        let! (h2, fams) := family_list (list_cells ct) (iheap s1) in
        match fams with
        | None =>
            let! sl := delete_bounds (p_bounds p) (i_slices s1) in
            Ok (with_slices (with_iheap s1 h2) sl, Badarg)
        | Some fs =>
            let its := lib_new_iterators (d_store (i_db s1)) d (p_opts p) fs in
            let! (s3, ids) := create_iterators d its (p_bounds p) (with_iheap s1 h2) [] in
            let! sl := delete_bounds (p_bounds p) (i_slices s3) in
            Ok (with_slices s3 sl, Reply (Ttuple [ATOM_OK; make_list (Tres RItr <$> ids)]))
        end) s.

Definition CoalescingIterator (argv : list term) (s : isys) : outcome (isys * reply) :=
  let! t0 := elem argv 0 in
  with_iref KDb t0 (fun d s =>
    let! ct := elem argv 1 in
    let! ot := elem argv 2 in
    if negb (enif_is_list ct && enif_is_list ot) then Ok (s, Badarg)
    else
      let! (p, ok) := parse_iterator_options ot (start s) in
      let s1 := with_parsed s p in
      if negb ok then
        let! sl := delete_bounds (p_bounds p) (i_slices s1) in Ok (with_slices s1 sl, Badarg)
      else
        let! (h2, fams) := family_list (list_cells ct) (iheap s1) in
        match fams with
        | None =>
            let! sl := delete_bounds (p_bounds p) (i_slices s1) in
            Ok (with_slices (with_iheap s1 h2) sl, Badarg)
        | Some fs =>
            match lib_coalescing (d_store (i_db s1)) d (p_opts p) fs with
            | None =>
                let! sl := delete_bounds (p_bounds p) (i_slices s1) in
                Ok (with_slices (with_iheap s1 h2) sl,
                    Reply (error_tuple ATOM_ERROR
                      {| code := kNotSupported;
                         to_text := "Not implemented: CoalescingIterator not available" |}))
            | Some i =>
                let! (s3, id) := create_itr d i (p_bounds p) (p_bounds p) (with_iheap s1 h2) in
                Ok (s3, Reply (Ttuple [ATOM_OK; Tres RItr id]))
            end
        end) s.

(** ** Moves *)

(** What a pointer of the options reads as. *)
Definition read_slice (p : option nat) (sl : gmap nat bytes) : outcome (option bytes) :=
  match p with
  | None => Ok None
  | Some a => match sl !! a with Some b => Ok (Some b) | None => Undef end
  end.

Definition read_bounds (b : ItrBounds) (sl : gmap nat bytes) : outcome bounds :=
  let! u := read_slice (upper_bound_slice b) sl in
  let! l := read_slice (lower_bound_slice b) sl in
  Ok {| b_upper := u; b_lower := l |}.

Definition invalid_iterator : term := Ttuple [ATOM_ERROR; ATOM_INVALID_ITERATOR].

(** The end of a move: the entry the iterator is at. *)
Definition entry_reply (i : itr) : term :=
  if negb (itr_valid i) then invalid_iterator
  else if negb (status_ok (itr_status i)) then error_tuple ATOM_ERROR (itr_status i)
  else Ttuple [ATOM_OK; slice_to_binary (itr_key i); slice_to_binary (itr_value i)].

(** A move of RocksDB reads the bounds its options point to. *)
Definition do_move (m : move) (o : ItrBounds) (sl : gmap nat bytes) (i : itr) : outcome itr :=
  let! b := read_bounds o sl in Ok (itr_move m b i).

Definition when_atom (name : string) (t : term) (step : itr -> outcome itr) (i : itr) : outcome itr :=
  if is_atom name t then step i else Ok i.

(** A move given as an atom; any other atom only reads the current entry. *)
Definition atom_move (t : term) (o : ItrBounds) (sl : gmap nat bytes) (i : itr) : outcome (itr * reply) :=
  let! i1 := when_atom "first" t (do_move MFirst o sl) i in
  let! i2 := when_atom "last" t (do_move MLast o sl) i1 in
  if negb (itr_valid i2) then Ok (i2, Reply invalid_iterator)
  else
    let! i3 := when_atom "next" t (do_move MNext o sl) i2 in
    let! i4 := when_atom "prev" t (do_move MPrev o sl) i3 in
    Ok (i4, Reply (entry_reply i4)).

Definition seek_move (m : bytes -> move) (t : term) (o : ItrBounds) (sl : gmap nat bytes) (i : itr) :
    outcome (itr * reply) :=
  match binary_to_slice t with
  | None => Ok (i, Reply error_einval)
  | Some k => let! i1 := do_move (m k) o sl i in Ok (i1, Reply (entry_reply i1))
  end.

Definition run_move (t : term) (o : ItrBounds) (sl : gmap nat bytes) (i : itr) : outcome (itr * reply) :=
  if enif_is_atom t then atom_move t o sl i
  else match enif_get_tuple t with
       | Some [how; k] =>
           if is_atom "seek_for_prev" how then seek_move MSeekForPrev k o sl i
           else if is_atom "seek" how then seek_move MSeek k o sl i
           else Ok (i, Badarg)
       | Some _ => Ok (i, Badarg)
       | None => seek_move MSeek t o sl i
       end.

(** A call on an iterator: its object is pinned during the call. *)
Definition on_itr (argv : list term) (body : itr_rec -> isys -> outcome (itr * reply)) (s : isys) :
    outcome (isys * reply) :=
  let! t0 := elem argv 0 in
  with_iref KItr t0 (fun id s =>
    match i_iters s !! id with
    | None => Undef
    | Some r =>
        let! (i, rep) := body r s in
        Ok (with_itr s id {| m_Iterator := i; r_opts := r_opts r; r_own := r_own r |}, rep)
    end) s.

Definition IteratorMove (argv : list term) : isys -> outcome (isys * reply) :=
  on_itr argv (fun r s =>
    let! t := elem argv 1 in
    run_move t (r_opts r) (i_slices s) (m_Iterator r)).

Definition IteratorRefresh (argv : list term) : isys -> outcome (isys * reply) :=
  on_itr argv (fun r s =>
    let! _ := read_bounds (r_opts r) (i_slices s) in
    let '(i, status) := itr_refresh (d_store (i_db s)) (m_Iterator r) in
    Ok (i, Reply (status_term status))).

Definition IteratorPrepareValue (argv : list term) : isys -> outcome (isys * reply) :=
  on_itr argv (fun r s =>
    let i := m_Iterator r in
    if negb (itr_valid i) then Ok (i, Reply invalid_iterator)
    else
      let '(i1, ok) := itr_prepare i in
      Ok (i1, Reply (if ok then ATOM_OK else error_tuple ATOM_ERROR (itr_status i1)))).

Definition IteratorColumns (argv : list term) : isys -> outcome (isys * reply) :=
  on_itr argv (fun r s =>
    let i := m_Iterator r in
    Ok (i, Reply (if negb (itr_valid i) then invalid_iterator
                  else if negb (status_ok (itr_status i)) then error_tuple ATOM_ERROR (itr_status i)
                  else Ttuple [ATOM_OK; column_list (itr_columns i)]))).

End Nifs.
