(* ===== verification/IterSpec.v ===== *)
(** * Iterators: what they promise

    [IterLaws] states what [rocksdb/iterator_base.h] and [rocksdb/options.h] document
    of an iterator as a cursor over the sorted contents of a column family.  The
    theorems show that the moves of [IteratorMove] follow that cursor, that a read error
    looks like the end of the data, and that the iterators of [rocksdb:iterators/3]
    keep pointers to deleted bounds. *)

From stdpp Require Import base list numbers strings gmap sorting.
From Stdlib Require Import ZArith Lia Sorted.
From S2P Require Import Prelude StdMap Terms Erl RefObjects WriteBatchLib CompactionFilter Options RefSystem DbLib DbNif DbSpec Iter.

(** ** The cursor *)

Abbreviation item := (bytes * columns)%type.

Section Cursor.
Context (lt : bytes -> bytes -> bool).

(** [iterate_lower_bound] is inclusive, [iterate_upper_bound] exclusive. *)
Definition in_bounds (b : bounds) (k : bytes) : bool :=
  match b_lower b with Some l => negb (lt k l) | None => true end &&
  match b_upper b with Some u => lt k u | None => true end.

Definition within (b : bounds) (l : list item) : list item := filter (fun e => in_bounds b e.1 = true) l.

Definition after (k : bytes) (l : list item) : list item := filter (fun e => lt k e.1 = true) l.
Definition before (k : bytes) (l : list item) : list item := filter (fun e => lt e.1 k = true) l.

(** Where a move from [cur] leads in the ordered list [l]. *)
Definition cursor (m : move) (l : list item) (cur : option item) : option item :=
  match m with
  | MFirst => head l
  | MLast => last l
  | MNext => cur ≫= fun e => head (after e.1 l)
  | MPrev => cur ≫= fun e => last (before e.1 l)
  | MSeek k => head (filter (fun e => lt e.1 k = false) l)
  | MSeekForPrev k => last (filter (fun e => lt k e.1 = false) l)
  end.

(** The places a sequence of moves visits; a move flagged as failed loses its place. *)
Fixpoint visits (l : list item) (cur : option item) (ms : list (move * bool)) : list (option item) :=
  match ms with
  | [] => []
  | (m, failed) :: r =>
      let next := if failed : bool then None else cursor m l cur in
      next :: visits l next r
  end.

End Cursor.

Definition is_step (m : move) : bool := match m with MNext | MPrev => true | _ => false end.

(** ** The laws *)

(** Options that leave the order and the values of a scan alone. *)
Definition flag_set (f : string) (o : struct) : bool :=
  match sget f o with Some (VBool b) => b | _ => false end.

Definition plain_scan (o : struct) : bool :=
  negb (flag_set "tailing" o) && negb (flag_set "prefix_same_as_start" o) &&
  negb (flag_set "allow_unprepared_value" o).

(** What a scan of a column family finds. *)
Definition contents (merge : bytes -> option bytes -> list bytes -> option bytes)
    (m : gmap bytes entry) (l : list item) : Prop :=
  forall k c, (k, c) ∈ l <-> resolved merge m k = Some c.

(** [ordered]: the iterator walks a fixed, totally ordered source and its values are
    loaded.  [Valid()] is false when the status is not OK, and a failed move leaves
    the iterator at no place. *)
Class IterLaws `{IL : IterLib} {DL : DbLaws L} := {
  ordered : itr -> Prop;
  source : itr -> list item;
  source_lt : itr -> bytes -> bytes -> bool;
  place : itr -> option item;
  prefix_extractor : nat -> Z -> bool;
  ordered_source : forall i, ordered i ->
    StrictOrder (fun a b => source_lt i a b = true) /\
    StronglySorted (fun a b => source_lt i a.1 b.1 = true) (source i);
  move_frame : forall m b i, ordered i ->
    let i' := itr_move m b i in
    ordered i' /\ source i' = source i /\ source_lt i' = source_lt i;
  move_place : forall m b i, ordered i -> (is_step m = true -> itr_valid i = true) ->
    let i' := itr_move m b i in
    status_ok (itr_status i') = true ->
    place i' = cursor (source_lt i) m (within (source_lt i) b (source i)) (place i);
  valid_status : forall i, itr_valid i = true -> status_ok (itr_status i) = true;
  valid_place : forall i, ordered i -> status_ok (itr_status i) = true ->
    itr_valid i = bool_decide (is_Some (place i));
  entry_place : forall i e, ordered i -> itr_valid i = true -> place i = Some e ->
    itr_key i = e.1 /\ itr_value i = default_value e.2 /\ itr_columns i = e.2;
  new_iterator : forall s d o c f m,
    family s d c = Some f -> plain_read o = true -> plain_scan o = true ->
    (flag_set "total_order_seek" o = true \/ prefix_extractor d f = false) ->
    read_map_of snap view s d o f = Some m ->
    let i := lib_new_iterator s d o c in
    ordered i /\ source_lt i = key_lt d f /\ contents (full_merge d f) m (source i) /\
    itr_valid i = false;
}.

Lemma filter_none {A} (P : A -> Prop) `{!forall x, base.Decision (P x)} (l : list A) :
  Forall (fun x => ~ P x) l -> filter P l = [].
Proof. induction 1; [done |]. by rewrite filter_cons_False. Qed.

Lemma filter_all {A} (P : A -> Prop) `{!forall x, base.Decision (P x)} (l : list A) :
  Forall P l -> filter P l = l.
Proof. induction 1; [done |]. rewrite filter_cons_True by done. by f_equal. Qed.

Lemma filter_sorted {A} (R : A -> A -> Prop) (P : A -> Prop) `{!forall x, base.Decision (P x)} (l : list A) :
  StronglySorted R l -> StronglySorted R (filter P l).
Proof.
  induction 1 as [|a l Hs IH Hall]; [constructor |]. rewrite filter_cons. case_decide; [| done].
  constructor; [done |]. rewrite Forall_forall in *. intros x Hx.
  apply list_elem_of_filter in Hx as [_ Hx]. by apply Hall.
Qed.

(** How [fold_loop] ends: with the accumulator, with the throw of a closed iterator
    ([{iterator_closed, Acc}]), with an exception, or not within the fuel. *)
Inductive folded (A : Type) := Folded (a : A) | Throws (a : A) | Raises (reason : term) | OutOfFuel.
Arguments Folded {A} a.
Arguments Throws {A} a.
Arguments Raises {A} reason.
Arguments OutOfFuel {A}.

Definition ended {A : Type} (r : erl A) : folded A :=
  match r with Val a => Folded a | Err e => Raises e end.

Section Moves.
Context `{IW : IterLaws}.

(** The call that asks for a move. *)
Definition move_term (m : move) : term :=
  match m with
  | MFirst => Tatom "first"
  | MLast => Tatom "last"
  | MNext => Tatom "next"
  | MPrev => Tatom "prev"
  | MSeek k => Ttuple [Tatom "seek"; Tbin k]
  | MSeekForPrev k => Ttuple [Tatom "seek_for_prev"; Tbin k]
  end.

Fixpoint run_moves (id : nat) (ms : list move) (s : isys) : outcome (isys * list reply) :=
  match ms with
  | [] => Ok (s, [])
  | m :: r =>
      let! (s1, rep) := IteratorMove [Tres RItr id; move_term m] s in
      let! (s2, reps) := run_moves id r s1 in
      Ok (s2, rep :: reps)
  end.

(** The reply for a place of the cursor. *)
Definition place_term (e : option item) : term :=
  match e with
  | Some e => Ttuple [ATOM_OK; Tbin e.1; Tbin (default_value e.2)]
  | None => invalid_iterator
  end.

(** The place of an iterator as its user sees it. *)
Definition seen_place (i : itr) : option item := if itr_valid i then place i else None.

Lemma entry_reply_place i : ordered i -> entry_reply i = place_term (seen_place i).
Proof.
  intros Ho. unfold entry_reply, seen_place. destruct (itr_valid i) eqn:Ev; [| done].
  cbn [negb]. pose proof (valid_status i Ev) as Hs. rewrite Hs.
  rewrite (valid_place i Ho Hs), bool_decide_eq_true in Ev. destruct Ev as [e He].
  assert (Ev : itr_valid i = true) by (rewrite (valid_place i Ho Hs), He; done).
  destruct (entry_place i e Ho Ev He) as (Hk & Hv & _). rewrite He. cbn [place_term].
  by rewrite Hk, Hv.
Qed.

(** One move of the library, seen by the user. *)
Lemma move_seen m b i :
  ordered i -> (is_step m = true -> itr_valid i = true) ->
  let i' := itr_move m b i in
  exists failed : bool, failed = negb (status_ok (itr_status i')) /\
    seen_place i' = if failed then None
                    else cursor (source_lt i) m (within (source_lt i) b (source i)) (seen_place i).
Proof.
  intros Ho Hm i'. exists (negb (status_ok (itr_status i'))). split; [done |].
  destruct (move_frame m b i Ho) as (Ho' & _ & _). fold i' in Ho'.
  unfold seen_place at 1. destruct (status_ok (itr_status i')) eqn:Es; cbn [negb].
  - pose proof (move_place m b i Ho Hm Es) as Hp. fold i' in Hp.
    pose proof (valid_place i' Ho' Es) as Hv.
    transitivity (place i').
    { rewrite Hv. by destruct (place i') eqn:E. }
    rewrite Hp. destruct m; try done; unfold seen_place; by rewrite Hm.
  - destruct (itr_valid i') eqn:Ev; [| done]. apply valid_status in Ev. congruence.
Qed.

(** The iterator [id] of [s]: usable, over [l] with comparator [lt], its bounds alive. *)
Definition itr_ready (id : nat) (lt : bytes -> bytes -> bool) (l : list item) (cur : option item)
    (s : isys) : Prop :=
  usable (iheap s) KItr id = true /\ db_open (iheap s) id = true /\
  exists r b, i_iters s !! id = Some r /\ ordered (m_Iterator r) /\
    read_bounds (r_opts r) (i_slices s) = Ok b /\ source_lt (m_Iterator r) = lt /\
    within lt b (source (m_Iterator r)) = l /\ seen_place (m_Iterator r) = cur.

(** The members an [ItrObject] deletes. *)
Definition own_bounds (id : nat) (s : isys) : option ItrBounds := r_own <$> i_iters s !! id.

(** The same system but for the iterator [id], which owns what it owned. *)
Definition same_but (id : nat) (s s' : isys) : Prop :=
  i_db s' = i_db s /\ i_slices s' = i_slices s /\
  delete id (i_iters s') = delete id (i_iters s) /\ own_bounds id s' = own_bounds id s.

Lemma same_but_refl id s : same_but id s s.
Proof. done. Qed.

Lemma same_but_trans id s1 s2 s3 : same_but id s1 s2 -> same_but id s2 s3 -> same_but id s1 s3.
Proof. intros (H1 & H2 & H3 & H4) (K1 & K2 & K3 & K4). split_and!; congruence. Qed.

Lemma ready_some id lt l cur s : itr_ready id lt l cur s -> is_Some (i_iters s !! id).
Proof. intros (_ & _ & r & b & Hr & _). by exists r. Qed.

Lemma ready_sorted id lt l cur s :
  itr_ready id lt l cur s ->
  StrictOrder (fun a b => lt a b = true) /\ StronglySorted (fun a b : item => lt a.1 b.1 = true) l.
Proof.
  intros (_ & _ & r & b & _ & Ho & _ & <- & <- & _). destruct (ordered_source _ Ho) as [Hlt Hs].
  split; [done | by apply filter_sorted].
Qed.

Lemma on_itr_ok id argv (body : itr_rec -> isys -> outcome (itr * reply)) s r i rep :
  usable (iheap s) KItr id = true -> db_open (iheap s) id = true -> i_iters s !! id = Some r ->
  (forall s1, i_slices s1 = i_slices s -> body r s1 = Ok (i, rep)) ->
  on_itr (Tres RItr id :: argv) body s =
    Ok (with_itr s id {| m_Iterator := i; r_opts := r_opts r; r_own := r_own r |}, rep).
Proof.
  intros Hu Hd Hr Hb. destruct (usable_pin_any _ KItr id Hu ltac:(done)) as (o & Ho & _ & _ & Hget & Hrel & _).
  unfold on_itr. cbn [elem lookup list_lookup obind]. unfold with_iref.
  change (Tres RItr id) with (Tres (res_kind_of KItr) id). rewrite Hget. cbn [obind].
  cbn [with_iheap i_iters]. rewrite Hr, Hb by done. cbn [obind].
  change (iheap (with_itr (with_iheap s (pinned (iheap s) id o)) id
            {| m_Iterator := i; r_opts := r_opts r; r_own := r_own r |})) with (pinned (iheap s) id o).
  rewrite Hrel. cbn [obind]. by destruct s as [[hp st] sl it].
Qed.

Lemma run_move_term m o sl b i :
  ordered i -> read_bounds o sl = Ok b ->
  exists i', run_move (move_term m) o sl i = Ok (i', Reply (place_term (seen_place i'))) /\
    (i' = itr_move m b i /\ (is_step m = true -> itr_valid i = true) \/
     i' = i /\ is_step m = true /\ itr_valid i = false).
Proof.
  intros Ho Hb.
  assert (Hend : forall i1, ordered i1 -> itr_valid i1 = false ->
    invalid_iterator = place_term (seen_place i1)).
  { intros i1 _ Hv. unfold seen_place. by rewrite Hv. }
  assert (Hmv : forall m, entry_reply (itr_move m b i) = place_term (seen_place (itr_move m b i))).
  { intros m'. apply entry_reply_place, (move_frame m' b i Ho). }
  destruct m; unfold run_move, atom_move, seek_move, when_atom, do_move;
    cbn [move_term enif_is_atom enif_get_tuple]; eval_atoms;
    cbn [binary_to_slice enif_inspect_binary]; rewrite ?Hb; cbn [obind].
  1, 2: eexists; (split; [| by left]); rewrite <- Hmv; unfold entry_reply;
        by destruct (itr_valid _).
  1, 2: destruct (itr_valid i) eqn:Ev; cbn [negb obind];
        [ eexists; (split; [by rewrite Hmv | by left])
        | exists i; (split; [by rewrite <- (Hend i) | by right]) ].
  1, 2: eexists; (split; [by rewrite Hmv | by left]).
Qed.

(** The RocksDB iterator of [id] reports an error. *)
Definition library_failed (id : nat) (s : isys) : bool :=
  match i_iters s !! id with Some r => negb (status_ok (itr_status (m_Iterator r))) | None => false end.

Lemma failed_status id s r :
  library_failed id s = true -> i_iters s !! id = Some r -> status_ok (itr_status (m_Iterator r)) = false.
Proof. unfold library_failed. intros H Hr. rewrite Hr in H. by apply negb_true_iff. Qed.

Lemma cursor_step_none lt m l : is_step m = true -> cursor lt m l None = None.
Proof. by destruct m. Qed.

Lemma move_step id lt l cur m s :
  itr_ready id lt l cur s ->
  exists s' (failed : bool), let cur' := if failed then None else cursor lt m l cur in
    IteratorMove [Tres RItr id; move_term m] s = Ok (s', Reply (place_term cur')) /\
    itr_ready id lt l cur' s' /\ same_but id s s' /\ failed = library_failed id s'.
Proof.
  intros (Hu & Hd & r & b & Hr & Ho & Hb & <- & <- & <-).
  destruct (run_move_term m (r_opts r) (i_slices s) b (m_Iterator r) Ho Hb) as (i' & Hrun & Hi').
  set (s' := with_itr s id {| m_Iterator := i'; r_opts := r_opts r; r_own := r_own r |}).
  assert (Hcall : IteratorMove [Tres RItr id; move_term m] s =
                    Ok (s', Reply (place_term (seen_place i')))).
  { unfold IteratorMove. erewrite on_itr_ok; [reflexivity | done | done | done |].
    intros s1 Hs1. cbn [elem lookup list_lookup obind]. by rewrite Hs1. }
  assert (Hsame : same_but id s s').
  { unfold same_but, own_bounds, s', with_itr. cbn. split_and!; [done | done | by rewrite delete_insert_eq |].
    by rewrite lookup_insert_eq, Hr. }
  assert (Hready : forall cur', seen_place i' = cur' -> ordered i' /\
      source i' = source (m_Iterator r) /\ source_lt i' = source_lt (m_Iterator r) ->
      itr_ready id (source_lt (m_Iterator r)) (within (source_lt (m_Iterator r)) b (source (m_Iterator r))) cur' s').
  { intros cur' Hc (H1 & H2 & H3). split_and!; [done | done |].
    exists {| m_Iterator := i'; r_opts := r_opts r; r_own := r_own r |}, b.
    unfold s', with_itr. cbn [i_iters i_slices m_Iterator r_opts]. rewrite lookup_insert_eq, H2, H3. done. }
  destruct Hi' as [[-> Hm] | (-> & Hm & Hv)].
  - destruct (move_seen m b (m_Iterator r) Ho Hm) as (failed & Hf & Hseen).
    exists s', failed. rewrite Hseen in Hcall. split_and!; [done | | done |].
    + apply Hready; [done |]. by apply move_frame.
    + unfold library_failed, s', with_itr. cbn [i_iters]. by rewrite lookup_insert_eq.
  - assert (Hn : seen_place (m_Iterator r) = None) by (unfold seen_place; by rewrite Hv).
    exists s', (library_failed id s'). rewrite Hn in *. rewrite (cursor_step_none _ _ _ Hm).
    assert (Hnone : (if library_failed id s' then None else @None item) = None) by (by destruct (library_failed id s')).
    rewrite Hnone. split_and!; [done | by apply Hready | done | done].
Qed.

(** ** The loop of [rocksdb:fold/4] *)

Definition iterator_move (itr : term) (m : move) : isys -> outcome (isys * reply) :=
  IteratorMove [itr; move_term m].

(** The reply of [iterator_move] is [rep]; [badarg] is raised before the call. *)
Fixpoint fold_loop {A : Type} (fuel : nat) (rep : reply) (itr : term) (f : term -> A -> erl A) (acc : A)
    (s : isys) : outcome (isys * folded A) :=
  match fuel with
  | O => Ok (s, OutOfFuel)
  | S n =>
      let next r :=
        match r with
        | Val acc' => let! (s1, rep1) := iterator_move itr MNext s in fold_loop n rep1 itr f acc' s1
        | Err e => Ok (s, Raises e)
        end in
      match rep with
      | Badarg => Ok (s, Raises ATOM_BADARG)
      | Reply (Ttuple [t; x]) =>
          if is_atom "error" t && is_atom "iterator_closed" x then Ok (s, Throws acc)
          else if is_atom "error" t && is_atom "invalid_iterator" x then Ok (s, Folded acc)
          else if is_atom "ok" t then next (f x acc)
          else Ok (s, Raises function_clause)
      | Reply (Ttuple [t; k; v]) =>
          if is_atom "ok" t then next (f (Ttuple [k; v]) acc) else Ok (s, Raises function_clause)
      | Reply _ => Ok (s, Raises function_clause)
      end
  end.

(** [fold_loop(iterator_move(Itr, first), Itr, Fun, Acc0)] *)
Definition fold_scan {A : Type} (fuel : nat) (itr : term) (f : term -> A -> erl A) (acc : A) (s : isys) :
    outcome (isys * folded A) :=
  let! (s1, rep) := iterator_move itr MFirst s in fold_loop fuel rep itr f acc s1.

(** What [Fun] is given for an entry. *)
Definition pair_term (e : item) : term := Ttuple [Tbin e.1; Tbin (default_value e.2)].

Definition fold_items {A : Type} (f : term -> A -> erl A) (l : list item) (acc : A) : erl A :=
  erl_foldl (fun e a => f (pair_term e) a) acc l.

Lemma after_split lt l1 e l2 :
  StrictOrder (fun a b => lt a b = true) ->
  StronglySorted (fun a b : item => lt a.1 b.1 = true) (l1 ++ e :: l2) ->
  after lt e.1 (l1 ++ e :: l2) = l2.
Proof.
  intros [Hirr Htr] Hs. unfold after. rewrite filter_app, filter_cons_False.
  2: { intros H. by apply (Hirr e.1). }
  apply StronglySorted_app in Hs as (Hcross & _ & Hs2).
  apply StronglySorted_inv in Hs2 as [_ Hall].
  rewrite filter_none, filter_all; [done | done |].
  apply Forall_forall. intros x Hx Hlt. apply (Hirr x.1). apply Htr with e.1; [| done].
  apply (Hcross x e Hx). left.
Qed.

Lemma cursor_next lt l n e :
  StrictOrder (fun a b => lt a b = true) ->
  StronglySorted (fun a b : item => lt a.1 b.1 = true) l ->
  l !! n = Some e -> cursor lt MNext l (Some e) = l !! S n.
Proof.
  intros Hlt Hs He. cbn [cursor option_bind mbind].
  rewrite <- (take_drop_middle l n e He) in Hs |- *. rewrite after_split by done.
  rewrite lookup_app_r, length_take_le by (rewrite ?length_take; apply lookup_lt_Some in He; lia).
  replace (S n - n)%nat with 1%nat by lia. by destruct (drop (S n) l).
Qed.

(** The loop from the [n]-th entry: it folds a prefix of what is left, and the rest
    would change nothing unless the last move failed. *)
Lemma fold_loop_scans {A : Type} id lt l (f : term -> A -> erl A) n fuel s acc :
  StrictOrder (fun a b => lt a b = true) ->
  StronglySorted (fun a b : item => lt a.1 b.1 = true) l ->
  (length l - n < fuel)%nat -> itr_ready id lt l (l !! n) s ->
  exists s' k, fold_loop fuel (Reply (place_term (l !! n))) (Tres RItr id) f acc s =
                 Ok (s', ended (fold_items f (take k (drop n l)) acc)) /\
    same_but id s s' /\ is_Some (i_iters s' !! id) /\
    (fold_items f (take k (drop n l)) acc = fold_items f (drop n l) acc \/
     forall r, i_iters s' !! id = Some r -> status_ok (itr_status (m_Iterator r)) = false).
Proof.
  intros Hlt Hs. revert n s acc. induction fuel as [|fuel IH]; intros n s acc Hfuel Hr; [lia |].
  destruct (l !! n) as [e|] eqn:He.
  - rewrite (drop_S l e n He). cbn [fold_loop place_term]. eval_atoms.
    fold (pair_term e). destruct (f (pair_term e) acc) as [acc'|reason] eqn:Ef.
    2: { exists s, 1%nat. cbn [firstn fold_items erl_foldl]. unfold fold_items. cbn [erl_foldl].
         rewrite Ef. split_and!; [done | done | by eapply ready_some | by left]. }
    destruct (move_step id lt l (Some e) MNext s Hr) as (s1 & failed & Hmove & Hr1 & Hsame1 & Hst).
    rewrite (cursor_next lt l n e Hlt Hs He) in *. apply lookup_lt_Some in He.
    unfold iterator_move. rewrite Hmove. cbn [obind].
    assert (Hcons : forall r, fold_items f (e :: r) acc = fold_items f r acc').
    { intros r. unfold fold_items. cbn [erl_foldl]. by rewrite Ef. }
    destruct failed.
    + exists s1, 1%nat. destruct fuel as [|fuel]; [lia |]. rewrite firstn_cons, Hcons.
      cbn [fold_loop place_term]. unfold invalid_iterator, ATOM_ERROR, ATOM_INVALID_ITERATOR. eval_atoms.
      cbn [andb]. split_and!; [done | done | by eapply ready_some |].
      right. intros r Hr'. by apply (failed_status id s1).
    + destruct (IH (S n) s1 acc' ltac:(lia) Hr1) as (s2 & k & Hrun & Hsame2 & Hsome & Hfin).
      exists s2, (S k). rewrite firstn_cons, !Hcons.
      split_and!; [done | by eapply same_but_trans | done | done].
  - exists s, 0%nat. cbn [fold_loop place_term].
    unfold invalid_iterator, ATOM_ERROR, ATOM_INVALID_ITERATOR. eval_atoms.
    apply lookup_ge_None in He. rewrite drop_ge by lia.
    split_and!; [done | by apply same_but_refl | by eapply ready_some | by left].
Qed.

Lemma fold_scan_scans {A : Type} id lt l cur (f : term -> A -> erl A) fuel s acc :
  itr_ready id lt l cur s -> (length l < fuel)%nat ->
  exists s' k, fold_scan fuel (Tres RItr id) f acc s = Ok (s', ended (fold_items f (take k l) acc)) /\
    same_but id s s' /\ is_Some (i_iters s' !! id) /\
    (fold_items f (take k l) acc = fold_items f l acc \/
     forall r, i_iters s' !! id = Some r -> status_ok (itr_status (m_Iterator r)) = false).
Proof.
  intros Hr Hfuel. destruct (ready_sorted id lt l cur s Hr) as [Hlt Hs].
  destruct (move_step id lt l cur MFirst s Hr) as (s1 & failed & Hmove & Hr1 & Hsame1 & Hst).
  unfold fold_scan, iterator_move. rewrite Hmove. cbn [obind cursor] in *. destruct failed.
  - exists s1, 0%nat. destruct fuel as [|fuel]; [lia |]. cbn [fold_loop place_term].
    unfold invalid_iterator, ATOM_ERROR, ATOM_INVALID_ITERATOR. eval_atoms. cbn [andb].
    split_and!; [done | done | by eapply ready_some |].
    right. intros r Hr'. by apply (failed_status id s1).
  - assert (Hh : head l = l !! 0%nat) by (by destruct l).
    rewrite Hh in *.
    destruct (fold_loop_scans id lt l f 0 fuel s1 acc Hlt Hs ltac:(lia) Hr1)
      as (s2 & k & Hrun & Hsame2 & Hsome & Hfin).
    exists s2, k. split_and!; [exact Hrun | by eapply same_but_trans | done | done].
Qed.

(** The flags of a run are the errors of the library: the [k]-th is that of the
    iterator in the state after the [k]-th move. *)
Definition flags_of_library (id : nat) (ms : list move) (s : isys) (fails : list bool) : Prop :=
  length fails = length ms /\
  forall k sk reps, (k < length ms)%nat -> run_moves id (take (S k) ms) s = Ok (sk, reps) ->
    fails !! k = Some (library_failed id sk).

Lemma run_moves_visits id lt l ms : forall cur s,
  itr_ready id lt l cur s ->
  exists s' fails, flags_of_library id ms s fails /\
    run_moves id ms s =
      Ok (s', (fun e => Reply (place_term e)) <$> visits lt l cur (zip ms fails)) /\
    same_but id s s'.
Proof.
  induction ms as [|m ms IH]; intros cur s Hr.
  { exists s, []. split_and!; try done. split; [done |]. intros k sk reps Hk. cbn in Hk. lia. }
  destruct (move_step id lt l cur m s Hr) as (s1 & failed & Hmove & Hr1 & Hsame1 & Hf).
  destruct (IH _ s1 Hr1) as (s2 & fails & [Hlen Hfl] & Hrun & Hsame2).
  exists s2, (failed :: fails). split_and!; [split; [cbn; lia |] | | by eapply same_but_trans].
  - intros k sk reps Hk Hk'. cbn [firstn run_moves] in Hk'. rewrite Hmove in Hk'. cbn [obind] in Hk'.
    destruct k as [|k].
    + cbn [firstn run_moves obind] in Hk'. injection Hk' as <- <-. by rewrite Hf.
    + destruct (run_moves id (take (S k) ms) s1) as [[s3 reps']|] eqn:E; [| done].
      cbn [obind] in Hk'. injection Hk' as <- <-. cbn [lookup list_lookup].
      apply (Hfl k s3 reps'); [cbn in Hk; lia | done].
  - cbn [run_moves]. rewrite Hmove. cbn [obind]. rewrite Hrun. done.
Qed.

(** ** Creation *)

Definition bound_items (b : bounds) : list term :=
  match b_upper b with Some u => [Ttuple [Tatom "iterate_upper_bound"; Tbin u]] | None => [] end ++
  match b_lower b with Some l => [Ttuple [Tatom "iterate_lower_bound"; Tbin l]] | None => [] end.

(** Options other than bounds, whose snapshots can be used. *)
Definition iter_item_ok (h : heap) (item : term) : bool :=
  match enif_get_tuple item with
  | Some [key; _] => negb (is_atom "iterate_upper_bound" key) && negb (is_atom "iterate_lower_bound" key)
  | _ => true
  end && item_ok h item.

Definition iter_step (o : struct) (item : term) : struct :=
  match item_snapshot item with
  | Some v => match enif_get_resource RSnapshot v with
              | Some i => sset "snapshot" (VHandle RSnapshot i) o
              | None => o
              end
  | None => match parse_table iter_table item o with Ok (o', _) => o' | Undef => o end
  end.

Definition iter_struct (l : list term) : struct := fold_left iter_step l [].

(** The parser state after one option. *)
Definition with_opts (p : pstate) (o : struct) : pstate :=
  {| p_heap := p_heap p; p_slices := p_slices p; p_opts := o; p_bounds := p_bounds p |}.

Lemma parse_iter_item p item :
  iter_item_ok (p_heap p) item = true ->
  parse_iterator_option item p = Ok (with_opts p (iter_step (p_opts p) item), true).
Proof.
  unfold iter_item_ok, item_ok, parse_iterator_option, iter_step, item_snapshot. intros H.
  destruct (simple_table_parses iter_table item (p_opts p) eq_refl) as [o' Ho].
  destruct (enif_get_tuple item) as [[|key [|v [|]]]|] eqn:Et;
    try (rewrite Ho; unfold parse_table in Ho; rewrite Et in Ho; unfold pok in Ho; simplify_eq;
         by destruct p).
  rewrite !andb_true_iff in H. destruct H as [[Hu Hl] H]. apply negb_true_iff in Hu, Hl. rewrite Hu, Hl.
  destruct (is_atom "snapshot" key); [| rewrite Ho; done].
  destruct (enif_get_resource RSnapshot v) as [i|] eqn:Er; [| done].
  destruct v as [| | | | | | | |rk j|]; try done. cbn in Er. case_decide; [| done]. simplify_eq.
  unfold parse_iter_snapshot. rewrite parse_snapshot_ok by done. done.
Qed.

Lemma parse_iter_items p l rest :
  forallb (iter_item_ok (p_heap p)) l = true ->
  parse_iterator_cells (l ++ rest) p =
    parse_iterator_cells rest (with_opts p (fold_left iter_step l (p_opts p))).
Proof.
  revert p. induction l as [|x l IH]; intros p H; [by destruct p |].
  cbn [forallb] in H. apply andb_true_iff in H as [Hx Hl].
  cbn [app parse_iterator_cells fold_left]. rewrite parse_iter_item by done. cbn [obind].
  rewrite IH by done. done.
Qed.

Lemma new_slice_fresh b sl sl1 a :
  new_slice b sl = (sl1, a) -> sl !! a = None /\ sl1 = <[a := b]> sl.
Proof.
  unfold new_slice. intros [= <- <-]. split; [| done].
  apply not_elem_of_dom. apply is_fresh.
Qed.

(** One slice, allocated and deleted. *)
Lemma one_slice (sl : gmap nat bytes) (a : nat) (x : bytes) :
  sl !! a = None ->
  (sl ⊆ <[a := x]> sl /\
   read_bounds {| upper_bound_slice := Some a; lower_bound_slice := None |} (<[a := x]> sl) =
     Ok {| b_upper := Some x; b_lower := None |} /\
   delete_bounds {| upper_bound_slice := Some a; lower_bound_slice := None |} (<[a := x]> sl) = Ok sl) /\
  (sl ⊆ <[a := x]> sl /\
   read_bounds {| upper_bound_slice := None; lower_bound_slice := Some a |} (<[a := x]> sl) =
     Ok {| b_upper := None; b_lower := Some x |} /\
   delete_bounds {| upper_bound_slice := None; lower_bound_slice := Some a |} (<[a := x]> sl) = Ok sl).
Proof.
  intros Ha. unfold read_bounds, read_slice, delete_bounds, delete_slice. cbn.
  rewrite !lookup_insert_eq, !delete_insert_id by done. by split_and!; try apply insert_subseteq.
Qed.

Lemma parse_bound_items p (b : bounds) :
  p_bounds p = no_bounds ->
  exists sl o, parse_iterator_cells (bound_items b) p =
      Ok ({| p_heap := p_heap p; p_slices := sl; p_opts := p_opts p; p_bounds := o |}, true) /\
    p_slices p ⊆ sl /\ read_bounds o sl = Ok b /\ delete_bounds o sl = Ok (p_slices p).
Proof.
  intros Hb. destruct p as [h sl0 op bo]. cbn in Hb. subst bo. destruct b as [[u|] [l|]]; unfold bound_items;
    cbn [b_upper b_lower app parse_iterator_cells]; unfold parse_iterator_option;
    cbn [enif_get_tuple]; eval_atoms.
  - unfold parse_upper at 1. cbn [enif_inspect_binary p_slices].
    destruct (new_slice u sl0) as [sl1 a] eqn:E1. cbn [obind]. eval_atoms. unfold parse_lower.
    cbn [enif_inspect_binary p_slices]. destruct (new_slice l sl1) as [sl2 a'] eqn:E2. cbn [obind].
    apply new_slice_fresh in E1 as [Ha ->], E2 as [Ha' ->].
    assert (a <> a') by (intros ->; by rewrite lookup_insert_eq in Ha').
    eexists _, _. split; [reflexivity |]. cbn [p_slices]. split_and!.
    + etrans; by apply insert_subseteq.
    + unfold read_bounds, read_slice. cbn. by rewrite lookup_insert_ne, !lookup_insert_eq by done.
    + rewrite lookup_insert_ne in Ha' by done. unfold delete_bounds, delete_slice. cbn.
      rewrite lookup_insert_ne, lookup_insert_eq by done. cbn.
      rewrite delete_insert_ne, delete_insert_id, lookup_insert_eq by done. by rewrite delete_insert_id.
  - unfold parse_upper. cbn [enif_inspect_binary p_slices].
    destruct (new_slice u sl0) as [sl1 a] eqn:E1. cbn [obind]. apply new_slice_fresh in E1 as [Ha ->].
    eexists _, _. split; [reflexivity |]. by apply one_slice.
  - unfold parse_lower. cbn [enif_inspect_binary p_slices].
    destruct (new_slice l sl0) as [sl1 a] eqn:E1. cbn [obind]. apply new_slice_fresh in E1 as [Ha ->].
    eexists _, _. split; [reflexivity |]. by apply one_slice.
  - by eexists _, _.
Qed.

Lemma parse_scan_options p l b :
  p_opts p = [] -> p_bounds p = no_bounds -> forallb (iter_item_ok (p_heap p)) l = true ->
  exists sl o, parse_iterator_options (make_list (l ++ bound_items b)) p =
      Ok ({| p_heap := p_heap p; p_slices := sl; p_opts := iter_struct l; p_bounds := o |}, true) /\
    p_slices p ⊆ sl /\ read_bounds o sl = Ok b /\ delete_bounds o sl = Ok (p_slices p).
Proof.
  intros Hop Hb Hl. unfold parse_iterator_options. rewrite enif_is_list_make. cbn [negb].
  rewrite list_cells_make_list, parse_iter_items, Hop by done. by apply (parse_bound_items (with_opts p (iter_struct l))).
Qed.

(** The database has room for one more reference than a call takes. *)
Definition room_for_child (h : heap) (d : nat) : bool :=
  match h !! d with Some o => m_RefCount o + 2 <? 2 ^ 32 | None => false end.

(** The heap with an iterator object [id] of the database [d], which is [o]. *)
Definition with_itr_object (h : heap) (d id : nat) (o : obj) : heap :=
  <[d := set_list KItr (get_list KItr o ++ [id]) (set_refs (m_RefCount o + 1) o)]>
    (<[id := set_refs 1 (new_obj KItr (Some d))]> h).

Lemma create_itr_ok h d o :
  h !! d = Some o -> usable h KDb d = true -> room_for_child h d = true ->
  exists h2 id, let h3 := with_itr_object h d id o in
    CreateItrObject (pinned h d o) d = Ok (h2, id) /\ release h2 (Some d) = Ok h3 /\
    h !! id = None /\ usable h3 KItr id = true /\ db_open h3 id = true.
Proof.
  intros Ho Hu Hroom. destruct (usable_obj h KDb d Hu) as (o' & Ho' & Hk & Hc & Hn & Hr0 & Hr1).
  rewrite Ho in Ho'. injection Ho' as <-. unfold room_for_child in Hroom. rewrite Ho, Z.ltb_lt in Hroom.
  remember (fresh_id (pinned h d o)) as id eqn:Eid.
  assert (Hid : pinned h d o !! id = None) by (rewrite Eid; apply fresh_id_new).
  assert (Hne : d <> id). { intros E. rewrite <- E in Hid. unfold pinned in Hid. by rewrite lookup_insert_eq in Hid. }
  set (od := set_list KItr (get_list KItr o ++ [id]) (set_refs (m_RefCount o + 1) o)).
  set (oi := set_refs 1 (new_obj KItr (Some d))).
  set (h3 := <[d := od]> (<[id := oi]> h)).
  exists (pinned h3 d od), id. cbn zeta. change (with_itr_object h d id o) with h3.
  assert (Hh3 : h3 !! d = Some od) by apply lookup_insert_eq.
  assert (Hh3i : h3 !! id = Some oi) by (unfold h3; by rewrite lookup_insert_ne, lookup_insert_eq).
  split_and!.
  - unfold CreateItrObject, CreateChild. rewrite <- Eid. unfold RefInc at 1, deref.
    rewrite lookup_insert_ne by done. unfold pinned at 1. rewrite lookup_insert_eq. cbn [obind].
    cbn [set_refs m_RefCount]. rewrite wrap_small by lia.
    unfold AddReference, deref. rewrite lookup_insert_eq. cbn [obind]. rewrite decide_True by done.
    cbn [m_CloseRequested set_refs]. rewrite Hc. cbn [Z.eqb]. unfold RefInc, deref. cbn [obind].
    rewrite lookup_insert_ne, lookup_insert_ne, lookup_insert_eq by done. cbn [obind].
    f_equal. f_equal. unfold pinned, h3. rewrite !insert_insert_eq.
    apply map_eq. intros j. destruct (decide (j = id)) as [-> |].
    { rewrite lookup_insert_eq, lookup_insert_ne, lookup_insert_eq by done. done. }
    destruct (decide (j = d)) as [-> |].
    { rewrite lookup_insert_ne, !lookup_insert_eq by done. done. }
    by rewrite !lookup_insert_ne by done.
  - apply unpin; [done | done | cbn; lia | cbn; lia].
  - unfold pinned in Hid. by rewrite lookup_insert_ne in Hid by done.
  - unfold usable. by rewrite Hh3i.
  - unfold db_open. rewrite Hh3i. cbn. rewrite Hh3. cbn. by rewrite Hc.
Qed.

(** What a scan needs of its handles and options. *)
Definition scan_usable (s : isys) (d : nat) (cf : option nat) (o : list term) : bool :=
  usable (iheap s) KDb d && room_for_child (iheap s) d &&
  match cf with Some c => usable (iheap s) KColumnFamily c | None => true end &&
  forallb (iter_item_ok (iheap s)) o && plain_read (iter_struct o) && plain_scan (iter_struct o).

Lemma iter_items_weaken h h1 l :
  (forall i, usable h KSnapshot i = true -> usable h1 KSnapshot i = true) ->
  forallb (iter_item_ok h) l = true -> forallb (iter_item_ok h1) l = true.
Proof.
  intros Hs. rewrite !forallb_forall. intros H x Hx. specialize (H x Hx).
  unfold iter_item_ok in *. apply andb_true_iff in H as [H1 H2]. rewrite H1. cbn [andb].
  unfold item_ok in *. destruct (item_snapshot x); [| done].
  destruct (enif_get_resource RSnapshot _); [by apply Hs | done].
Qed.

(** [s1] is [s] with the iterator object [id] and its slices; deleting these gives
    back the slices of [s]. *)
Definition created (s s1 : isys) (d id : nat) : Prop :=
  exists db r, iheap s !! d = Some db /\ iheap s !! id = None /\
    i_db s1 = set_heap (i_db s) (with_itr_object (iheap s) d id db) /\
    i_iters s1 = <[id := r]> (i_iters s) /\ delete_bounds (r_own r) (i_slices s1) = Ok (i_slices s).

Lemma iterator_created s d cf o b :
  scan_usable s d cf o = true ->
  exists s1 id r, Iterator (Tres RDb d :: cf_args cf ++ [make_list (o ++ bound_items b)]) s =
      Ok (s1, Reply (Ttuple [ATOM_OK; Tres RItr id])) /\
    usable (iheap s1) KItr id = true /\ db_open (iheap s1) id = true /\
    i_iters s1 = <[id := r]> (i_iters s) /\
    m_Iterator r = lib_new_iterator (d_store (i_db s)) d (iter_struct o) (handle_of cf) /\
    read_bounds (r_opts r) (i_slices s1) = Ok b /\ created s s1 d id.
Proof.
  unfold scan_usable. rewrite !andb_true_iff. intros [[[[[Hu Hroom] Hcf] Ho] _] _].
  destruct (usable_pinned _ KDb d ltac:(done) Hu) as (ob & Hob & Hget & _ & _).
  destruct (create_itr_ok _ d ob Hob Hu Hroom) as (h2 & id & Hcreate & Hrel & Hid & Hui & Hdo).
  set (h3 := with_itr_object (iheap s) d id ob) in *.
  set (h1 := pinned (iheap s) d ob) in *. set (s0 := with_iheap s h1).
  assert (Ho1 : forallb (iter_item_ok (p_heap (start s0))) o = true).
  { eapply iter_items_weaken; [| exact Ho]. intros i Hi. apply usable_pinned_other; [done | | done].
    by eapply usable_kind_ne. }
  destruct (parse_scan_options (start s0) o b eq_refl eq_refl Ho1) as (sl & bo & Hparse & _ & Hread & Hdel).
  set (r := {| m_Iterator := lib_new_iterator (d_store (i_db s)) d (iter_struct o) (handle_of cf);
               r_opts := bo; r_own := bo |}).
  exists {| i_db := set_heap (i_db s) h3; i_slices := sl; i_iters := <[id := r]> (i_iters s) |}, id, r.
  split_and!; try done; [| by exists ob, r].
  unfold Iterator. cbn [elem lookup list_lookup obind].
  unfold with_iref. change (Tres RDb d) with (Tres (res_kind_of KDb) d). rewrite Hget. cbn [obind].
  fold h1. fold s0. destruct cf as [c|]; cbn [cf_args app length Nat.eqb];
    cbn [elem lookup list_lookup obind]; rewrite enif_is_list_make; cbn [negb];
    rewrite Hparse; cbn [obind negb].
  - assert (Huc : usable h1 KColumnFamily c = true).
    { apply usable_pinned_other; [done | | done]. by eapply usable_kind_ne. }
    destruct (usable_pinned _ KColumnFamily c ltac:(done) Huc) as (oc & Hoc & Hgetc & Hrelc & Hnc).
    change (iheap (with_parsed s0 _)) with h1. unfold enif_get_cf.
    change (Tres RColumnFamily c) with (Tres (res_kind_of KColumnFamily) c). rewrite Hgetc. cbn [obind].
    assert (Hp : cf_pointer (pinned h1 c oc) c = Ok (CfHandle c)).
    { unfold cf_pointer, deref, pinned. rewrite lookup_insert_eq. cbn. by rewrite Hnc. }
    rewrite Hp. cbn [obind use_cf]. rewrite Hrelc. cbn [obind]. unfold create_itr.
    change (iheap (with_iheap _ h1)) with h1. rewrite Hcreate. cbn [obind].
    change (iheap _) with h2 at 1. rewrite Hrel. done.
  - unfold create_itr. change (iheap (with_parsed s0 _)) with h1. rewrite Hcreate. cbn [obind].
    change (iheap _) with h2 at 1. rewrite Hrel. done.
Qed.

(** A scan of column family [f] of database [d], whose entries are those of [m]. *)
Definition scan_of (s : isys) (d : nat) (cf : option nat) (o : list term) (f : Z)
    (m : gmap bytes entry) : Prop :=
  scan_usable s d cf o = true /\ family (d_store (i_db s)) d (handle_of cf) = Some f /\
  (flag_set "total_order_seek" (iter_struct o) = true \/ prefix_extractor d f = false) /\
  read_map_of snap view (d_store (i_db s)) d (iter_struct o) f = Some m.

(** The entries of [m] between the bounds, in key order. *)
Definition scan_list (d : nat) (f : Z) (m : gmap bytes entry) (b : bounds) (l : list item) : Prop :=
  StronglySorted (fun x y : item => key_lt d f x.1 y.1 = true) l /\
  forall k c, (k, c) ∈ l <-> resolved (full_merge d f) m k = Some c /\ in_bounds (key_lt d f) b k = true.

Lemma iterator_ready s d cf o b f m :
  scan_of s d cf o f m ->
  exists s1 id l, Iterator (Tres RDb d :: cf_args cf ++ [make_list (o ++ bound_items b)]) s =
      Ok (s1, Reply (Ttuple [ATOM_OK; Tres RItr id])) /\
    scan_list d f m b l /\ itr_ready id (key_lt d f) l None s1 /\ created s s1 d id.
Proof.
  intros (Hu & Hf & Hto & Hm).
  destruct (iterator_created s d cf o b Hu) as (s1 & id & r & Hcall & Hui & Hdo & Hit & Hi & Hb & Hnew).
  unfold scan_usable in Hu. rewrite !andb_true_iff in Hu. destruct Hu as [[_ Hpr] Hps].
  destruct (new_iterator _ d _ _ f m Hf Hpr Hps Hto Hm) as (Ho & Hlt & Hc & Hv).
  rewrite <- Hi in *. exists s1, id, (within (key_lt d f) b (source (m_Iterator r))).
  split_and!; [done | split | split_and!; [done | done |] | done].
  - apply filter_sorted. rewrite <- Hlt. by apply ordered_source.
  - intros k c. unfold within. rewrite list_elem_of_filter. cbn [fst]. rewrite (Hc k c). tauto.
  - exists r, b. rewrite Hit, lookup_insert_eq. split_and!; try done. unfold seen_place. by rewrite Hv.
Qed.

(** ** Failed moves *)

Lemma failed_entry i : status_ok (itr_status i) = false -> entry_reply i = invalid_iterator.
Proof.
  intros Hs. unfold entry_reply. destruct (itr_valid i) eqn:Ev; [| done].
  apply valid_status in Ev. congruence.
Qed.

Lemma retrieve_itr h id p : Retrieve KItr false h (Tres RItr id) = Ok p -> p = None \/ p = Some id.
Proof.
  unfold Retrieve. cbn [enif_get_resource res_kind_of]. rewrite decide_True by done.
  intros H. unfold obind in H. repeat (case_match; simplify_eq; try tauto).
Qed.

Lemma get_ref_itr h id h1 id' : get_ref KItr h (Tres RItr id) = Ok (h1, Some id') -> id' = id.
Proof.
  unfold get_ref. destruct (Retrieve _ _ _ _) as [p|] eqn:E; [| done]. cbn [obind].
  apply retrieve_itr in E as [-> | ->]; (destruct (assign _ _ _); [| done]); cbn [obind]; [done |].
  destruct (deref _ _); [| done]. cbn [obind]. by intros [= _ ->].
Qed.

(** The answers to a bad argument and at the end of the data. *)
Definition no_entry (r : reply) : Prop :=
  r = Badarg \/ r = Reply error_einval \/ r = Reply invalid_iterator.

Lemma failed_run_move t o sl i i' rep :
  run_move t o sl i = Ok (i', rep) -> status_ok (itr_status i') = false -> no_entry rep.
Proof.
  unfold run_move, no_entry. intros H Hs.
  assert (Hseek : forall m t, seek_move m t o sl i = Ok (i', rep) ->
    rep = Badarg \/ rep = Reply error_einval \/ rep = Reply invalid_iterator).
  { intros m' t' Hk. unfold seek_move in Hk. destruct (binary_to_slice t'); [| simplify_eq; tauto].
    destruct (do_move _ _ _ _) as [i1|]; [| done]. cbn [obind] in Hk. simplify_eq.
    rewrite (failed_entry _ Hs). tauto. }
  destruct (enif_is_atom t).
  - unfold atom_move in H.
    destruct (when_atom "first" _ _ _) as [i1|]; [| done]. cbn [obind] in H.
    destruct (when_atom "last" _ _ _) as [i2|]; [| done]. cbn [obind] in H.
    destruct (itr_valid i2); cbn [negb] in H; [| simplify_eq; tauto].
    destruct (when_atom "next" _ _ _) as [i3|]; [| done]. cbn [obind] in H.
    destruct (when_atom "prev" _ _ _) as [i4|]; [| done]. cbn [obind] in H.
    simplify_eq. rewrite (failed_entry _ Hs). tauto.
  - destruct (enif_get_tuple t) as [[|how [|k [|]]]|]; try (simplify_eq; tauto); [| by eapply Hseek].
    destruct (is_atom "seek_for_prev" how); [by eapply Hseek |].
    destruct (is_atom "seek" how); [by eapply Hseek | simplify_eq; tauto].
Qed.

(** ** Deleted bounds *)

Lemma create_iterators_opts d its b : forall s acc s' ids,
  Forall (fun id => exists r, i_iters s !! id = Some r /\ r_opts r = b) acc ->
  create_iterators d its b s acc = Ok (s', ids) ->
  Forall (fun id => exists r, i_iters s' !! id = Some r /\ r_opts r = b) ids.
Proof.
  induction its as [|i its IH]; intros s acc s' ids Hacc H; cbn [create_iterators] in H;
    [by simplify_eq |].
  unfold create_itr in H. destruct (CreateItrObject _ d) as [[h1 id]|]; [| done]. cbn [obind] in H.
  destruct (clone_slice (upper_bound_slice b) _) as [[sl1 u]|]; [| done]. cbn [obind] in H.
  destruct (clone_slice (lower_bound_slice b) _) as [[sl2 l]|]; [| done]. cbn [obind] in H.
  eapply IH; [| exact H]. cbn [with_itr with_slices with_iheap i_iters].
  apply Forall_app. split; [| apply Forall_singleton; rewrite lookup_insert_eq; by eexists].
  eapply Forall_impl; [exact Hacc |]. cbv beta. intros j (r & Hr & Hro).
  destruct (decide (j = id)) as [-> | Hne]; [rewrite lookup_insert_eq; by eexists |].
  rewrite !lookup_insert_ne by done. by exists r.
Qed.

Lemma deleted_bounds_dangle b sl sl' :
  b <> no_bounds -> delete_bounds b sl = Ok sl' -> read_bounds b sl' = Undef.
Proof.
  unfold delete_bounds, delete_slice, read_bounds, read_slice. intros Hne H.
  destruct b as [[u|] [l|]]; cbn in *; try done.
  - destruct (sl !! u) as [bu|]; [| done]. cbn in H. destruct (delete u sl !! l); [| done]. simplify_eq.
    destruct (decide (u = l)) as [-> |]; [by rewrite lookup_delete_eq |].
    by rewrite lookup_delete_ne, lookup_delete_eq by done.
  - destruct (sl !! u); [| done]. cbn in H. simplify_eq. by rewrite lookup_delete_eq.
  - destruct (sl !! l); [| done]. cbn in H. simplify_eq. by rewrite lookup_delete_eq.
Qed.

Lemma dangling_move_undef id s r :
  usable (iheap s) KItr id = true -> db_open (iheap s) id = true -> i_iters s !! id = Some r ->
  read_bounds (r_opts r) (i_slices s) = Undef ->
  IteratorMove [Tres RItr id; Tatom "first"] s = Undef.
Proof.
  intros Hu Hd Hr Hb. destruct (usable_pin_any _ KItr id Hu ltac:(done)) as (o & Ho & _ & _ & Hget & _).
  unfold IteratorMove, on_itr. cbn [elem lookup list_lookup obind]. unfold with_iref.
  change (Tres RItr id) with (Tres (res_kind_of KItr) id). rewrite Hget. cbn [obind].
  cbn [with_iheap i_iters]. rewrite Hr. cbn [i_slices].
  unfold run_move, atom_move, when_atom, do_move. cbn [enif_is_atom]. eval_atoms.
  change (i_slices (with_iheap s (pinned (iheap s) id o))) with (i_slices s). by rewrite Hb.
Qed.

Lemma make_list_inj l1 l2 : make_list l1 = make_list l2 -> l1 = l2.
Proof. intros H. apply (f_equal list_cells) in H. by rewrite !list_cells_make_list in H. Qed.

Lemma res_list_inj (l1 l2 : list nat) : Tres RItr <$> l1 = Tres RItr <$> l2 -> l1 = l2.
Proof. apply list_fmap_eq_inj. by intros ? ? [= ->]. Qed.

Lemma iterators_dangle s s1 db cfs b ids :
  (b_upper b <> None \/ b_lower b <> None) ->
  Iterators [db; cfs; make_list (bound_items b)] s =
    Ok (s1, Reply (Ttuple [ATOM_OK; make_list (Tres RItr <$> ids)])) ->
  forall id, id ∈ ids -> exists r, i_iters s1 !! id = Some r /\ read_bounds (r_opts r) (i_slices s1) = Undef.
Proof.
  intros Hb H id Hin. unfold Iterators in H. cbn [elem lookup list_lookup obind] in H.
  unfold with_iref in H. destruct (get_ref KDb _ _) as [[h1 [d|]]|]; try done. cbn [obind] in H.
  rewrite enif_is_list_make, andb_true_r in H. destruct (enif_is_list cfs); cbn [negb] in H.
  2: { cbn [obind] in H. destruct (release _ _); by cbn [obind] in H. }
  destruct (parse_scan_options (start (with_iheap s h1)) [] b eq_refl eq_refl eq_refl)
    as (sl & bo & Hparse & _ & Hread & _).
  cbn [app] in Hparse. rewrite Hparse in H. cbn [obind negb p_bounds p_opts] in H.
  assert (Hne : bo <> no_bounds).
  { intros ->. cbn in Hread. injection Hread as <-. cbn in Hb. tauto. }
  destruct (family_list _ _) as [[h2 fams]|]; [| done]. cbn [obind] in H.
  destruct fams as [fs|].
  2: { destruct (delete_bounds _ _); [| done]. cbn [obind] in H. destruct (release _ _); by cbn [obind] in H. }
  destruct (create_iterators _ _ _ _ _) as [[s3 ids']|] eqn:Ec; [| done]. cbn [obind] in H.
  destruct (delete_bounds bo (i_slices s3)) as [sl'|] eqn:Ed; [| done]. cbn [obind] in H.
  destruct (release _ _) as [h3|]; [| done]. cbn [obind] in H.
  injection H as <- Hids. apply make_list_inj, res_list_inj in Hids. subst ids'.
  apply create_iterators_opts in Ec; [| apply Forall_nil; exact I].
  rewrite Forall_forall in Ec. destruct (Ec id Hin) as (r & Hr & <-).
  exists r. split; [done |]. cbn [i_slices with_iheap with_slices]. by apply (deleted_bounds_dangle _ _ _ Hne Ed).
Qed.

(** ** Theorems *)

(** C9.  [rocksdb:iterator/2,3] with any bounds, on a database (or one of its
    snapshots) whose column family holds the map [m], gives an iterator over the
    entries of [m] between the bounds in key order: every sequence of moves returns,
    and its answers are those of a cursor over that list: the entry the cursor is on
    after the move, [{error, invalid_iterator}] where it is on none.  A move after
    which the RocksDB iterator reports an error, and only such a move, loses its
    place.  The moves change nothing but the iterator. *)
Theorem iterator_follows_cursor (s : isys) (d : nat) (cf : option nat) (o : list term) (b : bounds)
    (f : Z) (m : gmap bytes entry) :
  scan_of s d cf o f m ->
  exists s1 id l, Iterator (Tres RDb d :: cf_args cf ++ [make_list (o ++ bound_items b)]) s =
      Ok (s1, Reply (Ttuple [ATOM_OK; Tres RItr id])) /\
    scan_list d f m b l /\
    forall ms, exists s2 fails, flags_of_library id ms s1 fails /\
      run_moves id ms s1 =
        Ok (s2, (fun e => Reply (place_term e)) <$> visits (key_lt d f) l None (zip ms fails)) /\
      same_but id s1 s2.
Proof.
  intros H. destruct (iterator_ready s d cf o b f m H) as (s1 & id & l & Hcall & Hl & Hr & _).
  exists s1, id, l. split_and!; [done | done |]. intros ms. by apply run_moves_visits.
Qed.

(** A move that fails in the library (an I/O error, a corrupted block) is never
    answered with its status: after any call of [rocksdb:iterator_move/2] that leaves
    the iterator with an error, the answer is [{error, invalid_iterator}], the answer
    at the end of the data, or that of a bad argument. *)
Theorem move_error_hidden (s s' : isys) (id : nat) (t : term) (rep : reply) (r : itr_rec) :
  IteratorMove [Tres RItr id; t] s = Ok (s', rep) -> i_iters s' !! id = Some r ->
  status_ok (itr_status (m_Iterator r)) = false -> no_entry rep.
Proof.
  unfold no_entry. intros H Hr Hs. unfold IteratorMove, on_itr in H. cbn [elem lookup list_lookup obind] in H.
  unfold with_iref in H. destruct (get_ref KItr _ _) as [[h1 p]|] eqn:Eg; [| done]. cbn [obind] in H.
  destruct p as [id'|]; [| simplify_eq; tauto].
  assert (id' = id) as ->.
  { by eapply get_ref_itr. }
  destruct (i_iters (with_iheap s h1) !! id) as [r0|]; [| done].
  destruct (run_move t _ _ _) as [[i rep']|] eqn:Erun; [| done]. cbn [obind] in H.
  destruct (release _ _) as [h3|]; [| done]. cbn [obind] in H. simplify_eq.
  cbn [with_iheap with_itr i_iters] in Hr. rewrite lookup_insert_eq in Hr. simplify_eq.
  by apply (failed_run_move _ _ _ _ _ _ Erun).
Qed.

(** [rocksdb:iterators/3] with a bound frees the slices the options of RocksDB
    point to before it returns: the first [first] on any iterator of its answer reads
    freed memory. *)
Theorem iterators_bounds_dangle (s s1 : isys) (db cfs : term) (b : bounds) (ids : list nat) (id : nat) :
  (b_upper b <> None \/ b_lower b <> None) ->
  Iterators [db; cfs; make_list (bound_items b)] s =
    Ok (s1, Reply (Ttuple [ATOM_OK; make_list (Tres RItr <$> ids)])) ->
  id ∈ ids -> usable (iheap s1) KItr id = true -> db_open (iheap s1) id = true ->
  IteratorMove [Tres RItr id; Tatom "first"] s1 = Undef.
Proof.
  intros Hb H Hin Hu Hd.
  destruct (iterators_dangle s s1 db cfs b ids Hb H id Hin) as (r & Hr & Hread).
  by eapply dangling_move_undef.
Qed.

End Moves.

(** ** An instance *)

Module MapIter.

Record mitr := { mi_source : list item; mi_place : option item; mi_left : nat; mi_ok : bool }.

Section Instance.

(** The merge operator, and the number of moves before the disk fails. *)
Context (merge : bytes -> option bytes -> list bytes -> option bytes) (limit : nat).

#[local] Existing Instance MapDb.map_lib.

Definition add_entry (k : bytes) (e : entry) (acc : list item) : list item :=
  match resolve merge k e with Some c => map_set k c acc | None => acc end.

Definition table (m : gmap bytes entry) : list item := map_fold add_entry [] m.

Definition new_itr (s : MapDb.state) (d : nat) (o : struct) (c : cfh) : mitr :=
  {| mi_source := match MapDb.fam d c with
                  | Some f => match MapDb.reading s d o f with
                              | Some m => table m
                              | None => []
                              end
                  | None => []
                  end;
     mi_place := None; mi_left := limit; mi_ok := true |}.

Definition valid (i : mitr) : bool := mi_ok i && bool_decide (is_Some (mi_place i)).

Definition mmove (m : move) (b : bounds) (i : mitr) : mitr :=
  match mi_left i with
  | O => {| mi_source := mi_source i; mi_place := mi_place i; mi_left := 0; mi_ok := false |}
  | S n => {| mi_source := mi_source i;
              mi_place := cursor MapDb.lt m (within MapDb.lt b (mi_source i)) (mi_place i);
              mi_left := n; mi_ok := true |}
  end.

Definition io_error : Status := {| code := kIOError; to_text := "IO error" |}.

Definition iter_lib : @IterLib (MapDb.map_lib merge) :=
  @Build_IterLib (MapDb.map_lib merge) mitr
    new_itr (fun s d o cs => new_itr s d o <$> cs) (fun _ _ _ _ => None)
    mmove (fun _ i => (i, StatusOK)) (fun i => (i, true))
    valid (fun i => if mi_ok i then StatusOK else io_error)
    (fun i => match mi_place i with Some e => e.1 | None => [] end)
    (fun i => match mi_place i with Some e => default_value e.2 | None => [] end)
    (fun i => match mi_place i with Some e => e.2 | None => [] end).

Lemma table_spec m : map_wf (table m) /\ forall k, map_get k (table m) = resolved merge m k.
Proof.
  unfold table. apply (map_fold_weak_ind (fun r m => map_wf r /\ forall k, map_get k r = resolved merge m k)).
  { split; [apply map_wf_nil | done]. }
  intros i e m' r Hi [Hwf Hget]. unfold add_entry. split.
  - destruct (resolve merge i e); [by apply map_set_wf | done].
  - intros k. unfold resolved in *. destruct (decide (k = i)) as [-> | Hne].
    + rewrite lookup_insert_eq. destruct (resolve merge i e) eqn:E.
      * rewrite map_get_set, decide_True by done. done.
      * by rewrite Hget, Hi.
    + rewrite lookup_insert_ne by done. destruct (resolve merge i e).
      * by rewrite map_get_set, decide_False.
      * apply Hget.
Qed.

Lemma table_contents m : contents merge m (table m).
Proof.
  destruct (table_spec m) as [Hwf Hget]. intros k c. rewrite elem_of_map_get by done. by rewrite Hget.
Qed.

Lemma lt_spec a b : MapDb.lt a b = true <-> bytes_lt a b.
Proof. unfold MapDb.lt, bytes_lt. by destruct (bytes_cmp a b). Qed.

Lemma lt_strict : StrictOrder (fun a b => MapDb.lt a b = true).
Proof.
  split.
  - intros a Ha. apply lt_spec in Ha. by apply (irreflexivity bytes_lt a).
  - intros a b c. rewrite !lt_spec. apply transitivity.
Qed.

Lemma wf_sorted (l : list item) : map_wf l -> StronglySorted (fun a b : item => MapDb.lt a.1 b.1 = true) l.
Proof.
  unfold map_wf. induction l as [|e l IH]; [constructor |]. rewrite fmap_cons. intros H.
  apply StronglySorted_inv in H as [Hs Hall]. constructor; [by apply IH |].
  rewrite Forall_fmap in Hall. eapply Forall_impl; [exact Hall |]. intros x Hx. by apply lt_spec.
Qed.

#[local] Existing Instance iter_lib.

Definition iter_laws : @IterLaws (MapDb.map_lib merge) iter_lib (MapDb.map_laws merge).
Proof.
  refine (@Build_IterLaws (MapDb.map_lib merge) iter_lib (MapDb.map_laws merge)
            (fun i => map_wf (mi_source i)) mi_source (fun _ => MapDb.lt) mi_place
            (fun _ _ => false) _ _ _ _ _ _ _).
  - intros i Hi. split; [apply lt_strict | by apply wf_sorted].
  - intros m b i Hi. cbn. unfold mmove. by destruct (mi_left i).
  - intros m b i Hi _. cbn. unfold mmove. by destruct (mi_left i).
  - intros i. cbn. unfold valid. by destruct (mi_ok i).
  - intros i _. cbn. unfold valid. by destruct (mi_ok i).
  - intros i e _ _ Hp. cbn. by rewrite Hp.
  - intros s d o c f m Hf _ _ _ Hm.
    change (MapDb.fam d c = Some f) in Hf. change (MapDb.reading s d o f = Some m) in Hm.
    cbn [lib_new_iterator iter_lib]. unfold new_itr. rewrite Hf, Hm.
    split_and!; [apply table_spec | done | apply table_contents | done].
Defined.

End Instance.
End MapIter.

(** ** Witnesses *)

Module IterWitness.

Definition no_merge (_ : bytes) (_ : option bytes) (_ : list bytes) : option bytes := None.

#[local] Instance the_lib : DbLib := MapDb.map_lib no_merge.
#[local] Instance the_laws : DbLaws the_lib := MapDb.map_laws no_merge.

Definition k1 : bytes := [Byte.x61].
Definition k2 : bytes := [Byte.x62].
Definition k3 : bytes := [Byte.x63].

Definition the_map : gmap bytes entry :=
  <[k3 := plain_entry (plain k1)]> (<[k1 := plain_entry (plain k2)]> {[k2 := plain_entry (plain k3)]}).

Definition the_bounds : bounds := {| b_upper := Some k3; b_lower := Some k1 |}.

(** Database 0 with column family 1 and iterator 2. *)
Definition handles : heap :=
  <[2%nat := set_refs 1 (new_obj KItr (Some 0%nat))]>
    (<[1%nat := set_refs 1 (new_obj KColumnFamily (Some 0%nat))]>
      {[0%nat := set_refs 3 (set_list KItr [2%nat] (set_list KColumnFamily [1%nat] (new_obj KDb None)))]}).

Definition store : MapDb.state := {| MapDb.maps := fun _ _ => the_map; MapDb.snaps := ∅ |}.

Definition the_dsys : dsys := {| d_heap := handles; d_store := (store : dbs) |}.

Section Disk.
Context (limit : nat).
#[local] Instance disk : IterLib := MapIter.iter_lib no_merge limit.
#[local] Instance disk_laws : IterLaws := MapIter.iter_laws no_merge limit.

Definition the_isys : isys :=
  {| i_db := the_dsys; i_slices := ∅;
     i_iters := {[2%nat := {| m_Iterator := (MapIter.new_itr no_merge limit store 0 [] DefaultCf : itr);
                              r_opts := no_bounds; r_own := no_bounds |}]} |}.

Lemma the_scan : scan_of the_isys 0 (Some 1%nat) [] 1 the_map.
Proof. split_and!; [vm_compute; reflexivity | done | by right | done]. Defined.
End Disk.

#[local] Existing Instance disk.
#[local] Existing Instance disk_laws.

Lemma iterator_follows_cursor_witness :
  scan_of (the_isys 100) 0 (Some 1%nat) [] 1 the_map /\
  exists s1 id l,
    Iterator (Tres RDb 0 :: cf_args (Some 1%nat) ++ [make_list ([] ++ bound_items the_bounds)]) (the_isys 100) =
      Ok (s1, Reply (Ttuple [ATOM_OK; Tres RItr id])) /\
    scan_list 0 1 the_map the_bounds l /\
    forall ms, exists s2 fails, flags_of_library id ms s1 fails /\
      run_moves id ms s1 =
        Ok (s2, (fun e => Reply (place_term e)) <$> visits (key_lt 0 1) l None (zip ms fails)) /\
      same_but id s1 s2.
Proof.
  split; [apply the_scan |].
  apply (iterator_follows_cursor (the_isys 100) 0 (Some 1%nat) [] the_bounds 1 the_map). apply the_scan.
Defined.

(** A disk that fails at once: the failure is answered as the end of the data. *)
Lemma move_error_hidden_witness :
  exists s' rep r,
    IteratorMove [Tres RItr 2; Tatom "first"] (the_isys 0) = Ok (s', rep) /\
    i_iters s' !! 2%nat = Some r /\ status_ok (itr_status (m_Iterator r)) = false /\
    no_entry rep.
Proof.
  pose proof (on_itr_ok 2 [Tatom "first"]
    (fun r s => let! t := Ok (Tatom "first") in run_move t (r_opts r) (i_slices s) (m_Iterator r))
    (the_isys 0) _
    (MapIter.mmove MFirst {| b_upper := None; b_lower := None |}
       (MapIter.new_itr no_merge 0 store 0 [] DefaultCf))
    (Reply invalid_iterator)
    ltac:(vm_compute; reflexivity) ltac:(vm_compute; reflexivity) eq_refl
    ltac:(intros s1 Hs; reflexivity)) as Hcall.
  eexists _, _, _. split; [exact Hcall |]. split; [reflexivity |]. split; [reflexivity |].
  eapply (move_error_hidden (the_isys 0)); [exact Hcall | reflexivity | reflexivity].
Defined.

Definition iterators_call : outcome (isys * reply) :=
  Iterators [Tres RDb 0; make_list [Tres RColumnFamily 1]; make_list (bound_items the_bounds)] (the_isys 100).

Definition iterators_report : option (reply * bool * bool) :=
  match iterators_call with
  | Ok (s1, rep) => Some (rep, usable (iheap s1) KItr 3, db_open (iheap s1) 3)
  | Undef => None
  end.

Lemma iterators_answer :
  exists s1, iterators_call = Ok (s1, Reply (Ttuple [ATOM_OK; make_list (Tres RItr <$> [3%nat])])) /\
    usable (iheap s1) KItr 3 = true /\ db_open (iheap s1) 3 = true.
Proof.
  assert (H : iterators_report =
    Some (Reply (Ttuple [ATOM_OK; make_list (Tres RItr <$> [3%nat])]), true, true)) by (vm_compute; reflexivity).
  unfold iterators_report in H. destruct iterators_call as [[s1 rep]|]; [| done].
  exists s1. injection H as -> -> ->. done.
Qed.

Lemma iterators_bounds_dangle_witness :
  exists s1, iterators_call = Ok (s1, Reply (Ttuple [ATOM_OK; make_list (Tres RItr <$> [3%nat])])) /\
    IteratorMove [Tres RItr 3; Tatom "first"] s1 = Undef.
Proof.
  destruct iterators_answer as (s1 & Hcall & Hu & Hd). exists s1. split; [exact Hcall |].
  apply (iterators_bounds_dangle (the_isys 100) s1 (Tres RDb 0) (make_list [Tres RColumnFamily 1])
           the_bounds [3%nat] 3); [by left | exact Hcall | by left | exact Hu | exact Hd].
Defined.

End IterWitness.
