(* ===== verification/ErlFold.v ===== *)
(** * [rocksdb:fold/4,5] and [rocksdb:fold_keys/4,5]

    The whole functions: they open an iterator, run the loop of [IterSpec] in a
    [try] and close the iterator in its [after].  [iterator_close] is [IteratorClose]
    on the heap of handles with what [~ItrObject] deletes beside it: the slices of
    the bounds the object owns and the iterator of RocksDB. *)

From stdpp Require Import base list numbers strings gmap.
From Stdlib Require Import ZArith Lia.
From S2P Require Import Prelude Terms Erl RefObjects RefInv RefSystem HandleNif WriteBatchLib Options DbLib DbNif DbSpec Iter IterSpec.

Section Functions.
Context `{IL : IterLib}.

(** ** [rocksdb:iterator_close/1] *)

(** The rest of [~ItrObject], after the object is unlinked. *)
Definition delete_itr (id : nat) (s : isys) : outcome isys :=
  match i_iters s !! id with
  | None => Undef
  | Some r =>
      let! sl := delete_bounds (r_own r) (i_slices s) in
      Ok {| i_db := i_db s; i_slices := sl; i_iters := delete id (i_iters s) |}
  end.

(** The destructor runs in the call that drops the last reference. *)
Definition iterator_close (itr : term) (s : isys) : outcome (isys * reply) :=
  let! (h1, rep) := IteratorClose (iheap s) [itr] in
  let s1 := with_iheap s h1 in
  match enif_get_resource RItr itr with
  | Some id =>
      if negb (destructor_done (iheap s) id) && destructor_done h1 id
      then let! s2 := delete_itr id s1 in Ok (s2, rep)
      else Ok (s1, rep)
  | None => Ok (s1, rep)
  end.

(** ** The functions *)

(** [try fold_loop(...) after iterator_close(Itr) end]: an exception of the [after]
    replaces the result. *)
Definition do_fold {A : Type} (fuel : nat) (itr : term) (f : term -> A -> erl A) (acc : A) (s : isys) :
    outcome (isys * folded A) :=
  let! (s1, r) := fold_scan fuel itr f acc s in
  let! (s2, rep) := iterator_close itr s1 in
  Ok (s2, match nif_result rep with Val _ => r | Err e => Raises e end).

(** [args] are the database, the column family if there is one, and the options. *)
Definition fold {A : Type} (fuel : nat) (args : list term) (f : term -> A -> erl A) (acc : A) (s : isys) :
    outcome (isys * folded A) :=
  let! (s1, rep) := Iterator args s in
  match rep with
  | Reply (Ttuple [t; itr]) =>
      if is_atom "ok" t then do_fold fuel itr f acc s1
      else Ok (s1, Raises (badmatch (Ttuple [t; itr])))
  | Reply t => Ok (s1, Raises (badmatch t))
  | Badarg => Ok (s1, Raises ATOM_BADARG)
  end.

(** [WrapperFun] of [fold_keys]. *)
Definition wrapper_fun {A : Type} (user_fun : term -> A -> erl A) (e : term) (acc : A) : erl A :=
  match e with
  | Ttuple [k; _] => user_fun k acc
  | _ => user_fun e acc
  end.

Definition fold_keys {A : Type} (fuel : nat) (args : list term) (user_fun : term -> A -> erl A) (acc : A)
    (s : isys) : outcome (isys * folded A) :=
  fold fuel args (wrapper_fun user_fun) acc s.

End Functions.

(** ** Closing an iterator *)

(** What is left of writes to a new cell and to one that is written back. *)
Lemma writes_undone (h : heap) (d id : nat) (a b1 b2 c1 c2 od : obj) :
  h !! d = Some od -> id <> d ->
  <[d := od]> (<[id := a]> (<[d := b1]> (<[id := c1]> (<[d := b2]> (<[id := c2]> h))))) = <[id := a]> h.
Proof.
  intros Hd Hne. apply map_eq. intros j.
  destruct (decide (j = d)) as [-> |]; [by rewrite lookup_insert_eq, lookup_insert_ne |].
  rewrite lookup_insert_ne by done. destruct (decide (j = id)) as [-> |]; [by rewrite !lookup_insert_eq |].
  by rewrite !lookup_insert_ne by done.
Qed.

(** A child that is linked and unlinked leaves its database as it was. *)
Lemma unlink_linked (o : obj) (id : nat) :
  id ∉ get_list KItr o -> m_CloseRequested o = 0 -> 0 <= m_RefCount o -> m_RefCount o + 1 < 2 ^ 32 ->
  root_dec (unlinked KItr id (set_list KItr (get_list KItr o ++ [id]) (set_refs (m_RefCount o + 1) o))) = o.
Proof.
  intros Hnin Hc H0 H1. unfold unlinked. rewrite get_list_set by done. rewrite filter_app.
  assert (Hf : filter (fun x => x <> id) (get_list KItr o) = get_list KItr o).
  { apply filter_all, Forall_forall. intros x Hx ->. done. }
  assert (Hs : filter (fun x => x <> id) [id] = []).
  { apply filter_none. constructor; [by intros H; apply H | constructor]. }
  rewrite Hf, Hs, app_nil_r. destruct o. cbn in *. unfold root_dec. cbn. rewrite Hc.
  rewrite wrap_small by lia. rewrite andb_false_r.
  unfold set_refs. cbn. f_equal; lia.
Qed.

(** The object of a closed iterator. *)
Definition closed_itr (d : nat) : obj := dead (set_close 1 (set_refs 1 (new_obj KItr (Some d)))).

(** Closing the only handle made since [h] gives back [h], but for the closed object. *)
Lemma close_new_itr h pins d id db :
  INV h pins -> usable h KDb d = true -> h !! d = Some db -> h !! id = None ->
  IteratorClose (with_itr_object h d id db) [Tres RItr id] = Ok (<[id := closed_itr d]> h, Reply ATOM_OK).
Proof.
  intros HI Hu Hdb Hid. destruct (usable_obj h KDb d Hu) as (o & Ho & Hk & Hc & Hn & H0 & H1).
  rewrite Hdb in Ho. injection Ho as <-. assert (Hne : id <> d) by (intros ->; congruence).
  set (oi := set_refs 1 (new_obj KItr (Some d))).
  set (od := set_list KItr (get_list KItr db ++ [id]) (set_refs (m_RefCount db + 1) db)).
  assert (Hi : with_itr_object h d id db !! id = Some oi).
  { unfold with_itr_object. by rewrite lookup_insert_ne, lookup_insert_eq. }
  unfold IteratorClose, close_or_badarg. cbn [elem lookup list_lookup obind].
  unfold RetrieveItrObject, Retrieve. cbn [enif_get_resource res_kind_of]. rewrite decide_True by done.
  unfold deref at 1. rewrite Hi. cbn [obind oi set_refs m_CloseRequested new_obj Z.eqb negb].
  rewrite decide_True by done. cbn [obind]. unfold InitiateCloseRequest, deref. rewrite Hi.
  cbn [obind oi set_refs m_CloseRequested new_obj Z.eqb]. fold (new_obj KItr (Some d)).
  unfold Shutdown, deref. rewrite lookup_insert_eq. cbn [obind set_close o_kind].
  rewrite (child_RefDec_destroy _ id (set_close 1 oi) d od); try done.
  - cbn [obind set_close o_kind oi set_refs new_obj]. f_equal. f_equal.
    unfold od. rewrite unlink_linked; [| | done | lia | lia].
    + unfold with_itr_object. by apply writes_undone.
    + intros Hin. destruct (oi_links _ _ _ _ (inv_obj _ _ HI _ _ Hdb) KItr id Hin) as (v & Hv & _).
      by rewrite lookup_views, Hid in Hv.
  - by rewrite lookup_insert_eq.
  - unfold with_itr_object. by rewrite lookup_insert_ne, lookup_insert_eq.
Qed.

(** ** The theorems *)

Section Correct.
Context `{IW : IterLaws}.

(** Every iterator of RocksDB belongs to an object. *)
Definition owned (s : isys) : Prop := forall id, iheap s !! id = None -> i_iters s !! id = None.

(** The state after a fold: a closed iterator more. *)
Definition after_fold (s : isys) (d id : nat) : isys :=
  with_iheap s (<[id := closed_itr d]> (iheap s)).

Lemma close_created s s1 s2 pins d id :
  INV (iheap s) pins -> usable (iheap s) KDb d = true -> owned s ->
  created s s1 d id -> same_but id s1 s2 ->
  iterator_close (Tres RItr id) s2 = Ok (after_fold s d id, Reply ATOM_OK).
Proof.
  intros HI Hu Hown (db & r & Hdb & Hid & Hi & Hit & Hdel) (Hs & Hsl & Hothers & Hbounds).
  assert (Hh : iheap s2 = with_itr_object (iheap s) d id db) by (unfold iheap; by rewrite Hs, Hi).
  unfold iterator_close. rewrite Hh, (close_new_itr _ pins) by done. cbn [obind].
  change (enif_get_resource RItr (Tres RItr id)) with (Some id). cbv iota.
  assert (Hne : id <> d) by (intros ->; congruence).
  unfold destructor_done, with_itr_object. rewrite lookup_insert_ne, !lookup_insert_eq by done.
  cbn [set_refs new_obj m_CloseRequested Z.eqb negb andb closed_itr dead set_close].
  unfold own_bounds in Hbounds. rewrite Hit, lookup_insert_eq in Hbounds.
  unfold delete_itr. cbn [with_iheap i_iters i_slices].
  destruct (i_iters s2 !! id) as [r2|] eqn:Er2; [| done]. cbn in Hbounds. injection Hbounds as ->.
  rewrite Hsl, Hdel. cbn [obind]. unfold after_fold, with_iheap.
  rewrite Hothers, Hit, Hs, Hi, delete_insert_id by (by apply Hown). done.
Qed.

(** The status of the iterator when the loop has ended. *)
Definition reads_ok {A : Type} (fuel : nat) (args : list term) (fn : term -> A -> erl A) (acc : A) (s : isys) :
    bool :=
  match Iterator args s with
  | Ok (s1, Reply (Ttuple [_; Tres RItr id])) =>
      match fold_scan fuel (Tres RItr id) fn acc s1 with
      | Ok (s2, _) => match i_iters s2 !! id with
                      | Some r => status_ok (itr_status (m_Iterator r))
                      | None => false
                      end
      | Undef => false
      end
  | _ => false
  end.

(** The arguments of [iterator/2,3]. *)
Definition scan_args (d : nat) (cf : option nat) (o : list term) (b : bounds) : list term :=
  Tres RDb d :: cf_args cf ++ [make_list (o ++ bound_items b)].

Lemma fold_runs {A : Type} s pins d cf o b f m :
  INV (iheap s) pins -> owned s -> scan_of s d cf o f m ->
  exists l id, scan_list d f m b l /\ iheap s !! id = None /\
    forall fuel (fn : term -> A -> erl A) acc, (length l < fuel)%nat ->
      exists k, fold fuel (scan_args d cf o b) fn acc s =
                  Ok (after_fold s d id, ended (fold_items fn (take k l) acc)) /\
        (reads_ok fuel (scan_args d cf o b) fn acc s = true ->
         fold_items fn (take k l) acc = fold_items fn l acc).
Proof.
  intros HI Hown Hscan. pose proof Hscan as (Hu & _). unfold scan_usable in Hu.
  rewrite !andb_true_iff in Hu. destruct Hu as [[[[[Hu _] _] _] _] _].
  destruct (iterator_ready s d cf o b f m Hscan) as (s1 & id & l & Hcall & Hl & Hr & Hnew).
  exists l, id. split_and!; [done | by destruct Hnew as (? & ? & _ & ? & _) |].
  intros fuel fn acc Hfuel.
  destruct (fold_scan_scans id _ l None fn fuel s1 acc Hr Hfuel) as (s2 & k & Hrun & Hsame & [r Hr2] & Hfin).
  exists k. unfold fold, do_fold, reads_ok, scan_args. rewrite Hcall. cbn [obind]. rewrite Hrun. cbn [obind].
  rewrite (close_created s s1 s2 pins d id) by done. split; [done |]. rewrite Hr2. intros Hst.
  destruct Hfin as [-> | Hbad]; [done | by rewrite (Hbad r Hr2) in Hst].
Qed.

(** [fold_keys] folds the keys. *)
Lemma fold_items_keys {A : Type} (fn : term -> A -> erl A) (l : list item) (acc : A) :
  fold_items (wrapper_fun fn) l acc = erl_foldl (fun k a => fn (Tbin k) a) acc l.*1.
Proof.
  unfold fold_items. revert acc. induction l as [|e l IH]; intros acc; [done |].
  cbn [erl_foldl fmap list_fmap]. change (wrapper_fun fn (pair_term e) acc) with (fn (Tbin e.1) acc).
  destruct (fn (Tbin e.1) acc); cbn [ebind]; [apply IH | done].
Qed.

(** C23.  [rocksdb:fold/4,5] and [rocksdb:fold_keys/4,5] on a database (or one of its
    snapshots) whose column family holds the map [m] return, with one step of their
    loop more than there are entries between the bounds as fuel: [Fun] is applied to
    the entries (to their keys) in key order, and the result, the accumulator or
    the exception of [Fun], is that of [lists:foldl/3] over a prefix of them, over all
    of them unless a read of RocksDB failed.  In each case the iterator is closed
    again: its bounds and the iterator of RocksDB are deleted, the database has the
    references and the links it had, and the data are untouched. *)
Theorem fold_correct {A : Type} (s : isys) (pins : list nat) (d : nat) (cf : option nat) (o : list term)
    (b : bounds) (f : Z) (m : gmap bytes entry) (fn : term -> A -> erl A) (acc : A) :
  INV (iheap s) pins -> owned s -> scan_of s d cf o f m ->
  exists l id, scan_list d f m b l /\ iheap s !! id = None /\
    forall fuel, (length l < fuel)%nat ->
      (exists k, fold fuel (scan_args d cf o b) fn acc s =
           Ok (after_fold s d id, ended (fold_items fn (take k l) acc)) /\
         (reads_ok fuel (scan_args d cf o b) fn acc s = true ->
          fold_items fn (take k l) acc = fold_items fn l acc)) /\
      (exists k, fold_keys fuel (scan_args d cf o b) fn acc s =
           Ok (after_fold s d id, ended (erl_foldl (fun key a => fn (Tbin key) a) acc (take k l).*1)) /\
         (reads_ok fuel (scan_args d cf o b) (wrapper_fun fn) acc s = true ->
          erl_foldl (fun key a => fn (Tbin key) a) acc (take k l).*1 =
          erl_foldl (fun key a => fn (Tbin key) a) acc l.*1)).
Proof.
  intros HI Hown Hscan. destruct (fold_runs (A := A) s pins d cf o b f m HI Hown Hscan) as (l & id & Hl & Hid & Hrun).
  exists l, id. split_and!; [done | done |]. intros fuel Hfuel. split; [by apply Hrun |].
  destruct (Hrun fuel (wrapper_fun fn) acc Hfuel) as (k & Hk & Hall).
  exists k. by rewrite <- !fold_items_keys.
Qed.
End Correct.

(** ** Witness *)

Module FoldWitness.
Import IterWitness HandleNifWitness.

#[local] Existing Instance the_lib.
#[local] Existing Instance the_laws.
#[local] Existing Instance disk.
#[local] Existing Instance disk_laws.

(** The database 0 with the column family 1 and no iterator. *)
Definition quiet : @isys _ (disk 100) :=
  {| i_db := {| d_heap := h_cf; d_store := (store : dbs) |}; i_slices := ∅; i_iters := ∅ |}.

Lemma quiet_scan : scan_of quiet 0 (Some 1%nat) [] 1 the_map.
Proof. split_and!; [vm_compute; reflexivity | done | by right | done]. Defined.

(** A function that raises at the key [k2]. *)
Definition until_k2 (e : term) (acc : list term) : erl (list term) :=
  match e with
  | Ttuple [Tbin k; _] => if decide (k = k2) then Err (Tatom "stop") else Val (e :: acc)
  | _ => Val (e :: acc)
  end.

Lemma fold_correct_witness :
  scan_of quiet 0 (Some 1%nat) [] 1 the_map /\
  exists l id, scan_list 0 1 the_map the_bounds l /\ iheap quiet !! id = None /\
    forall fuel, (length l < fuel)%nat ->
      (exists k, fold fuel (scan_args 0 (Some 1%nat) [] the_bounds) until_k2 [] quiet =
           Ok (after_fold quiet 0 id, ended (fold_items until_k2 (take k l) [])) /\
         (reads_ok fuel (scan_args 0 (Some 1%nat) [] the_bounds) until_k2 [] quiet = true ->
          fold_items until_k2 (take k l) [] = fold_items until_k2 l [])) /\
      (exists k, fold_keys fuel (scan_args 0 (Some 1%nat) [] the_bounds) until_k2 [] quiet =
           Ok (after_fold quiet 0 id, ended (erl_foldl (fun key a => until_k2 (Tbin key) a) [] (take k l).*1)) /\
         (reads_ok fuel (scan_args 0 (Some 1%nat) [] the_bounds) (wrapper_fun until_k2) [] quiet = true ->
          erl_foldl (fun key a => until_k2 (Tbin key) a) [] (take k l).*1 =
          erl_foldl (fun key a => until_k2 (Tbin key) a) [] l.*1)).
Proof.
  split; [apply quiet_scan |].
  apply (fold_correct quiet [] 0 (Some 1%nat) [] the_bounds 1 the_map until_k2 []);
    [apply inv_cf | done | apply quiet_scan].
Defined.

(** The exception of [Fun], and the iterator closed all the same. *)
Definition fold_report (fuel : nat) : option (folded (list term) * nat * nat * bool) :=
  match fold fuel (scan_args 0 (Some 1%nat) [] the_bounds) until_k2 [] quiet with
  | Ok (s', r) => Some (r, size (i_iters s'), size (i_slices s'), destructor_done (iheap s') 2)
  | Undef => None
  end.

Example fold_raises : fold_report 10 = Some (Raises (Tatom "stop"), 0%nat, 0%nat, true).
Proof. vm_compute. reflexivity. Qed.
End FoldWitness.
