(* ===== verification/Txn.v ===== *)
(** * Transactions

    [c_src/transaction.cc] (optimistic) and [c_src/pessimistic_transaction.cc]:
    creation, reads with and without locks, writes, save points, commit, rollback,
    iterators and the information functions.  [rocksdb::Transaction] is behind the
    class [TxnLib]; its objects live in the state of the library, one for each
    transaction object of the heap. *)

From stdpp Require Import base list numbers strings gmap.
From Stdlib Require Import ZArith Lia.
From S2P Require Import Prelude StdMap Terms RefObjects WriteBatchLib CompactionFilter Options DbLib DbNif DbOpen Iter.

(** ** The library *)

(** The transaction of object [x] of the heap; [txn_waiting] gives the column family,
    when it is set, the key and the transactions waited for. *)
Class TxnLib `{L : DbLib} := {
  txn_begin : dbs -> nat -> nat -> WriteOptions -> struct -> dbs;
  txn_write : dbs -> nat -> cfh -> update -> dbs * Status;
  txn_get : dbs -> nat -> struct -> cfh -> bytes -> Status * bytes;
  txn_lock_get : dbs -> nat -> struct -> cfh -> bytes -> dbs * (Status * bytes);
  txn_multi_get : dbs -> nat -> struct -> cfh -> list bytes -> list (Status * bytes);
  txn_lock_multi_get : dbs -> nat -> struct -> cfh -> list bytes -> dbs * list (Status * bytes);
  txn_commit : dbs -> nat -> dbs * Status;
  txn_rollback : dbs -> nat -> dbs * Status;
  txn_set_savepoint : dbs -> nat -> dbs;
  txn_rollback_to_savepoint : dbs -> nat -> dbs * Status;
  txn_pop_savepoint : dbs -> nat -> dbs * Status;
  txn_id : dbs -> nat -> Z;
  txn_waiting : dbs -> nat -> option Z * bytes * list Z;
}.

(** [GetIterator] *)
Class TxnIterLib `{IL : IterLib} := { txn_iterator : dbs -> nat -> struct -> cfh -> itr }.

(** ** Replies *)

Definition ATOM_BUSY := Tatom "busy".
Definition ATOM_TIMED_OUT := Tatom "timed_out".
Definition ATOM_EXPIRED := Tatom "expired".
Definition ATOM_TRY_AGAIN := Tatom "try_again".

Definition has_code (c : status_code) (s : Status) : bool := bool_decide (code s = c).

Definition IsBusy : Status -> bool := has_code kBusy.
Definition IsTimedOut : Status -> bool := has_code kTimedOut.
Definition IsExpired : Status -> bool := has_code kExpired.
Definition IsTryAgain : Status -> bool := has_code kTryAgain.

(** A chain of tests of a status that is not OK, and the atom of the last return. *)
Fixpoint error_reply (tests : list ((Status -> bool) * term)) (other : term) (st : Status) : term :=
  match tests with
  | [] => error_tuple other st
  | (p, a) :: r => if p st then error_tuple a st else error_reply r other st
  end.

Definition write_reply (tests : list ((Status -> bool) * term)) (st : Status) : term :=
  if status_ok st then ATOM_OK else error_reply tests ATOM_ERROR st.

Definition read_reply (tests : list ((Status -> bool) * term)) (r : Status * bytes) : term :=
  if status_ok r.1 then Ttuple [ATOM_OK; Tbin r.2]
  else if IsNotFound r.1 then ATOM_NOT_FOUND
  else error_reply tests ATOM_UNKNOWN_STATUS_ERROR r.1.

(** The loop over the results, from the last to the first. *)
Definition read_replies (tests : list ((Status -> bool) * term)) :
    list (Status * bytes) -> nat -> term -> term := results_from (read_reply tests).

Section Nifs.
Context `{TL : TxnLib}.

Abbreviation action_of := (dsys -> outcome (dsys * reply)).

(** ** Scopes *)

(** [if(!enif_get_transaction(...)) return badarg] *)
Definition on_tx (argv : list term) (body : nat -> action_of) : action_of := fun s =>
  let! t := elem argv 0 in with_ref KTransaction t body s.

(** A call through [tx_ptr->m_Tx]. *)
Definition use_tx {A} (h : heap) (x : nat) (k : outcome A) : outcome A :=
  let! o := deref h x in if m_Native o then k else Undef.

(** [tx_ptr->m_DbPtr->m_Db->DefaultColumnFamily()] *)
Definition tx_default (h : heap) (x : nat) : outcome cfh :=
  let! o := deref h x in
  match m_DbPtr o with
  | None => Undef
  | Some d => let! db := deref h d in if m_Native db then Ok DefaultCf else Undef
  end.

(** The column family that was given, or the default one of the database. *)
Definition tx_family (given : bool) (x : nat) (c : cfh) (h : heap) : outcome cfh :=
  if given then Ok c else tx_default h x.

(** ** Creation *)

(** [CreateTransactionObject(db_ptr.get(), BeginTransaction(...))] *)
Definition begin_tx (d : nat) (wo : WriteOptions) (o : struct) : action_of := fun s =>
  let! (h1, x) := CreateTransactionObject (d_heap s) d in
  Ok ({| d_heap := h1; d_store := txn_begin (d_store s) d x wo o |},
      Reply (Ttuple [ATOM_OK; Tres RTransaction x])).

(** The database is taken for an optimistic one without a test: [optimistic] says
    which databases are, and a method called on another kind is undefined. *)
Definition BeginOptimistic (optimistic : nat -> bool) (argv : list term) : action_of := fun s =>
  if negb (length argv =? 2)%nat then Ok (s, Badarg)
  else on_db argv (fun d s =>
    let! ot := elem argv 1 in
    if optimistic d then begin_tx d (fold_write_options ot) [] s else Undef) s.

Definition txn_table : list (string * action) :=
  [ ("set_snapshot", ABool "set_snapshot");
    ("deadlock_detect", ABool "deadlock_detect");
    ("lock_timeout", AInt64 "lock_timeout") ]%string.

Definition parse_txn_option : term -> struct -> parse_result := parse_table txn_table.

Definition not_pessimistic : term := error_tuple_msg ATOM_ERROR "not a pessimistic transaction db".

Definition NewPessimisticTransaction (flags : gmap nat db_flags) (argv : list term) : action_of := fun s =>
  if (length argv <? 2)%nat then Ok (s, Badarg)
  else on_db argv (fun d s =>
    match flags !! d with
    | None => Undef
    | Some fl =>
        if negb (m_IsPessimistic fl) then Ok (s, Reply not_pessimistic)
        else
          let! wt := elem argv 1 in
          let! o :=
            if (3 <=? length argv)%nat
            then let! ot := elem argv 2 in let! (o, _) := fold parse_txn_option ot [] in Ok o
            else Ok [] in
          begin_tx d (fold_write_options wt) o s
    end) s.

(** ** Writes *)

Definition tx_write (tests : list ((Status -> bool) * term)) (x : nat) (c : cfh) (u : update) : action_of :=
  fun s =>
    use_cf c (use_tx (d_heap s) x (
      let '(st, status) := txn_write (d_store s) x c u in
      Ok (set_store s st, Reply (write_reply tests status)))).

Definition tx_put (tests : list ((Status -> bool) * term)) (argv : list term) : action_of :=
  on_tx argv (fun x =>
    let given := (3 <? length argv)%nat in
    let i := if given then 2%nat else 1%nat in
    on_family given argv (fun c =>
      with_binary argv i (fun k => with_binary argv (S i) (fun v => tx_write tests x c (UPut k v))))).

Definition tx_delete (tests : list ((Status -> bool) * term)) (argv : list term) : action_of :=
  on_tx argv (fun x =>
    let given := (2 <? length argv)%nat in
    let i := if given then 2%nat else 1%nat in
    on_family given argv (fun c =>
      with_binary argv i (fun k s =>
        let! cfh := tx_family given x c (d_heap s) in tx_write tests x cfh (UDelete k) s))).

Definition lock_tests : list ((Status -> bool) * term) := [(IsBusy, ATOM_BUSY); (IsTimedOut, ATOM_TIMED_OUT)].

Definition PutTransaction : list term -> action_of := tx_put [].
Definition PessimisticTransactionPut : list term -> action_of := tx_put lock_tests.
Definition DelTransaction : list term -> action_of := tx_delete [].
Definition PessimisticTransactionDelete : list term -> action_of := tx_delete lock_tests.

(** ** Reads *)

(** A read of one key: the key, the options, then the column family. *)
Definition tx_read (get : dbs -> nat -> struct -> cfh -> bytes -> dbs * (Status * bytes))
    (tests : list ((Status -> bool) * term)) (argv : list term) : action_of :=
  on_tx argv (fun x =>
    let given := (length argv =? 4)%nat in
    let i := if given then 2%nat else 1%nat in
    with_binary argv i (fun key s =>
      let! ot := elem argv (S i) in
      with_read_options ot (fun opts =>
        on_family given argv (fun c s =>
          let! cfh := tx_family given x c (d_heap s) in
          use_cf cfh (use_tx (d_heap s) x (
            let '(st, r) := get (d_store s) x opts cfh key in
            Ok (set_store s st, Reply (read_reply tests r)))))) s)).

(** [Get], which does not change the transaction. *)
Definition plain_get (s : dbs) (x : nat) (o : struct) (c : cfh) (k : bytes) : dbs * (Status * bytes) :=
  (s, txn_get s x o c k).

(** [transaction_get] also calls [GetForUpdate]. *)
Definition GetTransaction : list term -> action_of := tx_read txn_lock_get [(IsCorruption, ATOM_CORRUPTION)].

Definition GetForUpdateTransaction : list term -> action_of :=
  tx_read txn_lock_get [(IsBusy, ATOM_BUSY); (IsCorruption, ATOM_CORRUPTION)].

Definition PessimisticTransactionGet : list term -> action_of :=
  tx_read plain_get [(IsCorruption, ATOM_CORRUPTION)].

Definition PessimisticTransactionGetForUpdate : list term -> action_of :=
  tx_read txn_lock_get
    [(IsBusy, ATOM_BUSY); (IsTimedOut, ATOM_TIMED_OUT); (IsCorruption, ATOM_CORRUPTION);
     (IsTryAgain, ATOM_TRY_AGAIN)].

(** A read of a list of keys: the default column family is computed in any case. *)
Definition tx_multi_read (get : dbs -> nat -> struct -> cfh -> list bytes -> dbs * list (Status * bytes))
    (tests : list ((Status -> bool) * term)) (argv : list term) : action_of :=
  on_tx argv (fun x s =>
    let given := (length argv =? 4)%nat in
    let i := if given then 2%nat else 1%nat in
    let! dflt := tx_default (d_heap s) x in
    on_family given argv (fun c s =>
      let cfh := if given then c else dflt in
      let! kt := elem argv i in
      match enif_get_list_length kt with
      | None => Ok (s, Badarg)
      | Some O => Ok (s, Reply Tnil)
      | Some n =>
          match read_keys kt with
          | None => Ok (s, Badarg)
          | Some keys =>
              let! ot := elem argv (S i) in
              with_read_options ot (fun opts s =>
                use_cf cfh (use_tx (d_heap s) x (
                  let '(st, rs) := get (d_store s) x opts cfh keys in
                  Ok (set_store s st, Reply (read_replies tests rs n Tnil))))) s
          end
      end) s).

Definition plain_multi_get (s : dbs) (x : nat) (o : struct) (c : cfh) (ks : list bytes) :
    dbs * list (Status * bytes) := (s, txn_multi_get s x o c ks).

Definition MultiGetTransaction : list term -> action_of :=
  tx_multi_read plain_multi_get [(IsCorruption, ATOM_CORRUPTION)].

Definition MultiGetForUpdateTransaction : list term -> action_of :=
  tx_multi_read txn_lock_multi_get [(IsBusy, ATOM_BUSY); (IsCorruption, ATOM_CORRUPTION)].

Definition PessimisticTransactionMultiGet : list term -> action_of :=
  tx_multi_read plain_multi_get [(IsCorruption, ATOM_CORRUPTION)].

Definition PessimisticTransactionMultiGetForUpdate : list term -> action_of :=
  tx_multi_read txn_lock_multi_get
    [(IsBusy, ATOM_BUSY); (IsTimedOut, ATOM_TIMED_OUT); (IsCorruption, ATOM_CORRUPTION)].

(** ** Commit, rollback and save points *)

Definition tx_call (call : dbs -> nat -> dbs * Status) (reply : Status -> term) (argv : list term) : action_of :=
  on_tx argv (fun x s => use_tx (d_heap s) x (
    let '(st, status) := call (d_store s) x in Ok (set_store s st, Reply (reply status)))).

Definition CommitTransaction : list term -> action_of := tx_call txn_commit (write_reply []).
Definition RollbackTransaction : list term -> action_of := tx_call txn_rollback (write_reply []).

Definition PessimisticTransactionCommit : list term -> action_of :=
  tx_call txn_commit (write_reply [(IsBusy, ATOM_BUSY); (IsExpired, ATOM_EXPIRED)]).

Definition PessimisticTransactionRollback : list term -> action_of := tx_call txn_rollback (write_reply []).

Definition PessimisticTransactionSetSavepoint (argv : list term) : action_of :=
  on_tx argv (fun x s => use_tx (d_heap s) x (
    Ok (set_store s (txn_set_savepoint (d_store s) x), Reply ATOM_OK))) .

Definition savepoint_reply (st : Status) : term :=
  if status_ok st then ATOM_OK
  else if IsNotFound st then error_tuple_msg ATOM_ERROR "no savepoint set"
  else error_tuple ATOM_ERROR st.

Definition PessimisticTransactionRollbackToSavepoint : list term -> action_of :=
  tx_call txn_rollback_to_savepoint savepoint_reply.

Definition PessimisticTransactionPopSavepoint : list term -> action_of :=
  tx_call txn_pop_savepoint savepoint_reply.

(** ** Information *)

Definition PessimisticTransactionGetId (argv : list term) : action_of :=
  on_tx argv (fun x s => use_tx (d_heap s) x (
    Ok (s, Reply (Ttuple [ATOM_OK; Tint (txn_id (d_store s) x)])))).

(** The variable of the column family has no initial value. *)
Definition PessimisticTransactionGetWaitingTxns (argv : list term) : action_of :=
  on_tx argv (fun x s => use_tx (d_heap s) x (
    let '(cf, key, txns) := txn_waiting (d_store s) x in
    match cf with
    | None => Undef
    | Some cf =>
        Ok (s, Reply (Ttuple [ATOM_OK;
          Tmap [ (Tatom "column_family_id", Tint cf); (Tatom "key", Tbin key);
                 (Tatom "waiting_txns", foldr (fun i acc => Tcons (Tint i) acc) Tnil txns) ]]))
    end)).

End Nifs.

(** ** Iterators *)

Section Iterators.
Context `{TI : TxnIterLib}.

(** [IteratorTransaction] and [PessimisticTransactionIterator]: the iterator object
    refers to the database of the transaction, not to the transaction. *)
Definition tx_iterator (argv : list term) (s : isys) : outcome (isys * reply) :=
  let! t0 := elem argv 0 in
  with_iref KTransaction t0 (fun x s =>
    let! ot := elem argv (length argv - 1) in
    if negb (enif_is_list ot) then Ok (s, Badarg)
    else
      let! (p, ok) := parse_iterator_options ot (start s) in
      let s1 := with_parsed s p in
      let cleanup s := let! sl := delete_bounds (p_bounds p) (i_slices s) in Ok (with_slices s sl, Badarg) in
      let create c s :=
        use_tx (iheap s) x (
          let i := txn_iterator (d_store (i_db s)) x (p_opts p) c in
          let! o := deref (iheap s) x in
          match m_DbPtr o with
          | None => Undef
          | Some d =>
              let! (s2, id) := create_itr d i (p_bounds p) (p_bounds p) s in
              Ok (s2, Reply (Ttuple [ATOM_OK; Tres RItr id]))
          end) in
      if negb ok then cleanup s1
      else if (length argv =? 3)%nat then
        let! t1 := elem argv 1 in
        let! (h2, cf) := enif_get_cf (iheap s1) t1 in
        match cf with
        | None => cleanup (with_iheap s1 h2)
        | Some c =>
            let! f := cf_pointer h2 c in
            use_cf f (let! h3 := release h2 cf in create f (with_iheap s1 h3))
        end
      else create DefaultCf s1) s.

Definition IteratorTransaction : list term -> isys -> outcome (isys * reply) := tx_iterator.
Definition PessimisticTransactionIterator : list term -> isys -> outcome (isys * reply) := tx_iterator.

End Iterators.
