(* ===== verification/TxnSpec.v ===== *)
(** * Transactions: what they promise

    [TxnLaws] states what [rocksdb/utilities/transaction.h] documents: a transaction
    keeps its writes to itself, its reads see them over the data of the database, save
    points restore them, and a commit applies them all at once or not at all.  The
    theorems show that the native functions of both kinds of transactions, mixed with
    direct calls on the database, implement that specification. *)

From stdpp Require Import base list numbers strings gmap.
From Stdlib Require Import ZArith Lia.
From S2P Require Import Prelude StdMap Terms RefObjects WriteBatchLib CompactionFilter Options DbLib DbNif DbSpec Iter Txn.

(** ** Pending writes *)

(** A put ([Some value]) or a delete of a key of a column family. *)
Record pending_write := { w_family : Z; w_key : bytes; w_value : option bytes }.

Definition write_of (f : Z) (u : update) : option pending_write :=
  match u with
  | UPut k v => Some {| w_family := f; w_key := k; w_value := Some v |}
  | UDelete k => Some {| w_family := f; w_key := k; w_value := None |}
  | _ => None
  end.

Definition apply_write (f : Z) (m : gmap bytes entry) (w : pending_write) : gmap bytes entry :=
  if decide (w_family w = f) then
    match w_value w with
    | Some v => <[w_key w := plain_entry (plain v)]> m
    | None => delete (w_key w) m
    end
  else m.

(** The map of family [f] under the writes [P], oldest first. *)
Definition overlay (f : Z) (P : list pending_write) (m : gmap bytes entry) : gmap bytes entry :=
  fold_left (apply_write f) P m.

(** ** The laws *)

Section Laws.
Context `{TL : TxnLib} {DL : DbLaws L}.

(** What a call on transaction [x] leaves alone. *)
Record tx_frame (pending : dbs -> nat -> list pending_write)
    (saves : dbs -> nat -> list (list pending_write)) (txn_db : dbs -> nat -> option nat)
    (x : nat) (s s' : dbs) : Prop := {
  frame_family : family s' = family s;
  frame_snap : snap s' = snap s;
  frame_db : forall y, txn_db s' y = txn_db s y;
  frame_others : forall y, y <> x -> pending s' y = pending s y /\ saves s' y = saves s y;
}.

Class TxnLaws := {
  pending : dbs -> nat -> list pending_write;
  saves : dbs -> nat -> list (list pending_write);
  txn_db : dbs -> nat -> option nat;
  frame := tx_frame pending saves txn_db;
  (* neither the data nor the transaction changes *)
  quiet := fun x s s' => frame x s s' /\ view s' = view s /\ pending s' x = pending s x /\
             saves s' x = saves s x;
  write_law : forall s x d c f u w,
    txn_db s x = Some d -> family s d c = Some f -> write_of f u = Some w ->
    let '(s', st) := txn_write s x c u in
    frame x s s' /\ view s' = view s /\ saves s' x = saves s x /\
    pending s' x = if status_ok st then pending s x ++ [w] else pending s x;
  get_law : forall s x d o c f m k,
    txn_db s x = Some d -> family s d c = Some f -> plain_read o = true ->
    read_map_of snap view s d o f = Some m ->
    answers (full_merge d f) (overlay f (pending s x) m) k (txn_get s x o c k);
  lock_get_law : forall s x d o c f m k,
    txn_db s x = Some d -> family s d c = Some f -> plain_read o = true ->
    read_map_of snap view s d o f = Some m ->
    let '(s', r) := txn_lock_get s x o c k in
    quiet x s s' /\ answers (full_merge d f) (overlay f (pending s x) m) k r;
  multi_get_law : forall s x d o c f m ks,
    txn_db s x = Some d -> family s d c = Some f -> plain_read o = true ->
    read_map_of snap view s d o f = Some m ->
    Forall2 (answers (full_merge d f) (overlay f (pending s x) m)) ks (txn_multi_get s x o c ks);
  lock_multi_get_law : forall s x d o c f m ks,
    txn_db s x = Some d -> family s d c = Some f -> plain_read o = true ->
    read_map_of snap view s d o f = Some m ->
    let '(s', rs) := txn_lock_multi_get s x o c ks in
    quiet x s s' /\ Forall2 (answers (full_merge d f) (overlay f (pending s x) m)) ks rs;
  (* a commit that fails applies nothing; a pessimistic transaction may have lost its
     writes all the same *)
  commit_law : forall s x d,
    txn_db s x = Some d ->
    let '(s', st) := txn_commit s x in
    frame x s s' /\
    if status_ok st then
      (forall f, view s' d f = overlay f (pending s x) (view s d f)) /\
      (forall d', d' <> d -> view s' d' = view s d')
    else view s' = view s;
  rollback_law : forall s x d,
    txn_db s x = Some d ->
    let '(s', st) := txn_rollback s x in
    frame x s s' /\ view s' = view s /\
    (if status_ok st then pending s' x = [] else pending s' x = pending s x);
  savepoint_law : forall s x d,
    txn_db s x = Some d ->
    let s' := txn_set_savepoint s x in
    frame x s s' /\ view s' = view s /\ pending s' x = pending s x /\
    saves s' x = pending s x :: saves s x;
  rollback_to_law : forall s x d,
    txn_db s x = Some d ->
    let '(s', st) := txn_rollback_to_savepoint s x in
    frame x s s' /\ view s' = view s /\
    match saves s x with
    | [] => IsNotFound st = true /\ pending s' x = pending s x /\ saves s' x = []
    | p :: r => if status_ok st then pending s' x = p /\ saves s' x = r
                else pending s' x = pending s x /\ saves s' x = saves s x
    end;
  pop_law : forall s x d,
    txn_db s x = Some d ->
    let '(s', st) := txn_pop_savepoint s x in
    frame x s s' /\ view s' = view s /\ pending s' x = pending s x /\
    match saves s x with
    | [] => IsNotFound st = true /\ saves s' x = []
    | p :: r => if status_ok st then saves s' x = r else saves s' x = saves s x
    end;
  begin_law : forall s d x wo o, let s' := txn_begin s d x wo o in
    family s' = family s /\ snap s' = snap s /\ view s' = view s /\
    txn_db s' x = Some d /\ pending s' x = [] /\ saves s' x = [] /\
    (forall y, y <> x -> txn_db s' y = txn_db s y /\ pending s' y = pending s y /\ saves s' y = saves s y);
  outside_law : forall s d o c u, let s' := (lib_update s d o c u).1 in
    txn_db s' = txn_db s /\ pending s' = pending s /\ saves s' = saves s;
}.

End Laws.

(** ** Calls *)

Inductive tcall :=
| TPut (cf : option nat) (k v : bytes)
| TDelete (cf : option nat) (k : bytes)
| TGet (cf : option nat) (k : bytes) (opts : list term)
| TGetForUpdate (cf : option nat) (k : bytes) (opts : list term)
| TMultiGet (cf : option nat) (ks : list bytes) (opts : list term)
| TMultiGetForUpdate (cf : option nat) (ks : list bytes) (opts : list term)
| TSetSavepoint
| TRollbackToSavepoint
| TPopSavepoint.

Definition tcall_cf (c : tcall) : option nat :=
  match c with
  | TPut cf _ _ | TDelete cf _ | TGet cf _ _ | TGetForUpdate cf _ _ | TMultiGet cf _ _
  | TMultiGetForUpdate cf _ _ => cf
  | _ => None
  end.

Definition tcall_reads (c : tcall) : list term :=
  match c with
  | TGet _ _ o | TGetForUpdate _ _ o | TMultiGet _ _ o | TMultiGetForUpdate _ _ o => o
  | _ => []
  end.

Section Spec.
Context `{TL : TxnLib}.

(** The call through the functions of optimistic or of pessimistic transactions; save
    points have only the second. *)
Definition run_tcall (pessimistic : bool) (x : nat) (c : tcall) : dsys -> outcome (dsys * reply) :=
  let tx := Tres RTransaction x in
  let pick {A} (a b : A) := if pessimistic then a else b in
  match c with
  | TPut cf k v => pick PessimisticTransactionPut PutTransaction (tx :: cf_args cf ++ [Tbin k; Tbin v])
  | TDelete cf k => pick PessimisticTransactionDelete DelTransaction (tx :: cf_args cf ++ [Tbin k])
  | TGet cf k o =>
      pick PessimisticTransactionGet GetTransaction (tx :: cf_args cf ++ [Tbin k; make_list o])
  | TGetForUpdate cf k o =>
      pick PessimisticTransactionGetForUpdate GetForUpdateTransaction
        (tx :: cf_args cf ++ [Tbin k; make_list o])
  | TMultiGet cf ks o =>
      pick PessimisticTransactionMultiGet MultiGetTransaction
        (tx :: cf_args cf ++ [make_list (Tbin <$> ks); make_list o])
  | TMultiGetForUpdate cf ks o =>
      pick PessimisticTransactionMultiGetForUpdate MultiGetForUpdateTransaction
        (tx :: cf_args cf ++ [make_list (Tbin <$> ks); make_list o])
  | TSetSavepoint => PessimisticTransactionSetSavepoint [tx]
  | TRollbackToSavepoint => PessimisticTransactionRollbackToSavepoint [tx]
  | TPopSavepoint => PessimisticTransactionPopSavepoint [tx]
  end.

(** The RocksDB objects behind a transaction are there. *)
Definition tx_live (h : heap) (x : nat) : bool :=
  match h !! x with
  | Some o => m_Native o &&
      match m_DbPtr o with
      | Some d => match h !! d with Some db => m_Native db | None => false end
      | None => false
      end
  | None => false
  end.

Definition tcall_usable (h : heap) (x : nat) (c : tcall) : bool :=
  usable h KTransaction x && tx_live h x &&
  match tcall_cf c with Some c => usable h KColumnFamily c | None => true end &&
  forallb (item_ok h) (tcall_reads c) && plain_read (read_struct (tcall_reads c)).

(** ** Scopes *)

Lemma tx_live_pinned h x c o : h !! c = Some o -> tx_live h x = true -> tx_live (pinned h c o) x = true.
Proof.
  unfold tx_live, pinned. intros Hc H.
  destruct (h !! x) as [ox|] eqn:Ex; [| done].
  assert (Hin : forall y oy, h !! y = Some oy -> exists oy', <[c := set_refs (m_RefCount o + 1) o]> h !! y = Some oy' /\
             m_Native oy' = m_Native oy /\ m_DbPtr oy' = m_DbPtr oy).
  { intros y oy Hy. destruct (decide (c = y)) as [-> |].
    - rewrite lookup_insert_eq. eexists. split; [done |]. by simplify_eq.
    - rewrite lookup_insert_ne by done. by exists oy. }
  destruct (Hin x ox Ex) as (ox' & -> & -> & ->).
  destruct (m_Native ox); [| done]. destruct (m_DbPtr ox) as [d|]; [| done].
  destruct (h !! d) as [db|] eqn:Ed; [| done]. by destruct (Hin d db Ed) as (db' & -> & -> & _).
Qed.

Lemma use_tx_live {A} h x (k : outcome A) : tx_live h x = true -> use_tx h x k = k.
Proof.
  unfold tx_live, use_tx, deref. destruct (h !! x) as [o|]; [| done]. cbn [obind].
  by destruct (m_Native o).
Qed.

Lemma tx_default_live h x : tx_live h x = true -> tx_default h x = Ok DefaultCf.
Proof.
  unfold tx_live, tx_default, deref. destruct (h !! x) as [o|]; [| done]. cbn [obind].
  destruct (m_Native o); [| done]. destruct (m_DbPtr o) as [d|]; [| done]. cbn [andb].
  destruct (h !! d) as [db|]; [| done]. cbn [obind]. by intros ->.
Qed.

Lemma on_tx_ok x argv (body : nat -> dsys -> outcome (dsys * reply)) s st r :
  usable (d_heap s) KTransaction x = true -> tx_live (d_heap s) x = true ->
  (forall h1, tx_live h1 x = true ->
     (forall k c, k <> KTransaction -> usable (d_heap s) k c = true -> usable h1 k c = true) ->
     body x (set_heap s h1) = Ok ({| d_heap := h1; d_store := st |}, r)) ->
  on_tx (Tres RTransaction x :: argv) body s = Ok ({| d_heap := d_heap s; d_store := st |}, r).
Proof.
  intros Hu Hl Hb. unfold on_tx. cbn [elem lookup list_lookup obind].
  change (Tres RTransaction x) with (Tres (res_kind_of KTransaction) x).
  destruct (usable_pinned _ KTransaction x ltac:(done) Hu) as (o & Ho & Hget & Hrel & Hn).
  unfold with_ref. rewrite Hget. cbn [obind]. rewrite (Hb (pinned (d_heap s) x o)).
  - cbn [obind d_heap]. by rewrite Hrel.
  - by apply tx_live_pinned.
  - intros k c Hk Hc. apply usable_pinned_other; [done | | done]. by eapply usable_kind_ne.
Qed.

Lemma tx_on_family cf x t rest (body : cfh -> dsys -> outcome (dsys * reply)) s st r :
  match cf with Some c => usable (d_heap s) KColumnFamily c | None => true end = true ->
  tx_live (d_heap s) x = true ->
  (forall h1, tx_live h1 x = true ->
     (forall i, usable (d_heap s) KSnapshot i = true -> usable h1 KSnapshot i = true) ->
     body (handle_of cf) (set_heap s h1) = Ok ({| d_heap := h1; d_store := st |}, r)) ->
  on_family (match cf with Some _ => true | None => false end) (t :: cf_args cf ++ rest) body s =
    Ok ({| d_heap := d_heap s; d_store := st |}, r).
Proof.
  intros Hu Hl Hb. destruct cf as [c|].
  - unfold on_family. cbn [elem lookup list_lookup obind cf_args app].
    change (Tres RColumnFamily c) with (Tres (res_kind_of KColumnFamily) c).
    destruct (usable_pinned _ KColumnFamily c ltac:(done) Hu) as (o & Ho & Hget & Hrel & Hn).
    unfold with_ref. rewrite Hget. cbn [obind d_heap set_heap].
    assert (Hp : cf_pointer (pinned (d_heap s) c o) c = Ok (CfHandle c)).
    { unfold cf_pointer, deref, pinned. rewrite lookup_insert_eq. cbn. by rewrite Hn. }
    rewrite Hp. cbn [obind]. cbn [handle_of] in Hb. rewrite (Hb (pinned (d_heap s) c o)).
    + cbn [obind d_heap]. by rewrite Hrel.
    + by apply tx_live_pinned.
    + intros i Hi. apply usable_pinned_other; [done | | done]. by eapply usable_kind_ne.
  - unfold on_family. specialize (Hb (d_heap s) Hl ltac:(done)). cbn [handle_of] in Hb. by destruct s.
Qed.

(** ** Steps *)

Definition cf_given (cf : option nat) : bool := match cf with Some _ => true | None => false end.

Definition cf_usable (h : heap) (cf : option nat) : bool :=
  match cf with Some c => usable h KColumnFamily c | None => true end.

Lemma tx_family_live cf x h : tx_live h x = true -> tx_family (cf_given cf) x (handle_of cf) h = Ok (handle_of cf).
Proof. intros Hl. destruct cf; [done |]. by apply tx_default_live. Qed.

Lemma tx_write_live tests x cf u s st status :
  tx_live (d_heap s) x = true -> txn_write (d_store s) x (handle_of cf) u = (st, status) ->
  tx_write tests x (handle_of cf) u s = Ok ({| d_heap := d_heap s; d_store := st |}, Reply (write_reply tests status)).
Proof.
  intros Hl Hw. unfold tx_write. rewrite use_tx_live, Hw by done. by destruct cf.
Qed.

Lemma tx_put_step tests x cf k v s st status :
  usable (d_heap s) KTransaction x = true -> tx_live (d_heap s) x = true -> cf_usable (d_heap s) cf = true ->
  txn_write (d_store s) x (handle_of cf) (UPut k v) = (st, status) ->
  tx_put tests (Tres RTransaction x :: cf_args cf ++ [Tbin k; Tbin v]) s =
    Ok ({| d_heap := d_heap s; d_store := st |}, Reply (write_reply tests status)).
Proof.
  intros Hu Hl Hc Hw. unfold tx_put. apply on_tx_ok; [done | done |]. intros h1 Hl1 Hk. cbv zeta.
  destruct cf as [c|]; cbn [cf_args app length Nat.ltb Nat.leb];
    first [refine (tx_on_family (Some c) x _ _ _ (set_heap s h1) st _ _ Hl1 _)
          | refine (tx_on_family None x _ _ _ (set_heap s h1) st _ _ Hl1 _)];
    try (by apply Hk); try done; intros h2 Hl2 _; unfold with_binary;
    cbn [elem lookup list_lookup obind enif_inspect_binary];
    by (erewrite tx_write_live; [| exact Hl2 | exact Hw]).
Qed.

Lemma tx_delete_step tests x cf k s st status :
  usable (d_heap s) KTransaction x = true -> tx_live (d_heap s) x = true -> cf_usable (d_heap s) cf = true ->
  txn_write (d_store s) x (handle_of cf) (UDelete k) = (st, status) ->
  tx_delete tests (Tres RTransaction x :: cf_args cf ++ [Tbin k]) s =
    Ok ({| d_heap := d_heap s; d_store := st |}, Reply (write_reply tests status)).
Proof.
  intros Hu Hl Hc Hw. unfold tx_delete. apply on_tx_ok; [done | done |]. intros h1 Hl1 Hk. cbv zeta.
  destruct cf as [c|]; cbn [cf_args app length Nat.ltb Nat.leb];
    first [refine (tx_on_family (Some c) x _ _ _ (set_heap s h1) st _ _ Hl1 _)
          | refine (tx_on_family None x _ _ _ (set_heap s h1) st _ _ Hl1 _)];
    try (by apply Hk); try done; intros h2 Hl2 _; unfold with_binary;
    cbn [elem lookup list_lookup obind enif_inspect_binary];
    first [rewrite (tx_family_live (Some c)) by done | rewrite (tx_family_live None) by done]; cbn [obind];
    by (erewrite tx_write_live; [| exact Hl2 | exact Hw]).
Qed.

Lemma tx_read_step get tests x cf k o s st r :
  usable (d_heap s) KTransaction x = true -> tx_live (d_heap s) x = true -> cf_usable (d_heap s) cf = true ->
  forallb (item_ok (d_heap s)) o = true ->
  get (d_store s) x (read_struct o) (handle_of cf) k = (st, r) ->
  tx_read get tests (Tres RTransaction x :: cf_args cf ++ [Tbin k; make_list o]) s =
    Ok ({| d_heap := d_heap s; d_store := st |}, Reply (read_reply tests r)).
Proof.
  intros Hu Hl Hc Ho Hg. unfold tx_read. apply on_tx_ok; [done | done |]. intros h1 Hl1 Hk. cbv zeta.
  assert (Ho1 : forallb (item_ok h1) o = true).
  { eapply items_ok_weaken; [| exact Ho]. intros. by apply Hk. }
  destruct cf as [c|]; cbn [cf_args app length Nat.eqb]; unfold with_binary;
    cbn [elem lookup list_lookup obind enif_inspect_binary]; rewrite read_options_ok by done;
    first [refine (tx_on_family (Some c) x _ _ _ (set_heap s h1) st _ _ Hl1 _)
          | refine (tx_on_family None x _ _ _ (set_heap s h1) st _ _ Hl1 _)];
    try (by apply Hk); try done; intros h2 Hl2 _; cbn [d_heap set_heap d_store];
    first [rewrite (tx_family_live (Some c)) by done | rewrite (tx_family_live None) by done];
    cbn [obind]; rewrite use_tx_live by done; cbn [use_cf handle_of] in *; by rewrite Hg.
Qed.

Lemma tx_multi_read_step get tests x cf ks o s st rs :
  usable (d_heap s) KTransaction x = true -> tx_live (d_heap s) x = true -> cf_usable (d_heap s) cf = true ->
  forallb (item_ok (d_heap s)) o = true -> length rs = length ks ->
  get (d_store s) x (read_struct o) (handle_of cf) ks = (st, rs) -> ks <> [] ->
  tx_multi_read get tests (Tres RTransaction x :: cf_args cf ++ [make_list (Tbin <$> ks); make_list o]) s =
    Ok ({| d_heap := d_heap s; d_store := st |}, Reply (make_list (read_reply tests <$> rs))).
Proof.
  intros Hu Hl Hc Ho Hlen Hg Hnil. unfold tx_multi_read. apply on_tx_ok; [done | done |].
  intros h1 Hl1 Hk. cbv zeta. cbn [d_heap set_heap]. rewrite tx_default_live by done. cbn [obind].
  destruct cf as [c|]; cbn [cf_args app length Nat.eqb];
    first [refine (tx_on_family (Some c) x _ _ _ (set_heap s h1) st _ _ Hl1 _)
          | refine (tx_on_family None x _ _ _ (set_heap s h1) st _ _ Hl1 _)];
    try (by apply Hk); try done; intros h2 Hl2 Hk2; cbn [elem lookup list_lookup obind];
    rewrite list_length_make_list, length_fmap; unfold read_keys;
    rewrite list_cells_make_list, mapM_binaries;
    (destruct ks as [|k ks]; [done |]);
    cbn [length] in *; cbn [elem lookup list_lookup obind];
    (rewrite read_options_ok by (eapply items_ok_weaken; [exact Hk2 |];
       eapply items_ok_weaken; [| exact Ho]; intros; by apply Hk));
    rewrite use_tx_live by done; cbn [use_cf handle_of d_store set_heap] in *; rewrite Hg;
    rewrite <- Hlen; unfold read_replies; rewrite results_from_eq, foldr_cons_list; done.
Qed.

(** An empty list of keys is answered without a call. *)
Lemma tx_multi_read_nil get tests x cf o s :
  usable (d_heap s) KTransaction x = true -> tx_live (d_heap s) x = true -> cf_usable (d_heap s) cf = true ->
  tx_multi_read get tests (Tres RTransaction x :: cf_args cf ++ [make_list (Tbin <$> []); make_list o]) s =
    Ok (s, Reply (make_list [])).
Proof.
  intros Hu Hl Hc. unfold tx_multi_read.
  rewrite (on_tx_ok x _ _ s (d_store s) (Reply (make_list []))); [by destruct s | done | done |].
  intros h1 Hl1 Hk. cbv zeta. cbn [d_heap set_heap]. rewrite tx_default_live by done. cbn [obind].
  destruct cf as [c|]; cbn [cf_args app length Nat.eqb];
    first [refine (tx_on_family (Some c) x _ _ _ (set_heap s h1) (d_store s) _ _ Hl1 _)
          | refine (tx_on_family None x _ _ _ (set_heap s h1) (d_store s) _ _ Hl1 _)];
    try (by apply Hk); done.
Qed.

Lemma tx_call_step call reply x s st status :
  usable (d_heap s) KTransaction x = true -> tx_live (d_heap s) x = true ->
  call (d_store s) x = (st, status) ->
  tx_call call reply [Tres RTransaction x] s = Ok ({| d_heap := d_heap s; d_store := st |}, Reply (reply status)).
Proof.
  intros Hu Hl Hc. unfold tx_call. apply on_tx_ok; [done | done |]. intros h1 Hl1 _.
  rewrite use_tx_live by done. cbn [d_store set_heap]. by rewrite Hc.
Qed.

End Spec.

(** ** The specification *)

Section Refinement.
Context `{TL : TxnLib} {DL : DbLaws L} {TW : TxnLaws}.

Abbreviation maps := (Z -> gmap bytes entry).

(** The error of a status, under some atom. *)
Definition fails (t : term) : Prop := exists a st, status_ok st = false /\ t = error_tuple a st.

Definition tx_says (merge : bytes -> option bytes -> list bytes -> option bytes)
    (m : gmap bytes entry) (k : bytes) (t : term) : Prop :=
  (exists e, resolved merge m k = Some e /\ t = Ttuple [ATOM_OK; Tbin (default_value e)]) \/
  (m !! k = None /\ t = ATOM_NOT_FOUND) \/ fails t.

(** The database as its other users see it, the writes of the transaction, and the
    stack of its save points. *)
Record abs := { a_view : maps; a_pending : list pending_write; a_saves : list (list pending_write) }.

Definition abs_of (s : dbs) (d x : nat) : abs :=
  {| a_view := view s d; a_pending := pending s x; a_saves := saves s x |}.

(** A write is added, or refused. *)
Definition write_allowed (w : pending_write) (A A' : abs) (r : reply) : Prop :=
  a_saves A' = a_saves A /\
  ((r = Reply ATOM_OK /\ a_pending A' = a_pending A ++ [w]) \/
   (exists t, r = Reply t /\ fails t /\ a_pending A' = a_pending A)).

(** A read sees the writes of the transaction over the map of the database or of a
    snapshot. *)
Definition read_allowed (fam : option nat -> Z) (snaps : nat -> option (nat * maps)) (d : nat) (A A' : abs)
    (cf : option nat) (o : list term) (says : gmap bytes entry -> Prop) : Prop :=
  A' = A /\ exists m, seen snaps d (a_view A) (read_struct o) (fam cf) = Some m /\
    says (overlay (fam cf) (a_pending A) m).

Definition no_savepoint : term := error_tuple_msg ATOM_ERROR "no savepoint set".

Definition tx_allowed (fam : option nat -> Z) (snaps : nat -> option (nat * maps)) (d : nat)
    (A : abs) (c : tcall) (A' : abs) (r : reply) : Prop :=
  a_view A' = a_view A /\
  match c with
  | TPut cf k v => write_allowed {| w_family := fam cf; w_key := k; w_value := Some v |} A A' r
  | TDelete cf k => write_allowed {| w_family := fam cf; w_key := k; w_value := None |} A A' r
  | TGet cf k o | TGetForUpdate cf k o =>
      read_allowed fam snaps d A A' cf o (fun m =>
        exists t, r = Reply t /\ tx_says (full_merge d (fam cf)) m k t)
  | TMultiGet cf ks o | TMultiGetForUpdate cf ks o =>
      read_allowed fam snaps d A A' cf o (fun m =>
        exists ts, r = Reply (make_list ts) /\ Forall2 (tx_says (full_merge d (fam cf)) m) ks ts)
  | TSetSavepoint => r = Reply ATOM_OK /\ a_pending A' = a_pending A /\ a_saves A' = a_pending A :: a_saves A
  | TRollbackToSavepoint =>
      match a_saves A with
      | [] => A' = A /\ r = Reply no_savepoint
      | p :: rest => (r = Reply ATOM_OK /\ a_pending A' = p /\ a_saves A' = rest) \/
                     (A' = A /\ r <> Reply ATOM_OK)
      end
  | TPopSavepoint =>
      a_pending A' = a_pending A /\
      match a_saves A with
      | [] => A' = A /\ r = Reply no_savepoint
      | p :: rest => (r = Reply ATOM_OK /\ a_saves A' = rest) \/ (A' = A /\ r <> Reply ATOM_OK)
      end
  end.

(** Calls on the database and on the transaction, in the order in which they are made. *)
Inductive event := OnDb (c : dcall) | OnTx (c : tcall).

Definition event_allowed (fam : option nat -> Z) (snaps : nat -> option (nat * maps)) (d : nat)
    (A : abs) (e : event) (A' : abs) (r : reply) : Prop :=
  match e with
  | OnDb c => allowed fam snaps d (a_view A) c (a_view A') r /\
              a_pending A' = a_pending A /\ a_saves A' = a_saves A
  | OnTx c => tx_allowed fam snaps d A c A' r
  end.

Inductive events_allowed (fam : option nat -> Z) (snaps : nat -> option (nat * maps)) (d : nat) :
    abs -> list event -> abs -> list reply -> Prop :=
| events_nil A : events_allowed fam snaps d A [] A []
| events_cons A e A1 r l A2 rs :
    event_allowed fam snaps d A e A1 r -> events_allowed fam snaps d A1 l A2 rs ->
    events_allowed fam snaps d A (e :: l) A2 (r :: rs).

Definition run_event (pessimistic : bool) (d x : nat) (e : event) : dsys -> outcome (dsys * reply) :=
  match e with OnDb c => run_dcall d c | OnTx c => run_tcall pessimistic x c end.

Fixpoint run_events (pessimistic : bool) (d x : nat) (l : list event) (s : dsys) :
    outcome (dsys * list reply) :=
  match l with
  | [] => Ok (s, [])
  | e :: r =>
      let! (s1, rep) := run_event pessimistic d x e s in
      let! (s2, reps) := run_events pessimistic d x r s1 in
      Ok (s2, rep :: reps)
  end.

Definition tcall_sees (snaps : nat -> option (nat * maps)) (d : nat) (c : tcall) : Prop :=
  match sget "snapshot" (read_struct (tcall_reads c)) with
  | Some (VHandle RSnapshot i) => exists m, snaps i = Some (d, m)
  | _ => True
  end.

(** An event can be run: its handles are usable and belong to the database. *)
Definition event_ok (fam : option nat -> Z) (d x : nat) (s : dsys) (e : event) : Prop :=
  match e with
  | OnDb c => call_usable (d_heap s) d c = true /\ call_sees (snap (d_store s)) d c /\
              family (d_store s) d (handle_of (call_cf c)) = Some (fam (call_cf c))
  | OnTx c => tcall_usable (d_heap s) x c = true /\ tcall_sees (snap (d_store s)) d c /\
              family (d_store s) d (handle_of (tcall_cf c)) = Some (fam (tcall_cf c))
  end.

(** ** Lemmas *)

Lemma error_reply_eq tests other st : exists a, error_reply tests other st = error_tuple a st.
Proof.
  induction tests as [|[p a] tests IH]; cbn [error_reply]; [by eexists |].
  destruct (p st); [by eexists | done].
Qed.

Lemma write_reply_fails tests st : status_ok st = false -> fails (write_reply tests st).
Proof.
  intros Hs. unfold write_reply. rewrite Hs. destruct (error_reply_eq tests ATOM_ERROR st) as [a ->].
  by exists a, st.
Qed.

Lemma read_reply_says tests merge m k r : answers merge m k r -> tx_says merge m k (read_reply tests r).
Proof.
  destruct r as [st v]. intros [Hok Hnf]. cbn [fst snd] in *. unfold tx_says, read_reply. cbn [fst snd].
  destruct (status_ok st) eqn:Es.
  - left. destruct (Hok eq_refl) as (e & He & ->). by exists e.
  - right. destruct (IsNotFound st) eqn:En; [left; split; [by apply Hnf | done] |]. right.
    destruct (error_reply_eq tests ATOM_UNKNOWN_STATUS_ERROR st) as [a ->]. by exists a, st.
Qed.

Lemma tseen_some (s : dbs) d c f :
  tcall_sees (snap s) d c ->
  exists m, seen (snap s) d (view s d) (read_struct (tcall_reads c)) f = Some m /\
    read_map_of snap view s d (read_struct (tcall_reads c)) f = Some m.
Proof.
  unfold tcall_sees, seen, read_map_of. intros H.
  destruct (sget "snapshot" _) as [[| | | | | |[] i| | | | |]|]; try by eexists.
  destruct H as [m ->]. rewrite decide_True by done. by eexists.
Qed.

Lemma savepoint_reply_none st : IsNotFound st = true -> savepoint_reply st = no_savepoint.
Proof.
  intros Hn. unfold savepoint_reply. rewrite Hn. unfold IsNotFound, status_ok in *.
  apply bool_decide_eq_true in Hn. by rewrite Hn.
Qed.

Lemma savepoint_reply_error st : status_ok st = false -> savepoint_reply st <> ATOM_OK.
Proof. unfold savepoint_reply. intros ->. by destruct (IsNotFound st), (IsIncomplete st) eqn:?; unfold error_tuple; rewrite ?Heqb. Qed.

(** What holds after a call on the transaction. *)
Definition tx_result (fam : option nat -> Z) (d x : nat) (c : tcall) (s : dsys) (res : outcome (dsys * reply)) : Prop :=
  exists s' r, res = Ok (s', r) /\ d_heap s' = d_heap s /\ frame x (d_store s) (d_store s') /\
    tx_allowed fam (snap (d_store s)) d (abs_of (d_store s) d x) c (abs_of (d_store s') d x) r.

Lemma write_refines tests d x cf u w s st status :
  txn_db (d_store s) x = Some d -> family (d_store s) d (handle_of cf) = Some (w_family w) ->
  write_of (w_family w) u = Some w -> txn_write (d_store s) x (handle_of cf) u = (st, status) ->
  frame x (d_store s) st /\ view st = view (d_store s) /\
  write_allowed w (abs_of (d_store s) d x) (abs_of st d x) (Reply (write_reply tests status)).
Proof.
  intros Hd Hf Hw E. pose proof (write_law (d_store s) x d _ _ u w Hd Hf Hw) as H. rewrite E in H.
  destruct H as (Hfr & Hv & Hs & Hp). split_and!; [done | done |]. split; [done |].
  cbn [abs_of a_pending]. destruct (status_ok status) eqn:Es.
  - left. split; [unfold write_reply; by rewrite Es | done].
  - right. eexists. split_and!; [done | by apply write_reply_fails | done].
Qed.

Lemma quiet_abs x s s' d : quiet x s s' -> abs_of s' d x = abs_of s d x.
Proof. intros (_ & Hv & Hp & Hs). unfold abs_of. by rewrite Hv, Hp, Hs. Qed.

Lemma quiet_refl x s : quiet x s s.
Proof. by repeat split. Qed.

(** A read of one key, with or without locks. *)
Lemma read_refines get tests d x cf k o s st r m f :
  (forall s x d o c f m k, txn_db s x = Some d -> family s d c = Some f -> plain_read o = true ->
     read_map_of snap view s d o f = Some m ->
     let '(s', r) := get s x o c k in
     quiet x s s' /\ answers (full_merge d f) (overlay f (pending s x) m) k r) ->
  txn_db (d_store s) x = Some d -> family (d_store s) d (handle_of cf) = Some f ->
  plain_read (read_struct o) = true -> read_map_of snap view (d_store s) d (read_struct o) f = Some m ->
  get (d_store s) x (read_struct o) (handle_of cf) k = (st, r) ->
  quiet x (d_store s) st /\
  tx_says (full_merge d f) (overlay f (pending (d_store s) x) m) k (read_reply tests r).
Proof.
  intros Hlaw Hd Hf Hp Hm E. specialize (Hlaw _ x d _ _ f m k Hd Hf Hp Hm). rewrite E in Hlaw.
  destruct Hlaw as [Hq Ha]. split; [done |]. by apply read_reply_says.
Qed.

Lemma plain_get_law s x d o c f m k :
  txn_db s x = Some d -> family s d c = Some f -> plain_read o = true ->
  read_map_of snap view s d o f = Some m ->
  let '(s', r) := plain_get s x o c k in
  quiet x s s' /\ answers (full_merge d f) (overlay f (pending s x) m) k r.
Proof. intros. split; [apply quiet_refl | by apply get_law]. Qed.

Lemma plain_multi_law s x d o c f m ks :
  txn_db s x = Some d -> family s d c = Some f -> plain_read o = true ->
  read_map_of snap view s d o f = Some m ->
  let '(s', rs) := plain_multi_get s x o c ks in
  quiet x s s' /\ Forall2 (answers (full_merge d f) (overlay f (pending s x) m)) ks rs.
Proof. intros. split; [apply quiet_refl | by apply multi_get_law]. Qed.

(** A call of [tx_read] as a step of the specification. *)
Lemma tx_read_refines get tests fam d x cf k o c s :
  (forall s x d o c f m k, txn_db s x = Some d -> family s d c = Some f -> plain_read o = true ->
     read_map_of snap view s d o f = Some m ->
     let '(s', r) := get s x o c k in
     quiet x s s' /\ answers (full_merge d f) (overlay f (pending s x) m) k r) ->
  (c = TGet cf k o \/ c = TGetForUpdate cf k o) ->
  tcall_usable (d_heap s) x c = true -> tcall_sees (snap (d_store s)) d c ->
  family (d_store s) d (handle_of cf) = Some (fam cf) -> txn_db (d_store s) x = Some d ->
  tx_result fam d x c s (tx_read get tests (Tres RTransaction x :: cf_args cf ++ [Tbin k; make_list o]) s).
Proof.
  intros Hlaw Hc Hu Hsee Hf Hd. unfold tcall_usable in Hu. rewrite !andb_true_iff in Hu.
  destruct Hu as [[[[Hx Hl] Hcf] Ho] Hp]. destruct (tseen_some _ d c (fam cf) Hsee) as (m & Hm & Hm').
  assert (Hreads : tcall_reads c = o /\ tcall_cf c = cf) by (by destruct Hc as [-> | ->]).
  destruct Hreads as [Hr Hcc]. rewrite Hr in *. rewrite Hcc in *.
  destruct (get (d_store s) x (read_struct o) (handle_of cf) k) as [st r] eqn:E.
  destruct (read_refines get tests d x cf k o s st r m (fam cf) Hlaw Hd Hf Hp Hm' E) as [Hq Hsays].
  exists {| d_heap := d_heap s; d_store := st |}, (Reply (read_reply tests r)).
  split; [by apply tx_read_step |]. split; [done |]. split; [by apply Hq |]. cbn [d_store].
  rewrite (quiet_abs _ _ _ d Hq).
  destruct Hc as [-> | ->]; (split; [done |]); (split; [done |]);
    exists m; (split; [done |]); by eexists.
Qed.

Lemma tx_multi_refines get tests fam d x cf ks o c s :
  (forall s x d o c f m ks, txn_db s x = Some d -> family s d c = Some f -> plain_read o = true ->
     read_map_of snap view s d o f = Some m ->
     let '(s', rs) := get s x o c ks in
     quiet x s s' /\ Forall2 (answers (full_merge d f) (overlay f (pending s x) m)) ks rs) ->
  (c = TMultiGet cf ks o \/ c = TMultiGetForUpdate cf ks o) ->
  tcall_usable (d_heap s) x c = true -> tcall_sees (snap (d_store s)) d c ->
  family (d_store s) d (handle_of cf) = Some (fam cf) -> txn_db (d_store s) x = Some d ->
  tx_result fam d x c s
    (tx_multi_read get tests (Tres RTransaction x :: cf_args cf ++ [make_list (Tbin <$> ks); make_list o]) s).
Proof.
  intros Hlaw Hc Hu Hsee Hf Hd. unfold tcall_usable in Hu. rewrite !andb_true_iff in Hu.
  destruct Hu as [[[[Hx Hl] Hcf] Ho] Hp]. destruct (tseen_some _ d c (fam cf) Hsee) as (m & Hm & Hm').
  assert (Hreads : tcall_reads c = o /\ tcall_cf c = cf) by (by destruct Hc as [-> | ->]).
  destruct Hreads as [Hr Hcc]. rewrite Hr in *. rewrite Hcc in *.
  assert (Hgoal : forall st ts, quiet x (d_store s) st ->
    Forall2 (tx_says (full_merge d (fam cf)) (overlay (fam cf) (pending (d_store s) x) m)) ks ts ->
    tx_allowed fam (snap (d_store s)) d (abs_of (d_store s) d x) c (abs_of st d x) (Reply (make_list ts))).
  { intros st ts Hq Hts. rewrite (quiet_abs _ _ _ d Hq).
    destruct Hc as [-> | ->]; (split; [done |]); (split; [done |]); exists m; (split; [done |]); by eexists. }
  destruct (decide (ks = [])) as [-> | Hne].
  { exists s, (Reply (make_list [])). split; [by apply tx_multi_read_nil |]. split; [done |].
    split; [apply quiet_refl |]. apply Hgoal; [apply quiet_refl | constructor]. }
  destruct (get (d_store s) x (read_struct o) (handle_of cf) ks) as [st rs] eqn:E.
  specialize (Hlaw _ x d _ _ _ m ks Hd Hf Hp Hm'). rewrite E in Hlaw. destruct Hlaw as [Hq Hall].
  exists {| d_heap := d_heap s; d_store := st |}, (Reply (make_list (read_reply tests <$> rs))).
  split; [apply tx_multi_read_step; try done; by rewrite (Forall2_length _ _ _ Hall) |].
  split; [done |]. split; [by apply Hq |]. apply Hgoal; [done |].
  apply Forall2_fmap_r. eapply Forall2_impl; [exact Hall |]. intros k r. apply read_reply_says.
Qed.

Lemma tx_save_refines fam d x c s :
  (c = TSetSavepoint \/ c = TRollbackToSavepoint \/ c = TPopSavepoint) ->
  tcall_usable (d_heap s) x c = true -> txn_db (d_store s) x = Some d ->
  tx_result fam d x c s (run_tcall true x c s).
Proof.
  intros Hc Hu Hd. unfold tcall_usable in Hu. rewrite !andb_true_iff in Hu. destruct Hu as [[[[Hx Hl] _] _] _].
  unfold tx_result. destruct Hc as [-> | [-> | ->]]; cbn [run_tcall].
  - exists {| d_heap := d_heap s; d_store := txn_set_savepoint (d_store s) x |}, (Reply ATOM_OK).
    destruct (savepoint_law (d_store s) x d Hd) as (Hf & Hv & Hp & Hs).
    split_and!; [| done | done | split; [cbn; by rewrite Hv | by split_and!]].
    unfold PessimisticTransactionSetSavepoint. apply on_tx_ok; [done | done |]. intros h1 Hl1 _.
    by rewrite use_tx_live.
  - pose proof (rollback_to_law (d_store s) x d Hd) as H.
    destruct (txn_rollback_to_savepoint (d_store s) x) as [st status] eqn:E.
    destruct H as (Hf & Hv & H).
    exists {| d_heap := d_heap s; d_store := st |}, (Reply (savepoint_reply status)).
    split; [by apply tx_call_step |]. split; [done |]. split; [done |].
    split; [cbn; by rewrite Hv |]. cbn [a_saves abs_of a_pending d_store].
    destruct (saves (d_store s) x) as [|p rest] eqn:Es.
    + destruct H as (Hn & Hp & Hs). unfold abs_of. rewrite Hv, Hp, Hs, Es. split; [done |].
      by rewrite savepoint_reply_none.
    + destruct (status_ok status) eqn:Eok; [left | right].
      * unfold savepoint_reply. by rewrite Eok.
      * destruct H as [Hp Hs]. unfold abs_of. rewrite Hv, Hp, Hs, Es. split; [done |].
        intros [= Hr]. by apply (savepoint_reply_error status).
  - pose proof (pop_law (d_store s) x d Hd) as H.
    destruct (txn_pop_savepoint (d_store s) x) as [st status] eqn:E.
    destruct H as (Hf & Hv & Hp & H).
    exists {| d_heap := d_heap s; d_store := st |}, (Reply (savepoint_reply status)).
    split; [by apply tx_call_step |]. split; [done |]. split; [done |].
    split; [cbn; by rewrite Hv |]. split; [done |]. cbn [a_saves abs_of d_store].
    destruct (saves (d_store s) x) as [|p rest] eqn:Es.
    + destruct H as (Hn & Hs). unfold abs_of. rewrite Hv, Hp, Hs, Es. split; [done |].
      by rewrite savepoint_reply_none.
    + destruct (status_ok status) eqn:Eok; [left | right].
      * unfold savepoint_reply. by rewrite Eok.
      * unfold abs_of. rewrite Hv, Hp, H, Es. split; [done |].
        intros [= Hr]. by apply (savepoint_reply_error status).
Qed.

Lemma tx_write_refines (put : bool) tests fam d x cf k v s :
  let c := if put then TPut cf k v else TDelete cf k in
  let w := {| w_family := fam cf; w_key := k; w_value := if put then Some v else None |} in
  tcall_usable (d_heap s) x c = true -> family (d_store s) d (handle_of cf) = Some (fam cf) ->
  txn_db (d_store s) x = Some d ->
  tx_result fam d x c s
    (if put then tx_put tests (Tres RTransaction x :: cf_args cf ++ [Tbin k; Tbin v]) s
     else tx_delete tests (Tres RTransaction x :: cf_args cf ++ [Tbin k]) s).
Proof.
  intros c w Hu Hf Hd. unfold tcall_usable in Hu. rewrite !andb_true_iff in Hu.
  destruct Hu as [[[[Hx Hl] Hcf] _] _].
  assert (Hcc : tcall_cf c = cf) by (by destruct put). rewrite Hcc in Hcf.
  destruct (txn_write (d_store s) x (handle_of cf) (if put then UPut k v else UDelete k)) as [st status] eqn:E.
  destruct (write_refines tests d x cf (if put then UPut k v else UDelete k) w s st status Hd Hf
              ltac:(by destruct put) E) as (Hfr & Hv & Hw).
  exists {| d_heap := d_heap s; d_store := st |}, (Reply (write_reply tests status)).
  split; [destruct put; [by apply tx_put_step | by apply tx_delete_step] |].
  split; [done |]. split; [done |]. split; [cbn; by rewrite Hv |]. by destruct put.
Qed.

Lemma tcall_refines pess fam d x c s :
  tcall_usable (d_heap s) x c = true -> tcall_sees (snap (d_store s)) d c ->
  family (d_store s) d (handle_of (tcall_cf c)) = Some (fam (tcall_cf c)) ->
  txn_db (d_store s) x = Some d ->
  tx_result fam d x c s (run_tcall pess x c s).
Proof.
  intros Hu Hsee Hf Hd. destruct c as [cf k v|cf k|cf k o|cf k o|cf ks o|cf ks o| | |]; cbn [tcall_cf] in Hf.
  - destruct pess; by apply (tx_write_refines true _ fam d x cf k v s).
  - destruct pess; by apply (tx_write_refines false _ fam d x cf k [] s).
  - destruct pess; (eapply tx_read_refines; [| by left | done | done | done | done]);
      [apply plain_get_law | apply lock_get_law].
  - destruct pess; (eapply tx_read_refines; [apply lock_get_law | by right | done | done | done | done]).
  - destruct pess; (eapply tx_multi_refines; [apply plain_multi_law | by left | done | done | done | done]).
  - destruct pess; (eapply tx_multi_refines; [apply lock_multi_get_law | by right | done | done | done | done]).
  - apply (tx_save_refines fam d x TSetSavepoint s); auto.
  - apply (tx_save_refines fam d x TRollbackToSavepoint s); auto.
  - apply (tx_save_refines fam d x TPopSavepoint s); auto.
Qed.

(** A direct call leaves every transaction alone. *)
Lemma dcall_outside (f : Z) d c s s' r :
  call_usable (d_heap s) d c = true -> call_sees (snap (d_store s)) d c ->
  family (d_store s) d (handle_of (call_cf c)) = Some f -> run_dcall d c s = Ok (s', r) ->
  txn_db (d_store s') = txn_db (d_store s) /\ pending (d_store s') = pending (d_store s) /\
  saves (d_store s') = saves (d_store s).
Proof.
  intros Hu Hsee Hf H. destruct (dcall_store f d c s s' r Hu Hsee Hf H) as [-> | (o & c' & u & ->)]; [done |].
  apply outside_law.
Qed.

Lemma event_refines pess fam d x e s :
  event_ok fam d x s e -> txn_db (d_store s) x = Some d ->
  exists s' r, run_event pess d x e s = Ok (s', r) /\ d_heap s' = d_heap s /\
    snap (d_store s') = snap (d_store s) /\ family (d_store s') d = family (d_store s) d /\
    txn_db (d_store s') x = Some d /\
    event_allowed fam (snap (d_store s)) d (abs_of (d_store s) d x) e (abs_of (d_store s') d x) r.
Proof.
  destruct e as [c | c]; intros (Hu & Hsee & Hf) Hd; cbn [run_event].
  - destruct (dcall_refines fam d c s Hu Hsee Hf) as (s' & r & Hrun & Hh & Hsn & Hfa & Ha).
    destruct (dcall_outside _ d c s s' r Hu Hsee Hf Hrun) as (Hdb & Hp & Hs).
    exists s', r. split_and!; try done; [by rewrite Hdb |]. cbn [event_allowed abs_of a_view a_pending a_saves].
    by rewrite Hp, Hs.
  - destruct (tcall_refines pess fam d x c s Hu Hsee Hf Hd) as (s' & r & Hrun & Hh & Hfr & Ha).
    destruct Hfr as [Hff Hfs Hfd _]. exists s', r. split_and!; try done; [by rewrite Hff | by rewrite Hfd].
Qed.

Lemma event_ok_frame fam d x s s' e :
  d_heap s' = d_heap s -> snap (d_store s') = snap (d_store s) ->
  family (d_store s') d = family (d_store s) d -> event_ok fam d x s e -> event_ok fam d x s' e.
Proof. intros Hh Hsn Hf. destruct e; cbn [event_ok]; by rewrite Hh, Hsn, Hf. Qed.

Lemma events_refine pess fam d x l : forall s,
  Forall (event_ok fam d x s) l -> txn_db (d_store s) x = Some d ->
  exists s' rs, run_events pess d x l s = Ok (s', rs) /\ d_heap s' = d_heap s /\
    snap (d_store s') = snap (d_store s) /\ txn_db (d_store s') x = Some d /\
    events_allowed fam (snap (d_store s)) d (abs_of (d_store s) d x) l (abs_of (d_store s') d x) rs.
Proof.
  induction l as [|e l IH]; intros s Hl Hd; cbn [run_events].
  - exists s, []. split_and!; try done. constructor.
  - apply Forall_cons in Hl as [He Hl].
    destruct (event_refines pess fam d x e s He Hd) as (s1 & r & Hrun & Hh & Hsn & Hfa & Hd1 & Ha).
    destruct (IH s1) as (s2 & rs & Hrun2 & Hh2 & Hsn2 & Hd2 & Ha2).
    { eapply Forall_impl; [exact Hl |]. intros e'. by apply event_ok_frame. }
    { done. }
    rewrite Hrun. cbn [obind]. rewrite Hrun2. exists s2, (r :: rs). split_and!; try done; try congruence.
    econstructor; [exact Ha |]. by rewrite <- Hsn.
Qed.

(** ** Ends of a transaction *)

Definition commit_nif (pessimistic : bool) : list term -> dsys -> outcome (dsys * reply) :=
  if pessimistic then PessimisticTransactionCommit else CommitTransaction.

Definition rollback_nif (pessimistic : bool) : list term -> dsys -> outcome (dsys * reply) :=
  if pessimistic then PessimisticTransactionRollback else RollbackTransaction.

Lemma commit_step pess d x s :
  usable (d_heap s) KTransaction x = true -> tx_live (d_heap s) x = true -> txn_db (d_store s) x = Some d ->
  exists s' t, commit_nif pess [Tres RTransaction x] s = Ok (s', Reply t) /\ d_heap s' = d_heap s /\
    ((t = ATOM_OK /\ forall f, view (d_store s') d f = overlay f (pending (d_store s) x) (view (d_store s) d f)) \/
     (fails t /\ view (d_store s') = view (d_store s))).
Proof.
  intros Hu Hl Hd. pose proof (commit_law (d_store s) x d Hd) as H.
  destruct (txn_commit (d_store s) x) as [st status] eqn:E. destruct H as [_ H].
  exists {| d_heap := d_heap s; d_store := st |}.
  exists (write_reply (if pess then [(IsBusy, ATOM_BUSY); (IsExpired, ATOM_EXPIRED)] else []) status).
  split; [destruct pess; by apply tx_call_step |]. split; [done |]. cbn [d_store].
  destruct (status_ok status) eqn:Es.
  - left. split; [unfold write_reply; by rewrite Es | by apply H].
  - right. split; [by apply write_reply_fails | done].
Qed.

Lemma rollback_step pess d x s :
  usable (d_heap s) KTransaction x = true -> tx_live (d_heap s) x = true -> txn_db (d_store s) x = Some d ->
  exists s' t, rollback_nif pess [Tres RTransaction x] s = Ok (s', Reply t) /\ d_heap s' = d_heap s /\
    view (d_store s') = view (d_store s) /\
    ((t = ATOM_OK /\ pending (d_store s') x = []) \/ fails t).
Proof.
  intros Hu Hl Hd. pose proof (rollback_law (d_store s) x d Hd) as H.
  destruct (txn_rollback (d_store s) x) as [st status] eqn:E. destruct H as (_ & Hv & Hp).
  exists {| d_heap := d_heap s; d_store := st |}, (write_reply [] status).
  split; [destruct pess; by apply tx_call_step |]. split_and!; [done | done |]. cbn [d_store].
  destruct (status_ok status) eqn:Es; [left | right; by apply write_reply_fails].
  split; [unfold write_reply; by rewrite Es | done].
Qed.

(** No save point is set, rolled back to or popped. *)
Definition no_saves (e : event) : bool :=
  match e with OnTx (TSetSavepoint | TRollbackToSavepoint | TPopSavepoint) => false | _ => true end.

Lemma no_saves_keeps fam snaps d A e A' r :
  no_saves e = true -> event_allowed fam snaps d A e A' r -> a_saves A' = a_saves A.
Proof.
  destruct e as [c | c]; cbn [event_allowed]; [by intros _ (_ & _ & ?) |].
  intros Hn [_ H]. destruct c; try done; unfold write_allowed, read_allowed in H;
    (destruct H as [H _]; by rewrite ?H).
Qed.

Lemma events_app fam snaps d A l1 l2 A' rs :
  events_allowed fam snaps d A (l1 ++ l2) A' rs ->
  exists A1 rs1 rs2, rs = rs1 ++ rs2 /\ events_allowed fam snaps d A l1 A1 rs1 /\
    events_allowed fam snaps d A1 l2 A' rs2.
Proof.
  revert A rs. induction l1 as [|e l1 IH]; intros A rs H; cbn [app] in H.
  - exists A, [], rs. split_and!; [done | constructor | done].
  - inversion H as [|? ? A1 r ? ? rs' He Hl]; subst.
    destruct (IH A1 rs' Hl) as (A2 & rs1 & rs2 & -> & H1 & H2).
    exists A2, (r :: rs1), rs2. split_and!; [done | by econstructor | done].
Qed.

Lemma no_saves_run fam snaps d A l A' rs :
  forallb no_saves l = true -> events_allowed fam snaps d A l A' rs -> a_saves A' = a_saves A.
Proof.
  intros Hl H. induction H as [|A e A1 r l A2 rs He _ IH]; [done |].
  cbn [forallb] in Hl. apply andb_true_iff in Hl as [Hne Hl].
  rewrite IH by done. by eapply no_saves_keeps.
Qed.

Lemma savepoint_run fam snaps d A l A' rs :
  forallb no_saves l = true ->
  events_allowed fam snaps d A (OnTx TSetSavepoint :: l ++ [OnTx TRollbackToSavepoint]) A' rs ->
  last rs = Some (Reply ATOM_OK) ->
  a_pending A' = a_pending A /\ a_saves A' = a_saves A.
Proof.
  intros Hl H Hlast. inversion H as [|? ? A1 r0 ? ? rs' He Hr]; subst. cbn [event_allowed] in He.
  destruct He as (_ & _ & Hp1 & Hs1). destruct (events_app _ _ _ _ _ _ _ _ Hr) as (A2 & rs1 & rs2 & -> & H1 & H2).
  apply no_saves_run in H1; [| done]. inversion H2 as [|? ? A3 r ? ? rs3 He Hn]; subst.
  inversion Hn; subst. cbn [event_allowed] in He. destruct He as [_ He].
  rewrite H1, Hs1 in He. change (r0 :: rs1 ++ [r]) with ((r0 :: rs1) ++ [r]) in Hlast.
  rewrite last_snoc in Hlast. injection Hlast as ->. destruct He as [(_ & Hp & Hs) | [_ Hne]]; [done | done].
Qed.

(** ** Theorems *)

(** C10.  Refinement: any sequence of calls on a transaction (optimistic or
    pessimistic), mixed with direct calls on its database, runs without undefined
    behaviour, leaves the handles as they were, and answers as the specification:
    the transaction collects its writes, its reads see them over the database or a
    snapshot, save points stack and restore them, and nothing of it shows in the
    answers of the direct calls. *)
Theorem transaction_refines (pessimistic : bool) (fam : option nat -> Z) (d x : nat) (l : list event) (s : dsys) :
  Forall (event_ok fam d x s) l -> txn_db (d_store s) x = Some d ->
  exists s' rs, run_events pessimistic d x l s = Ok (s', rs) /\ d_heap s' = d_heap s /\
    snap (d_store s') = snap (d_store s) /\
    events_allowed fam (snap (d_store s)) d (abs_of (d_store s) d x) l (abs_of (d_store s') d x) rs.
Proof.
  intros Hl Hd. destruct (events_refine pessimistic fam d x l s Hl Hd) as (s' & rs & ? & ? & ? & _ & ?).
  by exists s', rs.
Qed.

(** Atomicity: after any such sequence, a commit answered with ok applies all the
    writes the specification collected, in order, to what the other users of the
    database see; a commit answered with an error, and a rollback, apply none. *)
Theorem transaction_atomic (pessimistic : bool) (fam : option nat -> Z) (d x : nat) (l : list event) (s : dsys) :
  Forall (event_ok fam d x s) l -> txn_db (d_store s) x = Some d ->
  usable (d_heap s) KTransaction x = true -> tx_live (d_heap s) x = true ->
  exists s1 rs A, run_events pessimistic d x l s = Ok (s1, rs) /\
    events_allowed fam (snap (d_store s)) d (abs_of (d_store s) d x) l A rs /\
    a_view A = view (d_store s1) d /\
    (exists s2 t, commit_nif pessimistic [Tres RTransaction x] s1 = Ok (s2, Reply t) /\ d_heap s2 = d_heap s /\
       ((t = ATOM_OK /\ forall f, view (d_store s2) d f = overlay f (a_pending A) (a_view A f)) \/
        (fails t /\ view (d_store s2) d = a_view A))) /\
    (exists s2 t, rollback_nif pessimistic [Tres RTransaction x] s1 = Ok (s2, Reply t) /\ d_heap s2 = d_heap s /\
       view (d_store s2) d = a_view A).
Proof.
  intros Hl Hd Hu Hlive.
  destruct (events_refine pessimistic fam d x l s Hl Hd) as (s1 & rs & Hrun & Hh & _ & Hd1 & Ha).
  rewrite <- Hh in Hu, Hlive.
  destruct (commit_step pessimistic d x s1 Hu Hlive Hd1) as (s2 & t & Hc & Hh2 & Hcase).
  destruct (rollback_step pessimistic d x s1 Hu Hlive Hd1) as (s3 & t' & Hr & Hh3 & Hv & _).
  exists s1, rs, (abs_of (d_store s1) d x). split_and!; try done.
  - exists s2, t. split_and!; [done | congruence |].
    destruct Hcase as [[-> Hall] | [Hf Hv2]]; [by left | right; split; [done |]]. cbn. by rewrite Hv2.
  - exists s3, t'. split_and!; [done | congruence |]. cbn. by rewrite Hv.
Qed.

(** Save points: whatever reads and writes follow a save point, a rollback to it
    that is answered with ok restores the writes of the transaction and the save
    points before it. *)
Theorem tx_savepoint_restores (pessimistic : bool) (fam : option nat -> Z) (d x : nat) (l : list event)
    (s s' : dsys) (rs : list reply) :
  Forall (event_ok fam d x s) (OnTx TSetSavepoint :: l ++ [OnTx TRollbackToSavepoint]) ->
  txn_db (d_store s) x = Some d -> forallb no_saves l = true ->
  run_events pessimistic d x (OnTx TSetSavepoint :: l ++ [OnTx TRollbackToSavepoint]) s = Ok (s', rs) ->
  last rs = Some (Reply ATOM_OK) ->
  pending (d_store s') x = pending (d_store s) x /\ saves (d_store s') x = saves (d_store s) x.
Proof.
  intros Hl Hd Hn Hrun Hlast.
  destruct (events_refine pessimistic fam d x _ s Hl Hd) as (s1 & rs1 & Hrun1 & _ & _ & _ & Ha).
  rewrite Hrun1 in Hrun. simplify_eq. by destruct (savepoint_run _ _ _ _ _ _ _ Hn Ha Hlast).
Qed.

End Refinement.

(** ** An instance *)

Module MapTxn.

Record tx := { tx_db : nat; tx_pending : list pending_write; tx_saves : list (list pending_write) }.

Section Instance.
Context (merge : bytes -> option bytes -> list bytes -> option bytes).

Definition state : Type := MapDb.state * gmap nat tx.

#[local] Instance lib : DbLib := Extended.prod_lib (MapDb.map_lib merge) (gmap nat tx).
#[local] Instance laws : DbLaws lib := Extended.prod_laws _ _ (MapDb.map_laws merge).

Definition set_tx (s : state) (x : nat) (t : tx) : state := (s.1, <[x := t]> s.2).

Definition on (s : state) (x : nat) (body : tx -> state * Status) : state * Status :=
  match s.2 !! x with Some t => body t | None => (s, MapDb.refused) end.

Definition write (s : state) (x : nat) (c : cfh) (u : update) : state * Status :=
  on s x (fun t =>
    match MapDb.fam (tx_db t) c with
    | None => (s, MapDb.refused)
    | Some f =>
        match write_of f u with
        | None => (s, MapDb.refused)
        | Some w => (set_tx s x {| tx_db := tx_db t; tx_pending := tx_pending t ++ [w]; tx_saves := tx_saves t |},
                     StatusOK)
        end
    end).

(** A read of a map. *)
Definition read (m : gmap bytes entry) (k : bytes) : Status * bytes :=
  match m !! k with
  | None => (StatusNotFound, [])
  | Some e => match resolve merge k e with
              | Some c => (StatusOK, default_value c)
              | None => ({| code := kCorruption; to_text := "Corruption" |}, [])
              end
  end.

Definition get (s : state) (x : nat) (o : struct) (c : cfh) (k : bytes) : Status * bytes :=
  match s.2 !! x with
  | None => (MapDb.refused, [])
  | Some t =>
      match MapDb.fam (tx_db t) c with
      | None => (MapDb.refused, [])
      | Some f => match MapDb.reading s.1 (tx_db t) o f with
                  | Some m => read (overlay f (tx_pending t) m) k
                  | None => (MapDb.refused, [])
                  end
      end
  end.

Definition with_maps (s : MapDb.state) (d : nat) (g : Z -> gmap bytes entry -> gmap bytes entry) : MapDb.state :=
  {| MapDb.maps := fun d' f => if decide (d' = d) then g f (MapDb.maps s d' f) else MapDb.maps s d' f;
     MapDb.snaps := MapDb.snaps s |}.

Definition fresh_tx (d : nat) : tx := {| tx_db := d; tx_pending := []; tx_saves := [] |}.

Definition commit (s : state) (x : nat) : state * Status :=
  on s x (fun t =>
    ((with_maps s.1 (tx_db t) (fun f => overlay f (tx_pending t)), <[x := fresh_tx (tx_db t)]> s.2), StatusOK)).

Definition rollback (s : state) (x : nat) : state * Status :=
  on s x (fun t => (set_tx s x (fresh_tx (tx_db t)), StatusOK)).

Definition savepoint (s : state) (x : nat) : state :=
  (on s x (fun t => (set_tx s x {| tx_db := tx_db t; tx_pending := tx_pending t;
                                   tx_saves := tx_pending t :: tx_saves t |}, StatusOK))).1.

Definition unsave (keep : bool) (s : state) (x : nat) : state * Status :=
  on s x (fun t =>
    match tx_saves t with
    | [] => (s, StatusNotFound)
    | p :: r => (set_tx s x {| tx_db := tx_db t; tx_pending := if keep then tx_pending t else p; tx_saves := r |},
                 StatusOK)
    end).

Definition txn_lib : TxnLib :=
  @Build_TxnLib lib (fun s d x _ _ => set_tx s x (fresh_tx d)) write get
    (fun s x o c k => (s, get s x o c k)) (fun s x o c ks => get s x o c <$> ks)
    (fun s x o c ks => (s, get s x o c <$> ks))
    commit rollback savepoint (unsave false) (unsave true) (fun _ x => Z.of_nat x) (fun _ _ => (Some 0, [], [])).

#[local] Existing Instance txn_lib.

Lemma read_answers m k : answers merge m k (read m k).
Proof.
  unfold answers, read, resolved. destruct (m !! k) as [e|]; [| done].
  destruct (resolve merge k e) as [c|]; [| done]. split; [| done]. intros _. by exists c.
Qed.

Definition p_of (s : state) (x : nat) : list pending_write := match s.2 !! x with Some t => tx_pending t | None => [] end.
Definition s_of (s : state) (x : nat) : list (list pending_write) := match s.2 !! x with Some t => tx_saves t | None => [] end.
Definition d_of (s : state) (x : nat) : option nat := tx_db <$> s.2 !! x.

Abbreviation the_frame := (tx_frame (L := lib) p_of s_of d_of).

(** Replacing a transaction by one of the same database. *)
Lemma set_frame b (s : state) x t t' :
  s.2 !! x = Some t -> tx_db t' = tx_db t -> MapDb.snaps b = MapDb.snaps s.1 ->
  the_frame x s (b, <[x := t']> s.2).
Proof.
  intros Hx Ht Hb. split; [done | cbn; by rewrite Hb | |].
  - intros y. unfold d_of. cbn. destruct (decide (x = y)) as [<- |].
    + rewrite lookup_insert_eq, Hx. cbn. by rewrite Ht.
    + by rewrite lookup_insert_ne.
  - intros y Hy. unfold p_of, s_of. cbn. by rewrite !lookup_insert_ne.
Qed.

Lemma set_tx_fields b (s : state) x t :
  p_of (b, <[x := t]> s.2) x = tx_pending t /\ s_of (b, <[x := t]> s.2) x = tx_saves t.
Proof. unfold p_of, s_of. cbn. by rewrite lookup_insert_eq. Qed.

Lemma d_of_Some s x d : d_of s x = Some d -> exists t, s.2 !! x = Some t /\ tx_db t = d.
Proof. unfold d_of. intros H. apply fmap_Some in H as (t & Ht & ->). by exists t. Qed.

Lemma frame_refl x s : the_frame x s s.
Proof. done. Qed.

Lemma tx_get_answers (s : state) x d o c f m k :
  d_of s x = Some d -> MapDb.fam d c = Some f -> MapDb.reading s.1 d o f = Some m ->
  answers merge (overlay f (p_of s x) m) k (get s x o c k).
Proof.
  intros Hd Hf Hm. apply d_of_Some in Hd as (t & Ht & <-). unfold get, p_of. rewrite Ht, Hf, Hm.
  apply read_answers.
Qed.

Lemma gets_answers (s : state) x d o c f m ks :
  d_of s x = Some d -> MapDb.fam d c = Some f -> MapDb.reading s.1 d o f = Some m ->
  Forall2 (answers merge (overlay f (p_of s x) m)) ks (get s x o c <$> ks).
Proof. intros Hd Hf Hm. induction ks; constructor; [by eapply tx_get_answers | done]. Qed.

Definition txn_laws : @TxnLaws lib txn_lib laws.
Proof.
  refine (@Build_TxnLaws lib txn_lib laws p_of s_of d_of _ _ _ _ _ _ _ _ _ _ _ _).
  - intros s x d c f u w Hd Hf Hw. apply d_of_Some in Hd as (t & Ht & <-).
    change (MapDb.fam (tx_db t) c = Some f) in Hf. cbn [txn_write txn_lib]. unfold write, on.
    rewrite Ht, Hf, Hw. unfold set_tx.
    destruct (set_tx_fields s.1 s x {| tx_db := tx_db t; tx_pending := tx_pending t ++ [w]; tx_saves := tx_saves t |})
      as [Hp Hs].
    split_and!; [by apply (set_frame s.1 s x t) | done | |]; rewrite ?Hp, ?Hs; unfold p_of, s_of; by rewrite Ht.
  - intros s x d o c f m k Hd Hf _ Hm. by apply (tx_get_answers s x d o c f m k).
  - intros s x d o c f m k Hd Hf _ Hm. split; [done |]. by apply (tx_get_answers s x d o c f m k).
  - intros s x d o c f m ks Hd Hf _ Hm. by apply (gets_answers s x d o c f m ks).
  - intros s x d o c f m ks Hd Hf _ Hm. split; [done |]. by apply (gets_answers s x d o c f m ks).
  - intros s x d Hd. apply d_of_Some in Hd as (t & Ht & <-). cbn [txn_commit txn_lib]. unfold commit, on.
    rewrite Ht. split; [by apply (set_frame _ s x t) |]. cbn. split.
    + intros f. rewrite decide_True by done. unfold p_of. by rewrite Ht.
    + intros d' Hne. unfold with_maps. cbn. by destruct (decide (d' = tx_db t)).
  - intros s x d Hd. apply d_of_Some in Hd as (t & Ht & <-). cbn [txn_rollback txn_lib]. unfold rollback, on.
    rewrite Ht. unfold set_tx. split_and!; [by apply (set_frame s.1 s x t) | done |].
    apply (set_tx_fields s.1 s x (fresh_tx (tx_db t))).
  - intros s x d Hd. apply d_of_Some in Hd as (t & Ht & <-). cbn [txn_set_savepoint txn_lib]. unfold savepoint, on.
    rewrite Ht. cbn [fst]. unfold set_tx.
    destruct (set_tx_fields s.1 s x {| tx_db := tx_db t; tx_pending := tx_pending t; tx_saves := tx_pending t :: tx_saves t |})
      as [Hp Hs].
    split_and!; [by apply (set_frame s.1 s x t) | done | |]; rewrite ?Hp, ?Hs; unfold p_of, s_of; by rewrite Ht.
  - intros s x d Hd. apply d_of_Some in Hd as (t & Ht & <-). cbn [txn_rollback_to_savepoint txn_lib].
    unfold unsave, on. rewrite Ht. unfold s_of at 1 2. rewrite Ht. destruct (tx_saves t) as [|p r] eqn:Es.
    + split_and!; try done. unfold s_of. by rewrite Ht.
    + unfold set_tx. split_and!; [by apply (set_frame s.1 s x t) | done |]. cbn.
      apply (set_tx_fields s.1 s x {| tx_db := tx_db t; tx_pending := p; tx_saves := r |}).
  - intros s x d Hd. apply d_of_Some in Hd as (t & Ht & <-). cbn [txn_pop_savepoint txn_lib].
    unfold unsave, on. rewrite Ht. unfold s_of at 1 2. rewrite Ht. destruct (tx_saves t) as [|p r] eqn:Es.
    + split_and!; try done. unfold s_of. by rewrite Ht.
    + unfold set_tx.
      destruct (set_tx_fields s.1 s x {| tx_db := tx_db t; tx_pending := tx_pending t; tx_saves := r |}) as [Hp Hs].
      split_and!; [by apply (set_frame s.1 s x t) | done | |]; [refine (eq_trans Hp _); unfold p_of; by rewrite Ht | exact Hs].
  - intros s d x wo o. cbn [txn_begin txn_lib]. unfold set_tx.
    destruct (set_tx_fields s.1 s x (fresh_tx d)) as [Hp Hs].
    split_and!; try done; [unfold d_of; cbn; by rewrite lookup_insert_eq |].
    intros y Hy. unfold d_of, p_of, s_of. cbn. by rewrite !lookup_insert_ne.
  - done.
Defined.

End Instance.
End MapTxn.

(** ** Witnesses *)

Module TxnWitness.

Definition no_merge (_ : bytes) (_ : option bytes) (_ : list bytes) : option bytes := None.

#[local] Instance the_lib : DbLib := MapTxn.lib no_merge.
#[local] Instance the_laws : DbLaws the_lib := MapTxn.laws no_merge.
#[local] Instance the_txns : TxnLib := MapTxn.txn_lib no_merge.
#[local] Instance the_txn_laws : TxnLaws := MapTxn.txn_laws no_merge.

(** Database 0 with column family 1 and transaction 2. *)
Definition the_heap : heap :=
  <[2%nat := set_refs 1 (new_obj KTransaction (Some 0%nat))]>
    (<[1%nat := set_refs 1 (new_obj KColumnFamily (Some 0%nat))]>
      {[0%nat := set_refs 3 (set_list KTransaction [2%nat] (set_list KColumnFamily [1%nat] (new_obj KDb None)))]}).

Definition the_dsys : dsys :=
  {| d_heap := the_heap;
     d_store := (({| MapDb.maps := fun _ _ => ∅; MapDb.snaps := ∅ |}, {[2%nat := MapTxn.fresh_tx 0]}) : dbs) |}.

Definition the_fam (cf : option nat) : Z := match cf with Some c => Z.of_nat c | None => 0 end.

Definition ka : bytes := [Byte.x61].
Definition kb : bytes := [Byte.x62].

(** A write of the transaction, a direct read, reads of the transaction. *)
Definition script : list event :=
  [OnTx (TPut (Some 1%nat) ka kb); OnDb (DGet (Some 1%nat) ka []); OnTx (TGet (Some 1%nat) ka []);
   OnTx (TMultiGetForUpdate None [ka; kb] []); OnTx (TPut None kb ka)].

Definition saving (l : list event) : list event := OnTx TSetSavepoint :: l ++ [OnTx TRollbackToSavepoint].

Ltac script_ok :=
  repeat (apply Forall_cons; split; [split; [vm_compute; reflexivity | split; [exact I | reflexivity]] |]);
  apply Forall_nil; exact I.

Lemma transaction_refines_witness :
  Forall (event_ok the_fam 0 2 the_dsys) script /\
  exists s' rs, run_events true 0 2 script the_dsys = Ok (s', rs) /\ d_heap s' = d_heap the_dsys /\
    snap (d_store s') = snap (d_store the_dsys) /\
    events_allowed the_fam (snap (d_store the_dsys)) 0 (abs_of (d_store the_dsys) 0 2) script
      (abs_of (d_store s') 0 2) rs.
Proof.
  assert (H : Forall (event_ok the_fam 0 2 the_dsys) script) by script_ok.
  split; [exact H |]. apply (transaction_refines true the_fam 0 2 script the_dsys H). reflexivity.
Defined.

Lemma transaction_atomic_witness :
  exists s1 rs A, run_events false 0 2 script the_dsys = Ok (s1, rs) /\
    events_allowed the_fam (snap (d_store the_dsys)) 0 (abs_of (d_store the_dsys) 0 2) script A rs /\
    a_view A = view (d_store s1) 0 /\
    (exists s2 t, commit_nif false [Tres RTransaction 2] s1 = Ok (s2, Reply t) /\ d_heap s2 = d_heap the_dsys /\
       ((t = ATOM_OK /\ forall f, view (d_store s2) 0 f = overlay f (a_pending A) (a_view A f)) \/
        (fails t /\ view (d_store s2) 0 = a_view A))) /\
    (exists s2 t, rollback_nif false [Tres RTransaction 2] s1 = Ok (s2, Reply t) /\ d_heap s2 = d_heap the_dsys /\
       view (d_store s2) 0 = a_view A).
Proof.
  apply (transaction_atomic false the_fam 0 2 script the_dsys);
    [script_ok | reflexivity | vm_compute; reflexivity | vm_compute; reflexivity].
Defined.

Definition replies (l : list event) : option (list reply) :=
  match run_events true 0 2 l the_dsys with Ok (_, rs) => Some rs | Undef => None end.

Lemma tx_run_replies l :
  (replies l ≫= last) = Some (Reply ATOM_OK) ->
  exists s' rs, run_events true 0 2 l the_dsys = Ok (s', rs) /\ last rs = Some (Reply ATOM_OK).
Proof.
  unfold replies. destruct (run_events true 0 2 l the_dsys) as [[s' rs]|]; [| done].
  cbn. intros H. by exists s', rs.
Qed.

Lemma tx_savepoint_restores_witness :
  exists s' rs, run_events true 0 2 (saving script) the_dsys = Ok (s', rs) /\
    last rs = Some (Reply ATOM_OK) /\
    pending (d_store s') 2 = pending (d_store the_dsys) 2 /\ saves (d_store s') 2 = saves (d_store the_dsys) 2.
Proof.
  destruct (tx_run_replies (saving script) ltac:(vm_compute; reflexivity)) as (s' & rs & Hrun & Hlast).
  exists s', rs. split; [exact Hrun |]. split; [exact Hlast |].
  apply (tx_savepoint_restores true the_fam 0 2 script the_dsys s' rs);
    [script_ok | reflexivity | reflexivity | exact Hrun | exact Hlast].
Defined.

End TxnWitness.
