(* ===== verification/TxnLife.v ===== *)
(** * The lifetime of a transaction's iterator

    [IteratorTransaction] and [PessimisticTransactionIterator] create an
    [ItrObject] with the iterator of [rocksdb::Transaction::GetIterator].  The
    object refers to the database of the transaction and not to the transaction:
    it keeps the database open, but not the transaction the iterator reads from.

    The heap of [RefObjects] with its invariant, composed with the transaction and
    iterator functions of [Txn] and [Iter]. *)

From stdpp Require Import base list numbers strings gmap.
From Stdlib Require Import ZArith Lia.
From S2P Require Import Prelude Terms RefObjects RefInv RefSystem HandleNif Options DbLib DbNif Iter IterSpec Txn.

(** An open transaction of the open database [d] that no call uses. *)
Record open_tx (h : heap) (pins : list nat) (x d : nat) : Prop := {
  ot_obj : exists o, h !! x = Some o /\ o_kind o = KTransaction /\ m_CloseRequested o = 0 /\
             m_DbPtr o = Some d;
  ot_db : exists db, h !! d = Some db /\ o_kind db = KDb /\ m_CloseRequested db = 0;
  ot_idle : x ∉ pins;
}.

(** ** Releasing a transaction *)

Lemma set_refs_twice m n o : set_refs m (set_refs n o) = set_refs m o.
Proof. by destruct o. Qed.

Lemma set_refs_id o : set_refs (m_RefCount o) o = o.
Proof. by destruct o. Qed.

(** A reference dropped while others remain. *)
Lemma child_RefDec_alive h c o :
  h !! c = Some o -> 1 < m_RefCount o < 2 ^ 32 ->
  child_RefDec h c = Ok (<[c := set_refs (m_RefCount o - 1) o]> h).
Proof.
  intros Ho Hr. unfold child_RefDec, RefDec_with, deref. rewrite Ho. cbn [obind].
  rewrite wrap_small by lia.
  rewrite (proj2 (Z.eqb_neq _ _)) by lia. done.
Qed.

(** The count of an open child that no call uses is one. *)
Lemma idle_child h pins c o :
  INV h pins -> h !! c = Some o -> is_child (o_kind o) = true -> m_CloseRequested o = 0 -> c ∉ pins ->
  m_RefCount o = 1.
Proof.
  intros HI Ho Hk Hc Hp. pose proof (inv_obj _ _ HI _ _ Ho) as Hi.
  pose proof (oi_refs _ _ _ _ Hi) as Hr. rewrite Hc, (proj2 (cnt_zero pins c) Hp) in Hr.
  rewrite (child_no_children h pins c o HI Ho Hk) in Hr. cbn in Hr. lia.
Qed.

Lemma release_tx_ok h pins x d :
  INV h pins -> open_tx h pins x d ->
  exists h' db, ReleaseTransaction h [Tres RTransaction x] = Ok (h', Reply ATOM_OK) /\
    destructor_done h' x = true /\ h !! d = Some db /\ x <> d /\
    h' !! d = Some (root_dec (unlinked KTransaction x db)) /\
    (forall j, j <> x -> j <> d -> h' !! j = h !! j).
Proof.
  intros HI [(o & Ho & Hk & Hc & Hd) (db & Hdb & Hdk & Hdc) Hp].
  assert (Hch : is_child (o_kind o) = true) by (by rewrite Hk).
  pose proof (idle_child h pins x o HI Ho Hch Hc Hp) as Hr.
  assert (Hxd : x <> d) by (intros ->; simplify_eq; congruence).
  assert (Hn : m_Native db = true).
  { apply (oi_native _ _ _ _ (inv_obj _ _ HI _ _ Hdb)); [lia | by rewrite Hdk]. }
  unfold ReleaseTransaction, release_handle, RetrieveTransactionObject, Retrieve.
  cbn [elem lookup list_lookup obind enif_get_resource res_kind_of]. rewrite decide_True by done.
  unfold deref. rewrite Ho. cbn [obind]. rewrite Hc. cbn [Z.eqb negb]. rewrite decide_False by done.
  cbn [obind]. unfold assign. rewrite decide_False by done. cbn [obind].
  unfold RefInc, deref. rewrite Ho. cbn [obind]. rewrite Hr. change (u32 (1 + 1)) with 2. cbn [obind].
  unfold InitiateCloseRequest, deref. rewrite lookup_insert_eq. cbn [obind].
  change (m_CloseRequested (set_refs 2 o)) with (m_CloseRequested o). rewrite Hc. cbn [Z.eqb].
  unfold Shutdown, deref. rewrite lookup_insert_eq. cbn [obind].
  change (o_kind (set_close 1 (set_refs 2 o))) with (o_kind o). rewrite Hk.
  rewrite (child_RefDec_alive _ x (set_close 1 (set_refs 2 o))); [| by rewrite lookup_insert_eq | cbn; lia].
  cbn [obind release]. unfold RefDec, deref. rewrite lookup_insert_eq. cbn [obind].
  rewrite !insert_insert_eq. set (o1 := set_refs _ _).
  change (is_child (o_kind o1)) with (is_child (o_kind o)). rewrite Hch.
  rewrite (child_RefDec_destroy _ x o1 d db); try done;
    [| by rewrite lookup_insert_eq | by rewrite lookup_insert_ne].
  cbn [obind]. change (o_kind o1) with (o_kind o). rewrite Hk.
  eexists _, db. split; [done |]. split_and!; try done.
  - unfold destructor_done. by rewrite lookup_insert_ne, lookup_insert_eq.
  - by rewrite lookup_insert_eq.
  - intros j Hjx Hjd. by rewrite !lookup_insert_ne by done.
Qed.

Lemma root_dec_open db k c :
  m_CloseRequested db = 0 -> m_CloseRequested (root_dec (unlinked k c db)) = 0.
Proof.
  intros Hc. unfold root_dec. cbn zeta.
  change (m_CloseRequested (unlinked k c db)) with (m_CloseRequested db). rewrite Hc.
  rewrite andb_false_r. done.
Qed.

(** ** Creating the iterator *)

Section Create.
Context `{TI : TxnIterLib}.

(** The heap with the iterator object [i] of the database [d]. *)
Definition with_iterator (h : heap) (d i : nat) (db : obj) : heap :=
  <[i := set_refs 1 (new_obj KItr (Some d))]> (<[d := linked KItr i (set_refs (m_RefCount db + 1) db)]> h).

(** [enif_get_transaction] on an idle transaction. *)
Lemma get_tx_ok h pins x o :
  INV h pins -> ample h pins -> h !! x = Some o -> o_kind o = KTransaction ->
  m_CloseRequested o = 0 -> x ∉ pins ->
  get_ref KTransaction h (Tres RTransaction x) = Ok (<[x := set_refs 2 o]> h, Some x) /\
  INV (<[x := set_refs 2 o]> h) (x :: pins) /\ m_RefCount o = 1 /\ m_Native o = true.
Proof.
  intros HI Ha Ho Hk Hc Hp.
  assert (Hr : m_RefCount o = 1) by (apply (idle_child h pins x o); [done | done | by rewrite Hk | done | done]).
  split_and!; [| | done |].
  - unfold get_ref, Retrieve. cbn [enif_get_resource res_kind_of]. rewrite decide_True by done.
    unfold deref. rewrite Ho. cbn [obind]. rewrite Hc. cbn [Z.eqb negb]. rewrite decide_False by done.
    cbn [obind]. unfold assign. rewrite decide_False by done. cbn [obind].
    unfold RefInc, deref. rewrite Ho. cbn [obind]. rewrite Hr. change (u32 (1 + 1)) with 2. cbn [obind].
    rewrite lookup_insert_eq. by cbn [obind].
  - destruct (inv_RefInc h pins x o HI) as (o' & E & HI' & ->); [| done | lia |].
    { apply room_small. by apply (ample_evolves h pins []); [| | cbn; lia]. }
    by rewrite Hr in HI'.
  - apply (oi_native _ _ _ _ (inv_obj _ _ HI _ _ Ho)); [lia | by rewrite Hk].
Qed.

(** Dropping the pin after the creation. *)
Lemma unpin_tx h x d i o db :
  h !! x = Some o -> m_RefCount o = 1 -> x <> d -> x <> i ->
  <[x := set_refs (m_RefCount (set_refs 2 o) - 1) (set_refs 2 o)]>
    (with_iterator (<[x := set_refs 2 o]> h) d i db) = with_iterator h d i db.
Proof.
  intros Ho Hr Hxd Hxi. unfold with_iterator. apply map_eq. intros j.
  destruct (decide (j = x)) as [-> | Hj].
  - rewrite lookup_insert_eq, !lookup_insert_ne, Ho by done. f_equal.
    cbn [set_refs m_RefCount]. rewrite set_refs_twice. rewrite <- (set_refs_id o) at 2. by rewrite Hr.
  - rewrite lookup_insert_ne by done.
    destruct (decide (j = i)) as [-> | Hji]; [by rewrite !lookup_insert_eq |].
    rewrite !(lookup_insert_ne _ i) by done.
    destruct (decide (j = d)) as [-> | Hjd]; [by rewrite !lookup_insert_eq |].
    by rewrite !lookup_insert_ne by done.
Qed.

Lemma tx_iterator_ok (s : isys) (pins : list nat) (x d : nat) :
  INV (iheap s) pins -> ample (iheap s) pins -> open_tx (iheap s) pins x d ->
  exists s1 i db, tx_iterator [Tres RTransaction x; Tnil] s = Ok (s1, Reply (Ttuple [ATOM_OK; Tres RItr i])) /\
    iheap s !! i = None /\ iheap s !! d = Some db /\ m_CloseRequested db = 0 /\ o_kind db = KDb /\
    iheap s1 = with_iterator (iheap s) d i db.
Proof.
  intros HI Ha [(o & Ho & Hk & Hc & Hd) (db & Hdb & Hdk & Hdc) Hp].
  destruct (get_tx_ok (iheap s) pins x o HI Ha Ho Hk Hc Hp) as (Hget & HI1 & Hr & Hn).
  assert (Hxd : x <> d) by (intros ->; simplify_eq; congruence).
  set (h1 := <[x := set_refs 2 o]> (iheap s)) in *.
  assert (Hdb1 : h1 !! d = Some db) by (unfold h1; by rewrite lookup_insert_ne).
  assert (Hx1 : h1 !! x = Some (set_refs 2 o)) by apply lookup_insert_eq.
  destruct (CreateChild_eq KItr h1 (x :: pins) d db HI1) as (i & Hi & Hne & Ecreate); try done.
  { apply (ample_evolves (iheap s) pins [x]); [done | | cbn; lia].
    apply (evolves_insert (iheap s) x o); [done | apply refs_evolves]. }
  assert (Hix : x <> i) by (intros <-; congruence). fold (with_iterator h1 d i db) in Ecreate.
  assert (Hx2 : with_iterator h1 d i db !! x = Some (set_refs 2 o))
    by (unfold with_iterator; by rewrite !lookup_insert_ne by done).
  unfold tx_iterator. cbn [elem lookup list_lookup obind length Nat.sub].
  unfold with_iref. rewrite Hget. cbn [obind enif_is_list negb].
  unfold parse_iterator_options. cbn [enif_is_list negb list_cells parse_iterator_cells obind Nat.eqb].
  unfold create_itr, CreateItrObject, use_tx, deref.
  change (iheap (with_parsed (with_iheap s h1) (start (with_iheap s h1)))) with h1.
  rewrite Hx1. cbn [obind]. change (m_Native (set_refs 2 o)) with (m_Native o).
  change (m_DbPtr (set_refs 2 o)) with (m_DbPtr o). rewrite Hn, Hd, Ecreate. cbn [obind].
  change (iheap (with_itr (with_iheap ?a ?h) i ?b)) with h.
  cbn [release]. unfold RefDec, deref. rewrite Hx2. cbn [obind].
  change (is_child (o_kind (set_refs 2 o))) with (is_child (o_kind o)). rewrite Hk. cbn [is_child].
  rewrite (child_RefDec_alive _ x (set_refs 2 o) Hx2) by (cbn; lia).
  cbn [obind]. eexists _, i, db. split; [done |]. split_and!; try done.
  - unfold h1 in Hi. by rewrite lookup_insert_ne in Hi.
  - cbn [iheap i_db with_iheap set_heap d_heap]. by apply unpin_tx.
Qed.

(** An iterator of a transaction does not hold the transaction: after
    [transaction_iterator] on an open transaction that no call uses,
    [release_transaction] destroys the transaction, and the iterator is still
    accepted by the iterator functions (its database is open), although
    [rocksdb::Transaction] keeps the iterator valid only until the transaction
    ends. *)
Theorem transaction_iterator_dangles (s : isys) (pins : list nat) (x d : nat) :
  INV (iheap s) pins -> ample (iheap s) pins -> open_tx (iheap s) pins x d ->
  exists s1 i h2, tx_iterator [Tres RTransaction x; Tnil] s =
      Ok (s1, Reply (Ttuple [ATOM_OK; Tres RItr i])) /\
    ReleaseTransaction (iheap s1) [Tres RTransaction x] = Ok (h2, Reply ATOM_OK) /\
    destructor_done h2 x = true /\
    RetrieveItrObject false h2 (Tres RItr i) = Ok (Some i).
Proof.
  intros HI Ha Ht. destruct (tx_iterator_ok s pins x d HI Ha Ht) as (s1 & i & db & E & Hi & Hdb & Hdc & Hdk & Hh).
  pose proof Ht as [(o & Ho & Hk & Hc & Hd) _ Hp].
  assert (Hid : i <> d) by (intros ->; congruence). assert (Hix : i <> x) by (intros ->; congruence).
  assert (Hxd : x <> d) by (intros ->; simplify_eq; congruence).
  set (db1 := linked KItr i (set_refs (m_RefCount db + 1) db)) in *.
  assert (Hd1 : iheap s1 !! d = Some db1).
  { rewrite Hh. unfold with_iterator. by rewrite lookup_insert_ne, lookup_insert_eq. }
  assert (Hdc1 : m_CloseRequested db1 = 0 /\ o_kind db1 = KDb) by (unfold db1, linked; by repeat case_match).
  destruct Hdc1 as [Hdc1 Hdk1].
  destruct (release_tx_ok (iheap s1) pins x d) as (h2 & db' & Er & Hdone & Hdb' & _ & Hd2 & Hother).
  { rewrite Hh. by apply inv_link; [| | | | lia | |]. }
  { split; [| by exists db1 | done]. exists o. split_and!; try done.
    rewrite Hh. unfold with_iterator. by rewrite !lookup_insert_ne by done. }
  exists s1, i, h2. split_and!; try done. rewrite Hd1 in Hdb'. injection Hdb' as <-.
  unfold RetrieveItrObject, Retrieve. cbn [enif_get_resource res_kind_of]. rewrite decide_True by done.
  unfold deref. rewrite (Hother i) by done. rewrite Hh at 1. unfold with_iterator at 1.
  rewrite lookup_insert_eq. cbn [obind set_refs m_CloseRequested new_obj Z.eqb negb m_DbPtr].
  rewrite decide_True by done. rewrite Hd2. cbn [obind]. by rewrite root_dec_open.
Qed.
End Create.

(** ** Witness *)

Module TxnLifeWitness.
Import RefSystemWitness.

Definition no_merge (_ : bytes) (_ : option bytes) (_ : list bytes) : option bytes := None.
#[local] Instance tx_db : DbLib := MapDb.map_lib no_merge.
#[local] Instance tx_disk : IterLib := MapIter.iter_lib no_merge 10.
#[local] Instance tx_iters : TxnIterLib :=
  {| txn_iterator := fun s x o c => MapIter.new_itr no_merge 10 s 0 o c |}.

(** A database (0) with one transaction (1). *)
Definition h_tx : heap := ok_pair (CreateChild KTransaction h_db 0).

Lemma inv_tx : INV h_tx [].
Proof.
  apply (reachable_inv {| st_heap := h_tx; st_found := []; st_pins := [] |}).
  eapply rtc_r; [apply reach_db |].
  apply other_timely, (step_create h_db [] [] KTransaction 0 (the_obj h_db 0) h_tx 1);
    [done | room_tac | look | vm_compute; reflexivity | vm_compute; discriminate | vm_compute; reflexivity].
Qed.

Definition tx_sys : isys :=
  {| i_db := {| d_heap := h_tx; d_store := ({| MapDb.maps := fun _ _ => ∅; MapDb.snaps := ∅ |} : dbs) |};
     i_slices := ∅; i_iters := ∅ |}.

Lemma open_tx_1 : open_tx h_tx [] 1 0.
Proof.
  split; [exists (the_obj h_tx 1) | exists (the_obj h_tx 0) | apply not_elem_of_nil];
    (split_and!; [look | vm_compute; reflexivity ..]).
Qed.

Lemma transaction_iterator_dangles_witness :
  exists s1 i h2, tx_iterator [Tres RTransaction 1; Tnil] tx_sys =
      Ok (s1, Reply (Ttuple [ATOM_OK; Tres RItr i])) /\
    ReleaseTransaction (iheap s1) [Tres RTransaction 1] = Ok (h2, Reply ATOM_OK) /\
    destructor_done h2 1 = true /\
    RetrieveItrObject false h2 (Tres RItr i) = Ok (Some i).
Proof.
  apply (transaction_iterator_dangles tx_sys [] 1 0).
  - apply inv_tx.
  - vm_compute. reflexivity.
  - apply open_tx_1.
Defined.
End TxnLifeWitness.
