(* ===== verification/Backup.v ===== *)
(** * Backups

    [c_src/backup.cc]: opening a backup engine, creating, listing, verifying, deleting
    and restoring backups.  [rocksdb::BackupEngine] is behind [BackupLib]; an engine
    lives in the state of the library under the object of the heap that holds it.
    The theorems relate the functions to a list of backups, each with the contents
    the database had when it was made. *)

From stdpp Require Import base list numbers strings gmap.
From Stdlib Require Import ZArith Lia.
From S2P Require Import Prelude StdMap Terms RefObjects WriteBatchLib CompactionFilter Options DbLib DbNif DbSpec.

(** ** The library *)

Record BackupInfo := { backup_id : Z; bk_timestamp : Z; bk_size : Z; number_files : Z }.

Class BackupLib `{L : DbLib} := {
  bk_gc : dbs -> nat -> dbs * Status;
  bk_create : dbs -> nat -> nat -> dbs * Status;
  bk_info : dbs -> nat -> list BackupInfo;
  bk_verify : dbs -> nat -> Z -> Status;
  bk_stop : dbs -> nat -> dbs;
  bk_delete : dbs -> nat -> Z -> dbs * Status;
  bk_purge : dbs -> nat -> Z -> dbs * Status;
  bk_restore : dbs -> nat -> Z -> bytes -> bytes -> dbs * Status;
  bk_restore_latest : dbs -> nat -> bytes -> bytes -> dbs * Status;
}.

Section Nifs.
Context `{BL : BackupLib}.

Abbreviation action_of := (dsys -> outcome (dsys * reply)).

Definition ATOM_ERROR_BACKUP_ENGINE_OPEN := Tatom "backup_engine_open".

(** [lib_open]: the status of [BackupEngine::Open], and the state with the engine of
    the new object. *)
Definition OpenBackupEngine (lib_open : dbs -> bytes -> Status) (lib_opened : dbs -> nat -> bytes -> dbs)
    (argv : list term) : action_of := fun s =>
  let! t0 := elem argv 0 in
  match get_c_string 4096 t0, enif_is_list t0 with
  | Some path, true =>
      let status := lib_open (d_store s) path in
      if negb (status_ok status) then Ok (s, Reply (error_tuple ATOM_ERROR_BACKUP_ENGINE_OPEN status))
      else
        let! (h1, e) := CreateBackupEngineObject (d_heap s) in
        Ok ({| d_heap := h1; d_store := lib_opened (d_store s) e path |},
            Reply (Ttuple [ATOM_OK; Tres RBackupEngine e]))
  | _, _ => Ok (s, Badarg)
  end.

(** [if(!enif_get_backup_engine(...)) return badarg] and a call of the engine. *)
Definition on_engine (argv : list term) (body : nat -> action_of) : action_of := fun s =>
  let! t := elem argv 0 in with_ref KBackupEngine t body s.

Definition engine_call (e : nat) (call : dbs -> nat -> dbs * Status) : action_of := fun s =>
  let! o := deref (d_heap s) e in
  if m_Native o then
    let '(st, status) := call (d_store s) e in Ok (set_store s st, Reply (status_term status))
  else Undef.

(** An [unsigned int] argument. *)
Definition with_uint (argv : list term) (i : nat) (body : Z -> action_of) : action_of := fun s =>
  let! t := elem argv i in
  match enif_get_uint t with Some z => body z s | None => Ok (s, Badarg) end.

Definition with_path (argv : list term) (i : nat) (body : bytes -> action_of) : action_of := fun s =>
  let! t := elem argv i in
  match get_c_string 4096 t, enif_is_list t with Some p, true => body p s | _, _ => Ok (s, Badarg) end.

Definition GCBackupEngine (argv : list term) : action_of := on_engine argv (fun e => engine_call e bk_gc).

Definition CreateNewBackup (argv : list term) : action_of :=
  on_engine argv (fun e s =>
    let! t1 := elem argv 1 in
    with_ref KDb t1 (fun d => engine_call e (fun st e => bk_create st e d)) s).

(** The entry [number_files] is made from [backup_id]. *)
Definition backup_info_term (i : BackupInfo) : term :=
  Tmap [ (Tatom "backup_id", Tint (backup_id i)); (Tatom "timestamp", Tint (bk_timestamp i));
         (Tatom "size", Tint (bk_size i)); (Tatom "number_files", Tint (backup_id i)) ].

Definition GetBackupInfo (argv : list term) : action_of :=
  on_engine argv (fun e s =>
    let! o := deref (d_heap s) e in
    if m_Native o then
      let info_list := fold_left (fun acc i => Tcons (backup_info_term i) acc) (bk_info (d_store s) e) Tnil in
      Ok (s, Reply (Ttuple [ATOM_OK; info_list]))
    else Undef).

Definition VerifyBackup (argv : list term) : action_of :=
  on_engine argv (fun e => with_uint argv 1 (fun id =>
    engine_call e (fun st e => (st, bk_verify st e id)))).

Definition StopBackup (argv : list term) : action_of :=
  on_engine argv (fun e => engine_call e (fun st e => (bk_stop st e, StatusOK))).

Definition DeleteBackup (argv : list term) : action_of :=
  on_engine argv (fun e => with_uint argv 1 (fun id => engine_call e (fun st e => bk_delete st e id))).

Definition PurgeOldBackup (argv : list term) : action_of :=
  on_engine argv (fun e => with_uint argv 1 (fun n => engine_call e (fun st e => bk_purge st e n))).

(** Without a directory for the log, that of the database is used. *)
Definition with_wal_dir (given : bool) (argv : list term) (i : nat) (db_dir : bytes)
    (body : bytes -> action_of) : action_of :=
  if given then with_path argv i body else body db_dir.

Definition RestoreDBFromBackup (argv : list term) : action_of :=
  on_engine argv (fun e => with_uint argv 1 (fun id => with_path argv 2 (fun db_dir =>
    with_wal_dir (length argv =? 4)%nat argv 3 db_dir (fun wal_dir =>
      engine_call e (fun st e => bk_restore st e id db_dir wal_dir))))).

Definition RestoreDBFromLatestBackup (argv : list term) : action_of :=
  on_engine argv (fun e => with_path argv 1 (fun db_dir =>
    with_wal_dir (length argv =? 3)%nat argv 2 db_dir (fun wal_dir =>
      engine_call e (fun st e => bk_restore_latest st e db_dir wal_dir)))).

End Nifs.

(** ** The laws *)

(** The contents of the column families of a database. *)
Abbreviation image := (Z -> gmap bytes entry).

(** [backups]: the backups of an engine, oldest first; [directory]: what a database
    opened there would hold; [durable]: no write of the database is only in memory,
    as one made without the log is until it is flushed.

    A deletion or a purge that answers an error may have done its work in part: the
    backup may be gone and only the garbage collection have failed, and a purge goes
    on after a failed deletion.  It deletes none but the backups it was to delete. *)
Class BackupLaws `{BL : BackupLib} {DL : DbLaws L} := {
  backups : dbs -> nat -> list (Z * image);
  directory : dbs -> bytes -> option image;
  durable : dbs -> nat -> bool;
  same_dbs := fun s s' => family s' = family s /\ view s' = view s /\ snap s' = snap s /\
                (forall d, durable s' d = durable s d);
  create_law : forall s e d, durable s d = true ->
    let '(s', st) := bk_create s e d in
    same_dbs s s' /\ directory s' = directory s /\
    if status_ok st then exists id, Forall (fun j => j < id) (backups s e).*1 /\
                                    backups s' e = backups s e ++ [(id, view s d)]
    else backups s' e = backups s e;
  info_law : forall s e, backup_id <$> bk_info s e = (backups s e).*1;
  verify_law : forall s e id, status_ok (bk_verify s e id) = true -> id ∈ (backups s e).*1;
  delete_law : forall s e id,
    let '(s', st) := bk_delete s e id in
    same_dbs s s' /\ directory s' = directory s /\
    (backups s' e = filter (fun b => b.1 <> id) (backups s e) \/
     status_ok st = false /\ backups s' e = backups s e);
  purge_law : forall s e n,
    let '(s', st) := bk_purge s e n in
    same_dbs s s' /\ directory s' = directory s /\
    (backups s' e = drop (length (backups s e) - Z.to_nat n) (backups s e) \/
     status_ok st = false /\ exists l, l `sublist_of` take (length (backups s e) - Z.to_nat n) (backups s e) /\
       backups s' e = l ++ drop (length (backups s e) - Z.to_nat n) (backups s e));
  restore_law : forall s e id p w,
    let '(s', st) := bk_restore s e id p w in
    same_dbs s s' /\ backups s' e = backups s e /\
    (forall q, q <> p -> q <> w -> directory s' q = directory s q) /\
    (status_ok st = true -> exists im, (id, im) ∈ backups s e /\ directory s' p = Some im);
  restore_latest_law : forall s e p w,
    let '(s', st) := bk_restore_latest s e p w in
    same_dbs s s' /\ backups s' e = backups s e /\
    (forall q, q <> p -> q <> w -> directory s' q = directory s q) /\
    (status_ok st = true -> exists id im, last (backups s e) = Some (id, im) /\ directory s' p = Some im);
  backup_outside : forall s d o c u e, let s' := (lib_update s d o c u).1 in
    backups s' e = backups s e /\ directory s' = directory s;
}.

(** ** Calls *)

(** The paths are terms; the database is that of the engine's calls. *)
Inductive bcall :=
| BCreate
| BVerify (id : Z)
| BDelete (id : Z)
| BPurge (n : Z)
| BRestore (id : Z) (dir : term)
| BRestoreLatest (dir : term).

Section Spec.
Context `{BW : BackupLaws}.

Definition run_bcall (e d : nat) (c : bcall) : dsys -> outcome (dsys * reply) :=
  let engine := Tres RBackupEngine e in
  match c with
  | BCreate => CreateNewBackup [engine; Tres RDb d]
  | BVerify id => VerifyBackup [engine; Tint id]
  | BDelete id => DeleteBackup [engine; Tint id]
  | BPurge n => PurgeOldBackup [engine; Tint n]
  | BRestore id dir => RestoreDBFromBackup [engine; Tint id; dir]
  | BRestoreLatest dir => RestoreDBFromLatestBackup [engine; dir]
  end.

Fixpoint run_bcalls (e d : nat) (l : list bcall) (s : dsys) : outcome (dsys * list reply) :=
  match l with
  | [] => Ok (s, [])
  | c :: r =>
      let! (s1, rep) := run_bcall e d c s in
      let! (s2, reps) := run_bcalls e d r s1 in
      Ok (s2, rep :: reps)
  end.

Definition is_uint (z : Z) : bool := (0 <=? z) && (z <? 2 ^ 32).

Definition path_of (t : term) : option bytes :=
  match get_c_string 4096 t, enif_is_list t with Some p, true => Some p | _, _ => None end.

(** The arguments of a call are of the documented types. *)
Definition bcall_typed (c : bcall) : Prop :=
  match c with
  | BCreate => True
  | BVerify id | BDelete id => is_uint id = true
  | BPurge n => is_uint n = true
  | BRestore id dir => is_uint id = true /\ is_Some (path_of dir)
  | BRestoreLatest dir => is_Some (path_of dir)
  end.

(** ** The specification *)

Record store := { b_backups : list (Z * image); b_dirs : bytes -> option image }.

Definition store_of (s : dbs) (e : nat) : store := {| b_backups := backups s e; b_dirs := directory s |}.

Definition backup_fails (r : reply) : Prop := exists st, status_ok st = false /\ r = Reply (error_tuple ATOM_ERROR st).

(** A restore answered with ok puts the image [im] into the directory; a failed one
    may leave anything there, and both leave the other directories alone. *)
Definition restored (chosen : image -> Prop) (dir : term) (B B' : store) (r : reply) : Prop :=
  exists p, path_of dir = Some p /\ b_backups B' = b_backups B /\
    (forall q, q <> p -> b_dirs B' q = b_dirs B q) /\
    ((r = Reply ATOM_OK /\ exists im, chosen im /\ b_dirs B' p = Some im) \/ backup_fails r).

Definition backup_allowed (V : image) (B : store) (c : bcall) (B' : store) (r : reply) : Prop :=
  match c with
  | BCreate => b_dirs B' = b_dirs B /\
      ((r = Reply ATOM_OK /\ exists id, Forall (fun j => j < id) (b_backups B).*1 /\
          b_backups B' = b_backups B ++ [(id, V)]) \/
       (backup_fails r /\ b_backups B' = b_backups B))
  | BVerify id => B' = B /\ ((r = Reply ATOM_OK /\ id ∈ (b_backups B).*1) \/ backup_fails r)
  | BDelete id => b_dirs B' = b_dirs B /\
      ((r = Reply ATOM_OK /\ b_backups B' = filter (fun b => b.1 <> id) (b_backups B)) \/
       (backup_fails r /\ (b_backups B' = filter (fun b => b.1 <> id) (b_backups B) \/ b_backups B' = b_backups B)))
  | BPurge n => b_dirs B' = b_dirs B /\
      ((r = Reply ATOM_OK /\ b_backups B' = drop (length (b_backups B) - Z.to_nat n) (b_backups B)) \/
       (backup_fails r /\ exists l, l `sublist_of` take (length (b_backups B) - Z.to_nat n) (b_backups B) /\
          b_backups B' = l ++ drop (length (b_backups B) - Z.to_nat n) (b_backups B)))
  | BRestore id dir => restored (fun im => (id, im) ∈ b_backups B) dir B B' r
  | BRestoreLatest dir => restored (fun im => exists id, last (b_backups B) = Some (id, im)) dir B B' r
  end.

Inductive backups_allowed (V : image) : store -> list bcall -> store -> list reply -> Prop :=
| backups_nil B : backups_allowed V B [] B []
| backups_cons B c B1 r l B2 rs :
    backup_allowed V B c B1 r -> backups_allowed V B1 l B2 rs ->
    backups_allowed V B (c :: l) B2 (r :: rs).

(** ** Lemmas *)

(** A call on a usable engine: the body runs with the engine pinned. *)
Lemma on_engine_ok e argv (body : nat -> dsys -> outcome (dsys * reply)) s st r :
  usable (d_heap s) KBackupEngine e = true ->
  (forall h1, (exists o, h1 !! e = Some o /\ m_Native o = true) ->
     (forall k c, k <> KBackupEngine -> usable (d_heap s) k c = true -> usable h1 k c = true) ->
     body e (set_heap s h1) = Ok ({| d_heap := h1; d_store := st |}, r)) ->
  on_engine (Tres RBackupEngine e :: argv) body s = Ok ({| d_heap := d_heap s; d_store := st |}, r).
Proof.
  intros Hu Hb. unfold on_engine. cbn [elem lookup list_lookup obind].
  change (Tres RBackupEngine e) with (Tres (res_kind_of KBackupEngine) e).
  destruct (usable_pinned _ KBackupEngine e ltac:(done) Hu) as (o & Ho & Hget & Hrel & Hn).
  unfold with_ref. rewrite Hget. cbn [obind]. rewrite (Hb (pinned (d_heap s) e o)).
  - cbn [obind d_heap]. by rewrite Hrel.
  - eexists. unfold pinned. rewrite lookup_insert_eq. by split.
  - intros k c Hk Hc. apply usable_pinned_other; [done | | done]. by eapply usable_kind_ne.
Qed.

Lemma engine_call_ok e call s st status :
  (exists o, d_heap s !! e = Some o /\ m_Native o = true) -> call (d_store s) e = (st, status) ->
  engine_call e call s = Ok ({| d_heap := d_heap s; d_store := st |}, Reply (status_term status)).
Proof.
  intros (o & Ho & Hn) Hc. unfold engine_call, deref. rewrite Ho. cbn [obind]. by rewrite Hn, Hc.
Qed.

Lemma with_uint_ok argv i z body s :
  argv !! i = Some (Tint z) -> is_uint z = true -> with_uint argv i body s = body z s.
Proof. intros Ha Hz. unfold with_uint, elem. rewrite Ha. cbn. unfold is_uint in Hz. by rewrite Hz. Qed.

Lemma with_path_ok argv i t p body s :
  argv !! i = Some t -> path_of t = Some p -> with_path argv i body s = body p s.
Proof.
  intros Ha Hp. unfold with_path, elem. rewrite Ha. cbn [obind]. unfold path_of in Hp.
  destruct (get_c_string 4096 t); [| done]. destruct (enif_is_list t); [| done]. by simplify_eq.
Qed.

Lemma fails_not_ok : ~ backup_fails (Reply ATOM_OK).
Proof. intros (st & _ & H). injection H as H. by apply eq_sym, error_tuple_not_ok in H. Qed.

Lemma status_cases st : (status_ok st = true /\ status_term st = ATOM_OK) \/
  (status_ok st = false /\ backup_fails (Reply (status_term st))).
Proof.
  unfold status_term, backup_fails. destruct (status_ok st) eqn:E; [by left | right].
  split; [done |]. by exists st.
Qed.

(** What a call asks of the engine. *)
Definition lib_bcall (e d : nat) (c : bcall) (s : dbs) : dbs * Status :=
  match c with
  | BCreate => bk_create s e d
  | BVerify id => (s, bk_verify s e id)
  | BDelete id => bk_delete s e id
  | BPurge n => bk_purge s e n
  | BRestore id dir => let p := default [] (path_of dir) in bk_restore s e id p p
  | BRestoreLatest dir => let p := default [] (path_of dir) in bk_restore_latest s e p p
  end.

Lemma create_backup_step e d s st status :
  usable (d_heap s) KBackupEngine e = true -> usable (d_heap s) KDb d = true ->
  bk_create (d_store s) e d = (st, status) ->
  CreateNewBackup [Tres RBackupEngine e; Tres RDb d] s =
    Ok ({| d_heap := d_heap s; d_store := st |}, Reply (status_term status)).
Proof.
  intros Hu Hd Hc. unfold CreateNewBackup. apply on_engine_ok; [done |]. intros h1 (o & Ho & Hn) Hk.
  cbn [elem lookup list_lookup obind]. change (Tres RDb d) with (Tres (res_kind_of KDb) d).
  assert (Hd1 : usable h1 KDb d = true) by (by apply Hk).
  destruct (usable_pinned _ KDb d ltac:(done) Hd1) as (od & Hod & Hget & Hrel & _).
  unfold with_ref. cbn [d_heap set_heap]. rewrite Hget. cbn [obind].
  assert (Hne : d <> e) by (intros ->; by apply (usable_kind_ne _ _ _ _ _ Hd Hu)).
  erewrite engine_call_ok; [| | exact Hc].
  - cbn [obind d_heap set_heap]. by rewrite Hrel.
  - cbn [d_heap set_heap]. unfold pinned. rewrite lookup_insert_ne by done. by exists o.
Qed.

Lemma bcall_step e d c s st status :
  usable (d_heap s) KBackupEngine e = true -> usable (d_heap s) KDb d = true -> bcall_typed c ->
  lib_bcall e d c (d_store s) = (st, status) ->
  run_bcall e d c s = Ok ({| d_heap := d_heap s; d_store := st |}, Reply (status_term status)).
Proof.
  intros Hu Hd Ht Hc. destruct c as [|id|id|n|id dir|dir]; cbn [run_bcall]; [by apply create_backup_step | ..];
    unfold VerifyBackup, DeleteBackup, PurgeOldBackup, RestoreDBFromBackup, RestoreDBFromLatestBackup;
    (apply on_engine_ok; [done |]); intros h1 Ho _; cbn [bcall_typed] in Ht.
  - erewrite with_uint_ok by done. by apply engine_call_ok.
  - erewrite with_uint_ok by done. by apply engine_call_ok.
  - erewrite with_uint_ok by done. by apply engine_call_ok.
  - destruct Ht as [Hid [p Hp]]. erewrite with_uint_ok by done. erewrite with_path_ok by done.
    cbn [lib_bcall] in Hc. rewrite Hp in Hc. by apply engine_call_ok.
  - destruct Ht as [p Hp]. erewrite with_path_ok by done.
    cbn [lib_bcall] in Hc. rewrite Hp in Hc. by apply engine_call_ok.
Qed.

(** The laws, read as the specification. *)
Lemma lib_bcall_allowed e d c s st status :
  bcall_typed c -> (c = BCreate -> durable s d = true) -> lib_bcall e d c s = (st, status) ->
  same_dbs s st /\ backup_allowed (view s d) (store_of s e) c (store_of st e) (Reply (status_term status)).
Proof.
  intros Ht Hdur E. destruct c as [|id|id|n|id dir|dir]; cbn [lib_bcall] in E; cbn [bcall_typed] in Ht.
  - pose proof (create_law s e d (Hdur eq_refl)) as H. rewrite E in H. destruct H as (Hs & Hd & H).
    split; [done |]. split; [done |]. cbn [b_backups store_of].
    destruct (status_cases status) as [[Hok ->] | [Hok Hf]]; rewrite Hok in H; [by left | by right].
  - injection E as <- <-. split; [done |]. split; [done |].
    destruct (status_cases (bk_verify s e id)) as [[Hok ->] | [Hok Hf]]; [left | by right].
    split; [done |]. by apply verify_law.
  - pose proof (delete_law s e id) as H. rewrite E in H. destruct H as (Hs & Hd & H).
    split; [done |]. split; [done |]. cbn [b_backups store_of].
    destruct (status_cases status) as [[Hok ->] | [Hok Hf]]; [left | right; naive_solver].
    split; [done |]. destruct H as [-> | [? _]]; [done | congruence].
  - pose proof (purge_law s e n) as H. rewrite E in H. destruct H as (Hs & Hd & H).
    split; [done |]. split; [done |]. cbn [b_backups store_of].
    destruct (status_cases status) as [[Hok ->] | [Hok Hf]]; [left | right].
    + split; [done |]. destruct H as [-> | [? _]]; [done | congruence].
    + split; [done |]. destruct H as [-> | (_ & l & Hsub & ->)]; [exists [] | exists l]; split; try done.
      apply sublist_nil_l.
  - destruct Ht as [_ [p Hp]]. rewrite Hp in E. pose proof (restore_law s e id p p) as H. cbn in E.
    rewrite E in H. destruct H as (Hs & Hb & Hq & H). split; [done |]. exists p.
    split_and!; [done | done | intros q Hne; by apply Hq |].
    destruct (status_cases status) as [[Hok ->] | [Hok Hf]]; [left | by right]. split; [done | by apply H].
  - destruct Ht as [p Hp]. rewrite Hp in E. pose proof (restore_latest_law s e p p) as H. cbn in E.
    rewrite E in H. destruct H as (Hs & Hb & Hq & H). split; [done |]. exists p.
    split_and!; [done | done | intros q Hne; by apply Hq |].
    destruct (status_cases status) as [[Hok ->] | [Hok Hf]]; [left | by right]. split; [done |].
    destruct (H Hok) as (id & im & Hl & Hd). exists im. split; [by exists id | done].
Qed.

Lemma bcall_refines e d c s :
  usable (d_heap s) KBackupEngine e = true -> usable (d_heap s) KDb d = true -> bcall_typed c ->
  (c = BCreate -> durable (d_store s) d = true) ->
  exists s' r, run_bcall e d c s = Ok (s', r) /\ d_heap s' = d_heap s /\ same_dbs (d_store s) (d_store s') /\
    backup_allowed (view (d_store s) d) (store_of (d_store s) e) c (store_of (d_store s') e) r.
Proof.
  intros Hu Hd Ht Hdur. destruct (lib_bcall e d c (d_store s)) as [st status] eqn:E.
  destruct (lib_bcall_allowed e d c _ st status Ht Hdur E) as [Hs Ha].
  exists {| d_heap := d_heap s; d_store := st |}, (Reply (status_term status)).
  split; [by apply bcall_step |]. by split_and!.
Qed.

Lemma bcalls_refine e d l : forall s,
  usable (d_heap s) KBackupEngine e = true -> usable (d_heap s) KDb d = true -> Forall bcall_typed l ->
  durable (d_store s) d = true ->
  exists s' rs, run_bcalls e d l s = Ok (s', rs) /\ d_heap s' = d_heap s /\
    view (d_store s') = view (d_store s) /\
    backups_allowed (view (d_store s) d) (store_of (d_store s) e) l (store_of (d_store s') e) rs.
Proof.
  induction l as [|c l IH]; intros s Hu Hd Ht Hdur; cbn [run_bcalls].
  - exists s, []. split_and!; try done. constructor.
  - apply Forall_cons in Ht as [Hc Hl].
    destruct (bcall_refines e d c s Hu Hd Hc (fun _ => Hdur)) as (s1 & r & Hrun & Hh & (_ & Hv & _ & Hdd) & Ha).
    destruct (IH s1) as (s2 & rs & Hrun2 & Hh2 & Hv2 & Ha2); [by rewrite Hh | by rewrite Hh | done | by rewrite Hdd |].
    rewrite Hrun. cbn [obind]. rewrite Hrun2. exists s2, (r :: rs). split_and!; [done | congruence | congruence |].
    econstructor; [exact Ha |]. by rewrite <- Hv.
Qed.

(** Direct calls on the database leave backups and restored directories alone. *)
Lemma dcalls_keep_backups e d l : forall fam s s' rs,
  runs fam d s l -> run_dcalls d l s = Ok (s', rs) ->
  d_heap s' = d_heap s /\ store_of (d_store s') e = store_of (d_store s) e.
Proof.
  induction l as [|c l IH]; intros fam s s' rs Hl Hrun; cbn [run_dcalls] in Hrun; [by simplify_eq |].
  unfold runs in Hl. apply Forall_cons in Hl as [(Hu & Hs & Hf) Hl].
  destruct (dcall_refines fam d c s Hu Hs Hf) as (s1 & r & Hr & Hh & Hsn & Hfa & _).
  rewrite Hr in Hrun. cbn [obind] in Hrun. destruct (run_dcalls d l s1) as [[s2 rs2]|] eqn:E2; [| done].
  cbn [obind] in Hrun. simplify_eq.
  destruct (IH fam s1 s' rs2) as [Hh2 Hst2]; [| done |].
  { eapply Forall_impl; [exact Hl |]. cbv beta. intros c'. by rewrite Hh, Hsn, Hfa. }
  split; [congruence |]. rewrite Hst2.
  destruct (dcall_store _ d c s s1 r Hu Hs Hf Hr) as [Hsame | (o & c' & u & Hst)]; [by rewrite Hsame |].
  unfold store_of. rewrite Hst. by destruct (backup_outside (d_store s) d o c' u e) as [-> ->].
Qed.

(** Any sequence of backup calls on a usable engine and a usable database whose
    writes are durable returns, with the handles as they were and the database
    unchanged, and follows the list of backups: a creation answered with ok appends
    the present contents under an id above every other, a deletion removes just that
    backup, a purge keeps the newest n, a restore answered with ok puts the contents
    of the backup asked for into the directory.  An error of a creation or a restore
    changes no backup, one of a deletion or a purge none but those it was to delete. *)
Theorem backup_refines e d l s :
  usable (d_heap s) KBackupEngine e = true -> usable (d_heap s) KDb d = true -> Forall bcall_typed l ->
  durable (d_store s) d = true ->
  exists s' rs, run_bcalls e d l s = Ok (s', rs) /\ d_heap s' = d_heap s /\
    view (d_store s') = view (d_store s) /\
    backups_allowed (view (d_store s) d) (store_of (d_store s) e) l (store_of (d_store s') e) rs.
Proof. apply bcalls_refine. Qed.

(** A creation answered with ok appended the contents of the database. *)
Lemma created_last e d s s1 :
  usable (d_heap s) KBackupEngine e = true -> usable (d_heap s) KDb d = true ->
  durable (d_store s) d = true -> run_bcall e d BCreate s = Ok (s1, Reply ATOM_OK) ->
  d_heap s1 = d_heap s /\ exists id, last (backups (d_store s1) e) = Some (id, view (d_store s) d).
Proof.
  intros Hu Hd Hdur Hrun. destruct (bcall_refines e d BCreate s Hu Hd I (fun _ => Hdur)) as (s' & r & Hr & Hh & _ & _ & Ha).
  rewrite Hrun in Hr. simplify_eq. split; [done |].
  destruct Ha as [(_ & id & _ & Hb) | (Hf & _)]; [| by apply fails_not_ok in Hf].
  cbn [b_backups store_of] in Hb. exists id. by rewrite Hb, last_snoc.
Qed.

(** A backup created with the answer ok, then any direct calls on the database,
    then a restore of the latest backup answered with ok: the directory holds the
    contents the database had when the backup was made, whatever was written since. *)
Theorem backup_roundtrip e d dir p fam l s s1 s2 rs s3 :
  usable (d_heap s) KBackupEngine e = true -> usable (d_heap s) KDb d = true ->
  durable (d_store s) d = true -> path_of dir = Some p ->
  CreateNewBackup [Tres RBackupEngine e; Tres RDb d] s = Ok (s1, Reply ATOM_OK) ->
  runs fam d s1 l -> run_dcalls d l s1 = Ok (s2, rs) ->
  RestoreDBFromLatestBackup [Tres RBackupEngine e; dir] s2 = Ok (s3, Reply ATOM_OK) ->
  directory (d_store s3) p = Some (view (d_store s) d).
Proof.
  intros Hu Hd Hdur Hp Hcreate Hl Hcalls Hrestore.
  destruct (created_last e d s s1 Hu Hd Hdur Hcreate) as [Hh1 [id Hlast]].
  destruct (dcalls_keep_backups e d l fam s1 s2 rs Hl Hcalls) as [Hh2 Hst].
  apply (f_equal b_backups) in Hst. cbn [b_backups store_of] in Hst.
  destruct (bcall_refines e d (BRestoreLatest dir) s2) as (s' & r & Hr & _ & _ & p' & Hp' & _ & _ & Ha);
    [congruence | congruence | by exists p | done |].
  change (run_bcall e d (BRestoreLatest dir) s2 = Ok (s3, Reply ATOM_OK)) in Hrestore.
  rewrite Hrestore in Hr. simplify_eq.
  destruct Ha as [(_ & im & (id' & Hlast') & Him) | Hf]; [| by apply fails_not_ok in Hf].
  change (b_backups (store_of (d_store s2) e)) with (backups (d_store s2) e) in Hlast'.
  rewrite Hst, Hlast in Hlast'. by simplify_eq.
Qed.

(** The entry [number_files] of an answer is the id of the backup. *)
Lemma number_files_is_id e s i :
  usable (d_heap s) KBackupEngine e = true -> bk_info (d_store s) e = [i] ->
  exists m, GetBackupInfo [Tres RBackupEngine e] s = Ok (s, Reply (Ttuple [ATOM_OK; Tcons (Tmap m) Tnil])) /\
    (Tatom "number_files", Tint (backup_id i)) ∈ m.
Proof.
  intros Hu Hi. eexists. split.
  - unfold GetBackupInfo.
    rewrite (on_engine_ok e [] _ s (d_store s) (Reply (Ttuple [ATOM_OK; Tcons (backup_info_term i) Tnil])) Hu).
    { by destruct s. }
    intros h1 (o & Ho & Hn) _. unfold deref. cbn [d_heap d_store set_heap]. rewrite Ho. cbn [obind]. rewrite Hn.
    by rewrite Hi.
  - apply list_elem_of_In. cbn. tauto.
Qed.

End Spec.

(** ** An instance *)

(** The maps of [MapDb] with engines that keep copies of them. *)
Module MapBackup.

Record disk := { engines : gmap nat (list (Z * image)); dirs : gmap bytes image }.

Section Instance.
Context (merge : bytes -> option bytes -> list bytes -> option bytes).

Definition state : Type := MapDb.state * disk.

#[local] Instance lib : DbLib := Extended.prod_lib (MapDb.map_lib merge) disk.
#[local] Instance laws : DbLaws lib := Extended.prod_laws _ _ (MapDb.map_laws merge).

Definition kept (s : state) (e : nat) : list (Z * image) := default [] (engines s.2 !! e).

Definition set_engine (s : state) (e : nat) (l : list (Z * image)) : state :=
  (s.1, {| engines := <[e := l]> (engines s.2); dirs := dirs s.2 |}).

Definition next_id (l : list (Z * image)) : Z := foldr Z.max 0 l.*1 + 1.

Definition set_dir (s : state) (p : bytes) (im : image) : state :=
  (s.1, {| engines := engines s.2; dirs := <[p := im]> (dirs s.2) |}).

Definition restore (s : state) (p : bytes) (im : option (Z * image)) : state * Status :=
  match im with Some (_, im) => (set_dir s p im, StatusOK) | None => (s, StatusNotFound) end.

Definition create (s : state) (e d : nat) : state * Status :=
  (set_engine s e (kept s e ++ [(next_id (kept s e), MapDb.maps s.1 d)]), StatusOK).

Definition find (s : state) (e : nat) (id : Z) : option (Z * image) :=
  snd <$> list_find (fun b => b.1 = id) (kept s e).

Definition verify (s : state) (e : nat) (id : Z) : Status :=
  if decide (id ∈ (kept s e).*1) then StatusOK else StatusNotFound.

Definition purge (s : state) (e : nat) (n : Z) : state * Status :=
  (set_engine s e (drop (length (kept s e) - Z.to_nat n) (kept s e)), StatusOK).

Definition backup_lib : BackupLib :=
  @Build_BackupLib lib (fun s _ => (s, StatusOK)) create
    (fun s e => (fun b => {| backup_id := b.1; bk_timestamp := 0; bk_size := 0; number_files := 0 |}) <$> kept s e)
    verify (fun s _ => s) (fun s e id => (set_engine s e (filter (fun b => b.1 <> id) (kept s e)), StatusOK))
    purge (fun s e id p _ => restore s p (find s e id)) (fun s e p _ => restore s p (last (kept s e))).

#[local] Existing Instance backup_lib.

Lemma kept_set s e l : kept (set_engine s e l) e = l.
Proof. unfold kept. cbn. by rewrite lookup_insert_eq. Qed.

Lemma next_id_above l : Forall (fun j => j < next_id l) l.*1.
Proof.
  unfold next_id. induction l.*1 as [|j js IH]; constructor; cbn; [lia |].
  eapply Forall_impl; [exact IH |]. cbv beta. lia.
Qed.

Lemma find_elem s e id b : find s e id = Some b -> b.1 = id /\ b ∈ kept s e.
Proof.
  unfold find. intros H. apply fmap_Some in H as ([i b'] & Hf & ->).
  apply list_find_Some in Hf as (Hl & Hid & _). split; [done |]. by eapply list_elem_of_lookup_2.
Qed.

Lemma set_dir_frame s p im : kept (set_dir s p im) = kept s /\
  dirs (set_dir s p im).2 !! p = Some im /\ forall q, q <> p -> dirs (set_dir s p im).2 !! q = dirs s.2 !! q.
Proof.
  split_and!; [done | cbn; by rewrite lookup_insert_eq |]. intros q Hq. cbn. by rewrite lookup_insert_ne.
Qed.

Definition backup_laws : @BackupLaws lib backup_lib laws.
Proof.
  refine (@Build_BackupLaws lib backup_lib laws kept (fun s p => dirs s.2 !! p) (fun _ _ => true) _ _ _ _ _ _ _ _).
  - intros s e d _. cbn [bk_create backup_lib]. unfold create. split_and!; try done.
    eexists. split; [apply next_id_above | apply kept_set].
  - intros s e. cbn [bk_info backup_lib]. by rewrite <- list_fmap_compose.
  - intros s e id. cbn [bk_verify backup_lib]. unfold verify. by case_decide.
  - intros s e id. cbn [bk_delete backup_lib]. split_and!; try done. left. apply kept_set.
  - intros s e n. cbn [bk_purge backup_lib]. unfold purge. split_and!; try done. left. apply kept_set.
  - intros s e id p w. cbn [bk_restore backup_lib]. destruct (find s e id) as [[j im]|] eqn:E; cbn [restore];
      [| by split_and!].
    apply find_elem in E as [Hid Hin]. cbn in Hid. subst j.
    destruct (set_dir_frame s p im) as (_ & Hp & Hq). split_and!; try done; [intros q Hne _; by apply Hq |].
    intros _. by exists im.
  - intros s e p w. cbn [bk_restore_latest backup_lib]. destruct (last (kept s e)) as [[j im]|]; cbn [restore];
      [| by split_and!].
    destruct (set_dir_frame s p im) as (_ & Hp & Hq). split_and!; try done; [intros q Hne _; by apply Hq |].
    intros _. by exists j, im.
  - done.
Defined.

End Instance.
End MapBackup.

(** ** Witnesses *)

Module BackupWitness.

Definition no_merge (_ : bytes) (_ : option bytes) (_ : list bytes) : option bytes := None.

#[local] Instance the_lib : DbLib := MapBackup.lib no_merge.
#[local] Instance the_laws : DbLaws the_lib := MapBackup.laws no_merge.
#[local] Instance the_backups : BackupLib := MapBackup.backup_lib no_merge.
#[local] Instance the_backup_laws : BackupLaws := MapBackup.backup_laws no_merge.

(** Database 0 and engine 1. *)
Definition the_heap : heap :=
  <[1%nat := set_refs 1 (new_obj KBackupEngine None)]> {[0%nat := set_refs 1 (new_obj KDb None)]}.

Definition the_dsys : dsys :=
  {| d_heap := the_heap;
     d_store := (({| MapDb.maps := fun _ _ => ∅; MapDb.snaps := ∅ |},
                  {| MapBackup.engines := ∅; MapBackup.dirs := ∅ |}) : dbs) |}.

Definition the_fam (cf : option nat) : Z := match cf with Some c => Z.of_nat c | None => 0 end.

Definition ka : bytes := [Byte.x61].

(** The path /r. *)
Definition the_dir : term := Tcons (Tint 47) (Tcons (Tint 114) Tnil).

Definition script : list bcall := [BCreate; BCreate; BVerify 1; BDelete 1; BRestore 2 the_dir; BRestore 7 the_dir; BPurge 1].

Lemma backup_refines_witness :
  exists s' rs, run_bcalls 1 0 script the_dsys = Ok (s', rs) /\ d_heap s' = d_heap the_dsys /\
    view (d_store s') = view (d_store the_dsys) /\
    backups_allowed (view (d_store the_dsys) 0) (store_of (d_store the_dsys) 1) script
      (store_of (d_store s') 1) rs.
Proof.
  apply (backup_refines 1 0 script the_dsys); [vm_compute; reflexivity | vm_compute; reflexivity | | reflexivity].
  repeat constructor; by eexists.
Defined.

Definition reply_of {A : Type} (r : outcome (dsys * A)) : option A :=
  match r with Ok (_, a) => Some a | Undef => None end.

Definition state_of {A : Type} (r : outcome (dsys * A)) : dsys :=
  match r with Ok (s, _) => s | Undef => the_dsys end.

Lemma state_of_ok {A : Type} (r : outcome (dsys * A)) a : reply_of r = Some a -> r = Ok (state_of r, a).
Proof. destruct r as [[s b]|]; [| done]. by intros [= ->]. Qed.

(** A write after the backup. *)
Definition later : list dcall := [DWrite None (UPut ka ka) Tnil].

Definition created : dsys := state_of (CreateNewBackup [Tres RBackupEngine 1; Tres RDb 0] the_dsys).
Definition written : dsys := state_of (run_dcalls 0 later created).
Definition restored_dsys : dsys := state_of (RestoreDBFromLatestBackup [Tres RBackupEngine 1; the_dir] written).

Lemma backup_roundtrip_witness :
  directory (d_store restored_dsys) [Byte.x2f; Byte.x72] = Some (view (d_store the_dsys) 0).
Proof.
  apply (backup_roundtrip 1 0 the_dir [Byte.x2f; Byte.x72] the_fam later the_dsys created written
           [Reply ATOM_OK] restored_dsys);
    [vm_compute; reflexivity | vm_compute; reflexivity | reflexivity | vm_compute; reflexivity
    | apply state_of_ok; vm_compute; reflexivity | | apply state_of_ok; vm_compute; reflexivity
    | apply state_of_ok; vm_compute; reflexivity].
  apply Forall_cons; split; [| apply Forall_nil; exact I].
  split; [vm_compute; reflexivity | split; [exact I | reflexivity]].
Defined.

End BackupWitness.
