(* ===== verification/Sst.v ===== *)
(** * SST files

    [c_src/sst_file_writer.cc] and [c_src/sst_file_reader.cc]: files written outside a
    database and read back.  [rocksdb::SstFileWriter] and [rocksdb::SstFileReader] are
    behind [SstLib]; the iterators of a reader are iterators of RocksDB ([IterLib]).

    The objects are resources of the runtime: one is destroyed when no term refers to
    it and no call of [enif_keep_resource] is outstanding.  A reader has to outlive
    its iterators, so an iterator is kept with the reader it reads from, and using or
    deleting it after that reader is undefined. *)

From stdpp Require Import base list numbers strings gmap.
From Stdlib Require Import ZArith Lia.
From S2P Require Import Prelude StdMap Terms RefObjects WriteBatchLib CompactionFilter Options DbLib DbNif Iter.

(** ** The library *)

(** [rocksdb::ExternalSstFileInfo] *)
Record SstFileInfo := {
  file_path : bytes; smallest_key : bytes; largest_key : bytes;
  smallest_range_del_key : bytes; largest_range_del_key : bytes;
  file_size : Z; num_entries : Z; num_range_del_entries : Z; sequence_number : Z;
}.

(** The members of [rocksdb::TableProperties] by name. *)
Inductive property := PNum (n : Z) | PText (b : bytes).

Class SstLib `{IL : IterLib} := {
  sst : Type;
  swriter : Type;
  sreader : Type;
  sw_open : struct -> bytes -> sst -> swriter * Status;
  sw_add : update -> swriter -> swriter * Status;
  sw_finish : swriter -> sst -> sst * swriter * Status * SstFileInfo;
  sw_size : swriter -> Z;
  sr_open : struct -> bytes -> sst -> sreader * Status;
  sr_new_iterator : sreader -> struct -> option itr;
  sr_property : sreader -> option (string -> property);
  sr_verify : sreader -> struct -> sst -> Status;
}.

(** ** State *)

(** A resource: the terms that refer to it and the references taken on it with
    [enif_keep_resource]. *)
Record resource (A : Type) := { terms : nat; keeps : nat; object : A }.
Arguments terms {A}.
Arguments keeps {A}.
Arguments object {A}.

(** [SstFileReaderItrObject]: the iterator with the reader it reads from, and the
    reader the object keeps. *)
Record sst_itr `{IterLib} := { s_Iterator : option (itr * nat); m_ReaderRef : option nat }.

Record ssys `{SL : SstLib} := {
  s_db : dsys;
  s_files : sst;
  s_writers : gmap nat (resource swriter);
  s_readers : gmap nat (resource sreader);
  s_itrs : gmap nat (resource sst_itr);
}.

(** What the second argument of [SstFileReaderIteratorMove] asks for: a move, the answer for an invalid iterator, or
    badarg. *)
Inductive asked := AMove (m : move) | AInvalid | ABadarg.

Section Nifs.
Context `{SL : SstLib}.
Context (increase_parallelism optimize_level_style : Z -> struct).

Abbreviation action_of := (ssys -> outcome (ssys * reply)).

Definition with_files (s : ssys) (f : sst) : ssys :=
  {| s_db := s_db s; s_files := f; s_writers := s_writers s; s_readers := s_readers s; s_itrs := s_itrs s |}.
Definition with_writers (s : ssys) (w : gmap nat (resource swriter)) : ssys :=
  {| s_db := s_db s; s_files := s_files s; s_writers := w; s_readers := s_readers s; s_itrs := s_itrs s |}.
Definition with_readers (s : ssys) (r : gmap nat (resource sreader)) : ssys :=
  {| s_db := s_db s; s_files := s_files s; s_writers := s_writers s; s_readers := r; s_itrs := s_itrs s |}.
Definition with_itrs (s : ssys) (i : gmap nat (resource sst_itr)) : ssys :=
  {| s_db := s_db s; s_files := s_files s; s_writers := s_writers s; s_readers := s_readers s; s_itrs := i |}.
Definition with_sdb (s : ssys) (d : dsys) : ssys :=
  {| s_db := d; s_files := s_files s; s_writers := s_writers s; s_readers := s_readers s; s_itrs := s_itrs s |}.

(** *** Resources *)

(** [enif_alloc_resource], [enif_make_resource] and [enif_release_resource]: a new
    object that one term refers to. *)
Definition new_resource {A : Type} (a : A) (m : gmap nat (resource A)) : gmap nat (resource A) * nat :=
  let id := fresh (dom m : gset nat) in (<[id := {| terms := 1; keeps := 0; object := a |}]> m, id).

Definition set_object {A : Type} (a : A) (r : resource A) : resource A :=
  {| terms := terms r; keeps := keeps r; object := a |}.

Definition unused {A : Type} (r : resource A) : bool := (terms r + keeps r =? 0)%nat.

(** [enif_keep_resource] on a reader. *)
Definition keep_reader (r : nat) (s : ssys) : outcome ssys :=
  match s_readers s !! r with
  | Some o => Ok (with_readers s (<[r := {| terms := terms o; keeps := S (keeps o); object := object o |}]> (s_readers s)))
  | None => Undef
  end.

(** A reader that nothing refers to is destroyed with its [SstFileReader]. *)
Definition put_reader (r : nat) (o : resource sreader) (s : ssys) : ssys :=
  with_readers s (if unused o then delete r (s_readers s) else <[r := o]> (s_readers s)).

(** [enif_release_resource] on a reader. *)
Definition release_reader (r : nat) (s : ssys) : outcome ssys :=
  match s_readers s !! r with
  | Some {| terms := t; keeps := S k; object := a |} =>
      Ok (put_reader r {| terms := t; keeps := k; object := a |} s)
  | _ => Undef
  end.

(** A move of [m_Iterator], or its deletion, uses the reader. *)
Definition use_reader (p : option (itr * nat)) (s : ssys) : outcome unit :=
  match p with
  | None => Ok tt
  | Some (_, r) => match s_readers s !! r with Some _ => Ok tt | None => Undef end
  end.

(** The last term of an iterator is collected: [~SstFileReaderItrObject] deletes the
    iterator; the reference on the reader stays. *)
Definition destroy_itr (i : nat) (o : sst_itr) (s : ssys) : outcome ssys :=
  let! _ := use_reader (s_Iterator o) s in Ok (with_itrs s (delete i (s_itrs s))).

(** *** Arguments *)

(** An iolist: bytes, binaries and iolists, ended by nil or a binary. *)
Fixpoint iolist_bytes (t : term) : option bytes :=
  match t with
  | Tnil => Some []
  | Tbin b => Some b
  | Tcons h r =>
      let first := match h with
                   | Tint z => if (0 <=? z) && (z <? 256) then Some [byte_of_Z z] else None
                   | _ => iolist_bytes h
                   end in
      match first, iolist_bytes r with Some a, Some b => Some (a ++ b) | _, _ => None end
  | _ => None
  end.

Definition get_file_path (t : term) : option bytes :=
  match enif_inspect_binary t with Some b => Some b | None => iolist_bytes t end.

Definition make_binary_from_string (b : bytes) : term := Tbin b.

(** The option loop of both [Open] functions: an item that [parse_db_option] does not
    accept is given to [parse_cf_option], whose result is not used. *)
Fixpoint parse_sst_options (l : list term) (o : struct) : outcome struct :=
  match l with
  | [] => Ok o
  | head :: r =>
      let! (o1, result) := parse_db_option increase_parallelism head o in
      if negb (is_atom "ok" result)
      then let! (o2, _) := parse_cf_option optimize_level_style head o1 in parse_sst_options r o2
      else parse_sst_options r o1
  end.

(** *** Writers *)

Definition SstFileWriterOpen (argv : list term) : action_of := fun s =>
  let! t0 := elem argv 0 in
  let! options := parse_sst_options (list_cells t0) [] in
  let! t1 := elem argv 1 in
  match get_file_path t1 with
  | None => Ok (s, Badarg)
  | Some path =>
      let '(w, status) := sw_open options path (s_files s) in
      if negb (status_ok status) then Ok (s, Reply (error_tuple ATOM_ERROR status))
      else
        let '(ws, id) := new_resource w (s_writers s) in
        Ok (with_writers s ws, Reply (Ttuple [ATOM_OK; Tres RSstFileWriter id]))
  end.

(** [RetrieveSstFileWriterResource]: the term of the call keeps the object alive. *)
Definition on_writer (argv : list term) (body : nat -> resource swriter -> action_of) : action_of := fun s =>
  let! t0 := elem argv 0 in
  match enif_get_resource RSstFileWriter t0 with
  | None => Ok (s, Badarg)
  | Some id => match s_writers s !! id with Some o => body id o s | None => Undef end
  end.

Definition put_writer (id : nat) (o : resource swriter) (w : swriter) (s : ssys) : ssys :=
  with_writers s (<[id := set_object w o]> (s_writers s)).

(** A call of the writer that adds an entry. *)
Definition add_entry (u : update) (id : nat) (o : resource swriter) : action_of := fun s =>
  let '(w, status) := sw_add u (object o) in
  Ok (put_writer id o w s,
      Reply (if negb (status_ok status) then error_tuple ATOM_ERROR status else ATOM_OK)).

Definition with_bytes (argv : list term) (i : nat) (body : bytes -> action_of) : action_of := fun s =>
  let! t := elem argv i in
  match enif_inspect_binary t with Some b => body b s | None => Ok (s, Badarg) end.

Definition SstFileWriterPut (argv : list term) : action_of :=
  on_writer argv (fun id o => with_bytes argv 1 (fun k => with_bytes argv 2 (fun v => add_entry (UPut k v) id o))).

Definition SstFileWriterPutEntity (argv : list term) : action_of :=
  on_writer argv (fun id o => with_bytes argv 1 (fun k s =>
    let! ct := elem argv 2 in
    match mapM read_column (list_cells ct) with
    | None => Ok (s, Badarg)
    | Some columns => add_entry (UPutEntity k columns) id o s
    end)).

Definition SstFileWriterMerge (argv : list term) : action_of :=
  on_writer argv (fun id o => with_bytes argv 1 (fun k => with_bytes argv 2 (fun v => add_entry (UMerge k v) id o))).

Definition SstFileWriterDelete (argv : list term) : action_of :=
  on_writer argv (fun id o => with_bytes argv 1 (fun k => add_entry (UDelete k) id o)).

Definition SstFileWriterDeleteRange (argv : list term) : action_of :=
  on_writer argv (fun id o => with_bytes argv 1 (fun b => with_bytes argv 2 (fun e => add_entry (UDeleteRange b e) id o))).

Definition file_info_term (i : SstFileInfo) : term :=
  Tmap [ (Tatom "file_path", make_binary_from_string (file_path i));
         (Tatom "smallest_key", make_binary_from_string (smallest_key i));
         (Tatom "largest_key", make_binary_from_string (largest_key i));
         (Tatom "smallest_range_del_key", make_binary_from_string (smallest_range_del_key i));
         (Tatom "largest_range_del_key", make_binary_from_string (largest_range_del_key i));
         (Tatom "file_size", Tint (file_size i));
         (Tatom "num_entries", Tint (num_entries i));
         (Tatom "num_range_del_entries", Tint (num_range_del_entries i));
         (Tatom "sequence_number", Tint (sequence_number i)) ].

(** Without [with_file_info] the answer is the atom ok. *)
Definition SstFileWriterFinish (argv : list term) : action_of :=
  on_writer argv (fun id o s =>
    let with_file_info := match argv !! 1%nat with Some t => is_atom "with_file_info" t | None => false end in
    let '(files, w, status, info) := sw_finish (object o) (s_files s) in
    Ok (put_writer id o w (with_files s files),
        Reply (if negb (status_ok status) then error_tuple ATOM_ERROR status
               else if with_file_info then Ttuple [ATOM_OK; file_info_term info] else ATOM_OK))).

Definition SstFileWriterFileSize (argv : list term) : action_of :=
  on_writer argv (fun _ o s => Ok (s, Reply (Tint (sw_size (object o))))).

(** The object is left to the collector. *)
Definition ReleaseSstFileWriter (argv : list term) : action_of := fun s =>
  let! _ := elem argv 0 in Ok (s, Reply ATOM_OK).

(** *** Readers *)

Definition SstFileReaderOpen (argv : list term) : action_of := fun s =>
  let! t0 := elem argv 0 in
  let! options := parse_sst_options (list_cells t0) [] in
  let! t1 := elem argv 1 in
  match get_file_path t1 with
  | None => Ok (s, Badarg)
  | Some path =>
      let '(r, status) := sr_open options path (s_files s) in
      if negb (status_ok status) then Ok (s, Reply (error_tuple ATOM_ERROR status))
      else
        let '(rs, id) := new_resource r (s_readers s) in
        Ok (with_readers s rs, Reply (Ttuple [ATOM_OK; Tres RSstFileReader id]))
  end.

Definition on_reader (argv : list term) (body : nat -> resource sreader -> action_of) : action_of := fun s =>
  let! t0 := elem argv 0 in
  match enif_get_resource RSstFileReader t0 with
  | None => Ok (s, Badarg)
  | Some id => match s_readers s !! id with Some o => body id o s | None => Undef end
  end.

(** [fold(env, list, parse_read_option, read_options)] *)
Definition with_read_opts (t : term) (body : struct -> action_of) : action_of := fun s =>
  let! (acc, _) := fold parse_read_option t (d_heap (s_db s), []) in
  body acc.2 (with_sdb s (set_heap (s_db s) acc.1)).

Definition SstFileReaderIterator (argv : list term) : action_of :=
  on_reader argv (fun id o s =>
    let! t1 := elem argv 1 in
    with_read_opts t1 (fun read_options s =>
      match sr_new_iterator (object o) read_options with
      | None => Ok (s, Reply (error_tuple_msg ATOM_ERROR "Failed to create iterator"))
      | Some iter =>
          let! s1 := keep_reader id s in
          let '(itrs, i) := new_resource {| s_Iterator := Some (iter, id); m_ReaderRef := Some id |} (s_itrs s1) in
          Ok (with_itrs s1 itrs, Reply (Ttuple [ATOM_OK; Tres RSstFileReaderItr i]))
      end) s).

(** The keys of the answer, all of them names of members. *)
Definition property_names : list string :=
  [ "num_entries"; "num_deletions"; "num_merge_operands"; "num_range_deletions"; "data_size"; "index_size";
    "index_partitions"; "top_level_index_size"; "filter_size"; "raw_key_size"; "raw_value_size";
    "num_data_blocks"; "format_version"; "fixed_key_len"; "column_family_id"; "column_family_name";
    "filter_policy_name"; "comparator_name"; "merge_operator_name"; "prefix_extractor_name";
    "property_collectors_names"; "compression_name"; "compression_options"; "creation_time";
    "oldest_key_time"; "file_creation_time"; "slow_compression_estimated_data_size";
    "fast_compression_estimated_data_size"; "external_sst_file_global_seqno_offset" ]%string.

Definition property_term (p : property) : term :=
  match p with PNum n => Tint n | PText b => make_binary_from_string b end.

Definition SstFileReaderGetTableProperties (argv : list term) : action_of :=
  on_reader argv (fun _ o s =>
    Ok (s, Reply match sr_property (object o) with
                 | None => error_tuple_msg ATOM_ERROR "Failed to get table properties"
                 | Some props =>
                     Ttuple [ATOM_OK; Tmap ((fun n => (Tatom n, property_term (props n))) <$> property_names)]
                 end)).

Definition SstFileReaderVerifyChecksum (argv : list term) : action_of :=
  on_reader argv (fun _ o s =>
    let verify := fun read_options s =>
      let status := sr_verify (object o) read_options (s_files s) in
      Ok (s, Reply (if negb (status_ok status) then error_tuple ATOM_ERROR status else ATOM_OK)) in
    match argv !! 1%nat with Some t1 => with_read_opts t1 verify s | None => verify [] s end).

Definition ReleaseSstFileReader (argv : list term) : action_of := fun s =>
  let! _ := elem argv 0 in Ok (s, Reply ATOM_OK).

(** *** Iterators of a reader *)

Definition unbounded : bounds := {| b_upper := None; b_lower := None |}.

Definition asked_move (t : term) (iter : itr) : asked :=
  if is_atom "first" t then AMove MFirst
  else if is_atom "last" t then AMove MLast
  else if is_atom "next" t then if negb (itr_valid iter) then AInvalid else AMove MNext
  else if is_atom "prev" t then if negb (itr_valid iter) then AInvalid else AMove MPrev
  else match enif_get_tuple t with
       | Some [how; k] =>
           match enif_inspect_binary k with
           | None => ABadarg
           | Some key =>
               if is_atom "seek" how then AMove (MSeek key)
               else if is_atom "seek_for_prev" how then AMove (MSeekForPrev key)
               else ABadarg
           end
       | _ => ABadarg
       end.

Definition moved_reply (iter : itr) : term :=
  if negb (status_ok (itr_status iter)) then error_tuple ATOM_ERROR (itr_status iter)
  else if negb (itr_valid iter) then invalid_iterator
  else Ttuple [ATOM_OK; Tbin (itr_key iter); Tbin (itr_value iter)].

Definition SstFileReaderIteratorMove (argv : list term) : action_of := fun s =>
  let! t0 := elem argv 0 in
  match enif_get_resource RSstFileReaderItr t0 with
  | None => Ok (s, Badarg)
  | Some i =>
      match s_itrs s !! i with
      | None => Undef
      | Some o =>
          match s_Iterator (object o) with
          | None => Ok (s, Badarg)
          | Some (iter, r) =>
              let! t1 := elem argv 1 in
              match asked_move t1 iter with
              | ABadarg => Ok (s, Badarg)
              | AInvalid => Ok (s, Reply invalid_iterator)
              | AMove m =>
                  let! _ := use_reader (Some (iter, r)) s in
                  let iter' := itr_move m unbounded iter in
                  let o' := {| s_Iterator := Some (iter', r); m_ReaderRef := m_ReaderRef (object o) |} in
                  Ok (with_itrs s (<[i := set_object o' o]> (s_itrs s)), Reply (moved_reply iter'))
              end
          end
      end
  end.

(** The reference on the reader is given back first, then the iterator is deleted. *)
Definition SstFileReaderIteratorClose (argv : list term) : action_of := fun s =>
  let! t0 := elem argv 0 in
  match enif_get_resource RSstFileReaderItr t0 with
  | None => Ok (s, Reply ATOM_OK)
  | Some i =>
      match s_itrs s !! i with
      | None => Undef
      | Some o =>
          let! s1 := match m_ReaderRef (object o) with Some r => release_reader r s | None => Ok s end in
          let! _ := use_reader (s_Iterator (object o)) s1 in
          let o' := {| s_Iterator := None; m_ReaderRef := None |} in
          Ok (with_itrs s1 (<[i := set_object o' o]> (s_itrs s1)), Reply ATOM_OK)
      end
  end.

End Nifs.
