(* ===== verification/SstSpec.v ===== *)
(** * SST files: what is written is read back

    [SstLaws] states what [rocksdb/sst_file_writer.h] and [rocksdb/sst_file_reader.h]
    document of a writer and a reader with the default comparator.  The theorems show
    that the entries put into a file are those an iterator of a reader of the file
    visits, in key order, and that no option of a column family reaches the writer or
    the reader. *)

From stdpp Require Import base list numbers strings gmap sorting.
From Stdlib Require Import ZArith Lia Sorted.
From S2P Require Import Prelude StdMap Terms RefObjects WriteBatchLib CompactionFilter Options DbLib DbNif DbSpec Iter IterSpec Sst.

(** ** The laws *)

(** The order of [BytewiseComparator]. *)
Abbreviation bytewise := MapDb.lt.

(** The options do not choose another order or a prefix extractor. *)
Definition default_order (o : struct) : Prop := sget "comparator" o = None /\ sget "prefix_extractor" o = None.

(** The key of a point entry. *)
Definition point_key (u : update) : option bytes :=
  match u with
  | UPut k _ | UMerge k _ | UDelete k | USingleDelete k | UPutEntity k _ => Some k
  | UDeleteRange _ _ => None
  end.

(** Files of values and deletions, and the entries a reader shows of them. *)
Definition simple_entry (u : update) : bool := match u with UPut _ _ | UDelete _ => true | _ => false end.

Definition visible (l : list update) : list item :=
  omap (fun u => match u with UPut k v => Some (k, plain v) | _ => None end) l.

(** The key of a new point entry is after those before it. *)
Definition after_all (l : list update) (u : update) : Prop :=
  match point_key u with Some k => Forall (fun j => bytewise j k = true) (omap point_key l) | None => True end.

(** [entries] and [target]: what a writer was given, and its path; [file_of]: the
    entries of a finished file; [table_of]: those of the file of a reader. *)
Class SstLaws `{SL : SstLib} {DL : DbLaws L} {IW : IterLaws} := {
  entries : swriter -> list update;
  target : swriter -> bytes;
  ordered_writer : swriter -> Prop;
  file_of : sst -> bytes -> option (list update);
  table_of : sreader -> list update;
  ordered_reader : sreader -> Prop;
  open_writer_law : forall o p f, default_order o -> let '(w, st) := sw_open o p f in
    status_ok st = true -> ordered_writer w /\ entries w = [] /\ target w = p;
  add_law : forall u w, ordered_writer w -> let '(w', st) := sw_add u w in
    ordered_writer w' /\ target w' = target w /\
    if status_ok st then entries w' = entries w ++ [u] /\ after_all (entries w) u else entries w' = entries w;
  finish_law : forall w f, ordered_writer w -> let '(f', w', st, info) := sw_finish w f in
    status_ok st = true -> file_of f' (target w) = Some (entries w) /\ file_path info = target w;
  open_reader_law : forall o p f l, default_order o -> file_of f p = Some l -> let '(r, st) := sr_open o p f in
    status_ok st = true -> ordered_reader r /\ table_of r = l;
  reader_iterator_law : forall r o i, ordered_reader r -> forallb simple_entry (table_of r) = true ->
    StronglySorted (fun a b => bytewise a b = true) (omap point_key (table_of r)) ->
    sget "snapshot" o = None -> plain_read o = true -> plain_scan o = true ->
    sr_new_iterator r o = Some i ->
    ordered i /\ source_lt i = bytewise /\ source i = visible (table_of r) /\ itr_valid i = false;
}.

Section Spec.
Context `{SW : SstLaws}.
Context (ip ol : Z -> struct).

(** ** Calls *)

Definition write_term (w : nat) (u : update) : ssys -> outcome (ssys * reply) :=
  let h := Tres RSstFileWriter w in
  match u with
  | UPut k v => SstFileWriterPut [h; Tbin k; Tbin v]
  | UMerge k v => SstFileWriterMerge [h; Tbin k; Tbin v]
  | UDelete k | USingleDelete k => SstFileWriterDelete [h; Tbin k]
  | UDeleteRange b e => SstFileWriterDeleteRange [h; Tbin b; Tbin e]
  | UPutEntity k cols => SstFileWriterPutEntity [h; Tbin k; make_list (column_term <$> cols)]
  end.

Fixpoint run_writes (w : nat) (l : list update) (s : ssys) : outcome (ssys * list reply) :=
  match l with
  | [] => Ok (s, [])
  | u :: r =>
      let! (s1, rep) := write_term w u s in
      let! (s2, reps) := run_writes w r s1 in
      Ok (s2, rep :: reps)
  end.

Fixpoint run_sst_moves (i : nat) (ms : list move) (s : ssys) : outcome (ssys * list reply) :=
  match ms with
  | [] => Ok (s, [])
  | m :: r =>
      let! (s1, rep) := SstFileReaderIteratorMove [Tres RSstFileReaderItr i; move_term m] s in
      let! (s2, reps) := run_sst_moves i r s1 in
      Ok (s2, rep :: reps)
  end.

(** ** Lemmas: writing *)

(** The open writer [w]: its entries and its path. *)
Definition writing (s : ssys) (w : nat) (l : list update) (p : bytes) : Prop :=
  exists o, s_writers s !! w = Some o /\ ordered_writer (object o) /\ entries (object o) = l /\ target (object o) = p.

Lemma on_writer_at w rest body s o :
  s_writers s !! w = Some o -> on_writer (Tres RSstFileWriter w :: rest) body s = body w o s.
Proof.
  intros Hw. unfold on_writer. cbn [elem lookup list_lookup obind enif_get_resource].
  rewrite decide_True by done. by rewrite Hw.
Qed.

Lemma sst_write_step w u s l p s1 :
  simple_entry u = true -> writing s w l p -> write_term w u s = Ok (s1, Reply ATOM_OK) ->
  writing s1 w (l ++ [u]) p /\ after_all l u.
Proof.
  intros Hu (o & Ho & Hord & <- & <-) Hrun.
  assert (Hadd : add_entry u w o s = Ok (s1, Reply ATOM_OK)).
  { destruct u; try done; cbn [write_term] in Hrun; unfold SstFileWriterPut, SstFileWriterDelete in Hrun;
      by rewrite (on_writer_at _ _ _ _ o) in Hrun. }
  unfold add_entry in Hadd. pose proof (add_law u (object o) Hord) as Hl.
  destruct (sw_add u (object o)) as [w' st]. destruct Hl as (Hw' & Ht & Hl). injection Hadd as <- Hrep.
  destruct (status_ok st); cbn [negb] in Hrep; [| by apply error_tuple_not_ok in Hrep].
  destruct Hl as [He Ha]. split; [| done]. exists (set_object w' o). unfold put_writer. cbn.
  by rewrite lookup_insert_eq.
Qed.

Lemma sorted_snoc l u :
  StronglySorted (fun a b => bytewise a b = true) (omap point_key l) -> after_all l u ->
  StronglySorted (fun a b => bytewise a b = true) (omap point_key (l ++ [u])).
Proof.
  intros Hs Ha. rewrite omap_app. cbn. unfold after_all in Ha. destruct (point_key u) as [k|]; cbn.
  - apply StronglySorted_app_2; [| done | repeat constructor]. intros a b Hx Hb.
    apply list_elem_of_singleton in Hb as ->. by apply (proj1 (Forall_forall _ _) Ha).
  - by rewrite app_nil_r.
Qed.

Lemma writes_step w p l : forall s l0 s1 rs,
  forallb simple_entry l = true -> writing s w l0 p ->
  StronglySorted (fun a b => bytewise a b = true) (omap point_key l0) ->
  run_writes w l s = Ok (s1, rs) -> Forall (fun r => r = Reply ATOM_OK) rs ->
  writing s1 w (l0 ++ l) p /\ StronglySorted (fun a b => bytewise a b = true) (omap point_key (l0 ++ l)).
Proof.
  induction l as [|u l IH]; intros s l0 s1 rs Hl Hw Hs Hrun Hok; cbn [run_writes] in Hrun.
  - simplify_eq. by rewrite app_nil_r.
  - cbn in Hl. apply andb_true_iff in Hl as [Hu Hl].
    destruct (write_term w u s) as [[s' r]|] eqn:E; [| done]. cbn [obind] in Hrun.
    destruct (run_writes w l s') as [[s2 rs2]|] eqn:E2; [| done]. cbn [obind] in Hrun. simplify_eq.
    apply Forall_cons in Hok as [-> Hok]. destruct (sst_write_step w u s l0 p s' Hu Hw E) as [Hw' Ha].
    destruct (IH s' (l0 ++ [u]) s1 rs2 Hl Hw' (sorted_snoc l0 u Hs Ha) E2 Hok) as [H1 H2].
    by rewrite <- app_assoc in H1, H2.
Qed.

(** The options are those of a database, which choose no order. *)
Lemma sst_options_fold l : forall o, exists o',
  parse_sst_options ip ol l o = Ok o' /\ fold_cells (parse_db_option ip) l o = pok o'.
Proof.
  induction l as [|item l IH]; intros o; [by exists o |]. cbn [parse_sst_options fold_cells].
  destruct (parse_db_total ip item o) as [o1 ->]. unfold pok at 1 2. cbn [obind]. eval_atoms.
  cbn [negb]. apply IH.
Qed.

(** [IncreaseParallelism] chooses none either. *)
Hypothesis ip_order : forall n, default_order (ip n).

Lemma order_sset_all l o : default_order l -> default_order o -> default_order (sset_all l o).
Proof.
  assert (Hf : forall f, sget f l = None -> f ∉ l.*1).
  { intros f. induction l as [|[g x] l IH]; [set_solver |]. cbn [sget]. case_decide; [done |]. set_solver. }
  intros [H1 H2] [H3 H4]. split; by rewrite sget_sset_all by auto.
Qed.

Lemma order_simple a v o o1 :
  simple a = true -> "comparator"%string ∉ action_fields a -> "prefix_extractor"%string ∉ action_fields a ->
  default_order o -> run_action a v o = pok o1 -> default_order o1.
Proof.
  intros Ha H1 H2 [Ho1 Ho2] H. assert (Hf : framed a) by (by destruct a).
  split; by rewrite (run_action_frame a v o o1 ATOM_OK _ Hf H).
Qed.

Lemma order_run_action key a v o o1 :
  (key, a) ∈ db_table ip -> default_order o -> run_action a v o = pok o1 -> default_order o1.
Proof.
  intros Hk Ho H. apply list_elem_of_In in Hk. unfold db_table in Hk. cbn [In] in Hk.
  repeat destruct Hk as [[= <- <-] | Hk]; try done;
    try (revert H; apply order_simple; [reflexivity | apply (bool_decide_unpack _); vm_compute; exact I .. | exact Ho]);
    cbn [run_action] in H;
    unfold parse_env, set_memenv, parse_db_paths, pok in H; repeat case_match; simplify_eq;
    first [exact Ho | exact (order_sset_all _ _ (ip_order _) Ho) | destruct Ho; split; done].
Qed.

Lemma sst_default_order l o : parse_sst_options ip ol l [] = Ok o -> default_order o.
Proof.
  intros Hp. destruct (sst_options_fold l []) as (o' & Ho & Hf). rewrite Hp in Ho. simplify_eq.
  assert (H0 : default_order []) by done. revert H0 Hf. clear Hp. generalize (@nil (string * val)).
  induction l as [|item l IH]; intros o0 H0 Hf; [by injection Hf as <- |]. cbn [fold_cells] in Hf.
  destruct (parse_db_total ip item o0) as [o1 E]. rewrite E in Hf. unfold pok at 1 in Hf. cbn [obind] in Hf.
  apply (IH o1); [| exact Hf]. unfold parse_db_option, parse_table in E.
  destruct (enif_get_tuple item) as [[|key [|v [|]]]|]; try (injection E as <-; done).
  destruct (find_atom key (db_table ip)) as [a|] eqn:Ea; [| injection E as <-; done].
  destruct (find_atom_elem _ _ _ Ea) as [k Hk]. by eapply order_run_action.
Qed.

Lemma opened_writer wopts path s s1 w :
  SstFileWriterOpen ip ol [wopts; path] s = Ok (s1, Reply (Ttuple [ATOM_OK; Tres RSstFileWriter w])) ->
  exists p, get_file_path path = Some p /\ writing s1 w [] p.
Proof.
  unfold SstFileWriterOpen. cbn [elem lookup list_lookup obind]. intros H.
  destruct (parse_sst_options ip ol (list_cells wopts) []) as [o|] eqn:Eo; [| done]. cbn [obind] in H.
  destruct (get_file_path path) as [p|]; [| done]. exists p. split; [done |].
  pose proof (open_writer_law o p (s_files s) (sst_default_order _ _ Eo)) as Hl.
  destruct (sw_open o p (s_files s)) as [wr st]. destruct (status_ok st); cbn [negb] in H.
  - unfold new_resource in H. injection H as <- <-. destruct (Hl eq_refl) as (H1 & H2 & H3).
    eexists. cbn. rewrite lookup_insert_eq. by split.
  - injection H as _ H. unfold error_tuple in H. by destruct (IsIncomplete st).
Qed.

Lemma finished_file s w l p s1 :
  writing s w l p -> SstFileWriterFinish [Tres RSstFileWriter w] s = Ok (s1, Reply ATOM_OK) ->
  file_of (s_files s1) p = Some l.
Proof.
  intros (o & Ho & Hord & <- & <-) H. unfold SstFileWriterFinish in H. rewrite (on_writer_at _ _ _ _ o) in H by done.
  pose proof (finish_law (object o) (s_files s) Hord) as Hl.
  destruct (sw_finish (object o) (s_files s)) as [[[f w'] st] info]. cbn [lookup list_lookup] in H.
  injection H as <- Hr. destruct (status_ok st); [by destruct (Hl eq_refl) | by apply error_tuple_not_ok in Hr].
Qed.

Lemma opened_reader ropts path p l s s1 r :
  get_file_path path = Some p -> file_of (s_files s) p = Some l ->
  SstFileReaderOpen ip ol [ropts; path] s = Ok (s1, Reply (Ttuple [ATOM_OK; Tres RSstFileReader r])) ->
  exists o, s_readers s1 !! r = Some o /\ ordered_reader (object o) /\ table_of (object o) = l.
Proof.
  intros Hp Hf. unfold SstFileReaderOpen. cbn [elem lookup list_lookup obind]. intros H.
  destruct (parse_sst_options ip ol (list_cells ropts) []) as [o|] eqn:Eo; [| done]. cbn [obind] in H.
  rewrite Hp in H. pose proof (open_reader_law o p (s_files s) l (sst_default_order _ _ Eo) Hf) as Hl.
  destruct (sr_open o p (s_files s)) as [rd st]. destruct (status_ok st); cbn [negb] in H.
  - unfold new_resource in H. injection H as <- <-. eexists. cbn. rewrite lookup_insert_eq.
    split; [reflexivity |]. by apply Hl.
  - injection H as _ H. unfold error_tuple in H. by destruct (IsIncomplete st).
Qed.

(** The iterator [i] of a live reader, over [l] at [cur]. *)
Definition scanning (s : ssys) (i : nat) (l : list item) (cur : option item) : Prop :=
  exists o it r, s_itrs s !! i = Some o /\ s_Iterator (object o) = Some (it, r) /\ is_Some (s_readers s !! r) /\
    ordered it /\ source_lt it = bytewise /\ source it = l /\ seen_place it = cur.

Lemma opened_iterator s r o l s1 i :
  s_readers s !! r = Some o -> ordered_reader (object o) -> table_of (object o) = l ->
  forallb simple_entry l = true -> StronglySorted (fun a b => bytewise a b = true) (omap point_key l) ->
  SstFileReaderIterator [Tres RSstFileReader r; Tnil] s =
    Ok (s1, Reply (Ttuple [ATOM_OK; Tres RSstFileReaderItr i])) ->
  scanning s1 i (visible l) None.
Proof.
  intros Hr Hord <- Hs Hsort. unfold SstFileReaderIterator, on_reader, with_read_opts.
  cbn [elem lookup list_lookup obind enif_get_resource]. rewrite decide_True by done. rewrite Hr.
  cbn [fold list_cells fold_cells obind fst snd]. intros H.
  destruct (sr_new_iterator (object o) []) as [it|] eqn:Ei; [| done].
  unfold keep_reader in H. cbn [with_sdb s_readers] in H. rewrite Hr in H. cbn [obind] in H.
  unfold new_resource in H. injection H as <- <-.
  destruct (reader_iterator_law (object o) [] it Hord Hs Hsort eq_refl eq_refl eq_refl Ei) as (H1 & H2 & H3 & H4).
  eexists _, it, r. cbn. rewrite lookup_insert_eq. split_and!; try done.
  - rewrite lookup_insert_eq. by eexists.
  - unfold seen_place. by rewrite H4.
Qed.

(** ** Lemmas: reading *)

(** The answer to a move: the entry reached, the answer for no entry, or the error of
    a failed read. *)
Definition scanned (failed : bool) (e : option item) (r : reply) : Prop :=
  if failed then exists st, status_ok st = false /\ r = Reply (error_tuple ATOM_ERROR st)
  else r = Reply (place_term e).

Lemma moved_reply_place it : ordered it -> status_ok (itr_status it) = true -> moved_reply it = place_term (seen_place it).
Proof.
  intros Ho Hs. rewrite <- entry_reply_place by done. unfold moved_reply, entry_reply.
  rewrite Hs. cbn [negb]. by destruct (itr_valid it).
Qed.

Lemma asked_move_term m it :
  asked_move (move_term m) it = if is_step m && negb (itr_valid it) then AInvalid else AMove m.
Proof.
  destruct m; unfold asked_move; cbn [move_term is_step]; eval_atoms; cbn [enif_get_tuple enif_inspect_binary andb];
    try done; by destruct (itr_valid it).
Qed.

Lemma within_unbounded lt (l : list item) : within lt unbounded l = l.
Proof. unfold within. apply filter_all. by apply Forall_forall. Qed.

Lemma sst_move_step s i l cur m :
  scanning s i l cur ->
  exists s1 (failed : bool) r, let cur' := if failed then None else cursor bytewise m l cur in
    SstFileReaderIteratorMove [Tres RSstFileReaderItr i; move_term m] s = Ok (s1, r) /\
    scanned failed cur' r /\ scanning s1 i l cur'.
Proof.
  intros (o & it & r & Hi & Hit & [ro Hr] & Ho & Hlt & <- & <-).
  unfold SstFileReaderIteratorMove. cbn [elem lookup list_lookup obind enif_get_resource].
  rewrite decide_True by done. rewrite Hi, Hit, asked_move_term.
  destruct (is_step m && negb (itr_valid it)) eqn:Ev.
  - apply andb_true_iff in Ev as [Hm Hv]. apply negb_true_iff in Hv.
    assert (Hn : seen_place it = None) by (unfold seen_place; by rewrite Hv).
    assert (Hc : cursor bytewise m (source it) None = None) by (by destruct m).
    exists s, false, (Reply invalid_iterator). cbv zeta. rewrite Hn, Hc.
    split_and!; [done | done |]. exists o, it, r. by split_and!.
  - assert (Hstep : is_step m = true -> itr_valid it = true).
    { intros Hm. rewrite Hm in Ev. by apply negb_false_iff in Ev. }
    unfold use_reader. rewrite Hr. cbn [obind].
    destruct (move_seen m unbounded it Ho Hstep) as (failed & Hf & Hseen).
    rewrite Hlt, within_unbounded in Hseen.
    destruct (move_frame m unbounded it Ho) as (Ho' & Hsrc & Hlt').
    eexists _, failed, _. cbv zeta. split; [reflexivity |]. split.
    + unfold scanned. destruct failed; symmetry in Hf; [apply negb_true_iff in Hf | apply negb_false_iff in Hf].
      * exists (itr_status (itr_move m unbounded it)). split; [done |]. unfold moved_reply. by rewrite Hf.
      * by rewrite moved_reply_place, Hseen.
    + eexists _, _, r. cbn. rewrite lookup_insert_eq. split_and!; try done; congruence.
Qed.

Lemma sst_moves_visit i l ms : forall s cur,
  scanning s i l cur ->
  exists s1 fails rs, length fails = length ms /\ run_sst_moves i ms s = Ok (s1, rs) /\
    Forall2 (fun fe r => scanned fe.1 fe.2 r) (zip fails (visits bytewise l cur (zip ms fails))) rs.
Proof.
  induction ms as [|m ms IH]; intros s cur Hs; [by exists s, [], [] |].
  destruct (sst_move_step s i l cur m Hs) as (s1 & failed & r & Hmove & Hr & Hs1).
  destruct (IH s1 _ Hs1) as (s2 & fails & rs & Hlen & Hrun & Hall).
  exists s2, (failed :: fails), (r :: rs). split_and!; [cbn; lia | | by constructor].
  cbn [run_sst_moves]. rewrite Hmove. cbn [obind]. by rewrite Hrun.
Qed.

(** ** Theorems *)

(** C28.  A file is opened for writing, values and deletions are added, each with the
    answer ok, the file is finished and opened for reading: the keys were given in
    strictly increasing bytewise order, and an iterator of the reader answers any
    sequence of moves as a cursor over the values that were put, in that order, with
    the error of a read that fails; whatever options were given. *)
Theorem sst_roundtrip wopts ropts path l ms w r i s s1 s2 rs s3 s4 s5 :
  forallb simple_entry l = true ->
  SstFileWriterOpen ip ol [wopts; path] s = Ok (s1, Reply (Ttuple [ATOM_OK; Tres RSstFileWriter w])) ->
  run_writes w l s1 = Ok (s2, rs) -> Forall (fun r => r = Reply ATOM_OK) rs ->
  SstFileWriterFinish [Tres RSstFileWriter w] s2 = Ok (s3, Reply ATOM_OK) ->
  SstFileReaderOpen ip ol [ropts; path] s3 = Ok (s4, Reply (Ttuple [ATOM_OK; Tres RSstFileReader r])) ->
  SstFileReaderIterator [Tres RSstFileReader r; Tnil] s4 =
    Ok (s5, Reply (Ttuple [ATOM_OK; Tres RSstFileReaderItr i])) ->
  StronglySorted (fun a b => bytewise a b = true) (omap point_key l) /\
  exists s6 fails reps, length fails = length ms /\ run_sst_moves i ms s5 = Ok (s6, reps) /\
    Forall2 (fun fe r => scanned fe.1 fe.2 r) (zip fails (visits bytewise (visible l) None (zip ms fails))) reps.
Proof.
  intros Hl Hopen Hw Hok Hfin Hro Hit.
  destruct (opened_writer wopts path s s1 w Hopen) as (p & Hp & Hwr).
  destruct (writes_step w p l s1 [] s2 rs Hl Hwr ltac:(constructor) Hw Hok) as [Hwr2 Hsort]. cbn [app] in *.
  split; [done |]. pose proof (finished_file s2 w l p s3 Hwr2 Hfin) as Hfile.
  destruct (opened_reader ropts path p l s3 s4 r Hp Hfile Hro) as (o & Ho & Hor & Ht).
  apply sst_moves_visit. by eapply opened_iterator.
Qed.

(** No option of a column family reaches the writer or the reader of an SST file:
    [parse_db_option] accepts every item, so [parse_cf_option] is never called, and a
    list of options that are not options of a database gives the default options. *)
Theorem sst_cf_options_ignored l :
  (exists o, parse_sst_options ip ol l [] = Ok o /\ fold_cells (parse_db_option ip) l [] = pok o) /\
  (Forall (fun item => exists k v, item = Ttuple [Tatom k; v] /\ find_atom (Tatom k) (db_table ip) = None) l ->
   parse_sst_options ip ol l [] = Ok []).
Proof.
  split; [apply sst_options_fold |]. intros Hl. destruct (sst_options_fold l []) as (o & -> & Hf).
  enough (fold_cells (parse_db_option ip) l [] = pok []) as H by (rewrite H in Hf; unfold pok in Hf; by simplify_eq).
  clear Hf. induction Hl as [|item l (k & v & -> & Hk) _ IH]; [done |].
  cbn [fold_cells]. unfold parse_db_option at 1, parse_table. cbn [enif_get_tuple]. rewrite Hk. exact IH.
Qed.

End Spec.

(** ** An instance *)

(** Files as lists of entries. *)
Module MapSst.

Record writer := { w_path : bytes; w_entries : list update }.

Section Instance.
Context (merge : bytes -> option bytes -> list bytes -> option bytes) (limit : nat).

#[local] Instance lib : DbLib := MapDb.map_lib merge.
#[local] Instance laws : DbLaws lib := MapDb.map_laws merge.
#[local] Instance itrs : IterLib := MapIter.iter_lib merge limit.
#[local] Instance itr_laws : IterLaws := MapIter.iter_laws merge limit.

Definition in_order (l : list update) (u : update) : bool :=
  match point_key u with
  | Some k => forallb (fun j => MapDb.lt j k) (omap point_key l)
  | None => true
  end.

Definition add (u : update) (w : writer) : writer * Status :=
  if in_order (w_entries w) u
  then ({| w_path := w_path w; w_entries := w_entries w ++ [u] |}, StatusOK)
  else (w, MapDb.refused).

Definition info (w : writer) : SstFileInfo :=
  {| file_path := w_path w; smallest_key := []; largest_key := []; smallest_range_del_key := [];
     largest_range_del_key := []; file_size := 0; num_entries := Z.of_nat (length (w_entries w));
     num_range_del_entries := 0; sequence_number := 0 |}.

Definition open_file (p : bytes) (f : gmap bytes (list update)) : list update * Status :=
  match f !! p with Some l => (l, StatusOK) | None => ([], StatusNotFound) end.

Definition new_iterator (l : list update) : MapIter.mitr :=
  {| MapIter.mi_source := visible l; MapIter.mi_place := None; MapIter.mi_left := limit; MapIter.mi_ok := true |}.

Definition sst_lib : SstLib :=
  @Build_SstLib lib itrs (gmap bytes (list update)) writer (list update)
    (fun _ p _ => ({| w_path := p; w_entries := [] |}, StatusOK)) add
    (fun w f => (<[w_path w := w_entries w]> f, w, StatusOK, info w)) (fun w => Z.of_nat (length (w_entries w)))
    (fun _ p f => open_file p f) (fun l _ => Some (new_iterator l)) (fun _ => None) (fun _ _ _ => StatusOK).

#[local] Existing Instance sst_lib.

Lemma visible_wf l :
  StronglySorted (fun a b => MapDb.lt a b = true) (omap point_key l) -> map_wf (visible l).
Proof.
  unfold map_wf, visible. induction l as [|u l IH]; intros H; [constructor |].
  assert (Hsub : forall k, k ∈ (visible l).*1 -> k ∈ omap point_key l).
  { intros k. rewrite list_elem_of_fmap. intros (e & -> & He). apply list_elem_of_omap in He as (v & Hv & Hp).
    apply list_elem_of_omap. exists v. split; [done |]. destruct v; try done. cbn in *. by simplify_eq. }
  assert (Htail : StronglySorted (fun a b => MapDb.lt a b = true) (omap point_key l)).
  { cbn in H. destruct (point_key u); [by apply StronglySorted_inv in H as [H _] | done]. }
  destruct u; cbn in *; try by apply IH. apply StronglySorted_inv in H as [_ Hall].
  constructor; [by apply IH |]. apply Forall_forall. intros j Hj.
  apply MapIter.lt_spec. apply (proj1 (Forall_forall _ _) Hall). by apply Hsub.
Qed.

Definition sst_laws : @SstLaws lib itrs sst_lib laws itr_laws.
Proof.
  refine (@Build_SstLaws lib itrs sst_lib laws itr_laws w_entries w_path (fun _ => True) (fun (f : gmap bytes (list update)) p => f !! p)
            (fun l => l) (fun _ => True) _ _ _ _ _).
  - done.
  - intros u w _. cbn [sw_add sst_lib]. unfold add. destruct (in_order (w_entries w) u) eqn:E; [| done].
    split; [done |]. split; [done |]. cbn. split; [done |]. unfold after_all. unfold in_order in E.
    destruct (point_key u); [| done]. apply Forall_forall. intros j Hj. apply (proj1 (forallb_forall _ _) E). by apply list_elem_of_In.
  - intros w f _. cbn. split; [apply lookup_insert_eq | done].
  - intros o p f l _ Hf. cbn [sr_open sst_lib]. unfold open_file. by rewrite Hf.
  - intros l o i _ _ Hs _ _ _ [= <-]. split_and!; try done. by apply visible_wf.
Defined.

End Instance.
End MapSst.

(** ** Witnesses *)

Module SstWitness.

Definition no_merge (_ : bytes) (_ : option bytes) (_ : list bytes) : option bytes := None.

(** Nine reads succeed before the disk fails. *)
Definition limit : nat := 9.

#[local] Instance the_lib : DbLib := MapSst.lib no_merge.
#[local] Instance the_laws : DbLaws the_lib := MapSst.laws no_merge.
#[local] Instance the_itrs : IterLib := MapSst.itrs no_merge limit.
#[local] Instance the_itr_laws : IterLaws := MapSst.itr_laws no_merge limit.
#[local] Instance the_sst : SstLib := MapSst.sst_lib no_merge limit.
#[local] Instance the_sst_laws : SstLaws := MapSst.sst_laws no_merge limit.

Definition none (_ : Z) : struct := [].

Definition start : ssys :=
  {| s_db := {| d_heap := ∅; d_store := ({| MapDb.maps := fun _ _ => ∅; MapDb.snaps := ∅ |} : dbs) |};
     s_files := (∅ : gmap bytes (list update)); s_writers := ∅; s_readers := ∅; s_itrs := ∅ |}.

Definition reply_of {A : Type} (r : outcome (ssys * A)) : option A :=
  match r with Ok (_, a) => Some a | Undef => None end.

Definition state_of {A : Type} (r : outcome (ssys * A)) : ssys :=
  match r with Ok (s, _) => s | Undef => start end.

Lemma sst_state_of_ok {A : Type} (r : outcome (ssys * A)) a : reply_of r = Some a -> r = Ok (state_of r, a).
Proof. destruct r as [[s b]|]; [| done]. by intros [= ->]. Qed.

Definition ka : bytes := [Byte.x61].
Definition kb : bytes := [Byte.x62].
Definition kc : bytes := [Byte.x63].

Definition entries_given : list update := [UPut ka kb; UDelete kb; UPut kc ka].
Definition the_path : term := Tbin [Byte.x66].

Definition s1 : ssys := state_of (SstFileWriterOpen none none [Tnil; the_path] start).
Definition s2 : ssys := state_of (run_writes 0 entries_given s1).
Definition s3 : ssys := state_of (SstFileWriterFinish [Tres RSstFileWriter 0] s2).
Definition s4 : ssys := state_of (SstFileReaderOpen none none [Tnil; the_path] s3).
Definition s5 : ssys := state_of (SstFileReaderIterator [Tres RSstFileReader 0; Tnil] s4).

Lemma sst_roundtrip_witness :
  exists s6 fails reps, length fails = 3%nat /\ run_sst_moves 0 [MFirst; MNext; MNext] s5 = Ok (s6, reps) /\
    Forall2 (fun fe r => scanned fe.1 fe.2 r)
      (zip fails (visits bytewise [(ka, plain kb); (kc, plain ka)] None (zip [MFirst; MNext; MNext] fails))) reps.
Proof.
  apply (sst_roundtrip none none (fun _ => conj eq_refl eq_refl) Tnil Tnil the_path entries_given
           [MFirst; MNext; MNext] 0 0 0 start s1 s2
           [Reply ATOM_OK; Reply ATOM_OK; Reply ATOM_OK] s3 s4 s5);
    [reflexivity | apply sst_state_of_ok; vm_compute; reflexivity | apply sst_state_of_ok; vm_compute; reflexivity
    | repeat (apply Forall_cons; split; [reflexivity |]); apply Forall_nil; exact I
    | apply sst_state_of_ok; vm_compute; reflexivity | apply sst_state_of_ok; vm_compute; reflexivity
    | apply sst_state_of_ok; vm_compute; reflexivity].
Defined.

(** A comparator, a merge operator and a compression. *)
Definition cf_list : list term :=
  [Ttuple [Tatom "comparator"; Tatom "reverse_bytewise_comparator"];
   Ttuple [Tatom "merge_operator"; Tatom "erlang_merge_operator"];
   Ttuple [Tatom "compression"; Tatom "zstd"]].

Lemma sst_cf_options_ignored_witness :
  parse_sst_options none none cf_list [] = Ok [].
Proof.
  apply (sst_cf_options_ignored none none cf_list).
  repeat (apply Forall_cons; split; [eexists _, _; split; [reflexivity | vm_compute; reflexivity] |]).
  apply Forall_nil; exact I.
Defined.

End SstWitness.
