(* ===== verification/SstLife.v ===== *)
(** * SST files: the lifetime of readers and iterators

    The calls of [c_src/sst_file_reader.cc] and [c_src/sst_file_writer.cc] together with
    the runtime that copies and collects the terms of the handles, as a transition
    system.  The references on a reader are compared with the iterators that hold
    one: their difference never decreases.  It follows that an iterator never
    outlives its reader except in a close that gives the last reference back before
    it deletes the iterator, and that a reader whose iterator was collected without a
    close is never destroyed. *)

From stdpp Require Import base list numbers strings gmap.
From Stdlib Require Import ZArith Lia.
From S2P Require Import Prelude StdMap Terms RefObjects WriteBatchLib CompactionFilter Options RefInv RefSystem HandleNif DbLib DbNif DbSafe Iter IterSpec Sst SstSpec.

(** ** Counting *)

Section Count.
Context {A : Type} (P : A -> Prop) `{!forall a, base.Decision (P a)}.

Definition count (m : gmap nat A) : nat := size (filter (fun kv => P kv.2) m).

Definition one (a : A) : nat := if decide (P a) then 1 else 0.

Lemma count_insert_new m i a : m !! i = None -> count (<[i := a]> m) = (one a + count m)%nat.
Proof.
  intros Hi. unfold count, one. case_decide as Hp.
  - rewrite map_filter_insert_True by done. rewrite map_size_insert_None; [done |].
    apply map_lookup_filter_None. by left.
  - rewrite map_filter_insert_False by done. by rewrite delete_id.
Qed.

Lemma count_delete m i a : m !! i = Some a -> count m = (one a + count (delete i m))%nat.
Proof.
  intros Hi. rewrite <- (insert_delete_id m i a) at 1 by done. by rewrite count_insert_new by (apply lookup_delete_eq).
Qed.

Lemma count_replace m i a b : m !! i = Some a -> (count (<[i := b]> m) + one a = one b + count m)%nat.
Proof.
  intros Hi. rewrite (count_delete m i a Hi), <- insert_delete_eq.
  rewrite count_insert_new by (apply lookup_delete_eq). lia.
Qed.

End Count.

(** ** The system *)

(** The functions of the two files. *)
Inductive sst_nif :=
| NWriterOpen | NWriterPut | NWriterPutEntity | NWriterMerge | NWriterDelete | NWriterDeleteRange
| NWriterFinish | NWriterFileSize | NReleaseWriter
| NReaderOpen | NReaderIterator | NReaderProperties | NReaderVerify | NReleaseReader
| NIteratorMove | NIteratorClose.

#[export] Instance sst_nif_eq_dec : EqDecision sst_nif.
Proof. solve_decision. Defined.

Definition sst_arities (n : sst_nif) : list nat :=
  match n with
  | NWriterOpen | NReaderOpen | NReaderIterator | NIteratorMove | NWriterDelete => [2]
  | NWriterPut | NWriterPutEntity | NWriterMerge | NWriterDeleteRange => [3]
  | NWriterFinish | NReaderVerify => [1; 2]
  | NWriterFileSize | NReleaseWriter | NReaderProperties | NReleaseReader | NIteratorClose => [1]
  end%nat.

(** A call, or the runtime copying or collecting a term of a handle. *)
Inductive sst_event :=
| ECall (n : sst_nif) (argv : list term)
| ECopy (k : res_kind) (id : nat)
| ECollect (k : res_kind) (id : nat).

Section System.
Context `{SL : SstLib}.
Context (ip ol : Z -> struct).

Definition run_sst (n : sst_nif) (argv : list term) : ssys -> outcome (ssys * reply) :=
  match n with
  | NWriterOpen => SstFileWriterOpen ip ol argv
  | NWriterPut => SstFileWriterPut argv
  | NWriterPutEntity => SstFileWriterPutEntity argv
  | NWriterMerge => SstFileWriterMerge argv
  | NWriterDelete => SstFileWriterDelete argv
  | NWriterDeleteRange => SstFileWriterDeleteRange argv
  | NWriterFinish => SstFileWriterFinish argv
  | NWriterFileSize => SstFileWriterFileSize argv
  | NReleaseWriter => ReleaseSstFileWriter argv
  | NReaderOpen => SstFileReaderOpen ip ol argv
  | NReaderIterator => SstFileReaderIterator argv
  | NReaderProperties => SstFileReaderGetTableProperties argv
  | NReaderVerify => SstFileReaderVerifyChecksum argv
  | NReleaseReader => ReleaseSstFileReader argv
  | NIteratorMove => SstFileReaderIteratorMove argv
  | NIteratorClose => SstFileReaderIteratorClose argv
  end.

Definition add_term {A : Type} (id : nat) (m : gmap nat (resource A)) : gmap nat (resource A) :=
  alter (fun o => {| terms := S (terms o); keeps := keeps o; object := object o |}) id m.

Definition copy_term (k : res_kind) (id : nat) (s : ssys) : ssys :=
  match k with
  | RSstFileWriter => with_writers s (add_term id (s_writers s))
  | RSstFileReader => with_readers s (add_term id (s_readers s))
  | RSstFileReaderItr => with_itrs s (add_term id (s_itrs s))
  | _ => s
  end.

Definition less_term {A : Type} (o : resource A) : resource A :=
  {| terms := pred (terms o); keeps := keeps o; object := object o |}.

(** The destructors run when the last reference goes. *)
Definition collect_term (k : res_kind) (id : nat) (s : ssys) : outcome ssys :=
  match k with
  | RSstFileWriter =>
      match s_writers s !! id with
      | Some o => Ok (with_writers s (if unused (less_term o) then delete id (s_writers s)
                                      else <[id := less_term o]> (s_writers s)))
      | None => Undef
      end
  | RSstFileReader =>
      match s_readers s !! id with Some o => Ok (put_reader id (less_term o) s) | None => Undef end
  | RSstFileReaderItr =>
      match s_itrs s !! id with
      | Some o => if unused (less_term o) then destroy_itr id (object o) s
                  else Ok (with_itrs s (<[id := less_term o]> (s_itrs s)))
      | None => Undef
      end
  | _ => Ok s
  end.

Definition sst_step (e : sst_event) (s : ssys) : outcome ssys :=
  match e with
  | ECall n argv => let! (s1, _) := run_sst n argv s in Ok s1
  | ECopy k id => Ok (copy_term k id s)
  | ECollect k id => collect_term k id s
  end.

(** A term refers to the object. *)
Definition held (s : ssys) (k : res_kind) (id : nat) : Prop :=
  match k with
  | RSstFileWriter => exists o, s_writers s !! id = Some o /\ (0 < terms o)%nat
  | RSstFileReader => exists o, s_readers s !! id = Some o /\ (0 < terms o)%nat
  | RSstFileReaderItr => exists o, s_itrs s !! id = Some o /\ (0 < terms o)%nat
  | _ => True
  end.

(** The events that can happen: calls with the arguments of the function table and
    terms that exist, whatever else the arguments are. *)
Definition possible (s : ssys) (e : sst_event) : Prop :=
  match e with
  | ECall n argv => length argv ∈ sst_arities n /\
      (forall k id, Tres k id ∈ argv -> held s k id) /\
      Forall (options_valid (d_heap (s_db s))) argv
  | ECopy k id | ECollect k id => held s k id
  end.

Definition empty_ssys (d : dsys) (f : sst) : ssys :=
  {| s_db := d; s_files := f; s_writers := ∅; s_readers := ∅; s_itrs := ∅ |}.

Inductive sst_steps : ssys -> ssys -> Prop :=
| sst_refl s : sst_steps s s
| sst_more s e s1 s2 : possible s e -> sst_step e s = Ok s1 -> sst_steps s1 s2 -> sst_steps s s2.

(** ** The references on a reader *)

(** The iterators that hold a reference on [r]. *)
Definition holders (s : ssys) (r : nat) : nat :=
  count (fun o : resource sst_itr => m_ReaderRef (object o) = Some r) (s_itrs s).

Definition keeps_of (s : ssys) (r : nat) : nat :=
  match s_readers s !! r with Some o => keeps o | None => 0 end.

(** References nothing will give back. *)
Definition lost (s : ssys) (r : nat) : Z := Z.of_nat (keeps_of s r) - Z.of_nat (holders s r).

(** An iterator that is not closed holds its reader. *)
Definition linked (s : ssys) : Prop :=
  forall i o it r, s_itrs s !! i = Some o -> s_Iterator (object o) = Some (it, r) ->
  m_ReaderRef (object o) = Some r.

Definition sound (s : ssys) : Prop := linked s /\ forall r, 0 <= lost s r.

(** The close that destroys the reader of its iterator before the iterator. *)
Definition last_holder (s : ssys) (e : sst_event) : Prop :=
  exists i rest o it r ro, e = ECall NIteratorClose (Tres RSstFileReaderItr i :: rest) /\
    s_itrs s !! i = Some o /\ s_Iterator (object o) = Some (it, r) /\
    s_readers s !! r = Some ro /\ terms ro = 0%nat /\ keeps ro = 1%nat.

(** ** Lemmas *)

(** The heap stays, unclosed iterators hold their readers, no reference is given back
    that was not held. *)
Definition advances (s s' : ssys) : Prop :=
  d_heap (s_db s') = d_heap (s_db s) /\ linked s' /\ forall r, lost s r <= lost s' r.

Lemma advances_quiet s s' :
  linked s -> d_heap (s_db s') = d_heap (s_db s) -> s_readers s' = s_readers s -> s_itrs s' = s_itrs s ->
  advances s s'.
Proof.
  intros Hl Hd Hr Hi. split; [done |]. split.
  - intros i o it r. rewrite Hi. apply Hl.
  - intros r. unfold lost, keeps_of, holders. by rewrite Hr, Hi.
Qed.

Lemma advances_readers s rs :
  linked s -> (forall r, (keeps_of s r <= keeps_of (with_readers s rs) r)%nat) -> advances s (with_readers s rs).
Proof.
  intros Hl Hk. split; [done |]. split; [exact Hl |]. intros r. specialize (Hk r). unfold lost.
  change (holders (with_readers s rs) r) with (holders s r). lia.
Qed.

(** An object of an iterator is replaced by one that holds the same reader. *)
Lemma advances_itr s i o o' :
  linked s -> s_itrs s !! i = Some o -> m_ReaderRef (object o') = m_ReaderRef (object o) ->
  (forall it r, s_Iterator (object o') = Some (it, r) -> exists it', s_Iterator (object o) = Some (it', r)) ->
  advances s (with_itrs s (<[i := o']> (s_itrs s))).
Proof.
  intros Hl Hi Hm Hit. split; [done |]. split.
  - intros j oj it r Hj Hs. cbn in Hj. destruct (decide (i = j)) as [<- | Hne].
    + rewrite lookup_insert_eq in Hj. simplify_eq. rewrite Hm. destruct (Hit it r Hs) as [it' Hs'].
      by eapply Hl.
    + rewrite lookup_insert_ne in Hj by done. by eapply Hl.
  - intros r. unfold lost, holders, keeps_of. cbn [with_itrs s_readers s_itrs].
    pose proof (count_replace (fun o : resource sst_itr => m_ReaderRef (object o) = Some r) _ i o o' Hi) as Hc.
    unfold one in Hc. rewrite Hm in Hc. lia.
Qed.

Lemma advances_destroyed s i o :
  linked s -> s_itrs s !! i = Some o -> advances s (with_itrs s (delete i (s_itrs s))).
Proof.
  intros Hl Hi. split; [done |]. split.
  - intros j oj it r Hj. cbn in Hj. apply lookup_delete_Some in Hj as [_ Hj]. by eapply Hl.
  - intros r. unfold lost, holders, keeps_of. cbn [with_itrs s_readers s_itrs].
    pose proof (count_delete (fun o : resource sst_itr => m_ReaderRef (object o) = Some r) _ i o Hi). lia.
Qed.

Lemma new_resource_fresh {A : Type} (a : A) m m' id :
  new_resource a m = (m', id) -> m !! id = None /\ m' = <[id := {| terms := 1; keeps := 0; object := a |}]> m.
Proof.
  unfold new_resource. intros [= <- <-]. split; [| done]. apply not_elem_of_dom. apply is_fresh.
Qed.

(** Replacing a reader by one with as many references. *)
Lemma keeps_of_put s r o o' :
  s_readers s !! r = Some o -> keeps o' = keeps o -> forall q, keeps_of (put_reader r o' s) q = keeps_of s q.
Proof.
  intros Hr Hk q. unfold keeps_of, put_reader. cbn [with_readers s_readers]. unfold unused.
  destruct (Nat.eqb_spec (terms o' + keeps o') 0) as [Hu | Hu]; destruct (decide (r = q)) as [<- | Hne];
    rewrite ?lookup_delete_eq, ?lookup_insert_eq, ?lookup_delete_ne, ?lookup_insert_ne by done; try done;
    rewrite Hr; lia.
Qed.

Lemma keeps_of_add s r q : keeps_of (with_readers s (add_term r (s_readers s))) q = keeps_of s q.
Proof.
  unfold keeps_of, add_term. cbn [with_readers s_readers]. destruct (decide (r = q)) as [<- | Hne].
  - rewrite lookup_alter_eq. by destruct (s_readers s !! r).
  - by rewrite lookup_alter_ne.
Qed.

Lemma keeps_of_new s a rs id :
  new_resource a (s_readers s) = (rs, id) -> forall q, keeps_of (with_readers s rs) q = keeps_of s q.
Proof.
  intros Hn q. apply new_resource_fresh in Hn as [Hid ->]. unfold keeps_of. cbn [with_readers s_readers].
  destruct (decide (id = q)) as [<- | Hne]; [by rewrite lookup_insert_eq, Hid | by rewrite lookup_insert_ne].
Qed.

(** A new iterator: its reader is kept first. *)
Lemma advances_created s r ro it itrs i :
  linked s -> s_readers s !! r = Some ro ->
  let s1 := with_readers s (<[r := {| terms := terms ro; keeps := S (keeps ro); object := object ro |}]> (s_readers s)) in
  new_resource {| s_Iterator := Some (it, r); m_ReaderRef := Some r |} (s_itrs s1) = (itrs, i) ->
  advances s (with_itrs s1 itrs).
Proof.
  intros Hl Hr s1 Hn. apply new_resource_fresh in Hn as [Hi ->]. split; [done |]. split.
  - intros j oj it' r' Hj Hs. cbn in Hj. destruct (decide (i = j)) as [<- | Hne].
    + rewrite lookup_insert_eq in Hj. simplify_eq. cbn in *. by simplify_eq.
    + rewrite lookup_insert_ne in Hj by done. by eapply Hl.
  - intros q. unfold lost, holders. cbn [with_itrs s_itrs]. rewrite count_insert_new by done.
    change (s_itrs s1) with (s_itrs s). unfold one. cbn [object m_ReaderRef].
    assert (keeps_of (with_itrs s1 (<[i := {| terms := 1; keeps := 0;
              object := {| s_Iterator := Some (it, r); m_ReaderRef := Some r |} |}]> (s_itrs s))) q =
            (if decide (Some r = Some q) then S (keeps_of s q) else keeps_of s q)%nat) as ->.
    { unfold keeps_of, s1. cbn [with_itrs with_readers s_readers]. case_decide as Hq.
      - injection Hq as <-. by rewrite lookup_insert_eq, Hr.
      - rewrite lookup_insert_ne by congruence. done. }
    case_decide; lia.
Qed.

(** A reader that an iterator holds is alive. *)
Lemma holder_alive s i o r :
  sound s -> s_itrs s !! i = Some o -> m_ReaderRef (object o) = Some r ->
  exists ro k, s_readers s !! r = Some ro /\ keeps ro = S k.
Proof.
  intros [_ Hk] Hi Hm. specialize (Hk r). unfold lost, holders in Hk.
  rewrite (count_delete _ _ i o Hi) in Hk. unfold one in Hk. rewrite decide_True in Hk by done.
  unfold keeps_of in Hk. destruct (s_readers s !! r) as [ro|]; [| lia].
  exists ro, (pred (keeps ro)). split; [done | lia].
Qed.

Lemma reader_alive s i o it r :
  sound s -> s_itrs s !! i = Some o -> s_Iterator (object o) = Some (it, r) -> use_reader (Some (it, r)) s = Ok tt.
Proof.
  intros Hs Hi Hit. destruct (holder_alive s i o r Hs Hi) as (ro & k & Hr & _); [by eapply (proj1 Hs) |].
  cbn. by rewrite Hr.
Qed.

(** What closing an iterator that holds [r] leaves. *)
Definition closed_itr (i : nat) (o : resource sst_itr) (s : ssys) : ssys :=
  with_itrs s (<[i := set_object {| s_Iterator := None; m_ReaderRef := None |} o]> (s_itrs s)).

Definition given_back (ro : resource sreader) : resource sreader :=
  {| terms := terms ro; keeps := pred (keeps ro); object := object ro |}.

Lemma keeps_of_given_back s r ro k q :
  s_readers s !! r = Some ro -> keeps ro = S k ->
  (keeps_of (put_reader r (given_back ro) s) q + (if decide (Some r = Some q) then 1 else 0))%nat = keeps_of s q.
Proof.
  intros Hr Hk. unfold keeps_of, put_reader, unused, given_back. cbn [with_readers s_readers terms keeps].
  case_decide as Hq; [injection Hq as <- | assert (r <> q) by congruence];
    (destruct (Nat.eqb_spec (terms ro + pred (keeps ro)) 0) as [Hu | Hu]);
    rewrite ?lookup_delete_eq, ?lookup_insert_eq, ?lookup_delete_ne, ?lookup_insert_ne by done; rewrite ?Hr; cbn [keeps]; lia.
Qed.

Lemma advances_closed s i o r ro k :
  linked s -> s_itrs s !! i = Some o -> m_ReaderRef (object o) = Some r ->
  s_readers s !! r = Some ro -> keeps ro = S k ->
  advances s (closed_itr i o (put_reader r (given_back ro) s)).
Proof.
  intros Hl Hi Hm Hr Hk. split; [done |]. split.
  - intros j oj it r' Hj Hs. cbn in Hj. destruct (decide (i = j)) as [<- | Hne].
    + rewrite lookup_insert_eq in Hj. by simplify_eq.
    + rewrite lookup_insert_ne in Hj by done. by eapply Hl.
  - intros q. unfold lost. pose proof (keeps_of_given_back s r ro k q Hr Hk) as Hq.
    change (keeps_of (closed_itr i o (put_reader r (given_back ro) s)) q)
      with (keeps_of (put_reader r (given_back ro) s) q).
    pose proof (count_replace (fun o : resource sst_itr => m_ReaderRef (object o) = Some q) (s_itrs s) i o
      (set_object {| s_Iterator := None; m_ReaderRef := None |} o) Hi) as Hc.
    unfold one in Hc. cbn [object set_object m_ReaderRef] in Hc. rewrite Hm in Hc.
    rewrite (decide_False (P := None = Some q)) in Hc by done.
    unfold holders, closed_itr. cbn [with_itrs s_itrs put_reader with_readers].
    destruct (decide (Some r = Some q)); lia.
Qed.

Lemma close_step s i rest :
  sound s -> held s RSstFileReaderItr i ->
  (last_holder s (ECall NIteratorClose (Tres RSstFileReaderItr i :: rest)) /\
   SstFileReaderIteratorClose (Tres RSstFileReaderItr i :: rest) s = Undef) \/
  (~ last_holder s (ECall NIteratorClose (Tres RSstFileReaderItr i :: rest)) /\
   exists s', SstFileReaderIteratorClose (Tres RSstFileReaderItr i :: rest) s = Ok (s', Reply ATOM_OK) /\ advances s s').
Proof.
  intros Hs (o & Hi & _). destruct Hs as [Hl Hk] eqn:Es. clear Es.
  unfold SstFileReaderIteratorClose. cbn [elem lookup list_lookup obind enif_get_resource].
  rewrite decide_True by done. rewrite Hi. destruct (m_ReaderRef (object o)) as [r|] eqn:Hm.
  - destruct (holder_alive s i o r Hs Hi Hm) as (ro & k & Hr & Hro).
    assert (release_reader r s = Ok (put_reader r (given_back ro) s)) as ->.
    { unfold release_reader, given_back. rewrite Hr. destruct ro as [t kp a]. cbn in Hro. by subst kp. }
    cbn [obind]. destruct (s_Iterator (object o)) as [[it r']|] eqn:Hit.
    + pose proof (Hl i o it r' Hi Hit) as Hm'. rewrite Hm in Hm'. injection Hm' as <-.
      assert (Hat : s_readers (put_reader r (given_back ro) s) !! r =
                if unused (given_back ro) then None else Some (given_back ro)).
      { unfold put_reader. cbn [with_readers s_readers]. destruct (unused _);
          [apply lookup_delete_eq | apply lookup_insert_eq]. }
      unfold use_reader. rewrite Hat. destruct (unused (given_back ro)) eqn:Hu.
      * left. unfold unused, given_back in Hu. cbn in Hu. apply Nat.eqb_eq in Hu. split.
        { exists i, rest, o, it, r, ro. split_and!; try done; lia. }
        done.
      * right. split.
        { intros (i' & rest' & o' & it' & r' & ro' & He & Hi' & Hit' & Hr' & Ht & Hkp).
          simplify_eq. unfold unused, given_back in Hu. cbn in Hu. rewrite Ht, Hkp in Hu. done. }
        eexists. split; [reflexivity |]. by apply (advances_closed s i o r ro k).
    + right. split.
      { intros (i' & rest' & o' & it' & r' & ro' & He & Hi' & Hit' & _). simplify_eq. }
      cbn [use_reader obind]. eexists. split; [reflexivity |]. by apply (advances_closed s i o r ro k).
  - assert (Hit : s_Iterator (object o) = None).
    { destruct (s_Iterator (object o)) as [[it r]|] eqn:E; [| done]. apply (Hl i o it r Hi) in E. congruence. }
    right. split.
    { intros (i' & rest' & o' & it' & r' & ro' & He & Hi' & Hit' & _). simplify_eq. }
    rewrite Hit. cbn [use_reader obind]. eexists. split; [reflexivity |].
    apply (advances_itr s i o); [done | done | done |]. by intros it r [=].
Qed.

(** ** Calls that leave readers and iterators alone *)

Definition quiet (s s' : ssys) : Prop :=
  d_heap (s_db s') = d_heap (s_db s) /\ s_readers s' = s_readers s /\ s_itrs s' = s_itrs s.

Definition quiet_call (f : ssys -> outcome (ssys * reply)) (s : ssys) : Prop :=
  exists s' r, f s = Ok (s', r) /\ quiet s s'.

Lemma quiet_advances s s' : linked s -> quiet s s' -> advances s s'.
Proof. intros Hl (H1 & H2 & H3). by apply advances_quiet. Qed.

Lemma quiet_reply s r : quiet_call (fun s => Ok (s, r)) s.
Proof. by exists s, r. Qed.

Lemma bytes_quiet argv i t (body : bytes -> ssys -> outcome (ssys * reply)) s :
  argv !! i = Some t -> (forall b, quiet_call (body b) s) -> quiet_call (with_bytes argv i body) s.
Proof.
  intros Ht Hb. unfold quiet_call, with_bytes, elem. rewrite Ht. cbn [obind].
  destruct (enif_inspect_binary t); [apply Hb | apply quiet_reply].
Qed.

Lemma add_quiet u id o s : quiet_call (add_entry u id o) s.
Proof. unfold quiet_call, add_entry. destruct (sw_add u (object o)). by eexists _, _. Qed.

Lemma get_resource_term k t id : enif_get_resource k t = Some id -> t = Tres k id.
Proof. destruct t; try done. cbn. case_decide; intros [=]; by subst. Qed.

Lemma on_writer_quiet t0 rest body s :
  (forall k id, Tres k id ∈ t0 :: rest -> held s k id) ->
  (forall id o, quiet_call (body id o) s) -> quiet_call (on_writer (t0 :: rest) body) s.
Proof.
  intros Hh Hb. unfold quiet_call, on_writer. cbn [elem lookup list_lookup obind].
  destruct (enif_get_resource RSstFileWriter t0) as [id|] eqn:E; [| apply quiet_reply].
  apply get_resource_term in E as ->. destruct (Hh RSstFileWriter id) as (o & -> & _); [by left | apply Hb].
Qed.

Lemma on_reader_cases t0 rest body s :
  (forall k id, Tres k id ∈ t0 :: rest -> held s k id) ->
  on_reader (t0 :: rest) body s = Ok (s, Badarg) \/
  exists id o, s_readers s !! id = Some o /\ on_reader (t0 :: rest) body s = body id o s.
Proof.
  intros Hh. unfold on_reader. cbn [elem lookup list_lookup obind].
  destruct (enif_get_resource RSstFileReader t0) as [id|] eqn:E; [| by left].
  apply get_resource_term in E as ->. destruct (Hh RSstFileReader id) as (o & Ho & _); [by left |].
  right. exists id, o. by rewrite Ho.
Qed.

Lemma read_opts_same t (body : struct -> ssys -> outcome (ssys * reply)) s :
  ready 1 (d_heap (s_db s)) -> options_valid (d_heap (s_db s)) t ->
  exists o, with_read_opts t body s = body o s.
Proof.
  intros Hr Hv. unfold with_read_opts. destruct (fold_read_neutral _ t [] Hr Hv) as (o & r & ->).
  exists o. cbn [obind fst snd]. by destruct s as [[hp st] ? ? ? ?].
Qed.

Definition writer_nif (n : sst_nif) : bool :=
  match n with
  | NWriterOpen | NWriterPut | NWriterPutEntity | NWriterMerge | NWriterDelete | NWriterDeleteRange
  | NWriterFinish | NWriterFileSize | NReleaseWriter | NReleaseReader => true
  | _ => false
  end.

Lemma writer_quiet n argv s :
  writer_nif n = true -> possible s (ECall n argv) -> quiet_call (run_sst n argv) s.
Proof.
  intros Hn (Hl & Hh & _). rewrite list_elem_of_In in Hl. destruct n; try done; cbn in Hl;
    repeat destruct Hl as [Hl | Hl]; try done;
    destruct argv as [|t0 [|t1 [|t2 [|]]]]; try discriminate Hl; cbn [run_sst];
    try (apply on_writer_quiet; [done |]; intros id o;
         repeat (eapply bytes_quiet; [reflexivity |]; intros ?); try apply add_quiet).
  - unfold quiet_call, SstFileWriterOpen. cbn [elem lookup list_lookup obind].
    destruct (sst_options_fold ip ol (list_cells t0) []) as (o & -> & _). cbn [obind].
    destruct (get_file_path t1); [| apply quiet_reply]. destruct (sw_open _ _ _) as [w st].
    destruct (status_ok st); [| apply quiet_reply]. by eexists _, _.
  - unfold quiet_call. cbn [elem lookup list_lookup obind].
    destruct (mapM read_column _); [apply add_quiet | apply quiet_reply].
  - unfold quiet_call. destruct (sw_finish _ _) as [[[f w] st] info]. by eexists _, _.
  - unfold quiet_call. destruct (sw_finish _ _) as [[[f w] st] info]. by eexists _, _.
  - apply quiet_reply.
  - apply quiet_reply.
  - apply quiet_reply.
Qed.

(** ** Every event *)

(** What a call that is not a close does. *)
Definition advancing (f : ssys -> outcome (ssys * reply)) (s : ssys) : Prop :=
  exists s' r, f s = Ok (s', r) /\ advances s s'.

Lemma advancing_quiet f s : linked s -> quiet_call f s -> advancing f s.
Proof. intros Hl (s' & r & Hf & Hq). exists s', r. split; [done | by apply quiet_advances]. Qed.

Lemma answered s (r : reply) : linked s -> exists s' r', Ok (s, r) = Ok (s', r') /\ advances s s'.
Proof. intros Hl. exists s, r. split; [done | by apply advances_quiet]. Qed.

Lemma reader_open_advances argv s :
  linked s -> possible s (ECall NReaderOpen argv) -> advancing (SstFileReaderOpen ip ol argv) s.
Proof.
  intros Hl (Hn & _). apply list_elem_of_singleton in Hn. destruct argv as [|t0 [|t1 [|]]]; try done.
  unfold advancing, SstFileReaderOpen. cbn [elem lookup list_lookup obind].
  destruct (sst_options_fold ip ol (list_cells t0) []) as (o & -> & _). cbn [obind].
  destruct (get_file_path t1); [| by apply answered]. destruct (sr_open _ _ _) as [r st].
  destruct (status_ok st); cbn [negb]; [| by apply answered].
  destruct (new_resource r (s_readers s)) as [rs id] eqn:E. eexists _, _. split; [reflexivity |].
  apply advances_readers; [done |]. intros q. by rewrite (keeps_of_new s r rs id E).
Qed.

Lemma reader_call_advances n argv s :
  n ∈ [NReaderIterator; NReaderProperties; NReaderVerify] ->
  linked s -> ready 1 (d_heap (s_db s)) -> possible s (ECall n argv) -> advancing (run_sst n argv) s.
Proof.
  intros Hn Hl Hr (Hlen & Hh & Hv). rewrite list_elem_of_In in Hlen. rewrite list_elem_of_In in Hn.
  destruct Hn as [<- | [<- | [<- | []]]]; cbn in Hlen; repeat destruct Hlen as [Hlen | Hlen]; try done;
    destruct argv as [|t0 [|t1 [|]]]; try discriminate Hlen; cbn [run_sst];
    unfold advancing, SstFileReaderIterator, SstFileReaderGetTableProperties, SstFileReaderVerifyChecksum;
    (edestruct (on_reader_cases t0) as [E | (id & o & Ho & E)]; [exact Hh | |]); rewrite E; try (by apply answered);
    cbn [elem lookup list_lookup obind].
  all: apply Forall_cons in Hv as [_ Hv]; apply Forall_cons in Hv as [Hv1 _];
    edestruct (read_opts_same t1) as [ro Ero]; [exact Hr | exact Hv1 | rewrite Ero; try (by apply answered)].
  destruct (sr_new_iterator (object o) ro) as [it|]; [| by apply answered].
  unfold keep_reader. rewrite Ho. cbn [obind].
  destruct (new_resource _ _) as [itrs i] eqn:En. eexists _, _. split; [reflexivity |].
  by apply (advances_created s id o it itrs i).
Qed.

Lemma move_advances argv s :
  sound s -> possible s (ECall NIteratorMove argv) -> advancing (SstFileReaderIteratorMove argv) s.
Proof.
  intros Hs (Hlen & Hh & _). apply list_elem_of_singleton in Hlen. destruct argv as [|t0 [|t1 [|]]]; try done.
  assert (Hl : linked s) by apply Hs.
  unfold advancing, SstFileReaderIteratorMove. cbn [elem lookup list_lookup obind].
  destruct (enif_get_resource RSstFileReaderItr t0) as [i|] eqn:E; [| by apply answered].
  apply get_resource_term in E as ->. destruct (Hh RSstFileReaderItr i) as (o & Ho & _); [by left |].
  rewrite Ho. destruct (s_Iterator (object o)) as [[it r]|] eqn:Hit; [| by apply answered].
  destruct (asked_move t1 it); [| by apply answered | by apply answered].
  rewrite (reader_alive s i o it r Hs Ho Hit). cbn [obind]. eexists _, _. split; [reflexivity |].
  apply (advances_itr s i o); [apply Hs | done | done |]. cbn. intros it' r' [= <- <-]. by exists it.
Qed.

Lemma add_term_advances k id s : linked s -> held s k id -> advances s (copy_term k id s).
Proof.
  intros Hl Hh. destruct k; try (by apply advances_quiet); cbn [copy_term].
  - apply advances_readers; [done |]. intros q. by rewrite keeps_of_add.
  - destruct Hh as (o & Ho & _). unfold add_term. rewrite <- (insert_id (s_itrs s) id o) by done.
    rewrite alter_insert_eq.
    apply (advances_itr s id o); [done | done | done |]. cbn. intros it r Hit. by exists it.
Qed.

Lemma collect_advances k id s :
  sound s -> held s k id -> exists s', collect_term k id s = Ok s' /\ advances s s'.
Proof.
  intros Hs Hh. assert (Hl : linked s) by apply Hs.
  destruct k; try (eexists; split; [reflexivity | by apply advances_quiet]); cbn [collect_term];
    destruct Hh as (o & Ho & Ht); rewrite Ho.
  - eexists. split; [reflexivity |]. unfold put_reader. apply advances_readers; [done |].
    intros q. by rewrite <- (keeps_of_put s id o (less_term o) Ho eq_refl q).
  - destruct (unused (less_term o)).
    + unfold destroy_itr. destruct (s_Iterator (object o)) as [[it r]|] eqn:Hit.
      * rewrite (reader_alive s id o it r Hs Ho Hit). cbn [obind]. eexists. split; [reflexivity |].
        by apply (advances_destroyed s id o).
      * cbn [use_reader obind]. eexists. split; [reflexivity |]. by apply (advances_destroyed s id o).
    + eexists. split; [reflexivity |]. apply (advances_itr s id o); [done | done | done |].
      cbn. intros it r Hit. by exists it.
  - eexists. split; [reflexivity |]. by apply advances_quiet.
Qed.

(** An event that can happen is defined, unless it is the close of the last holder. *)
Lemma step_cases s e :
  sound s -> ready 1 (d_heap (s_db s)) -> possible s e ->
  (last_holder s e /\ sst_step e s = Undef) \/
  (~ last_holder s e /\ exists s', sst_step e s = Ok s' /\ advances s s').
Proof.
  intros Hs Hr Hp. assert (Hl : linked s) by apply Hs.
  assert (Hother : forall f n argv, e = ECall n argv -> run_sst n argv = f -> n <> NIteratorClose -> advancing f s ->
    ~ last_holder s e /\ exists s', sst_step e s = Ok s' /\ advances s s').
  { intros f n argv -> <- Hn (s' & r & Hf & Ha). split; [by intros (i & rest & o & it & rr & ro & [= ? ?] & _) |].
    exists s'. cbn [sst_step]. by rewrite Hf. }
  destruct e as [n argv | k id | k id].
  - destruct (decide (n = NIteratorClose)) as [-> | Hn].
    + destruct Hp as (Hlen & Hh & _). apply list_elem_of_singleton in Hlen. destruct argv as [|t0 [|]]; try done.
      cbn [sst_step run_sst]. destruct (enif_get_resource RSstFileReaderItr t0) as [i|] eqn:E.
      * apply get_resource_term in E as ->.
        assert (Hheld : held s RSstFileReaderItr i) by (apply Hh; by left).
        destruct (close_step s i [] Hs Hheld) as [[Hlast Hc] | (Hlast & s' & Hc & Ha)]; rewrite Hc; [by left |].
        right. split; [done |]. by exists s'.
      * right. split; [intros (i & rest & o & it & rr & ro & [= -> <-] & _); cbn in E; by rewrite decide_True in E |].
        exists s. unfold SstFileReaderIteratorClose. cbn [elem lookup list_lookup obind]. rewrite E.
        split; [done | by apply advances_quiet].
    + right. eapply Hother; [reflexivity | reflexivity | done |].
      destruct n; try done; try (apply advancing_quiet; [done |]; by apply writer_quiet);
        try (apply reader_call_advances; try done; rewrite list_elem_of_In; cbn; tauto).
      * by apply reader_open_advances.
      * by apply move_advances.
  - right. split; [by intros (i & rest & o & it & rr & ro & [=] & _) |].
    eexists. split; [reflexivity | by apply add_term_advances].
  - right. split; [by intros (i & rest & o & it & rr & ro & [=] & _) |]. by apply collect_advances.
Qed.

Lemma advances_sound s s' : sound s -> advances s s' -> sound s'.
Proof. intros [_ Hk] (_ & Hl & Hm). split; [done |]. intros r. specialize (Hk r). specialize (Hm r). lia. Qed.

Lemma step_advances s e s1 :
  sound s -> ready 1 (d_heap (s_db s)) -> possible s e -> sst_step e s = Ok s1 -> advances s s1.
Proof.
  intros Hs Hr Hp He. destruct (step_cases s e Hs Hr Hp) as [[_ H] | (_ & s' & H & Ha)]; [congruence |].
  rewrite H in He. by simplify_eq.
Qed.

Lemma steps_advance s s' :
  sst_steps s s' -> sound s -> ready 1 (d_heap (s_db s)) -> sound s' /\ advances s s'.
Proof.
  induction 1 as [s | s e s1 s2 Hp He _ IH]; intros Hs Hr.
  - split; [done |]. by apply advances_quiet; [apply Hs |..].
  - pose proof (step_advances s e s1 Hs Hr Hp He) as Ha. pose proof (advances_sound _ _ Hs Ha) as Hs1.
    destruct Ha as (Hh & _ & Hm). destruct (IH Hs1) as (Hs2 & Hh2 & Hl2 & Hm2); [by rewrite Hh |].
    split; [done |]. split; [congruence |]. split; [done |].
    intros r. specialize (Hm r). specialize (Hm2 r). lia.
Qed.

Lemma empty_sound d f : sound (empty_ssys d f).
Proof. split; [by intros i o it r | done]. Qed.

(** ** Theorems *)

(** C29.  From the start, through any calls with any arguments and any copying and
    collecting of handles: an iterator that is not closed has its reader alive and
    referenced, and every event that can happen is defined, except one, exactly: the
    close of an iterator that is the only thing left to hold its reader, where the
    reader is destroyed before the iterator is deleted. *)
Theorem sst_lifetime d f s e :
  ready 1 (d_heap d) -> sst_steps (empty_ssys d f) s -> possible s e ->
  (forall i o it r, s_itrs s !! i = Some o -> s_Iterator (object o) = Some (it, r) ->
     exists ro, s_readers s !! r = Some ro /\ (0 < keeps ro)%nat) /\
  (sst_step e s = Undef <-> last_holder s e).
Proof.
  intros Hr Hsteps Hp. destruct (steps_advance _ _ Hsteps (empty_sound d f) Hr) as (Hs & Hh & _).
  split.
  - intros i o it r Hi Hit. destruct (holder_alive s i o r Hs Hi) as (ro & k & Hro & Hk);
      [by eapply (proj1 Hs) |]. exists ro. split; [done | lia].
  - destruct (step_cases s e Hs) as [[Hl Hu] | (Hl & s' & Hok & _)]; [by rewrite Hh | done | done |].
    rewrite Hok. by split; [intros [=] |].
Qed.

(** When the last term of an iterator that was not closed is collected, the
    reference it took on its reader is lost: whatever happens afterwards, the reader
    is never destroyed. *)
Theorem sst_reader_leaks d f s i o it r s1 s2 :
  ready 1 (d_heap d) -> sst_steps (empty_ssys d f) s ->
  s_itrs s !! i = Some o -> terms o = 1%nat -> keeps o = 0%nat -> s_Iterator (object o) = Some (it, r) ->
  sst_step (ECollect RSstFileReaderItr i) s = Ok s1 -> sst_steps s1 s2 ->
  s_itrs s1 !! i = None /\ is_Some (s_readers s2 !! r).
Proof.
  intros Hr Hsteps Hi Ht Hk Hit Hc Hsteps2.
  destruct (steps_advance _ _ Hsteps (empty_sound d f) Hr) as (Hs & Hh & _). cbn in Hh.
  assert (Hp : possible s (ECollect RSstFileReaderItr i)) by (exists o; split; [done | lia]).
  pose proof (step_advances s _ s1 Hs ltac:(by rewrite Hh) Hp Hc) as Ha.
  pose proof (advances_sound _ _ Hs Ha) as Hs1. destruct Ha as (Hh1 & _ & _).
  destruct (steps_advance _ _ Hsteps2 Hs1) as (_ & _ & _ & Hm); [by rewrite Hh1, Hh |].
  cbn [sst_step collect_term] in Hc. rewrite Hi in Hc. unfold unused, less_term in Hc.
  cbn [terms keeps] in Hc. rewrite Ht, Hk in Hc. cbn in Hc.
  destruct (holder_alive s i o r Hs Hi) as (ro & k & Hro & Hkr); [by eapply (proj1 Hs) |].
  unfold destroy_itr in Hc. rewrite Hit, (reader_alive s i o it r Hs Hi Hit) in Hc. cbn in Hc. simplify_eq.
  split; [apply lookup_delete_eq |]. specialize (Hm r).
  assert (0 < lost (with_itrs s (delete i (s_itrs s))) r) as Hlost.
  { destruct Hs as [Hl Hpos]. specialize (Hpos r). unfold lost, holders in *.
    rewrite (count_delete _ _ i o Hi) in Hpos. unfold one in Hpos.
    rewrite decide_True in Hpos by (by eapply Hl).
    change (keeps_of (with_itrs s (delete i (s_itrs s))) r) with (keeps_of s r).
    cbn [with_itrs s_itrs]. lia. }
  unfold lost, keeps_of in Hm, Hlost. destruct (s_readers s2 !! r); [by eexists | lia].
Qed.

End System.

(** ** Witnesses *)

Module SstLifeWitness.
Import SstWitness.

#[local] Instance the_lib : DbLib := MapSst.lib no_merge.
#[local] Instance the_itrs : IterLib := MapSst.itrs no_merge 0.
#[local] Instance the_sst : SstLib := MapSst.sst_lib no_merge 0.

(** A file is written and opened, an iterator is made and the reader dropped. *)
Definition history : list sst_event :=
  [ECall NWriterOpen [Tnil; the_path]; ECall NWriterPut [Tres RSstFileWriter 0; Tbin ka; Tbin kb];
   ECall NWriterFinish [Tres RSstFileWriter 0]; ECall NReaderOpen [Tnil; the_path];
   ECall NReaderIterator [Tres RSstFileReader 0; Tnil]; ECollect RSstFileReader 0].

Fixpoint play (l : list sst_event) (s : ssys) : ssys :=
  match l with
  | [] => s
  | e :: r => match sst_step none none e s with Ok s1 => play r s1 | Undef => s end
  end.

Definition begin : dsys := {| d_heap := ∅; d_store := ({| MapDb.maps := fun _ _ => ∅; MapDb.snaps := ∅ |} : dbs) |}.
Definition no_files : sst := (∅ : gmap bytes (list update)).
Definition at_start : ssys := empty_ssys begin no_files.
Definition now : ssys := play history at_start.

Definition has_term {A : Type} (m : gmap nat (resource A)) (id : nat) : bool :=
  match m !! id with Some o => (0 <? terms o)%nat | None => false end.

Definition held_b (s : ssys) (k : res_kind) (id : nat) : bool :=
  match k with
  | RSstFileWriter => has_term (s_writers s) id
  | RSstFileReader => has_term (s_readers s) id
  | RSstFileReaderItr => has_term (s_itrs s) id
  | _ => true
  end.

Definition possible_b (s : ssys) (e : sst_event) : bool :=
  match e with
  | ECall n argv =>
      bool_decide (length argv ∈ sst_arities n) &&
      forallb (fun t => match t with Tres k id => held_b s k id | _ => true end) argv &&
      forallb (fun t => match list_cells t with [] => true | _ => false end) argv
  | ECopy k id | ECollect k id => held_b s k id
  end.

Fixpoint plays (l : list sst_event) (s : ssys) : bool :=
  match l with
  | [] => true
  | e :: r => possible_b s e && match sst_step none none e s with Ok s1 => plays r s1 | Undef => false end
  end.

Lemma has_term_ok {A : Type} (m : gmap nat (resource A)) id :
  has_term m id = true -> exists o, m !! id = Some o /\ (0 < terms o)%nat.
Proof.
  unfold has_term. destruct (m !! id) as [o|]; [| done]. intros H. exists o. split; [done |]. by apply Nat.ltb_lt.
Qed.

Lemma held_ok s k id : held_b s k id = true -> held s k id.
Proof. destruct k; try done; apply has_term_ok. Qed.

Lemma possible_ok s e : possible_b s e = true -> possible s e.
Proof.
  destruct e as [n argv | k id | k id]; [| apply held_ok | apply held_ok].
  cbn. rewrite !andb_true_iff, bool_decide_eq_true. intros [[Hl Hh] Hv]. split; [done |]. split.
  - intros k id Hin. apply held_ok. apply (proj1 (forallb_forall _ _) Hh (Tres k id)). by apply list_elem_of_In.
  - apply Forall_forall. intros t Ht. unfold options_valid. pose proof (proj1 (forallb_forall _ _) Hv t) as H.
    cbv beta in H. destruct (list_cells t); [constructor |]. discriminate H. by apply list_elem_of_In.
Qed.

Lemma plays_ok l : forall s, plays l s = true -> sst_steps none none s (play l s).
Proof.
  induction l as [|e l IH]; intros s H; [constructor |]. cbn [plays play] in *.
  apply andb_true_iff in H as [Hp H]. destruct (sst_step none none e s) as [s1|] eqn:E; [| done].
  eapply sst_more; [by apply possible_ok | exact E | by apply IH].
Qed.

Lemma reached_now : sst_steps none none at_start now.
Proof. apply plays_ok. vm_compute. reflexivity. Qed.

Lemma empty_ready : ready 1 (d_heap begin).
Proof. intros id o H. change ((∅ : heap) !! id = Some o) in H. by rewrite lookup_empty in H. Qed.

Definition undefined {A : Type} (r : outcome A) : bool := match r with Undef => true | Ok _ => false end.

Lemma undefined_ok {A : Type} (r : outcome A) : undefined r = true -> r = Undef.
Proof. by destruct r. Qed.

Definition closing : sst_event := ECall NIteratorClose [Tres RSstFileReaderItr 0].

Lemma sst_lifetime_witness :
  sst_step none none closing now = Undef /\ last_holder now closing.
Proof.
  assert (H : sst_step none none closing now = Undef) by (apply undefined_ok; vm_compute; reflexivity).
  split; [exact H |].
  apply (sst_lifetime none none begin no_files now closing empty_ready reached_now);
    [apply possible_ok; vm_compute; reflexivity | exact H].
Defined.

(** What an iterator holds: its terms, its references and its reader. *)
Definition facts (s : ssys) : option (nat * nat * option nat) :=
  (fun o => (terms o, keeps o, snd <$> s_Iterator (object o))) <$> s_itrs s !! 0%nat.

Lemma facts_ok s t k r :
  facts s = Some (t, k, Some r) ->
  exists o it, s_itrs s !! 0%nat = Some o /\ terms o = t /\ keeps o = k /\ s_Iterator (object o) = Some (it, r).
Proof.
  unfold facts. destruct (s_itrs s !! 0%nat) as [o|]; [| done]. cbn. intros [= <- <- H].
  destruct (s_Iterator (object o)) as [[it r']|] eqn:E; [| done]. cbn in H. simplify_eq. by exists o, it.
Qed.

(** The iterator is collected instead: it is gone and the reader stays. *)
Lemma sst_reader_leaks_witness :
  exists s1 s2, sst_step none none (ECollect RSstFileReaderItr 0) now = Ok s1 /\
    sst_steps none none s1 s2 /\ s_itrs s1 !! 0%nat = None /\ is_Some (s_readers s2 !! 0%nat).
Proof.
  destruct (facts_ok now 1 0 0 ltac:(vm_compute; reflexivity)) as (o & it & Ho & Ht & Hk & Hit).
  destruct (sst_step none none (ECollect RSstFileReaderItr 0) now) as [s1|] eqn:E.
  - exists s1, s1. split; [reflexivity |]. split; [apply sst_refl |].
    apply (sst_reader_leaks none none begin no_files now 0 o it 0 s1 s1 empty_ready reached_now Ho Ht Hk Hit E).
    apply sst_refl.
  - assert (Hd : undefined (sst_step none none (ECollect RSstFileReaderItr 0) now) = false)
      by (vm_compute; reflexivity).
    rewrite E in Hd. discriminate Hd.
Defined.

End SstLifeWitness.
