(* ===== verification/Ingest.v ===== *)
(** * Ingesting an SST file

    [sst_file_writer_*] and [ingest_external_file] are how a database is loaded in bulk:
    the file is written outside of the database, and its entries then become those of a
    column family.  [IngestLaws] states what [rocksdb/db.h] and [rocksdb/options.h]
    document of [DB::IngestExternalFile] with one file; the theorem composes the writer
    of [Sst], [IngestExternalFile] and the reads of [DbNif]. *)

From stdpp Require Import base list numbers strings gmap sorting.
From Stdlib Require Import ZArith Lia Sorted.
From S2P Require Import Prelude StdMap Terms RefObjects RefInv RefSystem WriteBatchLib CompactionFilter Options DbLib DbNif DbSpec Iter IterSpec Sst SstSpec.

(** ** The laws *)

(** The entries of a file over the contents of a column family: a value replaces what
    the key had, merge operands included, and a deletion removes it. *)
Definition ingest_entry (m : gmap bytes entry) (u : update) : gmap bytes entry :=
  match u with
  | UPut k v => <[k := plain_entry (plain v)]> m
  | UDelete k => delete k m
  | _ => m
  end.

Definition merged (l : list update) (m : gmap bytes entry) : gmap bytes entry := fold_left ingest_entry l m.

(** [ingest_behind]: the file goes under what is there.  Without
    [snapshot_consistency] its keys may appear in the snapshots taken before. *)
Definition over_existing (o : struct) : bool :=
  match sget "ingest_behind" o with Some (VBool true) => false | _ => true end.

Definition snapshot_consistent (o : struct) : bool :=
  match sget "snapshot_consistency" o with Some (VBool false) => false | _ => true end.

(** [DB::IngestExternalFile], given the files. *)
Class IngestLib `{SL : SstLib} := {
  ingest_files : sst -> dbs -> nat -> cfh -> list bytes -> struct -> dbs * Status;
}.

Class IngestLaws `{SW : SstLaws} {IG : IngestLib} := {
  ingest_frame : forall fs s d c ps o d', let s' := (ingest_files fs s d c ps o).1 in
    family s' d' = family s d' /\ (snapshot_consistent o = true -> snap s' = snap s);
  ingest_view : forall fs s d c f p l o,
    family s d c = Some f -> key_lt d f = bytewise -> file_of fs p = Some l ->
    forallb simple_entry l = true -> StronglySorted (fun a b => bytewise a b = true) (omap point_key l) ->
    over_existing o = true -> status_ok (ingest_files fs s d c [p] o).2 = true ->
    let s' := (ingest_files fs s d c [p] o).1 in
    view s' d f = merged l (view s d f) /\
    (forall d' f', (d', f') <> (d, f) -> view s' d' f' = view s d' f');
}.

Section Spec.
Context `{IW : IngestLaws}.
Context (ip ol : Z -> struct).

(** ** The call *)

(** [ingest_external_file(Db, Files, Opts)] and [ingest_external_file(Db, Cf, Files, Opts)]. *)
Definition ingest_args (d : nat) (cf : option nat) (p : bytes) (opts : term) : list term :=
  Tres RDb d :: cf_args cf ++ [make_list [Tbin p]; opts].

(** The options read from the last argument: every item is accepted. *)
Definition ingest_options (opts : term) : struct :=
  match fold parse_ingest_external_file_option opts [] with Ok (o, _) => o | Undef => [] end.

(** What a get answers after the file [l] was ingested over [m]: the value the file
    puts, not_found for a key it deletes, and what [m] says for any other key; or the
    error of a read that fails. *)
Definition ingested (merge : bytes -> option bytes -> list bytes -> option bytes) (l : list update)
    (m : gmap bytes entry) (k : bytes) (t : term) : Prop :=
  (forall v, UPut k v ∈ l -> t = Ttuple [ATOM_OK; Tbin v] \/ read_error t) /\
  (UDelete k ∈ l -> t = ATOM_NOT_FOUND \/ read_error t) /\
  (k ∉ omap point_key l -> get_says merge m k t).

(** ** Lemmas *)

Lemma fold_ingest_options opts : exists r, fold parse_ingest_external_file_option opts [] = Ok (ingest_options opts, r).
Proof.
  unfold ingest_options. pose proof (fold_cells_defined parse_ingest_external_file_option (list_cells opts) []) as H.
  unfold fold. destruct (fold_cells _ _ _) as [[o r]|]; [by exists r |]. exfalso. apply H; [| done].
  apply table_defined. unfold ingest_table. simple_actions.
Qed.

Lemma ingest_step fs d cf p opts (s : dsys) :
  usable (d_heap s) KDb d = true ->
  match cf with Some c => usable (d_heap s) KColumnFamily c | None => true end = true ->
  let '(st, status) := ingest_files fs (d_store s) d (handle_of cf) [p] (ingest_options opts) in
  IngestExternalFile (ingest_files fs) (ingest_args d cf p opts) s =
    Ok ({| d_heap := d_heap s; d_store := st |}, Reply (status_term status)).
Proof.
  intros Hd Hc. destruct (fold_ingest_options opts) as [r Ho].
  destruct (ingest_files _ _ _ _ _ _) as [st status] eqn:E. unfold IngestExternalFile, ingest_args.
  apply on_db_ok; [done |]. intros h1 Hk. cbv zeta.
  destruct cf as [cf|]; cbn [cf_args app length Nat.eqb];
    first [refine (on_family_ok (Some cf) _ _ _ (set_heap s h1) st (Reply (status_term status)) _ _)
          | refine (on_family_ok None _ _ _ (set_heap s h1) st (Reply (status_term status)) _ _)];
    try done; try (by apply Hk); intros h2 _;
    cbn [elem lookup list_lookup obind make_list foldr enif_get_list_length list_cells mapM read_path enif_inspect_binary];
    cbn; rewrite Ho; cbn [obind handle_of use_cf d_store set_heap] in *; by rewrite E.
Qed.

Lemma merged_other l : forall m k, k ∉ omap point_key l -> merged l m !! k = m !! k.
Proof.
  unfold merged. induction l as [|u l IH]; intros m k Hk; [done |]. cbn [fold_left].
  destruct u as [j v|j v|j|j|b e|j c]; cbn in Hk |- *; rewrite ?not_elem_of_cons in Hk;
    (rewrite IH by naive_solver); try done.
  - by rewrite lookup_insert_ne by naive_solver.
  - by rewrite lookup_delete_ne by naive_solver.
Qed.

Lemma bytewise_irrefl k : bytewise k k <> true.
Proof. unfold MapDb.lt. by rewrite (proj2 (bytes_cmp_eq k k) eq_refl). Qed.

(** Every key of a sorted file is there once. *)
Lemma sorted_key_once u l k :
  StronglySorted (fun a b => bytewise a b = true) (omap point_key (u :: l)) -> point_key u = Some k ->
  k ∉ omap point_key l.
Proof.
  intros Hs Hk Hin. cbn in Hs. rewrite Hk in Hs. apply StronglySorted_inv in Hs as [_ Hall].
  by apply (bytewise_irrefl k), (proj1 (Forall_forall _ _) Hall).
Qed.

Lemma merged_entry l : forall m u k,
  StronglySorted (fun a b => bytewise a b = true) (omap point_key l) -> u ∈ l -> point_key u = Some k ->
  simple_entry u = true -> merged l m !! k = ingest_entry m u !! k.
Proof.
  induction l as [|x l IH]; intros m u k Hs Hin Hk Hu; [by apply not_elem_of_nil in Hin |].
  assert (Htail : StronglySorted (fun a b => bytewise a b = true) (omap point_key l)).
  { cbn in Hs. destruct (point_key x); [by apply StronglySorted_inv in Hs as [Hs _] | done]. }
  apply elem_of_cons in Hin as [<- | Hin]; unfold merged; cbn [fold_left]; fold (merged l (ingest_entry m u)).
  - apply merged_other. by eapply sorted_key_once.
  - fold (merged l (ingest_entry m x)). rewrite (IH _ u k) by done. destruct u; try done; cbn in Hk; simplify_eq; cbn.
    + by rewrite !lookup_insert_eq.
    + by rewrite !lookup_delete_eq.
Qed.

Lemma merged_says merge l m k t :
  StronglySorted (fun a b => bytewise a b = true) (omap point_key l) ->
  get_says merge (merged l m) k t -> ingested merge l m k t.
Proof.
  intros Hs Hsays. split_and!.
  - intros v Hin. pose proof (merged_entry l m _ k Hs Hin eq_refl eq_refl) as Hm. cbn in Hm.
    rewrite lookup_insert_eq in Hm. destruct Hsays as [(e & Hr & ->) | [[Hn _] | He]]; [left | congruence | by right].
    unfold resolved in Hr. rewrite Hm in Hr. cbn in Hr. by simplify_eq.
  - intros Hin. pose proof (merged_entry l m _ k Hs Hin eq_refl eq_refl) as Hm. cbn in Hm.
    rewrite lookup_delete_eq in Hm. destruct Hsays as [(e & Hr & _) | [[_ ->] | He]]; [| by left | by right].
    unfold resolved in Hr. by rewrite Hm in Hr.
  - intros Hk. unfold get_says, resolved in *. by rewrite merged_other in Hsays by done.
Qed.

Lemma get_after (s : dsys) d cf f k :
  call_usable (d_heap s) d (DGet cf k []) = true -> family (d_store s) d (handle_of cf) = Some f ->
  exists t, run_dcall d (DGet cf k []) s = Ok (s, Reply t) /\ get_says (full_merge d f) (view (d_store s) d f) k t.
Proof.
  intros Hu Hf. eexists. rewrite get_step by done. split; [reflexivity |]. apply get_answer_says.
  by eapply get_view.
Qed.

(** ** The theorem *)

Hypothesis ip_order : forall n, default_order (ip n).

(** Bulk loading: a file is opened for writing, values and deletions are added,
    each with the answer ok, the file is finished, and is ingested into a column family
    ordered by bytes, with options that do not ask to ingest behind.  When that answers
    ok, the handles are as they were, the column family holds the entries of the file
    over what it held and no other family has changed, and a get answers the value the
    file puts, not_found for a key it deletes, what was there for any other key, or a
    read error; a snapshot still shows what it did, unless consistency is given up. *)
Theorem ingest_roundtrip wopts p l w s s1 s2 rs s3 d cf f opts d4 :
  forallb simple_entry l = true ->
  SstFileWriterOpen ip ol [wopts; Tbin p] s = Ok (s1, Reply (Ttuple [ATOM_OK; Tres RSstFileWriter w])) ->
  run_writes w l s1 = Ok (s2, rs) -> Forall (fun r => r = Reply ATOM_OK) rs ->
  SstFileWriterFinish [Tres RSstFileWriter w] s2 = Ok (s3, Reply ATOM_OK) ->
  usable (d_heap (s_db s3)) KDb d = true ->
  match cf with Some c => usable (d_heap (s_db s3)) KColumnFamily c | None => true end = true ->
  family (d_store (s_db s3)) d (handle_of cf) = Some f -> key_lt d f = bytewise ->
  over_existing (ingest_options opts) = true ->
  IngestExternalFile (ingest_files (s_files s3)) (ingest_args d cf p opts) (s_db s3) = Ok (d4, Reply ATOM_OK) ->
  let before := d_store (s_db s3) in
  d_heap d4 = d_heap (s_db s3) /\
  view (d_store d4) d f = merged l (view before d f) /\
  (forall d' f', (d', f') <> (d, f) -> view (d_store d4) d' f' = view before d' f') /\
  (snapshot_consistent (ingest_options opts) = true -> snap (d_store d4) = snap before) /\
  (forall k, exists t, run_dcall d (DGet cf k []) d4 = Ok (d4, Reply t) /\
     ingested (full_merge d f) l (view before d f) k t).
Proof.
  intros Hl Hopen Hw Hok Hfin Hd Hc Hf Hlt Hover Hrun.
  destruct (opened_writer ip ol ip_order wopts (Tbin p) s s1 w Hopen) as (p' & [= <-] & Hwr).
  destruct (writes_step w p l s1 [] s2 rs Hl Hwr ltac:(constructor) Hw Hok) as [Hwr2 Hsort]. cbn [app] in *.
  pose proof (finished_file s2 w l p s3 Hwr2 Hfin) as Hfile.
  pose proof (ingest_step (s_files s3) d cf p opts (s_db s3) Hd Hc) as Hstep.
  pose proof (ingest_view _ _ d _ f p l (ingest_options opts) Hf Hlt Hfile Hl Hsort Hover) as Hview.
  pose proof (ingest_frame (s_files s3) (d_store (s_db s3)) d (handle_of cf) [p] (ingest_options opts) d) as [Hfam Hsnap].
  destruct (ingest_files _ _ _ _ _ _) as [st status]. rewrite Hstep in Hrun. injection Hrun as <- Hst.
  cbn [fst snd d_heap d_store] in *. unfold status_term in Hst.
  destruct (status_ok status); [| by apply error_tuple_not_ok in Hst].
  destruct (Hview eq_refl) as [Hv Hother]. split_and!; try done.
  intros k. destruct (get_after {| d_heap := d_heap (s_db s3); d_store := st |} d cf f k) as (t & Hget & Hsays).
  - unfold call_usable. cbn [call_cf call_reads forallb d_heap]. by rewrite Hd, Hc.
  - cbn [d_store]. by rewrite Hfam.
  - exists t. split; [done |]. apply merged_says; [done |]. cbn [d_store] in Hsays. by rewrite <- Hv.
Qed.

End Spec.

(** ** An instance *)

Module MapIngest.
Section Instance.
Context (merge : bytes -> option bytes -> list bytes -> option bytes) (limit : nat).

#[local] Existing Instances MapSst.lib MapSst.laws MapSst.itrs MapSst.itr_laws MapSst.sst_lib MapSst.sst_laws.

Definition run_ingest (fs : gmap bytes (list update)) (s : MapDb.state) (d : nat) (c : cfh) (ps : list bytes) (_ : struct) :
    MapDb.state * Status :=
  match MapDb.fam d c, mapM (fun p => fs !! p) ps with
  | Some f, Some ls => (MapDb.set_map d f (merged (concat ls) (MapDb.maps s d f)) s, StatusOK)
  | _, _ => (s, MapDb.refused)
  end.

Definition ingest_lib : @IngestLib _ _ (MapSst.sst_lib merge limit) :=
  @Build_IngestLib _ _ (MapSst.sst_lib merge limit) run_ingest.

Definition ingest_laws : @IngestLaws _ _ _ _ _ (MapSst.sst_laws merge limit) ingest_lib.
Proof.
  refine (@Build_IngestLaws _ _ _ _ _ (MapSst.sst_laws merge limit) ingest_lib _ _).
  - intros fs s d c ps o d'. cbn. unfold run_ingest. by repeat case_match.
  - intros fs s d c f p l o Hf _ Hp _ _ _. change (MapDb.fam d c = Some f) in Hf.
    change ((fs : gmap bytes (list update)) !! p = Some l) in Hp.
    cbn [ingest_files ingest_lib]. unfold run_ingest. rewrite Hf. cbn [mapM]. rewrite Hp. cbn [mbind option_bind mret option_ret].
    intros _. cbn [fst concat]. rewrite app_nil_r. split; [apply MapDb.set_map_eq | apply MapDb.set_map_ne].
Defined.

End Instance.
End MapIngest.

(** ** Witness *)

Module IngestWitness.

#[local] Existing Instances SstWitness.the_lib SstWitness.the_laws SstWitness.the_itrs SstWitness.the_itr_laws SstWitness.the_sst SstWitness.the_sst_laws.
#[local] Instance the_ingest : IngestLib := MapIngest.ingest_lib SstWitness.no_merge SstWitness.limit.
#[local] Instance the_ingest_laws : IngestLaws := MapIngest.ingest_laws SstWitness.no_merge SstWitness.limit.

Import SstWitness.

(** Database 0 with column family 1, which has the keys [kb] and [kd]. *)
Definition kd : bytes := [Byte.x64].

Definition the_heap : heap :=
  <[1%nat := set_refs 1 (new_obj KColumnFamily (Some 0%nat))]>
    {[0%nat := set_refs 2 (set_list KColumnFamily [1%nat] (new_obj KDb None))]}.

Definition held : gmap bytes entry := <[kb := plain_entry (plain kb)]> {[kd := plain_entry (plain kd)]}.

Definition begin : ssys :=
  with_sdb start {| d_heap := the_heap; d_store := ({| MapDb.maps := fun _ _ => held; MapDb.snaps := ∅ |} : dbs) |}.

Definition t1 : ssys := state_of (SstFileWriterOpen none none [Tnil; the_path] begin).
Definition t2 : ssys := state_of (run_writes 0 entries_given t1).
Definition t3 : ssys := state_of (SstFileWriterFinish [Tres RSstFileWriter 0] t2).
Definition loaded : outcome (dsys * reply) :=
  IngestExternalFile (ingest_files (s_files t3)) (ingest_args 0 (Some 1%nat) [Byte.x66] Tnil) (s_db t3).
Definition d4 : dsys := match loaded with Ok (d, _) => d | Undef => s_db begin end.

Lemma loaded_ok : (match loaded with Ok (_, r) => Some r | Undef => None end) = Some (Reply ATOM_OK) -> loaded = Ok (d4, Reply ATOM_OK).
Proof. unfold d4. destruct loaded as [[d r]|]; [| done]. by intros [= ->]. Qed.

Lemma ingest_roundtrip_witness :
  exists t, run_dcall 0 (DGet (Some 1%nat) ka []) d4 = Ok (d4, Reply t) /\ ingested no_merge entries_given held ka t.
Proof.
  destruct (ingest_roundtrip none none (fun _ => conj eq_refl eq_refl) Tnil [Byte.x66] entries_given 0 begin t1 t2
              [Reply ATOM_OK; Reply ATOM_OK; Reply ATOM_OK] t3 0 (Some 1%nat) 1 Tnil d4) as (_ & _ & _ & _ & H);
    [reflexivity | apply sst_state_of_ok; vm_compute; reflexivity | apply sst_state_of_ok; vm_compute; reflexivity
    | repeat (apply Forall_cons; split; [reflexivity |]); apply Forall_nil; exact I
    | apply sst_state_of_ok; vm_compute; reflexivity | vm_compute; reflexivity | vm_compute; reflexivity
    | reflexivity | reflexivity | reflexivity | apply loaded_ok; vm_compute; reflexivity | exact (H ka)].
Defined.

End IngestWitness.
