(* ===== verification/Shared.v ===== *)
(** * Shared objects of RocksDB

    [c_src/cache.cc], [c_src/rate_limiter.cc], [c_src/sst_file_manager.cc],
    [c_src/write_buffer_manager.cc], [c_src/statistics.cc] and [c_src/env.cc]: handles
    around objects of RocksDB that databases share.

    A handle is a resource of the runtime that wraps a [std::shared_ptr] (a plain
    pointer for an environment).  The wrapper lives in the memory of the resource:
    its destructor is run by the cleanup of the resource type, and by
    [ReleaseStatistics] and [ReleaseRateLimiter] while the handle still exists; using
    or destroying a wrapper after its destructor ran is undefined. *)

From stdpp Require Import base list numbers strings gmap.
From Stdlib Require Import ZArith Lia.
From S2P Require Import Prelude StdMap Terms RefObjects WriteBatchLib CompactionFilter Options DbLib DbNif Iter Sst.

(** ** The library *)

(** [rocksdb::StatsLevel]; its [kExceptTickers] is another name of [kDisableAll]. *)
Inductive StatsLevel :=
| kDisableAll | kExceptHistogramOrTimers | kExceptTimers | kExceptDetailedTimers | kExceptTimeForMutex | kAll.

Definition kExceptTickers : StatsLevel := kDisableAll.

#[export] Instance stats_level_eq_dec : EqDecision StatsLevel.
Proof. solve_decision. Defined.

Inductive priority := HIGH | LOW.

(** [rocksdb::HistogramData]: doubles by their bits. *)
Record HistogramData := {
  median : Z; percentile95 : Z; percentile99 : Z; average : Z; standard_deviation : Z; hist_max : Z;
  hist_count : Z; hist_sum : Z;
}.

(** The setters of a file manager that [SstFileManagerFlag] calls. *)
Inductive sfm_flag :=
| SetMaxAllowedSpaceUsage (n : Z) | SetCompactionBufferSize (n : Z)
| SetDeleteRateBytesPerSecond (n : Z) | SetMaxTrashDBRatio (bits : Z).

(** Tickers and histograms are named as in RocksDB. *)
Class SharedLib := {
  cache : Type;
  NewLRUCache : Z -> cache;
  HyperClockCache : Z -> cache;
  GetUsage : cache -> Z;
  GetPinnedUsage : cache -> Z;
  GetCapacity : cache -> Z;
  HasStrictCapacityLimit : cache -> bool;
  cache_SetCapacity : Z -> cache -> cache;
  cache_SetStrict : bool -> cache -> cache;
  limiter : Type;
  NewGenericRateLimiter : Z -> bool -> limiter;
  renv : Type;
  DefaultEnv : renv;
  NewMemEnv : renv;
  SetBackgroundThreads : Z -> priority -> renv -> renv;
  sfm : Type;
  new_sfm : renv -> Z -> Z -> Z -> sfm * Status;
  sfm_set : sfm_flag -> sfm -> sfm;
  GetTotalSize : sfm -> Z;
  GetDeleteRateBytesPerSecond : sfm -> Z;
  GetMaxTrashDBRatio : sfm -> Z;
  GetTotalTrashSize : sfm -> Z;
  IsMaxAllowedSpaceReached : sfm -> bool;
  IsMaxAllowedSpaceReachedIncludingCompactions : sfm -> bool;
  GetTrackedFiles : sfm -> list (bytes * Z);
  wbm : Type;
  new_wbm : Z -> wbm;
  memory_usage : wbm -> Z;
  mutable_memtable_memory_usage : wbm -> Z;
  buffer_size : wbm -> Z;
  wbm_enabled : wbm -> bool;
  statistics : Type;
  CreateDBStatistics : statistics;
  set_stats_level : StatsLevel -> statistics -> statistics;
  get_stats_level : statistics -> StatsLevel;
  getTickerCount : string -> statistics -> Z;
  histogramData : string -> statistics -> HistogramData;
}.

(** ** State *)

(** An object of RocksDB.  A write buffer manager may hold a cache. *)
Inductive robject `{SharedLib} :=
| OCache (c : cache)
| OLimiter (l : limiter)
| OManager (m : sfm)
| OBuffers (w : wbm) (charged : option nat)
| OStatistics (t : statistics)
| OEnv (e : renv).

(** An object with the pointers that share it. *)
Record shared `{SharedLib} := { use_count : nat; value : robject }.

(** A wrapper: its kind, and its pointer until its destructor has run. *)
Record wrapper := { w_kind : res_kind; w_pointer : option nat }.

(** [r_holds]: the pointers that databases copied from handles through options;
    [r_leaked]: those in the memory of collected handles whose destructor never ran. *)
Record rsys `{SharedLib} := {
  r_handles : gmap nat (resource wrapper);
  r_objects : gmap nat shared;
  r_holds : list nat;
  r_leaked : list nat;
}.

(** [rocksdb::Env::Default()], which is never destroyed. *)
Definition default_env : nat := 0.

Section Nifs.
Context `{RL : SharedLib}.

Abbreviation action_of := (rsys -> outcome (rsys * reply)).

Definition with_handles (s : rsys) (h : gmap nat (resource wrapper)) : rsys :=
  {| r_handles := h; r_objects := r_objects s; r_holds := r_holds s; r_leaked := r_leaked s |}.
Definition with_objects (s : rsys) (o : gmap nat shared) : rsys :=
  {| r_handles := r_handles s; r_objects := o; r_holds := r_holds s; r_leaked := r_leaked s |}.

(** ** Pointers *)

(** [std::make_shared], or [new] for an environment. *)
Definition make_object (v : robject) (s : rsys) : rsys * nat :=
  let p := fresh (dom (r_objects s) : gset nat) in
  (with_objects s (<[p := {| use_count := 1; value := v |}]> (r_objects s)), p).

(** A copy of a shared pointer. *)
Definition copy_pointer (p : nat) (s : rsys) : outcome rsys :=
  match r_objects s !! p with
  | Some o => Ok (with_objects s (<[p := {| use_count := S (use_count o); value := value o |}]> (r_objects s)))
  | None => Undef
  end.

(** A shared pointer goes; the result is the object it destroyed. *)
Definition drop_one (p : nat) (s : rsys) : outcome (rsys * option robject) :=
  match r_objects s !! p with
  | Some {| use_count := S (S n); value := v |} =>
      Ok (with_objects s (<[p := {| use_count := S n; value := v |}]> (r_objects s)), None)
  | Some {| use_count := 1; value := v |} => Ok (with_objects s (delete p (r_objects s)), Some v)
  | _ => Undef
  end.

(** The destructor of a write buffer manager drops its cache. *)
Definition drop_pointer (p : nat) (s : rsys) : outcome rsys :=
  let! (s1, destroyed) := drop_one p s in
  match destroyed with
  | Some (OBuffers _ (Some c)) => let! (s2, _) := drop_one c s1 in Ok s2
  | _ => Ok s1
  end.

(** ** Handles *)

Definition new_handle (k : res_kind) (p : nat) (s : rsys) : rsys * reply :=
  let '(h, id) := new_resource {| w_kind := k; w_pointer := Some p |} (r_handles s) in
  (with_handles s h, Reply (Ttuple [ATOM_OK; Tres k id])).

(** [enif_get_resource] and the wrapper it finds. *)
Definition get_wrapper (k : res_kind) (t : term) (s : rsys) : outcome (option (nat * resource wrapper)) :=
  match enif_get_resource k t with
  | None => Ok None
  | Some id => match r_handles s !! id with Some o => Ok (Some (id, o)) | None => Undef end
  end.

Definition pointer_of (o : resource wrapper) : outcome nat :=
  match w_pointer (object o) with Some p => Ok p | None => Undef end.

(** The object a wrapper points to. *)
Definition object_of (o : resource wrapper) (s : rsys) : outcome (nat * shared) :=
  let! p := pointer_of o in
  match r_objects s !! p with Some v => Ok (p, v) | None => Undef end.

Definition set_value (p : nat) (o : shared) (v : robject) (s : rsys) : rsys :=
  with_objects s (<[p := {| use_count := use_count o; value := v |}]> (r_objects s)).

(** The destructor of the wrapper, which may run once. *)
Definition destroy_wrapper (id : nat) (o : resource wrapper) (s : rsys) : outcome rsys :=
  let! p := pointer_of o in
  let! s1 := drop_pointer p s in
  Ok (with_handles s1 (<[id := set_object {| w_kind := w_kind (object o); w_pointer := None |} o]> (r_handles s1))).

(** [X = Retrieve...(env, argv[0]); if (NULL == X) return badarg;] *)
Definition on_wrapper (k : res_kind) (argv : list term) (body : nat -> resource wrapper -> action_of) : action_of :=
  fun s =>
    let! t0 := elem argv 0 in
    let! w := get_wrapper k t0 s in
    match w with None => Ok (s, Badarg) | Some (id, o) => body id o s end.

(** The release functions answer ok for any other term. *)
Definition releasing (k : res_kind) (argv : list term) (body : nat -> resource wrapper -> rsys -> outcome rsys) :
    action_of := fun s =>
  let! t0 := elem argv 0 in
  let! w := get_wrapper k t0 s in
  match w with
  | None => Ok (s, Reply ATOM_OK)
  | Some (id, o) => let! s1 := body id o s in Ok (s1, Reply ATOM_OK)
  end.

(** [auto c = handle->pointer(); c.reset();]: a copy comes and goes. *)
Definition copy_and_drop (o : resource wrapper) (s : rsys) : outcome rsys :=
  let! p := pointer_of o in
  let! s1 := copy_pointer p s in drop_pointer p s1.

Definition bool_term (b : bool) : term := if b then ATOM_TRUE else ATOM_FALSE.

(** The list of all items: built by prepending. *)
Definition info_list (items : list string) (info : term -> option term) : term :=
  fold_left (fun acc i => Tcons (Ttuple [Tatom i; default Tnil (info (Tatom i))]) acc) items Tnil.

(** One item if a second argument is given, else the list. *)
Definition info_reply (argv : list term) (items : list string) (info : term -> option term) : reply :=
  match argv !! 1%nat with
  | Some item => match info item with Some t => Reply t | None => Badarg end
  | None => Reply (info_list items info)
  end.

(** ** Block caches *)

Definition NewCache (argv : list term) : action_of := fun s =>
  let! t0 := elem argv 0 in
  let! t1 := elem argv 1 in
  match enif_is_atom t0, enif_get_uint64 t1 with
  | true, Some capacity =>
      let make c := let '(s1, p) := make_object (OCache c) s in Ok (new_handle RCache p s1) in
      if is_atom "lru" t0 then make (NewLRUCache capacity)
      else if is_atom "clock" t0 then make (HyperClockCache capacity)
      else Ok (s, Badarg)
  | _, _ => Ok (s, Badarg)
  end.

(** The copy of the pointer is dropped; that of the wrapper stays. *)
Definition ReleaseCache (argv : list term) : action_of :=
  releasing RCache argv (fun _ o => copy_and_drop o).

Definition cache_info_1 (c : cache) (item : term) : option term :=
  if is_atom "usage" item then Some (Tint (GetUsage c))
  else if is_atom "pinned_usage" item then Some (Tint (GetPinnedUsage c))
  else if is_atom "capacity" item then Some (Tint (GetCapacity c))
  else if is_atom "strict_capacity" item then Some (bool_term (HasStrictCapacityLimit c))
  else None.

(** The cache of a wrapper. *)
Definition on_cache (o : resource wrapper) (body : nat -> shared -> cache -> action_of) : action_of := fun s =>
  let! (p, v) := object_of o s in
  match value v with OCache c => body p v c s | _ => Undef end.

Definition CacheInfo (argv : list term) : action_of :=
  on_wrapper RCache argv (fun _ o => on_cache o (fun _ _ c s =>
    Ok (s, info_reply argv ["pinned_usage"; "usage"; "strict_capacity"; "capacity"]%string (cache_info_1 c)))).

Definition SetCapacity (argv : list term) : action_of :=
  on_wrapper RCache argv (fun _ o s =>
    let! t1 := elem argv 1 in
    match enif_get_uint64 t1 with
    | None => Ok (s, Badarg)
    | Some capacity =>
        on_cache o (fun p v c s => Ok (set_value p v (OCache (cache_SetCapacity capacity c)) s, Reply ATOM_OK)) s
    end).

Definition SetStrictCapacityLimit (argv : list term) : action_of :=
  on_wrapper RCache argv (fun _ o => on_cache o (fun p v c s =>
    let! t1 := elem argv 1 in
    Ok (set_value p v (OCache (cache_SetStrict (is_atom "true" t1) c)) s, Reply ATOM_OK))).

(** ** Rate limiters *)

Definition NewRateLimiter (argv : list term) : action_of := fun s =>
  if negb (length argv =? 2)%nat then Ok (s, Badarg)
  else
    let! t0 := elem argv 0 in
    let! t1 := elem argv 1 in
    match enif_get_uint64 t0 with
    | None => Ok (s, Badarg)
    | Some rate =>
        let '(s1, p) := make_object (OLimiter (NewGenericRateLimiter rate (is_atom "true" t1))) s in
        Ok (new_handle RRateLimiter p s1)
    end.

(** [rate_limiter_ptr->~RateLimiter()] *)
Definition ReleaseRateLimiter (argv : list term) : action_of := releasing RRateLimiter argv destroy_wrapper.

(** ** Environments *)

Definition NewEnv (argv : list term) : action_of := fun s =>
  let! t0 := elem argv 0 in
  if is_atom "default" t0 then Ok (new_handle REnv default_env s)
  else if is_atom "memenv" t0 then
    let '(s1, p) := make_object (OEnv NewMemEnv) s in Ok (new_handle REnv p s1)
  else Ok (s, Badarg).

(** Two arguments: the default priority of RocksDB, which is low. *)
Definition SetEnvBackgroundThreads (argv : list term) : action_of :=
  on_wrapper REnv argv (fun _ o s =>
    let! (p, v) := object_of o s in
    let! t1 := elem argv 1 in
    match enif_get_int t1, value v with
    | None, _ => Ok (s, Badarg)
    | Some n, OEnv e =>
        let set pri := Ok (set_value p v (OEnv (SetBackgroundThreads n pri e)) s, Reply ATOM_OK) in
        if (length argv =? 3)%nat then
          let! t2 := elem argv 2 in
          if is_atom "priority_high" t2 then set HIGH
          else if is_atom "priority_low" t2 then set LOW
          else Ok (s, Badarg)
        else set LOW
    | Some _, _ => Undef
    end).

(** Nothing is destroyed. *)
Definition DestroyEnv (argv : list term) : action_of := releasing REnv argv (fun _ _ s => Ok s).

(** ** SST file managers *)

Record sfm_options := { rate_bytes_per_sec : Z; max_trash_db_ratio : Z; bytes_max_delete_chunk : Z }.

(** The double 0.25, and 64 MB. *)
Definition sfm_defaults : sfm_options :=
  {| rate_bytes_per_sec := 0; max_trash_db_ratio := 4598175219545276416; bytes_max_delete_chunk := 64 * 1024 * 1024 |}.

Definition sfm_option (item : term) (o : sfm_options) : option sfm_options :=
  match enif_get_tuple item with
  | Some [k; v] =>
      if is_atom "delete_rate_bytes_per_sec" k then
        (fun n => {| rate_bytes_per_sec := n; max_trash_db_ratio := max_trash_db_ratio o;
                     bytes_max_delete_chunk := bytes_max_delete_chunk o |}) <$> enif_get_uint64 v
      else if is_atom "max_trash_db_ratio" k then
        (fun d => {| rate_bytes_per_sec := rate_bytes_per_sec o; max_trash_db_ratio := d;
                     bytes_max_delete_chunk := bytes_max_delete_chunk o |}) <$> enif_get_double v
      else if is_atom "bytes_max_delete_chunk" k then
        (fun n => {| rate_bytes_per_sec := rate_bytes_per_sec o; max_trash_db_ratio := max_trash_db_ratio o;
                     bytes_max_delete_chunk := n |}) <$> enif_get_uint64 v
      else None
  | _ => None
  end.

Definition sfm_parse (l : list term) : option sfm_options :=
  fold_left (fun acc item => acc ≫= sfm_option item) l (Some sfm_defaults).

Definition NewSstFileManager (argv : list term) : action_of :=
  on_wrapper REnv argv (fun _ o s =>
    let! t1 := elem argv 1 in
    match sfm_parse (list_cells t1) with
    | None => Ok (s, Badarg)
    | Some opts =>
        let! (_, v) := object_of o s in
        match value v with
        | OEnv e =>
            let '(m, status) := new_sfm e (rate_bytes_per_sec opts) (max_trash_db_ratio opts)
                                  (bytes_max_delete_chunk opts) in
            if negb (status_ok status) then Ok (s, Reply (error_tuple ATOM_ERROR status))
            else let '(s1, p) := make_object (OManager m) s in Ok (new_handle RSstFileManager p s1)
        | _ => Undef
        end
    end).

Definition ReleaseSstFileManager (argv : list term) : action_of :=
  releasing RSstFileManager argv (fun _ o => copy_and_drop o).

Definition on_manager (o : resource wrapper) (body : nat -> shared -> sfm -> action_of) : action_of := fun s =>
  let! (p, v) := object_of o s in
  match value v with OManager m => body p v m s | _ => Undef end.

(** The flag and its value, or nothing for badarg. *)
Definition sfm_flag_of (name v : term) : option sfm_flag :=
  if is_atom "max_allowed_space_usage" name then SetMaxAllowedSpaceUsage <$> enif_get_uint64 v
  else if is_atom "compaction_buffer_size" name then SetCompactionBufferSize <$> enif_get_uint64 v
  else if is_atom "delete_rate_bytes_per_sec" name then SetDeleteRateBytesPerSecond <$> enif_get_uint64 v
  else if is_atom "max_trash_db_ratio" name then SetMaxTrashDBRatio <$> enif_get_double v
  else None.

Definition SstFileManagerFlag (argv : list term) : action_of :=
  on_wrapper RSstFileManager argv (fun _ o s =>
    let! t1 := elem argv 1 in
    let! t2 := elem argv 2 in
    match sfm_flag_of t1 t2 with
    | None => Ok (s, Badarg)
    | Some f => on_manager o (fun p v m s => Ok (set_value p v (OManager (sfm_set f m)) s, Reply ATOM_OK)) s
    end).

Definition sst_file_manager_info_1 (m : sfm) (item : term) : option term :=
  if is_atom "total_size" item then Some (Tint (GetTotalSize m))
  else if is_atom "delete_rate_bytes_per_sec" item then Some (Tint (GetDeleteRateBytesPerSecond m))
  else if is_atom "max_trash_db_ratio" item then Some (Tfloat (GetMaxTrashDBRatio m))
  else if is_atom "total_trash_size" item then Some (Tint (GetTotalTrashSize m))
  else if is_atom "is_max_allowed_space_reached" item then Some (bool_term (IsMaxAllowedSpaceReached m))
  else if is_atom "max_allowed_space_reached_including_compactions" item
  then Some (bool_term (IsMaxAllowedSpaceReachedIncludingCompactions m))
  else None.

Definition SstFileManagerInfo (argv : list term) : action_of :=
  on_wrapper RSstFileManager argv (fun _ o => on_manager o (fun _ _ m s =>
    Ok (s, info_reply argv
             ["max_allowed_space_reached_including_compactions"; "is_max_allowed_space_reached";
              "total_trash_size"; "max_trash_db_ratio"; "delete_rate_bytes_per_sec"; "total_size"]%string
             (sst_file_manager_info_1 m)))).

Definition SstFileManagerTrackedFiles (argv : list term) : action_of :=
  on_wrapper RSstFileManager argv (fun _ o => on_manager o (fun _ _ m s =>
    Ok (s, Reply (fold_left (fun acc f => Tcons (Ttuple [Tbin f.1; Tint f.2]) acc) (GetTrackedFiles m) Tnil)))).

(** ** Write buffer managers *)

(** The size is an [int] converted to [size_t]. *)
Definition NewWriteBufferManager (argv : list term) : action_of := fun s =>
  let! t0 := elem argv 0 in
  match enif_get_int t0 with
  | None => Ok (s, Badarg)
  | Some size =>
      let make charged s :=
        let '(s1, p) := make_object (OBuffers (new_wbm (u64 size)) charged) s in
        Ok (new_handle RWriteBufferManager p s1) in
      if (length argv =? 1)%nat then make None s
      else
        let! t1 := elem argv 1 in
        let! w := get_wrapper RCache t1 s in
        match w with
        | None => Ok (s, Badarg)
        | Some (_, o) => let! c := pointer_of o in let! s1 := copy_pointer c s in make (Some c) s1
        end
  end.

Definition ReleaseWriteBufferManager (argv : list term) : action_of :=
  releasing RWriteBufferManager argv (fun _ o => copy_and_drop o).

Definition wbf_info (w : wbm) (item : term) : option term :=
  if is_atom "memory_usage" item then Some (Tint (memory_usage w))
  else if is_atom "mutable_memtable_memory_usage" item then Some (Tint (mutable_memtable_memory_usage w))
  else if is_atom "buffer_size" item then Some (Tint (buffer_size w))
  else if is_atom "enabled" item then Some (bool_term (wbm_enabled w))
  else None.

Definition WriteBufferManagerInfo (argv : list term) : action_of :=
  on_wrapper RWriteBufferManager argv (fun _ o s =>
    let! (_, v) := object_of o s in
    match value v with
    | OBuffers w _ =>
        Ok (s, info_reply argv
                 ["enabled"; "buffer_size"; "mutable_memtable_memory_usage"; "memory_usage"]%string (wbf_info w))
    | _ => Undef
    end).

(** ** Statistics *)

Definition NewStatistics (_ : list term) : action_of := fun s =>
  let '(s1, p) := make_object (OStatistics CreateDBStatistics) s in Ok (new_handle RStatistics p s1).

(** [statistics_ptr->~Statistics()] *)
Definition ReleaseStatistics (argv : list term) : action_of := releasing RStatistics argv destroy_wrapper.

Definition stats_levels : list (string * StatsLevel) :=
  [ ("stats_disable_all", kDisableAll); ("stats_except_tickers", kExceptTickers);
    ("stats_except_histogram_or_timers", kExceptHistogramOrTimers); ("stats_except_timers", kExceptTimers);
    ("stats_except_detailed_timers", kExceptDetailedTimers);
    ("stats_except_time_for_mutex", kExceptTimeForMutex); ("stats_all", kAll) ]%string.

Definition StatsLevelAtomToEnum (atom : term) : option StatsLevel := find_atom atom stats_levels.

(** A chain of comparisons, where [kExceptTickers] comes second. *)
Definition StatsLevelEnumToAtom (l : StatsLevel) : term :=
  if decide (l = kDisableAll) then Tatom "stats_disable_all"
  else if decide (l = kExceptTickers) then Tatom "stats_except_tickers"
  else if decide (l = kExceptHistogramOrTimers) then Tatom "stats_except_histogram_or_timers"
  else if decide (l = kExceptTimers) then Tatom "stats_except_timers"
  else if decide (l = kExceptDetailedTimers) then Tatom "stats_except_detailed_timers"
  else if decide (l = kExceptTimeForMutex) then Tatom "stats_except_time_for_mutex"
  else Tatom "stats_all".

Definition on_statistics (o : resource wrapper) (body : nat -> shared -> statistics -> action_of) : action_of :=
  fun s =>
    let! (p, v) := object_of o s in
    match value v with OStatistics t => body p v t s | _ => Undef end.

(** An unknown level changes nothing and is answered with ok. *)
Definition SetStatsLevel (argv : list term) : action_of :=
  on_wrapper RStatistics argv (fun _ o => on_statistics o (fun p v t s =>
    let! t1 := elem argv 1 in
    match StatsLevelAtomToEnum t1 with
    | Some l => Ok (set_value p v (OStatistics (set_stats_level l t)) s, Reply ATOM_OK)
    | None => Ok (s, Reply ATOM_OK)
    end)).

Definition StatisticsInfo (argv : list term) : action_of :=
  on_wrapper RStatistics argv (fun _ o => on_statistics o (fun _ _ t s =>
    Ok (s, Reply (Tcons (Ttuple [Tatom "stats_level"; StatsLevelEnumToAtom (get_stats_level t)]) Tnil)))).

Definition ticker_table : list (string * string) :=
  [ ("blob_db_num_put", "BLOB_DB_NUM_PUT"); ("blob_db_num_write", "BLOB_DB_NUM_WRITE");
    ("blob_db_num_get", "BLOB_DB_NUM_GET"); ("blob_db_num_multiget", "BLOB_DB_NUM_MULTIGET");
    ("blob_db_num_seek", "BLOB_DB_NUM_SEEK"); ("blob_db_num_next", "BLOB_DB_NUM_NEXT");
    ("blob_db_num_prev", "BLOB_DB_NUM_PREV"); ("blob_db_num_keys_written", "BLOB_DB_NUM_KEYS_WRITTEN");
    ("blob_db_num_keys_read", "BLOB_DB_NUM_KEYS_READ"); ("blob_db_bytes_written", "BLOB_DB_BYTES_WRITTEN");
    ("blob_db_bytes_read", "BLOB_DB_BYTES_READ"); ("blob_db_write_inlined", "BLOB_DB_WRITE_INLINED");
    ("blob_db_write_inlined_ttl", "BLOB_DB_WRITE_INLINED_TTL");
    ("blob_db_write_blob", "BLOB_DB_WRITE_BLOB"); ("blob_db_write_blob_ttl", "BLOB_DB_WRITE_BLOB_TTL");
    ("blob_db_blob_file_bytes_written", "BLOB_DB_BLOB_FILE_BYTES_WRITTEN");
    ("blob_db_blob_file_bytes_read", "BLOB_DB_BLOB_FILE_BYTES_READ");
    ("blob_db_blob_file_synced", "BLOB_DB_BLOB_FILE_SYNCED");
    ("blob_db_blob_index_expired_count", "BLOB_DB_BLOB_INDEX_EXPIRED_COUNT");
    ("blob_db_blob_index_expired_size", "BLOB_DB_BLOB_INDEX_EXPIRED_SIZE");
    ("blob_db_blob_index_evicted_count", "BLOB_DB_BLOB_INDEX_EVICTED_COUNT");
    ("blob_db_blob_index_evicted_size", "BLOB_DB_BLOB_INDEX_EVICTED_SIZE");
    ("blob_db_gc_num_files", "BLOB_DB_GC_NUM_FILES");
    ("blob_db_gc_num_new_files", "BLOB_DB_GC_NUM_NEW_FILES");
    ("blob_db_gc_failures", "BLOB_DB_GC_FAILURES");
    ("blob_db_gc_num_keys_relocated", "BLOB_DB_GC_NUM_KEYS_RELOCATED");
    ("blob_db_gc_bytes_relocated", "BLOB_DB_GC_BYTES_RELOCATED");
    ("blob_db_fifo_num_files_evicted", "BLOB_DB_FIFO_NUM_FILES_EVICTED");
    ("blob_db_fifo_num_keys_evicted", "BLOB_DB_FIFO_NUM_KEYS_EVICTED");
    ("blob_db_fifo_bytes_evicted", "BLOB_DB_FIFO_BYTES_EVICTED");
    ("blob_db_cache_miss", "BLOB_DB_CACHE_MISS"); ("blob_db_cache_hit", "BLOB_DB_CACHE_HIT");
    ("blob_db_cache_add", "BLOB_DB_CACHE_ADD");
    ("blob_db_cache_add_failures", "BLOB_DB_CACHE_ADD_FAILURES");
    ("blob_db_cache_bytes_read", "BLOB_DB_CACHE_BYTES_READ");
    ("blob_db_cache_bytes_write", "BLOB_DB_CACHE_BYTES_WRITE");
    ("compact_read_bytes", "COMPACT_READ_BYTES"); ("compact_write_bytes", "COMPACT_WRITE_BYTES");
    ("flush_write_bytes", "FLUSH_WRITE_BYTES");
    ("compaction_key_drop_newer_entry", "COMPACTION_KEY_DROP_NEWER_ENTRY");
    ("compaction_key_drop_obsolete", "COMPACTION_KEY_DROP_OBSOLETE");
    ("compaction_key_drop_range_del", "COMPACTION_KEY_DROP_RANGE_DEL");
    ("compaction_key_drop_user", "COMPACTION_KEY_DROP_USER");
    ("compaction_cancelled", "COMPACTION_CANCELLED");
    ("number_superversion_acquires", "NUMBER_SUPERVERSION_ACQUIRES");
    ("number_superversion_releases", "NUMBER_SUPERVERSION_RELEASES");
    ("number_keys_written", "NUMBER_KEYS_WRITTEN"); ("number_keys_read", "NUMBER_KEYS_READ");
    ("number_keys_updated", "NUMBER_KEYS_UPDATED"); ("bytes_written", "BYTES_WRITTEN");
    ("bytes_read", "BYTES_READ"); ("iter_bytes_read", "ITER_BYTES_READ");
    ("number_db_seek", "NUMBER_DB_SEEK"); ("number_db_next", "NUMBER_DB_NEXT");
    ("number_db_prev", "NUMBER_DB_PREV"); ("number_db_seek_found", "NUMBER_DB_SEEK_FOUND");
    ("number_db_next_found", "NUMBER_DB_NEXT_FOUND"); ("number_db_prev_found", "NUMBER_DB_PREV_FOUND");
    ("block_cache_miss", "BLOCK_CACHE_MISS"); ("block_cache_hit", "BLOCK_CACHE_HIT");
    ("block_cache_add", "BLOCK_CACHE_ADD"); ("block_cache_add_failures", "BLOCK_CACHE_ADD_FAILURES");
    ("block_cache_index_miss", "BLOCK_CACHE_INDEX_MISS");
    ("block_cache_index_hit", "BLOCK_CACHE_INDEX_HIT");
    ("block_cache_filter_miss", "BLOCK_CACHE_FILTER_MISS");
    ("block_cache_filter_hit", "BLOCK_CACHE_FILTER_HIT");
    ("block_cache_data_miss", "BLOCK_CACHE_DATA_MISS"); ("block_cache_data_hit", "BLOCK_CACHE_DATA_HIT");
    ("block_cache_bytes_read", "BLOCK_CACHE_BYTES_READ");
    ("block_cache_bytes_write", "BLOCK_CACHE_BYTES_WRITE"); ("memtable_hit", "MEMTABLE_HIT");
    ("memtable_miss", "MEMTABLE_MISS"); ("stall_micros", "STALL_MICROS");
    ("write_done_by_self", "WRITE_DONE_BY_SELF"); ("write_done_by_other", "WRITE_DONE_BY_OTHER");
    ("wal_file_synced", "WAL_FILE_SYNCED"); ("txn_prepare_mutex_overhead", "TXN_PREPARE_MUTEX_OVERHEAD");
    ("txn_old_commit_map_mutex_overhead", "TXN_OLD_COMMIT_MAP_MUTEX_OVERHEAD");
    ("txn_duplicate_key_overhead", "TXN_DUPLICATE_KEY_OVERHEAD");
    ("txn_snapshot_mutex_overhead", "TXN_SNAPSHOT_MUTEX_OVERHEAD");
    ("txn_get_try_again", "TXN_GET_TRY_AGAIN") ]%string.

Definition histogram_table : list (string * string) :=
  [ ("blob_db_key_size", "BLOB_DB_KEY_SIZE"); ("blob_db_value_size", "BLOB_DB_VALUE_SIZE");
    ("blob_db_write_micros", "BLOB_DB_WRITE_MICROS"); ("blob_db_get_micros", "BLOB_DB_GET_MICROS");
    ("blob_db_multiget_micros", "BLOB_DB_MULTIGET_MICROS"); ("blob_db_seek_micros", "BLOB_DB_SEEK_MICROS");
    ("blob_db_next_micros", "BLOB_DB_NEXT_MICROS"); ("blob_db_prev_micros", "BLOB_DB_PREV_MICROS");
    ("blob_db_blob_file_write_micros", "BLOB_DB_BLOB_FILE_WRITE_MICROS");
    ("blob_db_blob_file_read_micros", "BLOB_DB_BLOB_FILE_READ_MICROS");
    ("blob_db_blob_file_sync_micros", "BLOB_DB_BLOB_FILE_SYNC_MICROS");
    ("blob_db_compression_micros", "BLOB_DB_COMPRESSION_MICROS");
    ("blob_db_decompression_micros", "BLOB_DB_DECOMPRESSION_MICROS"); ("db_get", "DB_GET");
    ("db_write", "DB_WRITE"); ("db_multiget", "DB_MULTIGET"); ("db_seek", "DB_SEEK");
    ("compaction_time", "COMPACTION_TIME"); ("flush_time", "FLUSH_TIME");
    ("sst_read_micros", "SST_READ_MICROS"); ("sst_write_micros", "SST_WRITE_MICROS");
    ("table_sync_micros", "TABLE_SYNC_MICROS"); ("wal_file_sync_micros", "WAL_FILE_SYNC_MICROS");
    ("bytes_per_read", "BYTES_PER_READ"); ("bytes_per_write", "BYTES_PER_WRITE");
    ("num_op_per_transaction", "NUM_OP_PER_TRANSACTION") ]%string.

Definition TickerAtomToEnum (atom : term) : option string := find_atom atom ticker_table.
Definition HistogramAtomToEnum (atom : term) : option string := find_atom atom histogram_table.

Definition StatisticsTicker (argv : list term) : action_of :=
  on_wrapper RStatistics argv (fun _ o s =>
    let! t1 := elem argv 1 in
    match TickerAtomToEnum t1 with
    | None => Ok (s, Badarg)
    | Some ticker =>
        on_statistics o (fun _ _ t s => Ok (s, Reply (Ttuple [ATOM_OK; Tint (getTickerCount ticker t)]))) s
    end).

Definition histogram_term (d : HistogramData) : term :=
  Tmap [ (Tatom "median", Tfloat (median d)); (Tatom "percentile95", Tfloat (percentile95 d));
         (Tatom "percentile99", Tfloat (percentile99 d)); (Tatom "average", Tfloat (average d));
         (Tatom "standard_deviation", Tfloat (standard_deviation d)); (Tatom "max", Tfloat (hist_max d));
         (Tatom "count", Tint (hist_count d)); (Tatom "sum", Tint (hist_sum d)) ].

Definition StatisticsHistogram (argv : list term) : action_of :=
  on_wrapper RStatistics argv (fun _ o s =>
    let! t1 := elem argv 1 in
    match HistogramAtomToEnum t1 with
    | None => Ok (s, Badarg)
    | Some h =>
        on_statistics o (fun _ _ t s => Ok (s, Reply (Ttuple [ATOM_OK; histogram_term (histogramData h t)]))) s
    end).

End Nifs.
