(* ===== verification/SharedLife.v ===== *)
(** * Shared objects: use counts and lifetime

    The functions of [Shared] together with the runtime that copies and collects
    handles, and databases that copy the pointers of handles given in options, as a
    transition system.  The use count of every object is exactly the number of
    wrappers, databases and write buffer managers that point to it, so an object is
    destroyed when and only when nothing uses it; the only undefined events touch a
    wrapper whose destructor was run by [ReleaseStatistics] or
    [ReleaseRateLimiter]. *)

From stdpp Require Import base list numbers strings gmap.
From Stdlib Require Import ZArith Lia.
From S2P Require Import Prelude StdMap Terms RefObjects WriteBatchLib CompactionFilter Options DbLib DbNif Iter Sst SstLife Shared.

(** ** The system *)

Inductive shared_nif :=
| NNewCache | NReleaseCache | NCacheInfo | NSetCapacity | NSetStrictCapacityLimit
| NNewRateLimiter | NReleaseRateLimiter
| NNewEnv | NSetEnvBackgroundThreads | NDestroyEnv
| NNewSstFileManager | NReleaseSstFileManager | NSstFileManagerFlag | NSstFileManagerInfo | NTrackedFiles
| NNewWriteBufferManager | NReleaseWriteBufferManager | NWriteBufferManagerInfo
| NNewStatistics | NReleaseStatistics | NSetStatsLevel | NStatisticsInfo | NStatisticsTicker
| NStatisticsHistogram.

Definition shared_arities (n : shared_nif) : list nat :=
  match n with
  | NNewStatistics => [0]
  | NReleaseCache | NReleaseRateLimiter | NNewEnv | NDestroyEnv | NReleaseSstFileManager | NTrackedFiles
  | NReleaseWriteBufferManager | NReleaseStatistics | NStatisticsInfo => [1]
  | NNewCache | NSetCapacity | NSetStrictCapacityLimit | NNewRateLimiter | NNewSstFileManager | NSetStatsLevel
  | NStatisticsTicker | NStatisticsHistogram => [2]
  | NSstFileManagerFlag => [3]
  | NCacheInfo | NSstFileManagerInfo | NNewWriteBufferManager | NWriteBufferManagerInfo => [1; 2]
  | NSetEnvBackgroundThreads => [2; 3]
  end%nat.

(** A call, the runtime copying or collecting a term of a handle, or a database
    taking the pointer of a handle from its options or giving one back. *)
Inductive shared_event :=
| RCall (n : shared_nif) (argv : list term)
| RCopy (id : nat)
| RCollect (id : nat)
| RHold (id : nat)
| RUnhold (p : nat).

Section System.
Context `{RL : SharedLib}.

Definition run_shared (n : shared_nif) (argv : list term) : rsys -> outcome (rsys * reply) :=
  match n with
  | NNewCache => NewCache argv
  | NReleaseCache => ReleaseCache argv
  | NCacheInfo => CacheInfo argv
  | NSetCapacity => SetCapacity argv
  | NSetStrictCapacityLimit => SetStrictCapacityLimit argv
  | NNewRateLimiter => NewRateLimiter argv
  | NReleaseRateLimiter => ReleaseRateLimiter argv
  | NNewEnv => NewEnv argv
  | NSetEnvBackgroundThreads => SetEnvBackgroundThreads argv
  | NDestroyEnv => DestroyEnv argv
  | NNewSstFileManager => NewSstFileManager argv
  | NReleaseSstFileManager => ReleaseSstFileManager argv
  | NSstFileManagerFlag => SstFileManagerFlag argv
  | NSstFileManagerInfo => SstFileManagerInfo argv
  | NTrackedFiles => SstFileManagerTrackedFiles argv
  | NNewWriteBufferManager => NewWriteBufferManager argv
  | NReleaseWriteBufferManager => ReleaseWriteBufferManager argv
  | NWriteBufferManagerInfo => WriteBufferManagerInfo argv
  | NNewStatistics => NewStatistics argv
  | NReleaseStatistics => ReleaseStatistics argv
  | NSetStatsLevel => SetStatsLevel argv
  | NStatisticsInfo => StatisticsInfo argv
  | NStatisticsTicker => StatisticsTicker argv
  | NStatisticsHistogram => StatisticsHistogram argv
  end.

(** Whether the cleanup of the resource type runs the destructor. *)
Definition cleaned (k : res_kind) : bool := match k with REnv | RRateLimiter => false | _ => true end.

Definition with_leaked (s : rsys) (l : list nat) : rsys :=
  {| r_handles := r_handles s; r_objects := r_objects s; r_holds := r_holds s; r_leaked := l |}.

(** The shared pointer of a wrapper. *)
Definition shares (w : wrapper) : option nat := if decide (w_kind w = REnv) then None else w_pointer w.

(** The last term goes: the cleanup, then the memory, with the pointer in it if the
    destructor was not run. *)
Definition finish_handle (id : nat) (o : resource wrapper) (s : rsys) : outcome rsys :=
  let! s1 := if cleaned (w_kind (object o)) then destroy_wrapper id o s
             else Ok (with_leaked s (option_list (shares (object o)) ++ r_leaked s)) in
  Ok (with_handles s1 (delete id (r_handles s1))).

Definition collect_handle (id : nat) (s : rsys) : outcome rsys :=
  match r_handles s !! id with
  | None => Undef
  | Some o => if unused (less_term o) then finish_handle id o s
              else Ok (with_handles s (<[id := less_term o]> (r_handles s)))
  end.

Definition with_holds (s : rsys) (l : list nat) : rsys :=
  {| r_handles := r_handles s; r_objects := r_objects s; r_holds := l; r_leaked := r_leaked s |}.

(** [opts.x = handle->x()]: a plain pointer for an environment. *)
Definition hold_pointer (id : nat) (s : rsys) : outcome rsys :=
  match r_handles s !! id with
  | None => Undef
  | Some o =>
      let! p := pointer_of o in
      if decide (w_kind (object o) = REnv) then Ok s
      else let! s1 := copy_pointer p s in Ok (with_holds s1 (p :: r_holds s1))
  end.

Fixpoint remove_one (p : nat) (l : list nat) : list nat :=
  match l with [] => [] | q :: r => if decide (p = q) then r else q :: remove_one p r end.

Definition unhold_pointer (p : nat) (s : rsys) : outcome rsys :=
  drop_pointer p (with_holds s (remove_one p (r_holds s))).

Definition shared_step (e : shared_event) (s : rsys) : outcome rsys :=
  match e with
  | RCall n argv => let! (s1, _) := run_shared n argv s in Ok s1
  | RCopy id => Ok (with_handles s (add_term id (r_handles s)))
  | RCollect id => collect_handle id s
  | RHold id => hold_pointer id s
  | RUnhold p => unhold_pointer p s
  end.

(** A term of that kind refers to the handle. *)
Definition handle_held (s : rsys) (id : nat) : Prop :=
  exists o, r_handles s !! id = Some o /\ (0 < terms o)%nat.

Definition term_held (s : rsys) (t : term) : Prop :=
  match t with
  | Tres k id => exists o, r_handles s !! id = Some o /\ (0 < terms o)%nat /\ w_kind (object o) = k
  | _ => True
  end.

Definition shared_possible (s : rsys) (e : shared_event) : Prop :=
  match e with
  | RCall n argv => length argv ∈ shared_arities n /\ Forall (term_held s) argv
  | RCopy id | RCollect id | RHold id => handle_held s id
  | RUnhold p => p ∈ r_holds s
  end.

(** The event touches a wrapper whose destructor has run. *)
Definition touches_destroyed (s : rsys) (e : shared_event) : Prop :=
  exists id o, r_handles s !! id = Some o /\ w_pointer (object o) = None /\
    match e with
    | RCall _ argv => exists k, Tres k id ∈ argv
    | RCollect i | RHold i => i = id
    | _ => False
    end.

Definition shared_start : rsys :=
  {| r_handles := ∅; r_objects := {[ default_env := {| use_count := 1; value := OEnv DefaultEnv |} ]}; r_holds := []; r_leaked := [] |}.

Inductive shared_steps : rsys -> rsys -> Prop :=
| shared_refl s : shared_steps s s
| shared_more s e s1 s2 : shared_possible s e -> shared_step e s = Ok s1 -> shared_steps s1 s2 -> shared_steps s s2.

(** ** The invariant *)

Definition is_env (v : robject) : bool := match v with OEnv _ => true | _ => false end.
Definition is_cache (v : robject) : bool := match v with OCache _ => true | _ => false end.

Definition fits (k : res_kind) (v : robject) : bool :=
  match k, v with
  | RCache, OCache _ | RRateLimiter, OLimiter _ | RSstFileManager, OManager _
  | RWriteBufferManager, OBuffers _ _ | RStatistics, OStatistics _ | REnv, OEnv _ => true
  | _, _ => false
  end.

(** The cache a write buffer manager holds. *)
Definition charge (o : shared) : option nat := match value o with OBuffers _ c => c | _ => None end.

(** The pointers to [p]. *)
Definition users (s : rsys) (p : nat) : nat :=
  count (fun o : resource wrapper => shares (object o) = Some p) (r_handles s) +
  count_occ Nat.eq_dec (r_holds s) p + count_occ Nat.eq_dec (r_leaked s) p +
  count (fun o : shared => charge o = Some p) (r_objects s).

(** The use count, for objects that are shared. *)
Definition counted (s : rsys) (p : nat) : nat :=
  match r_objects s !! p with Some o => if is_env (value o) then 0 else use_count o | None => 0 end.

(** Handles and objects, whatever the counts are. *)
Record shaped (s : rsys) : Prop := {
  sh_pos : forall p o, r_objects s !! p = Some o -> is_env (value o) = false -> (0 < use_count o)%nat;
  sh_fit : forall id o p v, r_handles s !! id = Some o -> w_pointer (object o) = Some p ->
    r_objects s !! p = Some v -> fits (w_kind (object o)) (value v) = true;
  sh_env : forall id o p, r_handles s !! id = Some o -> w_kind (object o) = REnv ->
    w_pointer (object o) = Some p -> is_Some (r_objects s !! p);
  sh_alive : forall id o, r_handles s !! id = Some o -> w_pointer (object o) = None ->
    w_kind (object o) = RStatistics \/ w_kind (object o) = RRateLimiter;
  sh_charge : forall p v c u, r_objects s !! p = Some v -> charge v = Some c ->
    r_objects s !! c = Some u -> is_cache (value u) = true;
  sh_default : exists v, r_objects s !! default_env = Some v /\ is_env (value v) = true;
}.

Definition shared_wf (s : rsys) : Prop := shaped s /\ forall p, counted s p = users s p.

(** ** Lemmas: counting *)

Definition at_ptr (p q : nat) : nat := if decide (p = q) then 1 else 0.
Definition at_opt (c : option nat) (q : nat) : nat := if decide (c = Some q) then 1 else 0.

Lemma at_opt_some p q : at_opt (Some p) q = at_ptr p q.
Proof. unfold at_opt, at_ptr. repeat case_decide; congruence. Qed.

Definition weight (o : shared) : nat := if is_env (value o) then 0 else use_count o.

Lemma counted_insert s p o q :
  counted (with_objects s (<[p := o]> (r_objects s))) q = if decide (p = q) then weight o else counted s q.
Proof.
  unfold counted. cbn [with_objects r_objects]. case_decide as E.
  - subst q. by rewrite lookup_insert_eq.
  - by rewrite lookup_insert_ne.
Qed.

Lemma counted_delete s p q :
  counted (with_objects s (delete p (r_objects s))) q = if decide (p = q) then 0%nat else counted s q.
Proof.
  unfold counted. cbn [with_objects r_objects]. case_decide as E.
  - subst q. by rewrite lookup_delete_eq.
  - by rewrite lookup_delete_ne.
Qed.

Lemma users_same s p o o' q :
  r_objects s !! p = Some o -> charge o' = charge o ->
  users (with_objects s (<[p := o']> (r_objects s))) q = users s q.
Proof.
  intros Hp Hc. unfold users. cbn [with_objects r_handles r_objects r_holds r_leaked].
  pose proof (count_replace (fun o : shared => charge o = Some q) (r_objects s) p o o' Hp) as H.
  unfold one in H. rewrite Hc in H. lia.
Qed.

Lemma users_new s p o q :
  r_objects s !! p = None ->
  users (with_objects s (<[p := o]> (r_objects s))) q = (users s q + at_opt (charge o) q)%nat.
Proof.
  intros Hp. unfold users. cbn [with_objects r_handles r_objects r_holds r_leaked].
  rewrite (count_insert_new _ _ p o Hp). unfold one, at_opt. lia.
Qed.

Lemma users_delete s p o q :
  r_objects s !! p = Some o ->
  users s q = (users (with_objects s (delete p (r_objects s))) q + at_opt (charge o) q)%nat.
Proof.
  intros Hp. unfold users. cbn [with_objects r_handles r_objects r_holds r_leaked].
  rewrite (count_delete _ _ p o Hp). unfold one, at_opt. lia.
Qed.

(** Replacing an object by one of the same shape. *)
Lemma shaped_replace s p o o' :
  shaped s -> r_objects s !! p = Some o -> charge o' = charge o ->
  (forall k, fits k (value o') = fits k (value o)) -> is_env (value o') = is_env (value o) ->
  is_cache (value o') = is_cache (value o) ->
  (is_env (value o') = false -> 0 < use_count o')%nat ->
  shaped (with_objects s (<[p := o']> (r_objects s))).
Proof.
  intros [H1 H2 H3 H4 H5 (d & Hd & He)] Hp Hc Hf Hv Hk Hu.
  assert (Hval : forall q v, <[p := o']> (r_objects s) !! q = Some v ->
    exists v0, r_objects s !! q = Some v0 /\ charge v = charge v0 /\ (forall k, fits k (value v) = fits k (value v0)) /\
      is_env (value v) = is_env (value v0) /\ is_cache (value v) = is_cache (value v0)).
  { intros q v Hq. destruct (decide (p = q)) as [<- | Hne].
    - rewrite lookup_insert_eq in Hq. simplify_eq. by exists o.
    - rewrite lookup_insert_ne in Hq by done. by exists v. }
  split; cbn [with_objects r_handles r_objects].
  - intros q v Hq Hne. destruct (decide (p = q)) as [<- | Hpq].
    + rewrite lookup_insert_eq in Hq. simplify_eq. by apply Hu.
    + rewrite lookup_insert_ne in Hq by done. by eapply H1.
  - intros id h q v Hh Hq Hv'. destruct (Hval q v Hv') as (v0 & Hv0 & _ & Hfit & _). rewrite Hfit. by eapply H2.
  - intros id h q Hh Hk' Hq. destruct (H3 id h q Hh Hk' Hq) as [v Hv'].
    destruct (decide (p = q)) as [<- | Hpq]; [by rewrite lookup_insert_eq | by rewrite lookup_insert_ne, Hv'].
  - exact H4.
  - intros q v c u Hq Hch Hcu. destruct (Hval q v Hq) as (v0 & Hv0 & Hch0 & _).
    destruct (Hval c u Hcu) as (u0 & Hu0 & _ & _ & _ & Hca). rewrite Hca. eapply (H5 q v0 c u0); congruence.
  - destruct (decide (p = default_env)) as [-> | Hne].
    + exists o'. rewrite lookup_insert_eq. split; [done |]. rewrite Hv. congruence.
    + exists d. by rewrite lookup_insert_ne.
Qed.

Lemma shaped_delete s p o :
  shaped s -> r_objects s !! p = Some o -> is_env (value o) = false ->
  shaped (with_objects s (delete p (r_objects s))).
Proof.
  intros [H1 H2 H3 H4 H5 (d & Hd & He)] Hp Hv. split; cbn [with_objects r_handles r_objects].
  - intros q v Hq. apply lookup_delete_Some in Hq as [_ Hq]. by eapply H1.
  - intros id h q v Hh Hq Hv'. apply lookup_delete_Some in Hv' as [_ Hv']. by eapply H2.
  - intros id h q Hh Hk' Hq. pose proof (H3 id h q Hh Hk' Hq) as [v Hv'].
    destruct (decide (p = q)) as [<- | Hpq]; [| rewrite lookup_delete_ne by done; by exists v].
    pose proof (H2 id h p v Hh Hq Hv') as Hfit. rewrite Hk' in Hfit.
    assert (v = o) as -> by congruence. destruct (value o); done.
  - exact H4.
  - intros q v c u Hq Hch Hcu. apply lookup_delete_Some in Hq as [_ Hq]. apply lookup_delete_Some in Hcu as [_ Hcu].
    by apply (H5 q v c u).
  - exists d. rewrite lookup_delete_ne; [done |]. intros ->. congruence.
Qed.

(** ** Lemmas: dropping a pointer *)

(** One pointer to [c], if any, is counted and no longer there. *)
Definition over (s : rsys) (c : option nat) : Prop :=
  shaped s /\ forall q, counted s q = (users s q + at_opt c q)%nat.

Lemma over_none s : over s None <-> shared_wf s.
Proof.
  assert (Hn : forall q, at_opt None q = 0%nat) by done.
  split; intros [Hs H]; split; try done; intros q; specialize (H q); rewrite Hn in *; lia.
Qed.

Lemma over_object s p :
  over s (Some p) -> exists o n, r_objects s !! p = Some o /\ is_env (value o) = false /\ use_count o = S n.
Proof.
  intros [Hs H]. specialize (H p). rewrite at_opt_some in H. unfold at_ptr in H. rewrite decide_True in H by done.
  unfold counted in H. destruct (r_objects s !! p) as [o|]; [| lia]. destruct (is_env (value o)) eqn:Ev; [lia |].
  exists o, (pred (use_count o)). split_and!; [done | done | lia].
Qed.

Lemma drop_one_over s p :
  over s (Some p) ->
  exists s' d, drop_one p s = Ok (s', d) /\ r_handles s' = r_handles s /\ r_holds s' = r_holds s /\
    over s' (match d with Some v => charge {| use_count := 1; value := v |} | None => None end).
Proof.
  intros Ho. destruct (over_object s p Ho) as (o & n & Hp & Hv & Hn). destruct Ho as [Hs H].
  unfold drop_one. rewrite Hp. destruct o as [k v]. cbn in Hn, Hv. subst k. destruct n as [|n].
  - eexists _, _. split; [reflexivity |]. split; [done |]. split; [done |]. split.
    + by eapply shaped_delete.
    + intros q. specialize (H q). rewrite counted_delete. rewrite (users_delete s p _ q Hp) in H.
      rewrite at_opt_some in H. change (charge {| use_count := 1; value := v |}) with (charge {| use_count := 1%nat; value := v |}).
      unfold at_ptr in H. destruct (decide (p = q)) as [<- | Hne]; [| lia].
      unfold counted in H. rewrite Hp in H. cbn [value use_count] in H. rewrite Hv in H. lia.
  - eexists _, _. split; [reflexivity |]. split; [done |]. split; [done |]. split.
    + eapply shaped_replace; try done. cbn. lia.
    + intros q. specialize (H q). rewrite counted_insert. rewrite (users_same s p _ _ q Hp) by done.
      rewrite at_opt_some in H. unfold at_ptr in H. unfold at_opt. rewrite (decide_False (P := None = Some q)) by done.
      destruct (decide (p = q)) as [<- | Hne]; [| lia].
      unfold counted in H. rewrite Hp in H. unfold weight. cbn [value use_count] in *. rewrite Hv in *. lia.
Qed.

(** Dropping a pointer that is counted restores the balance. *)
Lemma drop_over s p :
  over s (Some p) ->
  exists s', drop_pointer p s = Ok s' /\ r_handles s' = r_handles s /\ r_holds s' = r_holds s /\ shared_wf s'.
Proof.
  intros Ho. destruct (drop_one_over s p Ho) as (s1 & d & Hd & Hh & Hl & Ho1).
  destruct (over_object s p Ho) as (o & n & Hp & Hv & Hn). unfold drop_pointer. rewrite Hd. cbn [obind].
  destruct d as [v|]; [| exists s1; split_and!; try done; by apply over_none].
  destruct v as [c|l|m|w [c|]|t|e]; cbn [charge value] in Ho1;
    try (exists s1; split_and!; try done; by apply over_none).
  destruct (drop_one_over s1 c Ho1) as (s2 & d2 & Hd2 & Hh2 & Hl2 & Ho2). rewrite Hd2. cbn [obind].
  exists s2. split; [done |]. split; [congruence |]. split; [congruence |]. apply over_none.
  destruct d2 as [v2|]; [| done].
  (* the cache holds nothing itself *)
  unfold drop_one in Hd, Hd2. rewrite Hp in Hd. destruct o as [k v]. cbn in Hn. subst k.
  destruct n as [|n]; [| done]. simplify_eq. cbn [with_objects r_objects] in Hd2.
  destruct (delete p (r_objects s) !! c) as [[[|[|k]] vc]|] eqn:Ec; try done. simplify_eq.
  apply lookup_delete_Some in Ec as [_ Ec].
  pose proof (sh_charge _ (proj1 Ho) p _ c _ Hp eq_refl Ec) as Hcache. by destruct v2.
Qed.

(** ** Lemmas: handles *)

Lemma users_handle_replaced s id o o' q :
  r_handles s !! id = Some o ->
  (users (with_handles s (<[id := o']> (r_handles s))) q + at_opt (shares (object o)) q =
   at_opt (shares (object o')) q + users s q)%nat.
Proof.
  intros Hh. unfold users. cbn [with_handles r_handles r_objects r_holds r_leaked].
  pose proof (count_replace (fun o : resource wrapper => shares (object o) = Some q) (r_handles s) id o o' Hh) as H.
  unfold one in H. unfold at_opt. lia.
Qed.

Lemma users_handle_new s id o q :
  r_handles s !! id = None ->
  users (with_handles s (<[id := o]> (r_handles s))) q = (at_opt (shares (object o)) q + users s q)%nat.
Proof.
  intros Hh. unfold users. cbn [with_handles r_handles r_objects r_holds r_leaked].
  rewrite (count_insert_new _ _ id o Hh). unfold one, at_opt. lia.
Qed.

Lemma users_handle_deleted s id o q :
  r_handles s !! id = Some o ->
  users s q = (at_opt (shares (object o)) q + users (with_handles s (delete id (r_handles s))) q)%nat.
Proof.
  intros Hh. unfold users. cbn [with_handles r_handles r_objects r_holds r_leaked].
  rewrite (count_delete _ _ id o Hh). unfold one, at_opt. lia.
Qed.

(** A wrapper whose pointer is right. *)
Definition good (s : rsys) (w : wrapper) : Prop :=
  match w_pointer w with
  | Some p => (forall v, r_objects s !! p = Some v -> fits (w_kind w) (value v) = true) /\
              (w_kind w = REnv -> is_Some (r_objects s !! p))
  | None => w_kind w = RStatistics \/ w_kind w = RRateLimiter
  end.

Lemma shaped_good s id o : shaped s -> r_handles s !! id = Some o -> good s (object o).
Proof.
  intros Hs Hh. unfold good. destruct (w_pointer (object o)) as [p|] eqn:E.
  - split; [intros v Hv; by eapply sh_fit | intros Hk; by eapply sh_env].
  - by eapply sh_alive.
Qed.

Lemma shaped_handles s h :
  shaped s -> (forall id o, h !! id = Some o -> good s (object o)) -> shaped (with_handles s h).
Proof.
  intros [H1 H2 H3 H4 H5 H6] Hg. split; cbn [with_handles r_handles r_objects]; try done.
  - intros id o p v Hh Hp Hv. pose proof (Hg id o Hh) as G. unfold good in G. rewrite Hp in G. by apply G.
  - intros id o p Hh Hk Hp. pose proof (Hg id o Hh) as G. unfold good in G. rewrite Hp in G. by apply G.
  - intros id o Hh Hp. pose proof (Hg id o Hh) as G. unfold good in G. by rewrite Hp in G.
Qed.

Lemma shaped_handle_set s id o :
  shaped s -> good s (object o) -> shaped (with_handles s (<[id := o]> (r_handles s))).
Proof.
  intros Hs Ho. apply shaped_handles; [done |]. intros i x Hx. destruct (decide (id = i)) as [<- | Hne].
  - rewrite lookup_insert_eq in Hx. by simplify_eq.
  - rewrite lookup_insert_ne in Hx by done. by eapply shaped_good.
Qed.

Lemma shaped_handle_deleted s id : shaped s -> shaped (with_handles s (delete id (r_handles s))).
Proof.
  intros Hs. apply shaped_handles; [done |]. intros i x Hx. apply lookup_delete_Some in Hx as [_ Hx].
  by eapply shaped_good.
Qed.

(** Dropping a pointer does not look at handles. *)
Lemma drop_one_handles p s h s1 d :
  drop_one p (with_handles s h) = Ok (s1, d) ->
  exists s2, drop_one p s = Ok (s2, d) /\ s1 = with_handles s2 h /\ r_handles s2 = r_handles s.
Proof.
  unfold drop_one. cbn [with_handles r_objects].
  destruct (r_objects s !! p) as [[[|[|n]] v]|]; intros H; simplify_eq; by eexists.
Qed.

Lemma drop_pointer_handles p s h s1 :
  drop_pointer p (with_handles s h) = Ok s1 ->
  exists s2, drop_pointer p s = Ok s2 /\ s1 = with_handles s2 h /\ r_handles s2 = r_handles s.
Proof.
  unfold drop_pointer. intros H. destruct (drop_one p (with_handles s h)) as [[s' d]|] eqn:E; [| done].
  cbn [obind] in H. destruct (drop_one_handles p s h s' d E) as (s2 & -> & -> & Hh). cbn [obind].
  destruct d as [v|]; [| simplify_eq; by exists s2].
  destruct v as [c|l|m|w [c|]|t|e]; try (simplify_eq; by exists s2).
  destruct (drop_one c (with_handles s2 h)) as [[s'' d2]|] eqn:E2; [| done]. cbn [obind] in H. simplify_eq.
  destruct (drop_one_handles c s2 h _ d2 E2) as (s3 & -> & -> & Hh3). cbn [obind]. exists s3. split_and!; congruence.
Qed.

(** The pointer of a wrapper is dropped, and the wrapper no longer has it. *)
Lemma drop_shared s p h :
  shared_wf s -> shaped (with_handles s h) ->
  (forall q, users s q = (at_ptr p q + users (with_handles s h) q)%nat) ->
  exists s2, drop_pointer p s = Ok s2 /\ shared_wf (with_handles s2 h) /\ r_handles s2 = r_handles s.
Proof.
  intros [_ Hb] Hs Hu. destruct (drop_over (with_handles s h) p) as (s1 & Hd & _ & _ & Hw).
  { split; [done |]. intros q. change (counted (with_handles s h) q) with (counted s q).
    rewrite at_opt_some, Hb, Hu. lia. }
  destruct (drop_pointer_handles p s h s1 Hd) as (s2 & H2 & -> & Hh). by exists s2.
Qed.

Lemma shares_pointer w p : w_kind w <> REnv -> w_pointer w = Some p -> shares w = Some p.
Proof. intros Hk Hp. unfold shares. by rewrite decide_False. Qed.

Lemma destroy_wf s id o p :
  shared_wf s -> r_handles s !! id = Some o -> w_pointer (object o) = Some p ->
  w_kind (object o) = RStatistics \/ w_kind (object o) = RRateLimiter ->
  exists s', destroy_wrapper id o s = Ok s' /\ shared_wf s'.
Proof.
  intros Hw Hh Hp Hk. assert (Hne : w_kind (object o) <> REnv) by (destruct Hk; congruence).
  set (o' := set_object {| w_kind := w_kind (object o); w_pointer := None |} o).
  destruct (drop_shared s p (<[id := o']> (r_handles s))) as (s2 & Hd & Hw2 & Hh2); [done | | |].
  - apply shaped_handle_set; [apply Hw | exact Hk].
  - intros q. pose proof (users_handle_replaced s id o o' q Hh) as H.
    rewrite (shares_pointer _ p Hne Hp), at_opt_some in H.
    assert (at_opt (shares (object o')) q = 0%nat) as Hz by (unfold o', shares; cbn; by case_decide). lia.
  - unfold destroy_wrapper, pointer_of. rewrite Hp. cbn [obind]. rewrite Hd. cbn [obind]. rewrite Hh2.
    eexists. split; [reflexivity | exact Hw2].
Qed.

(** Deleting a handle whose pointer does not count. *)
Lemma forget_wf s id o :
  shared_wf s -> r_handles s !! id = Some o -> shares (object o) = None ->
  shared_wf (with_handles s (delete id (r_handles s))).
Proof.
  intros [Hs Hb] Hh Hz. split; [by apply shaped_handle_deleted |]. intros q.
  change (counted (with_handles s (delete id (r_handles s))) q) with (counted s q).
  rewrite Hb, (users_handle_deleted s id o q Hh), Hz. done.
Qed.

Lemma drop_leaked p s s' : drop_pointer p s = Ok s' -> r_leaked s' = r_leaked s.
Proof.
  assert (Hone : forall q t t' d, drop_one q t = Ok (t', d) -> r_leaked t' = r_leaked t).
  { intros q t t' d. unfold drop_one. destruct (r_objects t !! q) as [[[|[|n]] v]|]; intros; by simplify_eq. }
  unfold drop_pointer. intros H. destruct (drop_one p s) as [[s1 d]|] eqn:E; [| done]. cbn [obind] in H.
  rewrite <- (Hone p s s1 d E). destruct d as [v|]; [| by simplify_eq].
  destruct v as [c|l|m|w [c|]|t|e]; try by simplify_eq.
  destruct (drop_one c s1) as [[s2 d2]|] eqn:E2; [| done]. cbn [obind] in H. simplify_eq. by eapply Hone.
Qed.

(** An event went well: the balance holds, and what was leaked stays leaked. *)
Definition went_well (s s' : rsys) : Prop := shared_wf s' /\ r_leaked s `suffix_of` r_leaked s'.

Lemma destroy_well s id o p :
  shared_wf s -> r_handles s !! id = Some o -> w_pointer (object o) = Some p ->
  w_kind (object o) = RStatistics \/ w_kind (object o) = RRateLimiter ->
  exists s', destroy_wrapper id o s = Ok s' /\ went_well s s'.
Proof.
  intros Hw Hh Hp Hk. destruct (destroy_wf s id o p Hw Hh Hp Hk) as (s' & Hd & Hw'). exists s'. split; [done |].
  split; [done |]. unfold destroy_wrapper, pointer_of in Hd. rewrite Hp in Hd. cbn [obind] in Hd.
  destruct (drop_pointer p s) as [s1|] eqn:E; [| done]. cbn [obind] in Hd. simplify_eq. cbn.
  by rewrite (drop_leaked p s s1 E).
Qed.

Lemma finish_cleaned s id o p :
  shared_wf s -> r_handles s !! id = Some o -> w_pointer (object o) = Some p -> w_kind (object o) <> REnv ->
  exists s', (let! s1 := destroy_wrapper id o s in Ok (with_handles s1 (delete id (r_handles s1)))) = Ok s' /\
    went_well s s'.
Proof.
  intros Hw Hh Hp Hk. destruct (drop_shared s p (delete id (r_handles s))) as (s2 & Hd & Hw2 & Hh2); [done | | |].
  - apply shaped_handle_deleted, Hw.
  - intros q. rewrite (users_handle_deleted s id o q Hh). by rewrite (shares_pointer _ p Hk Hp), at_opt_some.
  - unfold destroy_wrapper, pointer_of. rewrite Hp. cbn [obind]. rewrite Hd. cbn [obind]. eexists.
    split; [reflexivity |]. cbn [with_handles r_handles]. rewrite Hh2, delete_insert_eq.
    split; [exact Hw2 |]. cbn. by rewrite (drop_leaked p s s2 Hd).
Qed.

Lemma leak_wf s id o :
  shared_wf s -> r_handles s !! id = Some o ->
  let s1 := with_leaked s (option_list (shares (object o)) ++ r_leaked s) in
  went_well s (with_handles s1 (delete id (r_handles s1))).
Proof.
  intros [Hs Hb] Hh s1. split; [split |].
  - destruct (shaped_handle_deleted s id Hs) as [H1 H2 H3 H4 H5 H6]. split; assumption.
  - intros q. change (counted (with_handles s1 (delete id (r_handles s1))) q) with (counted s q). rewrite Hb.
    pose proof (users_handle_deleted s id o q Hh) as H. unfold users in *. cbn in *.
    rewrite count_occ_app. unfold at_opt in H. destruct (shares (object o)) as [p|]; cbn.
    + destruct (Nat.eq_dec p q) as [<- | Hne]; [rewrite decide_True in H by done | rewrite decide_False in H by congruence]; lia.
    + rewrite decide_False in H by done. lia.
  - cbn. by exists (option_list (shares (object o))).
Qed.

(** Collecting the last term fails only if the destructor ran before. *)
Lemma finish_well s id o :
  shared_wf s -> r_handles s !! id = Some o ->
  (w_pointer (object o) = None /\ finish_handle id o s = Undef) \/
  (exists s', finish_handle id o s = Ok s' /\ went_well s s').
Proof.
  intros Hw Hh. unfold finish_handle. destruct (cleaned (w_kind (object o))) eqn:Ec.
  - destruct (w_pointer (object o)) as [p|] eqn:Hp.
    + right. apply (finish_cleaned s id o p); try done. intros Hk. by rewrite Hk in Ec.
    + left. split; [done |]. unfold destroy_wrapper, pointer_of. by rewrite Hp.
  - right. eexists. split; [reflexivity |]. by apply (leak_wf s id o).
Qed.

(** ** Lemmas: objects *)

Lemma one_user s id o p :
  r_handles s !! id = Some o -> shares (object o) = Some p -> (0 < users s p)%nat.
Proof.
  intros Hh Hp. rewrite (users_handle_deleted s id o p Hh), Hp, at_opt_some. unfold at_ptr.
  rewrite decide_True by done. lia.
Qed.

Lemma one_charge s p o c : r_objects s !! p = Some o -> charge o = Some c -> (0 < users s c)%nat.
Proof.
  intros Hp Hc. rewrite (users_delete s p o c Hp), Hc, at_opt_some. unfold at_ptr. rewrite decide_True by done. lia.
Qed.

Lemma used_object s p : shared_wf s -> (0 < users s p)%nat -> is_Some (r_objects s !! p).
Proof.
  intros [_ Hb] Hu. rewrite <- Hb in Hu. unfold counted in Hu. destruct (r_objects s !! p); [by eexists | lia].
Qed.

(** The object of a wrapper is there and is of its kind. *)
Lemma object_alive s id o p :
  shared_wf s -> r_handles s !! id = Some o -> w_pointer (object o) = Some p ->
  exists v, object_of o s = Ok (p, v) /\ r_objects s !! p = Some v /\ fits (w_kind (object o)) (value v) = true.
Proof.
  intros Hw Hh Hp. assert (Hv : is_Some (r_objects s !! p)).
  { destruct (decide (w_kind (object o) = REnv)) as [Hk | Hk]; [by eapply sh_env; [apply Hw | ..] |].
    apply used_object; [done |]. eapply one_user; [done |]. by apply shares_pointer. }
  destruct Hv as [v Hv]. exists v. unfold object_of, pointer_of. rewrite Hp. cbn [obind]. rewrite Hv.
  split_and!; [done | done |]. by eapply sh_fit; [apply Hw | ..].
Qed.

(** A copy of a pointer, before its owner has it. *)
Lemma copy_over s p v :
  shared_wf s -> r_objects s !! p = Some v -> is_env (value v) = false ->
  exists s', copy_pointer p s = Ok s' /\ over s' (Some p) /\ r_leaked s' = r_leaked s /\
    r_handles s' = r_handles s /\ r_holds s' = r_holds s /\
    (forall q u, r_objects s' !! q = Some u -> exists u0, r_objects s !! q = Some u0 /\ value u = value u0).
Proof.
  intros [Hs Hb] Hp Hv. unfold copy_pointer. rewrite Hp. eexists. split; [reflexivity |].
  split; [split | split; [done | split; [done | split; [done |]]]].
  - eapply shaped_replace; try done. cbn. lia.
  - intros q. rewrite counted_insert, (users_same s p v _ q Hp) by done. rewrite at_opt_some. unfold at_ptr, weight.
    cbn [value use_count]. rewrite Hv. destruct (decide (p = q)) as [<- | Hne]; [| rewrite Hb; lia].
    rewrite <- Hb. unfold counted. rewrite Hp, Hv. lia.
  - intros q u Hq. cbn in Hq. destruct (decide (p = q)) as [<- | Hne].
    + rewrite lookup_insert_eq in Hq. simplify_eq. by exists v.
    + rewrite lookup_insert_ne in Hq by done. by exists u.
Qed.

Lemma copy_and_drop_well s id o p :
  shared_wf s -> r_handles s !! id = Some o -> w_pointer (object o) = Some p -> w_kind (object o) <> REnv ->
  exists s', copy_and_drop o s = Ok s' /\ went_well s s'.
Proof.
  intros Hw Hh Hp Hk. destruct (object_alive s id o p Hw Hh Hp) as (v & _ & Hv & Hf).
  assert (He : is_env (value v) = false) by (destruct (w_kind (object o)), (value v); done).
  destruct (copy_over s p v Hw Hv He) as (s1 & Hc & Ho & Hl & _).
  destruct (drop_over s1 p Ho) as (s2 & Hd & _ & _ & Hw2).
  exists s2. unfold copy_and_drop, pointer_of. rewrite Hp. cbn [obind]. rewrite Hc. cbn [obind].
  split; [done |]. split; [done |]. by rewrite (drop_leaked p s1 s2 Hd), Hl.
Qed.

(** A change of the value of an object. *)
Lemma set_value_well s p v x :
  shared_wf s -> r_objects s !! p = Some v ->
  charge {| use_count := 1; value := x |} = charge v -> (forall k, fits k x = fits k (value v)) ->
  is_env x = is_env (value v) -> is_cache x = is_cache (value v) ->
  went_well s (set_value p v x s).
Proof.
  intros [Hs Hb] Hp Hc Hf He Hk. split; [split | done].
  - apply (shaped_replace s p v); try done. cbn [value use_count]. rewrite He. by apply (sh_pos s Hs p v).
  - intros q. unfold set_value. rewrite counted_insert, (users_same s p v _ q Hp) by done.
    unfold weight. cbn [value use_count]. rewrite He. destruct (decide (p = q)) as [<- | Hne]; [| apply Hb].
    rewrite <- Hb. unfold counted. by rewrite Hp.
Qed.

(** A new object and the handle that owns it. *)
Lemma create_well s k x :
  over s (charge {| use_count := 1; value := x |}) -> fits k x = true ->
  (forall c u, charge {| use_count := 1; value := x |} = Some c -> r_objects s !! c = Some u -> is_cache (value u) = true) ->
  let '(s1, p) := make_object x s in
  shared_wf (new_handle k p s1).1 /\ r_leaked (new_handle k p s1).1 = r_leaked s.
Proof.
  intros [Hs Hb] Hf Hcache. unfold make_object. set (p := fresh (dom (r_objects s) : gset nat)).
  assert (Hp : r_objects s !! p = None) by (apply not_elem_of_dom, is_fresh).
  assert (Hc0 : counted s p = 0%nat) by (unfold counted; by rewrite Hp).
  assert (Hu : users s p = 0%nat /\ at_opt (charge {| use_count := 1; value := x |}) p = 0%nat)
    by (specialize (Hb p); lia). destruct Hu as [Hu Hcp].
  set (s1 := with_objects s (<[p := {| use_count := 1; value := x |}]> (r_objects s))).
  assert (Hs1 : shaped s1).
  { destruct Hs as [H1 H2 H3 H4 H5 (d & Hd & He)]. split; cbn [s1 with_objects r_handles r_objects].
    - intros q v Hq Hne. destruct (decide (p = q)) as [<- | Hpq].
      + rewrite lookup_insert_eq in Hq. simplify_eq. cbn. lia.
      + rewrite lookup_insert_ne in Hq by done. by eapply H1.
    - intros id h q v Hh Hq Hv. destruct (decide (p = q)) as [<- | Hpq].
      + exfalso. destruct (decide (w_kind (object h) = REnv)) as [Hk | Hk].
        * destruct (H3 id h p Hh Hk Hq) as [v' Hv']. congruence.
        * pose proof (one_user s id h p Hh (shares_pointer _ _ Hk Hq)). lia.
      + rewrite lookup_insert_ne in Hv by done. by eapply H2.
    - intros id h q Hh Hk Hq. destruct (H3 id h q Hh Hk Hq) as [v Hv].
      rewrite lookup_insert_ne by congruence. by exists v.
    - exact H4.
    - intros q v c u Hq Hch Hcu. assert (Hcne : c <> p).
      { intros ->. destruct (decide (p = q)) as [<- | Hpq].
        - rewrite lookup_insert_eq in Hq. simplify_eq. rewrite Hch, at_opt_some in Hcp. unfold at_ptr in Hcp.
          by rewrite decide_True in Hcp.
        - rewrite lookup_insert_ne in Hq by done. pose proof (one_charge s q v p Hq Hch). lia. }
      rewrite lookup_insert_ne in Hcu by done. destruct (decide (p = q)) as [<- | Hpq].
      + rewrite lookup_insert_eq in Hq. simplify_eq. by apply (Hcache c u).
      + rewrite lookup_insert_ne in Hq by done. by apply (H5 q v c u).
    - exists d. rewrite lookup_insert_ne; [done |]. intros Hpd. congruence. }
  unfold new_handle. destruct (new_resource _ (r_handles s1)) as [h id] eqn:En.
  apply new_resource_fresh in En as [Hid ->]. cbn [fst]. split; [split |]; [| | done].
  - apply shaped_handle_set; [done |]. unfold good. cbn [w_pointer w_kind object]. split.
    + intros v Hv. cbn [s1 with_objects r_objects] in Hv. rewrite lookup_insert_eq in Hv. by simplify_eq.
    + intros _. cbn [s1 with_objects r_objects]. rewrite lookup_insert_eq. by eexists.
  - intros q. rewrite (users_handle_new s1 id _ q Hid). cbn [object].
    match goal with |- counted (with_handles s1 ?h) q = _ => change (counted (with_handles s1 h) q) with (counted s1 q) end.
    unfold s1 at 1. rewrite counted_insert. unfold s1. rewrite (users_new s p _ q Hp). unfold weight, shares.
    cbn [value use_count w_kind w_pointer]. specialize (Hb q).
    destruct (decide (p = q)) as [<- | Hne].
    + rewrite Hu, Hcp. destruct (decide (k = REnv)) as [-> | Hk]; destruct x; try done; try (by destruct k);
        cbn [is_env]; unfold at_opt; by rewrite decide_True.
    + rewrite Hb. destruct (decide (k = REnv)); [unfold at_opt; rewrite (decide_False (P := None = Some q)) by done; lia |].
      rewrite (at_opt_some p q). unfold at_ptr. rewrite decide_False by done. lia.
Qed.

(** ** Calls *)

Definition fine (f : rsys -> outcome (rsys * reply)) (s : rsys) : Prop :=
  exists s' r, f s = Ok (s', r) /\ went_well s s'.

Definition touched (s : rsys) (argv : list term) : Prop :=
  exists id o k, r_handles s !! id = Some o /\ w_pointer (object o) = None /\ Tres k id ∈ argv.

(** What a call may do. *)
Definition acceptable (argv : list term) (f : rsys -> outcome (rsys * reply)) (s : rsys) : Prop :=
  fine f s \/ (f s = Undef /\ touched s argv).

Lemma well_refl s : shared_wf s -> went_well s s.
Proof. by split. Qed.

Lemma answer_fine s (r : reply) : shared_wf s -> exists s' r', Ok (s, r) = Ok (s', r') /\ went_well s s'.
Proof. intros Hw. exists s, r. split; [done | by apply well_refl]. Qed.

Lemma get_wrapper_cases k t s :
  term_held s t ->
  get_wrapper k t s = Ok None \/
  exists id o, t = Tres k id /\ get_wrapper k t s = Ok (Some (id, o)) /\ r_handles s !! id = Some o /\ w_kind (object o) = k.
Proof.
  intros Ht. unfold get_wrapper. destruct (enif_get_resource k t) as [id|] eqn:E; [| by left].
  apply get_resource_term in E as ->. destruct Ht as (o & Ho & _ & Hk). right. exists id, o. by rewrite Ho.
Qed.

(** A call on a handle: with its pointer the body is fine, without it the body is
    fine or undefined. *)
Lemma on_wrapper_ok k t0 rest body s :
  shared_wf s -> Forall (term_held s) (t0 :: rest) ->
  (forall id o p, r_handles s !! id = Some o -> w_kind (object o) = k -> w_pointer (object o) = Some p ->
     fine (body id o) s) ->
  (k = RStatistics -> forall id o, w_pointer (object o) = None -> fine (body id o) s \/ body id o s = Undef) ->
  k <> RRateLimiter -> acceptable (t0 :: rest) (on_wrapper k (t0 :: rest) body) s.
Proof.
  intros Hw Ht Hlive Hdead Hk. apply Forall_cons in Ht as [Ht _]. unfold acceptable, fine, on_wrapper.
  cbn [elem lookup list_lookup obind]. destruct (get_wrapper_cases k t0 s Ht) as [-> | (id & o & -> & -> & Ho & Hko)];
    cbn [obind]; [left; by apply answer_fine |].
  destruct (w_pointer (object o)) as [p|] eqn:Hp; [left; by apply (Hlive id o p) |].
  destruct (sh_alive _ (proj1 Hw) id o Ho Hp) as [Hs | Hs]; [| congruence].
  destruct (Hdead ltac:(congruence) id o Hp) as [H | ->]; [by left | right]. split; [done |].
  exists id, o, k. split_and!; [done | done | by left].
Qed.

(** The release functions of kinds whose wrapper stays. *)
Lemma releasing_ok k t0 s (body : nat -> resource wrapper -> rsys -> outcome rsys) :
  shared_wf s -> Forall (term_held s) [t0] ->
  (forall id o p, r_handles s !! id = Some o -> w_kind (object o) = k -> w_pointer (object o) = Some p ->
     exists s', body id o s = Ok s' /\ went_well s s') ->
  (forall id o, w_kind (object o) = RStatistics \/ w_kind (object o) = RRateLimiter -> w_kind (object o) = k ->
     w_pointer (object o) = None -> body id o s = Undef) ->
  acceptable [t0] (releasing k [t0] body) s.
Proof.
  intros Hw Ht Hlive Hdead. apply Forall_cons in Ht as [Ht _]. unfold acceptable, fine, releasing.
  cbn [elem lookup list_lookup obind]. destruct (get_wrapper_cases k t0 s Ht) as [-> | (id & o & -> & -> & Ho & Hko)];
    cbn [obind]; [left; by apply answer_fine |].
  destruct (w_pointer (object o)) as [p|] eqn:Hp.
  - left. destruct (Hlive id o p Ho Hko Hp) as (s' & -> & Hs). cbn [obind]. by eexists _, _.
  - right. rewrite (Hdead id o (sh_alive _ (proj1 Hw) id o Ho Hp) Hko Hp). split; [done |].
    exists id, o, k. split_and!; [done | done | by left].
Qed.

(** Shared kinds that are created alone. *)
Lemma create_fine s k x :
  shared_wf s -> charge {| use_count := 1; value := x |} = None -> fits k x = true ->
  exists s' r, (let '(s1, p) := make_object x s in Ok (new_handle k p s1)) = Ok (s', r) /\ went_well s s'.
Proof.
  intros Hw Hc Hf. pose proof (create_well s k x) as H. rewrite Hc in H.
  specialize (H (proj2 (over_none s) Hw) Hf ltac:(done)). destruct (make_object x s) as [s1 p].
  destruct (new_handle k p s1) as [s2 r]. cbn in H. destruct H as [H1 H2]. exists s2, r. split; [done |].
  split; [done |]. by rewrite H2.
Qed.

Lemma default_handle_well s : shared_wf s -> went_well s (new_handle REnv default_env s).1.
Proof.
  intros [Hs Hb]. unfold new_handle. destruct (new_resource _ (r_handles s)) as [h id] eqn:En.
  apply new_resource_fresh in En as [Hid ->]. cbn [fst]. split; [split | done].
  - apply shaped_handle_set; [done |]. destruct (sh_default s Hs) as (d & Hd & He).
    unfold good. cbn [w_pointer w_kind object]. split.
    + intros v Hv. assert (v = d) as -> by congruence. by destruct (value d).
    + intros _. by exists d.
  - intros q. rewrite (users_handle_new s id _ q Hid).
    match goal with |- counted (with_handles s ?h) q = _ => change (counted (with_handles s h) q) with (counted s q) end.
    rewrite Hb. done.
Qed.

(** The object behind a live wrapper, by its kind. *)
Ltac live_object Hw Ho Hk Hp :=
  let v := fresh "v" in let Hobj := fresh "Hobj" in let Hv := fresh "Hv" in let Hf := fresh "Hf" in
  destruct (object_alive _ _ _ _ Hw Ho Hp) as (v & Hobj & Hv & Hf);
  rewrite Hk in Hf; rewrite ?Hobj; cbn [obind];
  let E := fresh "Ev" in destruct (value v) eqn:E; try discriminate Hf; clear Hf.

(** The new value is of the kind of the old one. *)
Ltac same_kind Ev := unfold charge; cbn [value]; rewrite ?Ev; by intros.

Lemma cache_fine s id o p body :
  shared_wf s -> r_handles s !! id = Some o -> w_kind (object o) = RCache -> w_pointer (object o) = Some p ->
  (forall v c, r_objects s !! p = Some v -> value v = OCache c -> fine (body p v c) s) -> fine (on_cache o body) s.
Proof. intros Hw Ho Hk Hp Hb. unfold fine, on_cache. live_object Hw Ho Hk Hp. by apply Hb. Qed.

Lemma manager_fine s id o p body :
  shared_wf s -> r_handles s !! id = Some o -> w_kind (object o) = RSstFileManager -> w_pointer (object o) = Some p ->
  (forall v m, r_objects s !! p = Some v -> value v = OManager m -> fine (body p v m) s) -> fine (on_manager o body) s.
Proof. intros Hw Ho Hk Hp Hb. unfold fine, on_manager. live_object Hw Ho Hk Hp. by apply Hb. Qed.

(** Statistics: the wrapper may be gone. *)
Lemma statistics_call_ok t0 rest (body : resource wrapper -> rsys -> outcome (rsys * reply)) s :
  shared_wf s -> Forall (term_held s) (t0 :: rest) ->
  (forall o p v t, object_of o s = Ok (p, v) -> r_objects s !! p = Some v -> value v = OStatistics t -> fine (body o) s) ->
  (forall o, w_pointer (object o) = None -> fine (body o) s \/ body o s = Undef) ->
  acceptable (t0 :: rest) (on_wrapper RStatistics (t0 :: rest) (fun _ o => body o)) s.
Proof.
  intros Hw Ht Hb Hd. apply on_wrapper_ok; [done | done | | | done].
  - intros id o p Ho Hk Hp. destruct (object_alive s id o p Hw Ho Hp) as (v & Hobj & Hv & Hf). rewrite Hk in Hf.
    destruct (value v) eqn:Ev; try discriminate Hf. by apply (Hb o p v t).
  - intros _ _ o Hp. by apply Hd.
Qed.

Lemma set_fine s p v x :
  shared_wf s -> r_objects s !! p = Some v ->
  charge {| use_count := 1; value := x |} = charge v -> (forall k, fits k x = fits k (value v)) ->
  is_env x = is_env (value v) -> is_cache x = is_cache (value v) ->
  exists s' r', Ok (set_value p v x s, Reply ATOM_OK) = Ok (s', r') /\ went_well s s'.
Proof. intros. eexists _, _. split; [reflexivity |]. by apply set_value_well. Qed.

Ltac known_args Hl argv :=
  rewrite list_elem_of_In in Hl; cbn in Hl;
  repeat destruct Hl as [Hl | Hl]; try done;
  destruct argv as [|? [|? [|? [|]]]]; try discriminate Hl; clear Hl; cbn [run_shared].

(** A call on a handle whose wrapper is never destroyed early. *)
Ltac on_live := apply on_wrapper_ok; [done | done | intros id o p Ho Hk Hp | done | done].

Lemma cache_nifs_ok n argv s :
  n ∈ [NNewCache; NReleaseCache; NCacheInfo; NSetCapacity; NSetStrictCapacityLimit] ->
  shared_wf s -> length argv ∈ shared_arities n -> Forall (term_held s) argv ->
  acceptable argv (run_shared n argv) s.
Proof.
  intros Hn Hw Hl Ht. rewrite list_elem_of_In in Hn. destruct Hn as [<- | [<- | [<- | [<- | [<- | []]]]]]; known_args Hl argv.
  - left. unfold fine, NewCache. cbn [elem lookup list_lookup obind].
    destruct (enif_is_atom _); [| by apply answer_fine]. destruct (enif_get_uint64 _); [| by apply answer_fine].
    destruct (is_atom "lru" _); [by apply create_fine |].
    destruct (is_atom "clock" _); [by apply create_fine | by apply answer_fine].
  - apply releasing_ok; [done | done | |].
    + intros id o p Ho Hk Hp. apply (copy_and_drop_well s id o p); try done. by rewrite Hk.
    + intros id o [Hk | Hk] Hk' _; congruence.
  - on_live. apply (cache_fine s id o p); try done. intros v c Hv Ev. by apply answer_fine.
  - on_live. apply (cache_fine s id o p); try done. intros v c Hv Ev. by apply answer_fine.
  - on_live. unfold fine. cbn [elem lookup list_lookup obind].
    destruct (enif_get_uint64 _) as [cap|]; [| by apply answer_fine].
    apply (cache_fine s id o p); try done. intros v c Hv Ev. apply set_fine; try done; same_kind Ev.
  - on_live. apply (cache_fine s id o p); try done. intros v c Hv Ev. unfold fine. cbn [elem lookup list_lookup obind].
    apply set_fine; try done; same_kind Ev.
Qed.

Lemma env_nifs_ok n argv s :
  n ∈ [NNewRateLimiter; NReleaseRateLimiter; NNewEnv; NSetEnvBackgroundThreads; NDestroyEnv] ->
  shared_wf s -> length argv ∈ shared_arities n -> Forall (term_held s) argv ->
  acceptable argv (run_shared n argv) s.
Proof.
  intros Hn Hw Hl Ht. rewrite list_elem_of_In in Hn. destruct Hn as [<- | [<- | [<- | [<- | [<- | []]]]]]; known_args Hl argv.
  - left. unfold fine, NewRateLimiter. cbn [length Nat.eqb negb elem lookup list_lookup obind].
    destruct (enif_get_uint64 _); [by apply create_fine | by apply answer_fine].
  - apply releasing_ok; [done | done | |].
    + intros id o p Ho Hk Hp. apply (destroy_well s id o p); try done. by right.
    + intros id o _ _ Hp. unfold destroy_wrapper, pointer_of. by rewrite Hp.
  - left. unfold fine, NewEnv. cbn [elem lookup list_lookup obind].
    destruct (is_atom "default" _).
    + pose proof (default_handle_well s Hw) as H. destruct (new_handle REnv default_env s) as [s' r]. by exists s', r.
    + destruct (is_atom "memenv" _); [by apply create_fine | by apply answer_fine].
  - on_live. unfold fine. live_object Hw Ho Hk Hp. cbn [elem lookup list_lookup obind length Nat.eqb].
    destruct (enif_get_int _); [| by apply answer_fine]. apply set_fine; try done; same_kind Ev.
  - on_live. unfold fine. live_object Hw Ho Hk Hp. cbn [elem lookup list_lookup obind length Nat.eqb].
    destruct (enif_get_int _); [| by apply answer_fine].
    destruct (is_atom "priority_high" _); [apply set_fine; try done; same_kind Ev |].
    destruct (is_atom "priority_low" _); [apply set_fine; try done; same_kind Ev | by apply answer_fine].
  - apply releasing_ok; [done | done | |].
    + intros id o p Ho Hk Hp. exists s. split; [done | by apply well_refl].
    + intros id o [Hk | Hk] Hk' _; congruence.
Qed.

Lemma manager_nifs_ok n argv s :
  n ∈ [NNewSstFileManager; NReleaseSstFileManager; NSstFileManagerFlag; NSstFileManagerInfo; NTrackedFiles] ->
  shared_wf s -> length argv ∈ shared_arities n -> Forall (term_held s) argv ->
  acceptable argv (run_shared n argv) s.
Proof.
  intros Hn Hw Hl Ht. rewrite list_elem_of_In in Hn. destruct Hn as [<- | [<- | [<- | [<- | [<- | []]]]]]; known_args Hl argv.
  - on_live. unfold fine. cbn [elem lookup list_lookup obind].
    destruct (sfm_parse _); [| by apply answer_fine]. live_object Hw Ho Hk Hp.
    destruct (new_sfm _ _ _ _) as [m st]. destruct (status_ok st); cbn [negb]; [by apply create_fine | by apply answer_fine].
  - apply releasing_ok; [done | done | |].
    + intros id o p Ho Hk Hp. apply (copy_and_drop_well s id o p); try done. by rewrite Hk.
    + intros id o [Hk | Hk] Hk' _; congruence.
  - on_live. unfold fine. cbn [elem lookup list_lookup obind].
    destruct (sfm_flag_of _ _); [| by apply answer_fine].
    apply (manager_fine s id o p); try done. intros v m Hv Ev. apply set_fine; try done; same_kind Ev.
  - on_live. apply (manager_fine s id o p); try done. intros v m Hv Ev. by apply answer_fine.
  - on_live. apply (manager_fine s id o p); try done. intros v m Hv Ev. by apply answer_fine.
  - on_live. apply (manager_fine s id o p); try done. intros v m Hv Ev. by apply answer_fine.
Qed.

(** A write buffer manager that is charged to the cache of a live handle. *)
Lemma charged_fine s id o size :
  shared_wf s -> r_handles s !! id = Some o -> w_kind (object o) = RCache ->
  exists s' r, (let! c := pointer_of o in let! s1 := copy_pointer c s in
    let '(s2, p) := make_object (OBuffers (new_wbm size) (Some c)) s1 in
    Ok (new_handle RWriteBufferManager p s2)) = Ok (s', r) /\ went_well s s'.
Proof.
  intros Hw Ho Hk. destruct (w_pointer (object o)) as [c|] eqn:Hp.
  2: { destruct (sh_alive _ (proj1 Hw) id o Ho Hp); congruence. }
  destruct (object_alive s id o c Hw Ho Hp) as (v & _ & Hv & Hf). rewrite Hk in Hf.
  unfold pointer_of. rewrite Hp. cbn [obind].
  destruct (copy_over s c v Hw Hv) as (s1 & -> & Hov & Hl & _ & _ & Hval); [by destruct (value v) |]. cbn [obind].
  pose proof (create_well s1 RWriteBufferManager (OBuffers (new_wbm size) (Some c)) Hov eq_refl) as H.
  destruct (make_object _ s1) as [s2 p]. destruct (new_handle RWriteBufferManager p s2) as [s3 r]. cbn [fst] in H.
  exists s3, r. split; [done |]. destruct H as [H1 H2].
  - intros c' u [= <-] Hu. destruct (Hval c u Hu) as (u0 & Hu0 & ->). assert (u0 = v) as -> by congruence.
    by destruct (value v).
  - split; [done |]. by rewrite H2, Hl.
Qed.

Lemma buffer_nifs_ok n argv s :
  n ∈ [NNewWriteBufferManager; NReleaseWriteBufferManager; NWriteBufferManagerInfo] ->
  shared_wf s -> length argv ∈ shared_arities n -> Forall (term_held s) argv ->
  acceptable argv (run_shared n argv) s.
Proof.
  intros Hn Hw Hl Ht. rewrite list_elem_of_In in Hn. destruct Hn as [<- | [<- | [<- | []]]]; known_args Hl argv.
  - left. unfold fine, NewWriteBufferManager. cbn [elem lookup list_lookup obind length Nat.eqb].
    destruct (enif_get_int _); [by apply create_fine | by apply answer_fine].
  - left. unfold fine, NewWriteBufferManager. cbn [elem lookup list_lookup obind length Nat.eqb].
    destruct (enif_get_int _) as [z|]; [| by apply answer_fine].
    apply Forall_cons in Ht as [_ Ht]. apply Forall_cons in Ht as [Ht _].
    destruct (get_wrapper_cases RCache _ s Ht) as [-> | (id & o & _ & -> & Ho & Hk)]; cbn [obind];
      [by apply answer_fine | by apply (charged_fine s id o)].
  - apply releasing_ok; [done | done | |].
    + intros id o p Ho Hk Hp. apply (copy_and_drop_well s id o p); try done. by rewrite Hk.
    + intros id o [Hk | Hk] Hk' _; congruence.
  - on_live. unfold fine. live_object Hw Ho Hk Hp. by apply answer_fine.
  - on_live. unfold fine. live_object Hw Ho Hk Hp. by apply answer_fine.
Qed.

Lemma dead_statistics o body s : w_pointer (object o) = None -> on_statistics o body s = Undef.
Proof. intros Hp. unfold on_statistics, object_of, pointer_of. by rewrite Hp. Qed.

Lemma statistics_nifs_ok n argv s :
  n ∈ [NNewStatistics; NReleaseStatistics; NSetStatsLevel; NStatisticsInfo; NStatisticsTicker; NStatisticsHistogram] ->
  shared_wf s -> length argv ∈ shared_arities n -> Forall (term_held s) argv ->
  acceptable argv (run_shared n argv) s.
Proof.
  intros Hn Hw Hl Ht. rewrite list_elem_of_In in Hn.
  destruct Hn as [<- | [<- | [<- | [<- | [<- | [<- | []]]]]]]; known_args Hl argv.
  - left. by apply create_fine.
  - apply releasing_ok; [done | done | |].
    + intros id o p Ho Hk Hp. apply (destroy_well s id o p); try done. by left.
    + intros id o _ _ Hp. unfold destroy_wrapper, pointer_of. by rewrite Hp.
  - apply statistics_call_ok; [done | done | |].
    + intros o p v x Hobj Hv Ev. unfold fine, on_statistics. rewrite Hobj. cbn [obind]. rewrite Ev.
      cbn [elem lookup list_lookup obind].
      destruct (StatsLevelAtomToEnum _); [apply set_fine; try done; same_kind Ev | by apply answer_fine].
    + intros o Hp. right. by apply dead_statistics.
  - apply statistics_call_ok; [done | done | |].
    + intros o p v x Hobj Hv Ev. unfold fine, on_statistics. rewrite Hobj. cbn [obind]. rewrite Ev. by apply answer_fine.
    + intros o Hp. right. by apply dead_statistics.
  - apply (statistics_call_ok t [t0]); [done | done | |]; cbn [elem lookup list_lookup obind].
    + intros o p v x Hobj Hv Ev. unfold fine. destruct (TickerAtomToEnum _); [| by apply answer_fine].
      unfold on_statistics. rewrite Hobj. cbn [obind]. rewrite Ev. by apply answer_fine.
    + intros o Hp. unfold fine. destruct (TickerAtomToEnum _); [right; by apply dead_statistics | left; by apply answer_fine].
  - apply (statistics_call_ok t [t0]); [done | done | |]; cbn [elem lookup list_lookup obind].
    + intros o p v x Hobj Hv Ev. unfold fine. destruct (HistogramAtomToEnum _); [| by apply answer_fine].
      unfold on_statistics. rewrite Hobj. cbn [obind]. rewrite Ev. by apply answer_fine.
    + intros o Hp. unfold fine. destruct (HistogramAtomToEnum _); [right; by apply dead_statistics | left; by apply answer_fine].
Qed.

Lemma shared_call_ok n argv s :
  shared_wf s -> length argv ∈ shared_arities n -> Forall (term_held s) argv -> acceptable argv (run_shared n argv) s.
Proof.
  intros Hw Hl Ht. destruct n;
    first [ apply cache_nifs_ok; [rewrite list_elem_of_In; cbn; tauto | done | done | done]
          | apply env_nifs_ok; [rewrite list_elem_of_In; cbn; tauto | done | done | done]
          | apply manager_nifs_ok; [rewrite list_elem_of_In; cbn; tauto | done | done | done]
          | apply buffer_nifs_ok; [rewrite list_elem_of_In; cbn; tauto | done | done | done]
          | apply statistics_nifs_ok; [rewrite list_elem_of_In; cbn; tauto | done | done | done] ].
Qed.

(** ** Events of the runtime and of databases *)

Lemma retermed_well s id o o' :
  shared_wf s -> r_handles s !! id = Some o -> object o' = object o ->
  went_well s (with_handles s (<[id := o']> (r_handles s))).
Proof.
  intros [Hs Hb] Hh Ho. split; [split | done].
  - apply shaped_handle_set; [done |]. rewrite Ho. by eapply shaped_good.
  - intros q. change (counted (with_handles s (<[id := o']> (r_handles s))) q) with (counted s q).
    pose proof (users_handle_replaced s id o o' q Hh) as H. rewrite Ho in H. rewrite Hb. lia.
Qed.

Lemma shaped_holds s l : shaped s -> shaped (with_holds s l).
Proof. intros [H1 H2 H3 H4 H5 H6]. by split. Qed.

Lemma hold_well s id o :
  shared_wf s -> r_handles s !! id = Some o ->
  (w_pointer (object o) = None /\ hold_pointer id s = Undef) \/ (exists s', hold_pointer id s = Ok s' /\ went_well s s').
Proof.
  intros Hw Hh. unfold hold_pointer, pointer_of. rewrite Hh. destruct (w_pointer (object o)) as [p|] eqn:Hp; [right | by left].
  cbn [obind]. destruct (decide (w_kind (object o) = REnv)) as [Hk | Hk]; [exists s; split; [done | by apply well_refl] |].
  destruct (object_alive s id o p Hw Hh Hp) as (v & _ & Hv & Hf).
  destruct (copy_over s p v Hw Hv) as (s1 & -> & [Hs1 Hb1] & Hl & _); [by destruct (w_kind (object o)), (value v) |].
  cbn [obind]. eexists. split; [reflexivity |]. split; [split |].
  - by apply shaped_holds.
  - intros q. change (counted (with_holds s1 (p :: r_holds s1)) q) with (counted s1 q). rewrite Hb1, at_opt_some.
    unfold users, at_ptr. cbn. destruct (Nat.eq_dec p q), (decide (p = q)); try done; lia.
  - cbn. by rewrite Hl.
Qed.

Lemma remove_one_count p l q :
  p ∈ l -> count_occ Nat.eq_dec l q = (at_ptr p q + count_occ Nat.eq_dec (remove_one p l) q)%nat.
Proof.
  induction l as [|x l IH]; intros Hp; [by apply elem_of_nil in Hp |]. cbn [remove_one].
  destruct (decide (p = x)) as [<- | Hne].
  - cbn. unfold at_ptr. destruct (Nat.eq_dec p q), (decide (p = q)); done.
  - apply elem_of_cons in Hp as [? | Hp]; [done |]. cbn. rewrite (IH Hp). destruct (Nat.eq_dec x q); lia.
Qed.

Lemma unhold_well s p : shared_wf s -> p ∈ r_holds s -> exists s', unhold_pointer p s = Ok s' /\ went_well s s'.
Proof.
  intros [Hs Hb] Hp. destruct (drop_over (with_holds s (remove_one p (r_holds s))) p) as (s' & Hd & _ & _ & Hw).
  - split; [by apply shaped_holds |]. intros q.
    change (counted (with_holds s (remove_one p (r_holds s))) q) with (counted s q). rewrite Hb, at_opt_some.
    unfold users. cbn [with_holds r_handles r_objects r_holds r_leaked].
    rewrite (remove_one_count p (r_holds s) q Hp). lia.
  - exists s'. split; [done |]. split; [done |]. by rewrite (drop_leaked _ _ _ Hd).
Qed.

(** Every event that can happen goes well, or is undefined on a destroyed wrapper. *)
Lemma shared_event_ok s e :
  shared_wf s -> shared_possible s e ->
  (shared_step e s = Undef /\ touches_destroyed s e) \/ (exists s', shared_step e s = Ok s' /\ went_well s s').
Proof.
  intros Hw Hp. destruct e as [n argv | id | id | id | p]; cbn [shared_step].
  - destruct Hp as [Hl Ht]. destruct (shared_call_ok n argv s Hw Hl Ht) as [(s' & r & -> & Hs) | [-> (id & o & k & Ho & Hpo & Hin)]].
    + right. by exists s'.
    + left. split; [done |]. exists id, o. split_and!; [done | done | by exists k].
  - right. destruct Hp as (o & Ho & _). eexists. split; [reflexivity |].
    unfold add_term. rewrite <- (insert_id (r_handles s) id o) by done. rewrite alter_insert_eq.
    by apply (retermed_well s id o).
  - destruct Hp as (o & Ho & Ht). unfold collect_handle. rewrite Ho. destruct (unused (less_term o)).
    + destruct (finish_well s id o Hw Ho) as [[Hpo ->] | H]; [left | by right].
      split; [done |]. by exists id, o.
    + right. eexists. split; [reflexivity |]. by apply (retermed_well s id o).
  - destruct Hp as (o & Ho & _). destruct (hold_well s id o Hw Ho) as [[Hpo ->] | H]; [left | by right].
    split; [done |]. by exists id, o.
  - right. by apply unhold_well.
Qed.

Lemma start_wf : shared_wf shared_start.
Proof.
  split; [split |]; cbn [shared_start r_handles r_objects].
  - intros p o Hp He. apply lookup_singleton_Some in Hp as [_ <-]. done.
  - intros id o p v H. by rewrite lookup_empty in H.
  - intros id o p H. by rewrite lookup_empty in H.
  - intros id o H. by rewrite lookup_empty in H.
  - intros p v c u Hp Hc. apply lookup_singleton_Some in Hp as [_ <-]. done.
  - eexists. by rewrite lookup_singleton_eq.
  - intros p. unfold counted, users, count. cbn [shared_start r_objects r_handles r_holds r_leaked].
    rewrite map_filter_empty, map_size_empty, map_filter_singleton_False by done. rewrite map_size_empty.
    destruct (decide (p = default_env)) as [-> | Hne]; [by rewrite lookup_singleton_eq | by rewrite lookup_singleton_ne].
Qed.

Lemma shared_steps_well s s' : shared_steps s s' -> shared_wf s -> went_well s s'.
Proof.
  induction 1 as [s | s e s1 s2 Hp He _ IH]; intros Hw; [by apply well_refl |].
  destruct (shared_event_ok s e Hw Hp) as [[H _] | (s' & H & Hw1 & Hl1)]; [congruence |].
  rewrite H in He. simplify_eq. destruct (IH Hw1) as [Hw2 Hl2]. split; [done |]. by transitivity (r_leaked s1).
Qed.

(** ** Theorems *)

(** C30.  From the start, through any calls with any arguments, any copying and
    collecting of handles, and databases taking and giving back pointers: the use
    count of every shared object is exactly the number of wrappers, databases, write
    buffer managers and abandoned pointers that point to it; whatever is pointed to
    exists, and an object that exists is pointed to; and an event that can happen is
    undefined only if it touches a wrapper whose destructor has already run. *)
Theorem shared_lifetime s :
  shared_steps shared_start s ->
  (forall p o, r_objects s !! p = Some o -> is_env (value o) = false ->
     use_count o = users s p /\ (0 < users s p)%nat) /\
  (forall p, (0 < users s p)%nat -> is_Some (r_objects s !! p)) /\
  (forall e, shared_possible s e -> shared_step e s = Undef -> touches_destroyed s e).
Proof.
  intros Hsteps. destruct (shared_steps_well _ _ Hsteps start_wf) as [Hw _]. split_and!.
  - intros p o Hp He. assert (use_count o = users s p) as Hu.
    { rewrite <- (proj2 Hw p). unfold counted. by rewrite Hp, He. }
    split; [done |]. rewrite <- Hu. by apply (sh_pos s (proj1 Hw) p o).
  - intros p Hu. by apply used_object.
  - intros e Hp Hu. destruct (shared_event_ok s e Hw Hp) as [[_ H] | (s' & H & _)]; [done | congruence].
Qed.

(** [release_statistics] runs the destructor of a handle that still exists: after
    it, reading a ticker or the level, releasing again, giving the handle to a
    database, and the collection of its last term are all undefined. *)
Theorem released_statistics_undefined s s1 id ticker :
  term_held s (Tres RStatistics id) ->
  run_shared NReleaseStatistics [Tres RStatistics id] s = Ok (s1, Reply ATOM_OK) ->
  is_Some (TickerAtomToEnum ticker) ->
  StatisticsTicker [Tres RStatistics id; ticker] s1 = Undef /\ StatisticsInfo [Tres RStatistics id] s1 = Undef /\
  ReleaseStatistics [Tres RStatistics id] s1 = Undef /\ hold_pointer id s1 = Undef /\
  (forall o, r_handles s1 !! id = Some o -> unused (less_term o) = true -> collect_handle id s1 = Undef).
Proof.
  intros (o & Ho & _ & Hk) Hrel [tk Htk].
  assert (Hdead : exists o', r_handles s1 !! id = Some o' /\ w_pointer (object o') = None /\ w_kind (object o') = RStatistics).
  { cbn [run_shared] in Hrel. unfold ReleaseStatistics, releasing, get_wrapper in Hrel.
    cbn [elem lookup list_lookup obind enif_get_resource] in Hrel. rewrite decide_True in Hrel by done.
    rewrite Ho in Hrel. cbn [obind] in Hrel. unfold destroy_wrapper in Hrel.
    destruct (pointer_of o) as [p|]; [| done]. cbn [obind] in Hrel.
    destruct (drop_pointer p s) as [s2|]; [| done]. cbn [obind] in Hrel. simplify_eq.
    eexists. cbn. rewrite lookup_insert_eq. by split. }
  destruct Hdead as (o' & Ho' & Hp & Hk').
  assert (Hget : get_wrapper RStatistics (Tres RStatistics id) s1 = Ok (Some (id, o'))).
  { unfold get_wrapper. cbn [enif_get_resource]. rewrite decide_True by done. by rewrite Ho'. }
  assert (Hptr : pointer_of o' = Undef) by (unfold pointer_of; by rewrite Hp).
  unfold StatisticsTicker, StatisticsInfo, ReleaseStatistics, on_wrapper, releasing.
  cbn [elem lookup list_lookup obind]. rewrite Hget. cbn [obind]. rewrite Htk.
  split_and!; [by apply dead_statistics | by apply dead_statistics | | |].
  - unfold destroy_wrapper. by rewrite Hptr.
  - unfold hold_pointer. by rewrite Ho', Hptr.
  - intros o2 Ho2 Hun. assert (o2 = o') as -> by congruence. unfold collect_handle. rewrite Ho', Hun.
    unfold finish_handle. rewrite Hk'. cbn [cleaned]. unfold destroy_wrapper. by rewrite Hptr.
Qed.

(** A rate limiter whose handle is collected without [release_rate_limiter] is
    never destroyed, whatever happens afterwards. *)
Theorem limiter_leaks s s1 s2 id o p :
  shared_steps shared_start s -> r_handles s !! id = Some o -> w_kind (object o) = RRateLimiter ->
  w_pointer (object o) = Some p -> terms o = 1%nat -> keeps o = 0%nat ->
  shared_step (RCollect id) s = Ok s1 -> shared_steps s1 s2 ->
  r_handles s1 !! id = None /\ is_Some (r_objects s2 !! p).
Proof.
  intros Hsteps Ho Hk Hp Ht Hkp Hc Hsteps2. destruct (shared_steps_well _ _ Hsteps start_wf) as [Hw _].
  cbn [shared_step] in Hc. unfold collect_handle in Hc. rewrite Ho in Hc. unfold unused, less_term in Hc.
  cbn [terms keeps] in Hc. rewrite Ht, Hkp in Hc. cbn in Hc. unfold finish_handle in Hc. rewrite Hk in Hc.
  cbn [cleaned obind] in Hc. pose proof (leak_wf s id o Hw Ho) as [Hw1 _]. cbv zeta in Hw1.
  assert (Hsh : shares (object o) = Some p) by (apply shares_pointer; [by rewrite Hk | done]). rewrite Hsh in *.
  injection Hc as <-. split; [cbn; apply lookup_delete_eq |].
  destruct (shared_steps_well _ _ Hsteps2 Hw1) as [Hw2 [l Hl]]. apply used_object; [done |].
  unfold users. rewrite Hl, count_occ_app. cbn. destruct (Nat.eq_dec p p); [lia | done].
Qed.

End System.

(** ** Levels *)

(** What [rocksdb/statistics.h] documents of the level. *)
Class SharedLaws `(RL : SharedLib) : Prop := {
  stats_level_set : forall l t, get_stats_level (set_stats_level l t) = l;
}.

Section Levels.
Context `{RW : SharedLaws}.

(** The handle works and keeps pointing to its object. *)
Definition points_to (s : rsys) (k : res_kind) (id p : nat) (v : shared) : Prop :=
  exists o, r_handles s !! id = Some o /\ w_pointer (object o) = Some p /\ r_objects s !! p = Some v.

Lemma on_wrapper_at k id rest body s p v o :
  r_handles s !! id = Some o -> w_pointer (object o) = Some p -> r_objects s !! p = Some v ->
  on_wrapper k (Tres k id :: rest) body s = body id o s /\ object_of o s = Ok (p, v).
Proof.
  intros Ho Hp Hv. unfold on_wrapper, get_wrapper, object_of, pointer_of.
  cbn [elem lookup list_lookup obind enif_get_resource]. rewrite decide_True by done. rewrite Ho, Hp.
  cbn [obind]. by rewrite Hv.
Qed.

(** [statistics_info] answers the level that [set_stats_level] was given, except
    for [stats_except_tickers], which reads back as [stats_disable_all]; an unknown
    level is answered with ok and changes nothing. *)
Theorem stats_level_roundtrip s id p v :
  points_to s RStatistics id p v -> (exists t, value v = OStatistics t) ->
  (forall a l, (a, l) ∈ stats_levels -> exists s1,
     SetStatsLevel [Tres RStatistics id; Tatom a] s = Ok (s1, Reply ATOM_OK) /\
     StatisticsInfo [Tres RStatistics id] s1 =
       Ok (s1, Reply (Tcons (Ttuple [Tatom "stats_level";
          Tatom (if decide (a = "stats_except_tickers"%string) then "stats_disable_all" else a)]) Tnil))) /\
  (forall t, StatsLevelAtomToEnum t = None ->
     SetStatsLevel [Tres RStatistics id; t] s = Ok (s, Reply ATOM_OK)).
Proof.
  intros (o & Ho & Hp & Hv) [t Ht]. unfold SetStatsLevel, StatisticsInfo. split.
  - intros a l Ha. assert (Hfind : StatsLevelAtomToEnum (Tatom a) = Some l /\
      StatsLevelEnumToAtom l = Tatom (if decide (a = "stats_except_tickers"%string) then "stats_disable_all" else a)).
    { rewrite list_elem_of_In in Ha. cbn in Ha. repeat destruct Ha as [[= <- <-] | Ha]; done. }
    destruct Hfind as [Hfind Hatom].
    eexists. split.
    + destruct (on_wrapper_at RStatistics id [Tatom a] (fun _ o => on_statistics o (fun p v t s =>
        let! t1 := elem [Tres RStatistics id; Tatom a] 1 in
        match StatsLevelAtomToEnum t1 with
        | Some l => Ok (set_value p v (OStatistics (set_stats_level l t)) s, Reply ATOM_OK)
        | None => Ok (s, Reply ATOM_OK) end)) s p v o Ho Hp Hv) as [-> Hobj].
      unfold on_statistics. rewrite Hobj. cbn [obind]. rewrite Ht. cbn [elem lookup list_lookup obind].
      rewrite Hfind. reflexivity.
    + edestruct (on_wrapper_at RStatistics id [] ) as [-> Hobj]; [| | |].
      * cbn. exact Ho.
      * exact Hp.
      * cbn. apply lookup_insert_eq.
      * unfold on_statistics. rewrite Hobj. cbn [obind value]. by rewrite stats_level_set, Hatom.
  - intros t' Hn.
    edestruct (on_wrapper_at RStatistics id [t']) as [-> Hobj]; [exact Ho | exact Hp | exact Hv |].
    unfold on_statistics. rewrite Hobj. cbn [obind]. rewrite Ht. cbn [elem lookup list_lookup obind]. by rewrite Hn.
Qed.

End Levels.

(** ** Witnesses *)

Module SharedWitness.

(** Caches as capacity and flag, managers as their rate, statistics as their level. *)
#[local] Instance the_shared : SharedLib := {|
  cache := Z * bool; NewLRUCache n := (n, false); HyperClockCache n := (n, true);
  GetUsage _ := 0; GetPinnedUsage _ := 0; GetCapacity c := c.1; HasStrictCapacityLimit c := c.2;
  cache_SetCapacity n c := (n, c.2); cache_SetStrict b c := (c.1, b);
  limiter := Z * bool; NewGenericRateLimiter n b := (n, b);
  renv := Z; DefaultEnv := 1; NewMemEnv := 1; SetBackgroundThreads n _ _ := n;
  sfm := Z; new_sfm _ n _ _ := (n, StatusOK); sfm_set _ m := m; GetTotalSize _ := 0;
  GetDeleteRateBytesPerSecond m := m; GetMaxTrashDBRatio _ := 0; GetTotalTrashSize _ := 0;
  IsMaxAllowedSpaceReached _ := false; IsMaxAllowedSpaceReachedIncludingCompactions _ := false;
  GetTrackedFiles _ := [];
  wbm := Z; new_wbm n := n; memory_usage _ := 0; mutable_memtable_memory_usage _ := 0; buffer_size n := n;
  wbm_enabled n := 0 <? n;
  statistics := StatsLevel; CreateDBStatistics := kExceptDetailedTimers; set_stats_level l _ := l;
  get_stats_level l := l; getTickerCount _ _ := 0;
  histogramData _ _ := {| median := 0; percentile95 := 0; percentile99 := 0; average := 0;
    standard_deviation := 0; hist_max := 0; hist_count := 0; hist_sum := 0 |};
|}.

#[local] Instance the_shared_laws : SharedLaws the_shared.
Proof. by split. Qed.

Fixpoint rplay (l : list shared_event) (s : rsys) : rsys :=
  match l with
  | [] => s
  | e :: r => match shared_step e s with Ok s1 => rplay r s1 | Undef => s end
  end.

Definition term_held_b (s : rsys) (t : term) : bool :=
  match t with
  | Tres k id => match r_handles s !! id with
                 | Some o => (0 <? terms o)%nat && bool_decide (w_kind (object o) = k)
                 | None => false
                 end
  | _ => true
  end.

Definition has_handle (s : rsys) (id : nat) : bool :=
  match r_handles s !! id with Some o => (0 <? terms o)%nat | None => false end.

Definition shared_possible_b (s : rsys) (e : shared_event) : bool :=
  match e with
  | RCall n argv => bool_decide (length argv ∈ shared_arities n) && forallb (term_held_b s) argv
  | RCopy id | RCollect id | RHold id => has_handle s id
  | RUnhold p => bool_decide (p ∈ r_holds s)
  end.

Fixpoint rplays (l : list shared_event) (s : rsys) : bool :=
  match l with
  | [] => true
  | e :: r => shared_possible_b s e && match shared_step e s with Ok s1 => rplays r s1 | Undef => false end
  end.

Lemma term_held_ok s t : term_held_b s t = true -> term_held s t.
Proof.
  destruct t; try done. cbn. destruct (r_handles s !! id) as [o|]; [| done]. rewrite andb_true_iff, bool_decide_eq_true.
  intros [H Hk]. exists o. split_and!; [done | by apply Nat.ltb_lt | done].
Qed.

Lemma has_handle_ok s id : has_handle s id = true -> handle_held s id.
Proof.
  unfold has_handle. destruct (r_handles s !! id) as [o|] eqn:E; [| done]. intros H. exists o.
  split; [done |]. by apply Nat.ltb_lt.
Qed.

Lemma shared_possible_ok s e : shared_possible_b s e = true -> shared_possible s e.
Proof.
  destruct e; cbn; [| apply has_handle_ok | apply has_handle_ok | apply has_handle_ok | apply bool_decide_eq_true].
  rewrite andb_true_iff, bool_decide_eq_true. intros [Hl Ht]. split; [done |]. apply Forall_forall.
  intros t Hin. apply term_held_ok. apply (proj1 (forallb_forall _ _) Ht). by apply list_elem_of_In.
Qed.

Lemma rplays_ok l : forall s, rplays l s = true -> shared_steps s (rplay l s).
Proof.
  induction l as [|e l IH]; intros s H; [constructor |]. cbn [rplays rplay] in *.
  apply andb_true_iff in H as [Hp H]. destruct (shared_step e s) as [s1|] eqn:E; [| done].
  eapply shared_more; [by apply shared_possible_ok | exact E | by apply IH].
Qed.

(** A cache (handle 0), a manager charged to it (1), statistics (2) and a rate limiter
    (3); a database takes the cache and the handle of the cache is collected. *)
Definition rhistory : list shared_event :=
  [RCall NNewCache [Tatom "lru"; Tint 100]; RCall NNewWriteBufferManager [Tint 10; Tres RCache 0];
   RCall NNewStatistics []; RCall NNewRateLimiter [Tint 5; Tatom "true"]; RHold 0; RCollect 0].

Definition rnow : rsys := rplay rhistory shared_start.

Lemma reached_rnow : shared_steps shared_start rnow.
Proof. apply rplays_ok. vm_compute. reflexivity. Qed.

(** The database and the manager still use the cache. *)
Lemma shared_lifetime_witness :
  exists o, r_objects rnow !! 1%nat = Some o /\ use_count o = users rnow 1 /\ users rnow 1 = 2%nat.
Proof.
  destruct (shared_lifetime rnow reached_rnow) as (H & _ & _).
  destruct (r_objects rnow !! 1%nat) as [o|] eqn:E; [| vm_compute in E; discriminate E].
  exists o. split; [reflexivity |].
  assert (He : is_env (value o) = false) by (vm_compute in E; injection E as <-; reflexivity).
  split; [exact (proj1 (H 1%nat o E He)) | vm_compute; reflexivity].
Defined.

Definition rafter (r : outcome (rsys * reply)) : rsys := match r with Ok (s, _) => s | Undef => rnow end.
Definition ranswer (r : outcome (rsys * reply)) : option reply := match r with Ok (_, a) => Some a | Undef => None end.

Lemma rafter_ok r a : ranswer r = Some a -> r = Ok (rafter r, a).
Proof. destruct r as [[s b]|]; [| done]. by intros [= ->]. Qed.

Definition rreleased : rsys := rafter (run_shared NReleaseStatistics [Tres RStatistics 2] rnow).

Lemma released_statistics_undefined_witness :
  StatisticsTicker [Tres RStatistics 2; Tatom "bytes_read"] rreleased = Undef /\
  StatisticsInfo [Tres RStatistics 2] rreleased = Undef.
Proof.
  destruct (released_statistics_undefined rnow rreleased 2 (Tatom "bytes_read")) as (H1 & H2 & _).
  - apply term_held_ok. vm_compute. reflexivity.
  - apply rafter_ok. vm_compute. reflexivity.
  - eexists. vm_compute. reflexivity.
  - split; [exact H1 | exact H2].
Defined.

End SharedWitness.
