(* ===== verification/OpenShared.v ===== *)
(** * Databases and the objects they share

    A database is opened with options that carry caches, rate limiters, file and
    write buffer managers and statistics: the parsers copy the shared pointers of the
    handles into the options, RocksDB keeps them with the database, and they go when
    the database object is destroyed.

    The handles of [RefObjects], the opening of [DbOpen] with the parsers of [Options],
    and the shared pointers of [Shared] as one system, in which the counts of
    [SharedLife] stay exact and what an open database uses is alive, whatever Erlang
    releases or forgets. *)

From stdpp Require Import base list numbers strings gmap.
From Stdlib Require Import ZArith Lia.
From S2P Require Import Prelude Terms RefObjects RefInv RefSystem HandleNif HandleGrow CompactionFilter Options DbLib DbOpen Sst Shared SharedLife.

(** ** The handles in options *)

(** Every handle that was assigned to a field, of nested options too. *)
Fixpoint assigned_handles (v : val) : list nat :=
  match v with
  | VHandle _ id => [id]
  | VStruct fields => concat (map (fun e => assigned_handles e.2) fields)
  | VList l => concat (map assigned_handles l)
  | _ => []
  end.

(** Those that are still there when the options are read: the last assignment of
    each field. *)
Fixpoint kept_handles (v : val) : list nat :=
  match v with
  | VHandle _ id => [id]
  | VStruct fields =>
      (fix go (seen : list string) (l : list (string * val)) : list nat :=
         match l with
         | [] => []
         | (f, x) :: r => if decide (f ∈ seen) then go seen r else kept_handles x ++ go (f :: seen) r
         end) [] fields
  | VList l => concat (map kept_handles l)
  | _ => []
  end.

(** ** The system *)

Section System.
Context `{RL : SharedLib} (increase_parallelism optimize_level_style : Z -> struct)
  (lib_open : bool -> struct -> struct -> bytes -> Status).

(** [q_held]: the shared pointers in the options of each database. *)
Record qsys := { q_db : osys; q_shared : rsys; q_held : gmap nat (list nat) }.

Definition qheap (s : qsys) : heap := o_heap (q_db s).

Definition with_qheap (s : qsys) (h : heap) : qsys :=
  {| q_db := with_oheap (q_db s) h; q_shared := q_shared s; q_held := q_held s |}.

(** [opts.x = handle->x()] in a parser, and the end of the options. *)
Definition touch (id : nat) (s : rsys) : outcome rsys :=
  match r_handles s !! id with
  | None => Undef
  | Some o => if decide (w_kind (object o) = REnv) then let! _ := pointer_of o in Ok s
              else copy_and_drop o s
  end.

Fixpoint touch_all (ids : list nat) (s : rsys) : outcome rsys :=
  match ids with
  | [] => Ok s
  | id :: r => let! s1 := touch id s in touch_all r s1
  end.

(** The pointer a database takes from a handle; that of an environment is plain. *)
Definition shared_of (id : nat) (s : rsys) : list nat :=
  match r_handles s !! id with Some o => option_list (shares (object o)) | None => [] end.

Fixpoint hold_all (ids : list nat) (s : rsys) : outcome (rsys * list nat) :=
  match ids with
  | [] => Ok (s, [])
  | id :: r =>
      let! s1 := hold_pointer id s in
      let! (s2, ps) := hold_all r s1 in
      Ok (s2, shared_of id s ++ ps)
  end.

Fixpoint unhold_all (ps : list nat) (s : rsys) : outcome rsys :=
  match ps with
  | [] => Ok s
  | p :: r => let! s1 := unhold_pointer p s in unhold_all r s1
  end.

(** The options a call of [open/2] parses. *)
Definition open_options (argv : list term) : outcome val :=
  let! t1 := elem argv 1 in
  let! (db_opts, _) := fold (parse_db_option increase_parallelism) t1 [] in
  let! (cf_opts, _) := fold (parse_cf_option optimize_level_style) t1 [] in
  Ok (VList [VStruct db_opts; VStruct cf_opts]).

(** [open/2] and [open_readonly/2]: the options are parsed when the arguments are a
    name and a list; a database that was opened keeps the pointers. *)
Definition open_shared (read_only : bool) (argv : list term) (s : qsys) : outcome (qsys * reply) :=
  let! (o1, rep) := Open increase_parallelism optimize_level_style lib_open read_only (q_db s) argv in
  match rep with
  | Badarg => Ok ({| q_db := o1; q_shared := q_shared s; q_held := q_held s |}, rep)
  | Reply t =>
      let! opts := open_options argv in
      let! r1 := touch_all (assigned_handles opts) (q_shared s) in
      match t with
      | Ttuple [ok; Tres RDb d] =>
          let! (r2, ps) := hold_all (kept_handles opts) r1 in
          Ok ({| q_db := o1; q_shared := r2; q_held := <[d := ps]> (q_held s) |}, rep)
      | _ => Ok ({| q_db := o1; q_shared := r1; q_held := q_held s |}, rep)
      end
  end.

(** The databases whose destructor has run give their pointers back. *)
Definition destroyed_dbs (s : qsys) : list nat :=
  filter (fun d => destructor_done (qheap s) d = true) (map_to_list (q_held s)).*1.

Fixpoint give_back (ds : list nat) (s : qsys) : outcome qsys :=
  match ds with
  | [] => Ok s
  | d :: r =>
      let! r1 := unhold_all (default [] (q_held s !! d)) (q_shared s) in
      give_back r {| q_db := q_db s; q_shared := r1; q_held := delete d (q_held s) |}
  end.

Definition settle (s : qsys) : outcome qsys := give_back (destroyed_dbs s) s.

(** A call on a shared object or the runtime copying or collecting a handle of one,
    opening a database, a call that closes or creates handles of databases, or the
    runtime collecting such a handle. *)
Inductive q_event :=
| QShared (e : shared_event)
| QOpen (read_only : bool) (argv : list term)
| QNif (n : handle_nif) (argv : list term)
| QCleanup (id : nat).

Definition q_step (e : q_event) (s : qsys) : outcome qsys :=
  match e with
  | QShared e =>
      let! r := shared_step e (q_shared s) in
      Ok {| q_db := q_db s; q_shared := r; q_held := q_held s |}
  | QOpen read_only argv => let! (s1, _) := open_shared read_only argv s in Ok s1
  | QNif n argv =>
      let! (h, _) := run_nif (is_optimistic (o_flags (q_db s))) n (qheap s) argv in settle (with_qheap s h)
  | QCleanup id => let! (h, _) := ResourceCleanup (qheap s) id in settle (with_qheap s h)
  end.

(** Events of Erlang: terms it has, and room for the references. *)
Definition q_possible (s : qsys) (e : q_event) : Prop :=
  match e with
  | QShared (RHold _ | RUnhold _) => False
  | QShared e => shared_possible (q_shared s) e
  | QOpen _ argv => length argv = 2%nat /\
      forall opts id, open_options argv = Ok opts -> id ∈ assigned_handles opts -> handle_held (q_shared s) id
  | QNif n argv => ample (qheap s) [] /\ Forall (valid_term (qheap s)) argv /\
      (nif_arity n <= length argv)%nat /\ cf_handles (qheap s)
  | QCleanup id => ample (qheap s) [] /\ is_Some (qheap s !! id)
  end.

(** What makes an event undefined: a handle whose destructor was run by a release
    function, a compression type RocksDB does not know, or [transaction/2] on a
    database that was not opened as an optimistic transaction database. *)
Definition q_misuse (s : qsys) (e : q_event) : Prop :=
  match e with
  | QShared e => touches_destroyed (q_shared s) e
  | QOpen _ argv =>
      (exists t item, argv !! 1%nat = Some t /\ item ∈ list_cells t /\ bad_compression item) \/
      (exists opts id o, open_options argv = Ok opts /\ id ∈ assigned_handles opts /\
         r_handles (q_shared s) !! id = Some o /\ w_pointer (object o) = None)
  | QNif NNewTransaction argv =>
      exists d, argv !! 0%nat = Some (Tres RDb d) /\ is_optimistic (o_flags (q_db s)) d = false
  | _ => False
  end.

Definition q_start : qsys :=
  {| q_db := {| o_heap := ∅; o_flags := ∅; o_families := ∅ |}; q_shared := shared_start; q_held := ∅ |}.

Inductive q_reachable : qsys -> Prop :=
| q_init : q_reachable q_start
| q_more s e s' : q_reachable s -> q_possible s e -> q_step e s = Ok s' -> q_reachable s'.

End System.

(** ** What calls leave alone: the pointers of databases *)

Section Frame.
Context `{RL : SharedLib}.

Definition holds_kept (s s' : rsys) : Prop := r_holds s' = r_holds s.

Lemma drop_one_holds p s s' d : drop_one p s = Ok (s', d) -> holds_kept s s'.
Proof. unfold drop_one. intros H. repeat (case_match; try done); by simplify_eq. Qed.

Lemma drop_pointer_holds p s s' : drop_pointer p s = Ok s' -> holds_kept s s'.
Proof.
  unfold drop_pointer. destruct (drop_one p s) as [[s1 d]|] eqn:E; [| done]. cbn [obind].
  apply drop_one_holds in E. intros H. destruct d as [[| | |w [c|]| |]|]; try by simplify_eq.
  destruct (drop_one c s1) as [[s2 d2]|] eqn:E2; [| done]. cbn [obind] in H. simplify_eq.
  apply drop_one_holds in E2. unfold holds_kept in *. congruence.
Qed.

Lemma copy_pointer_holds p s s' : copy_pointer p s = Ok s' -> holds_kept s s'.
Proof. unfold copy_pointer. intros H. case_match; by simplify_eq. Qed.

Lemma copy_and_drop_holds o s s' : copy_and_drop o s = Ok s' -> holds_kept s s'.
Proof.
  unfold copy_and_drop. destruct (pointer_of o) as [p|]; [| done]. cbn [obind].
  destruct (copy_pointer p s) as [s1|] eqn:E; [| done]. cbn [obind]. intros H.
  apply copy_pointer_holds in E. apply drop_pointer_holds in H. unfold holds_kept in *. congruence.
Qed.

Lemma destroy_wrapper_holds id o s s' : destroy_wrapper id o s = Ok s' -> holds_kept s s'.
Proof.
  unfold destroy_wrapper. destruct (pointer_of o) as [p|]; [| done]. cbn [obind].
  destruct (drop_pointer p s) as [s1|] eqn:E; [| done]. cbn [obind]. intros [= <-].
  by apply drop_pointer_holds in E.
Qed.

Lemma drop_pointer_same p s s' : drop_pointer p s = Ok s' -> r_handles s' = r_handles s.
Proof.
  assert (H1 : forall p s s1 d, drop_one p s = Ok (s1, d) -> r_handles s1 = r_handles s).
  { unfold drop_one. intros q t t1 d H. repeat (case_match; try done); by simplify_eq. }
  unfold drop_pointer. destruct (drop_one p s) as [[s1 d]|] eqn:E; [| done]. cbn [obind]. apply H1 in E.
  intros H. destruct d as [[| | |w [c|]| |]|]; try by simplify_eq.
  destruct (drop_one c s1) as [[s2 d2]|] eqn:E2; [| done]. cbn [obind] in H. apply H1 in E2. simplify_eq. congruence.
Qed.

Lemma collect_holds id s s' : collect_handle id s = Ok s' -> holds_kept s s'.
Proof.
  unfold collect_handle, finish_handle. destruct (r_handles s !! id) as [o|]; [| done].
  destruct (unused _); [| by intros [= <-]]. destruct (cleaned _); [| by intros [= <-]].
  destruct (destroy_wrapper id o s) as [s1|] eqn:E; [| done]. cbn [obind]. intros [= <-].
  by apply destroy_wrapper_holds in E.
Qed.

Ltac holds_tac :=
  repeat match goal with
  | H : copy_pointer _ _ = Ok _ |- _ => apply copy_pointer_holds in H
  | H : copy_and_drop _ _ = Ok _ |- _ => apply copy_and_drop_holds in H
  | H : destroy_wrapper _ _ _ = Ok _ |- _ => apply destroy_wrapper_holds in H
  end.

Lemma shared_call_holds n argv s s' r : run_shared n argv s = Ok (s', r) -> holds_kept s s'.
Proof.
  intros H. destruct n; cbn [run_shared] in H;
    unfold NewCache, ReleaseCache, CacheInfo, SetCapacity, SetStrictCapacityLimit, NewRateLimiter,
      ReleaseRateLimiter, NewEnv, SetEnvBackgroundThreads, DestroyEnv, NewSstFileManager, ReleaseSstFileManager,
      SstFileManagerFlag, SstFileManagerInfo, SstFileManagerTrackedFiles, NewWriteBufferManager,
      ReleaseWriteBufferManager, WriteBufferManagerInfo, NewStatistics, ReleaseStatistics, SetStatsLevel,
      StatisticsInfo, StatisticsTicker, StatisticsHistogram, releasing, on_wrapper, on_cache, on_manager,
      on_statistics, make_object, new_handle in H; cbv zeta in H;
    repeat bind_step H; injection H as <- <-; holds_tac; unfold holds_kept in *;
    cbn [r_holds with_handles with_objects set_value fst] in *; congruence.
Qed.

Lemma shared_event_holds e s s' :
  match e with RHold _ | RUnhold _ => False | _ => True end -> shared_step e s = Ok s' -> holds_kept s s'.
Proof.
  destruct e; intros He H; cbn [shared_step] in H; try done.
  - destruct (run_shared n argv s) as [[s1 r]|] eqn:E; [| done]. cbn [obind] in H. injection H as <-.
    by eapply shared_call_holds.
  - by injection H as <-.
  - by apply collect_holds in H.
Qed.
End Frame.

(** ** Taking and giving back pointers *)

Section Pointers.
Context `{RL : SharedLib}.

(** What happens to the pointers only: handles and counts are in order. *)
Definition pointers_only (s s' : rsys) (l : list nat) : Prop :=
  shared_wf s' /\ r_handles s' = r_handles s /\ r_holds s' ≡ₚ l.

(** The handles still have their pointers. *)
Definition intact (s : rsys) (ids : list nat) : Prop :=
  forall id, id ∈ ids -> exists o p, r_handles s !! id = Some o /\ w_pointer (object o) = Some p.

Lemma intact_cons s id ids : intact s (id :: ids) -> intact s [id] /\ intact s ids.
Proof. intros H. split; intros j Hj; apply H; [apply list_elem_of_singleton in Hj as ->; by left | by right]. Qed.

Lemma touch_ok s id :
  shared_wf s -> intact s [id] -> exists s', touch id s = Ok s' /\ pointers_only s s' (r_holds s).
Proof.
  intros Hw Hi. destruct (Hi id ltac:(by left)) as (o & p & Ho & Hp). unfold touch, pointer_of. rewrite Ho.
  destruct (decide (w_kind (object o) = REnv)) as [Hk | Hk]; [rewrite Hp; by exists s |].
  destruct (object_alive s id o p Hw Ho Hp) as (v & _ & Hv & Hf).
  assert (He : is_env (value v) = false) by (destruct (w_kind (object o)), (value v); done).
  destruct (copy_over s p v Hw Hv He) as (s1 & Hc & Hov & _ & Hh & Hl & _).
  destruct (drop_over s1 p Hov) as (s2 & Hd & Hh2 & Hl2 & Hw2).
  exists s2. unfold copy_and_drop, pointer_of. rewrite Hp. cbn [obind]. rewrite Hc. cbn [obind].
  split; [done |]. split_and!; [done | congruence | by rewrite Hl2, Hl].
Qed.

Lemma touch_all_ok ids : forall s,
  shared_wf s -> intact s ids -> exists s', touch_all ids s = Ok s' /\ pointers_only s s' (r_holds s).
Proof.
  induction ids as [|id ids IH]; intros s Hw Hi; [by exists s |]. apply intact_cons in Hi as [H1 H2].
  destruct (touch_ok s id Hw H1) as (s1 & E & Hw1 & Hh1 & Hl1). cbn [touch_all]. rewrite E. cbn [obind].
  destruct (IH s1 Hw1) as (s2 & E2 & Hw2 & Hh2 & Hl2); [unfold intact; by rewrite Hh1 |].
  exists s2. split; [done |]. split_and!; [done | congruence | by rewrite Hl2].
Qed.

Lemma hold_ok s id :
  shared_wf s -> intact s [id] ->
  exists s', hold_pointer id s = Ok s' /\ pointers_only s s' (shared_of id s ++ r_holds s).
Proof.
  intros Hw Hi. destruct (Hi id ltac:(by left)) as (o & p & Ho & Hp).
  destruct (hold_well s id o Hw Ho) as [[Hn _] | (s' & E & Hw' & _)]; [congruence |].
  exists s'. split; [done |]. unfold shared_of. rewrite Ho.
  unfold hold_pointer, pointer_of in E. rewrite Ho, Hp in E. cbn [obind] in E. unfold shares.
  destruct (decide (w_kind (object o) = REnv)) as [Hk | Hk]; [by simplify_eq |].
  destruct (copy_pointer p s) as [s1|] eqn:Ec; [| done]. cbn [obind] in E. injection E as <-.
  unfold copy_pointer in Ec. destruct (r_objects s !! p); [| done]. injection Ec as <-.
  split_and!; [done | done |]. by rewrite Hp.
Qed.

Lemma hold_all_ok ids : forall s,
  shared_wf s -> intact s ids ->
  exists s' ps, hold_all ids s = Ok (s', ps) /\ pointers_only s s' (ps ++ r_holds s).
Proof.
  induction ids as [|id ids IH]; intros s Hw Hi; [by exists s, [] |]. apply intact_cons in Hi as [H1 H2].
  destruct (hold_ok s id Hw H1) as (s1 & E & Hw1 & Hh1 & Hl1). cbn [hold_all]. rewrite E. cbn [obind].
  destruct (IH s1 Hw1) as (s2 & ps & E2 & Hw2 & Hh2 & Hl2); [unfold intact; by rewrite Hh1 |].
  rewrite E2. cbn [obind]. eexists _, _. split; [done |]. split_and!; [done | congruence |].
  rewrite Hl2, Hl1. rewrite !app_assoc. by rewrite (Permutation_app_comm ps).
Qed.

Lemma remove_one_perm p l : p ∈ l -> l ≡ₚ p :: remove_one p l.
Proof.
  induction l as [|x l IH]; intros Hp; [by apply elem_of_nil in Hp |]. cbn [remove_one].
  destruct (decide (p = x)) as [-> | Hne]; [done |].
  apply elem_of_cons in Hp as [? | Hp]; [done |]. rewrite (IH Hp) at 1. apply Permutation_swap.
Qed.

Lemma unhold_ok s p rest :
  shared_wf s -> r_holds s ≡ₚ p :: rest ->
  exists s', unhold_pointer p s = Ok s' /\ pointers_only s s' rest.
Proof.
  intros Hw Hp. assert (Hin : p ∈ r_holds s) by (rewrite Hp; by left).
  destruct (unhold_well s p Hw Hin) as (s' & E & Hw' & _). exists s'. split; [done |].
  unfold unhold_pointer in E. pose proof (drop_pointer_holds _ _ _ E) as Hl. unfold holds_kept in Hl. cbn in Hl.
  split_and!; [done | by apply drop_pointer_same in E |].
  rewrite Hl. apply (Permutation_cons_inv (a := p)). by rewrite <- remove_one_perm.
Qed.

Lemma unhold_all_ok ps rest : forall s,
  shared_wf s -> r_holds s ≡ₚ ps ++ rest ->
  exists s', unhold_all ps s = Ok s' /\ pointers_only s s' rest.
Proof.
  induction ps as [|p ps IH]; intros s Hw Hl; [by exists s |]. cbn [app] in Hl.
  destruct (unhold_ok s p (ps ++ rest) Hw Hl) as (s1 & E & Hw1 & Hh1 & Hl1). cbn [unhold_all]. rewrite E. cbn [obind].
  destruct (IH s1 Hw1 Hl1) as (s2 & E2 & Hw2 & Hh2 & Hl2).
  exists s2. split; [done |]. split_and!; [done | congruence | done].
Qed.
End Pointers.

(** What is kept was assigned. *)
Lemma kept_assigned (id : nat) : forall v : val, id ∈ kept_handles v -> id ∈ assigned_handles v.
Proof.
  fix IH 1. intros [| | | | | | | | | |l|fields] H; try exact H.
  - cbn in *. induction l as [|x l IHl]; [exact H |]. cbn in *.
    apply elem_of_app in H as [H | H]; apply elem_of_app; [left; by apply IH | right; by apply IHl].
  - cbn in *. revert H. generalize (@nil string). induction fields as [|[f x] l IHl]; intros seen H; [exact H |].
    cbn in *. apply elem_of_app. destruct (decide (f ∈ seen)); [right; by apply (IHl seen) |].
    apply elem_of_app in H as [H | H]; [left; by apply IH | right; by apply (IHl (f :: seen))].
Qed.

(** ** The invariant *)

Section Invariant.
Context `{RL : SharedLib} (ip ol : Z -> struct) (lib_open : bool -> struct -> struct -> bytes -> Status).

(** The pointers of all databases. *)
Definition all_held (m : gmap nat (list nat)) : list nat := concat (map_to_list m).*2.

Lemma all_held_insert m d ps : m !! d = None -> all_held (<[d := ps]> m) ≡ₚ ps ++ all_held m.
Proof. intros Hd. unfold all_held. rewrite map_to_list_insert by done. done. Qed.

Lemma all_held_delete m d ps : m !! d = Some ps -> all_held m ≡ₚ ps ++ all_held (delete d m).
Proof. intros Hd. rewrite <- (insert_delete_id m d ps Hd) at 1. by rewrite all_held_insert by apply lookup_delete_eq. Qed.

(** [qi_live] is left out while databases give their pointers back. *)
Record q_core (s : qsys) : Prop := {
  qi_heap : INV (qheap s) [];
  qi_shared : shared_wf (q_shared s);
  qi_holds : r_holds (q_shared s) ≡ₚ all_held (q_held s);
  qi_alloc : forall d, is_Some (q_held s !! d) -> is_Some (qheap s !! d);
}.

Definition q_live (s : qsys) : Prop :=
  forall d ps, q_held s !! d = Some ps -> destructor_done (qheap s) d = false.

Lemma give_back_ok ds : forall s,
  q_core s -> NoDup ds -> (forall d, d ∈ ds -> is_Some (q_held s !! d)) ->
  exists s', give_back ds s = Ok s' /\ q_core s' /\ q_db s' = q_db s /\
    (forall d, q_held s' !! d = if decide (d ∈ ds) then None else q_held s !! d).
Proof.
  induction ds as [|d ds IH]; intros s Hs Hnd Hin.
  { by exists s. }
  apply NoDup_cons in Hnd as [Hd Hnd]. destruct (Hin d ltac:(by left)) as [ps Hps].
  destruct Hs as [H1 H2 H3 H4]. rewrite (all_held_delete _ d ps Hps) in H3.
  destruct (unhold_all_ok ps _ _ H2 H3) as (r1 & E & Hw1 & _ & Hl1).
  cbn [give_back]. rewrite Hps. change (default [] (Some ps)) with ps. rewrite E. cbn [obind].
  destruct (IH {| q_db := q_db s; q_shared := r1; q_held := delete d (q_held s) |}) as (s' & E' & Hc & Hdb & Hh).
  - split; cbn; try done. intros j [x Hx]. apply lookup_delete_Some in Hx as [_ Hx]. by apply H4.
  - done.
  - intros j Hj. cbn. rewrite lookup_delete_ne by (by intros ->). apply Hin. by right.
  - exists s'. split_and!; try done. intros j. rewrite Hh. cbn.
    destruct (decide (j = d)) as [-> | Hne].
    + rewrite (decide_True (P := d ∈ d :: ds)) by (by left). rewrite lookup_delete_eq. by case_decide.
    + rewrite lookup_delete_ne by done. do 2 case_decide; try done; exfalso; set_solver.
Qed.

Lemma settle_ok s : q_core s -> exists s', settle s = Ok s' /\ q_core s' /\ q_live s' /\ q_db s' = q_db s /\
  forall d, destructor_done (qheap s) d = false -> q_held s' !! d = q_held s !! d.
Proof.
  intros Hs.
  assert (Hin : forall d, d ∈ destroyed_dbs s <-> destructor_done (qheap s) d = true /\ is_Some (q_held s !! d)).
  { intros d. unfold destroyed_dbs. rewrite list_elem_of_filter, list_elem_of_fmap. split; intros [Hd H]; (split; [done |]).
    - destruct H as ([j ps] & -> & Hj). apply elem_of_map_to_list in Hj. by exists ps.
    - destruct H as [ps Hps]. exists (d, ps). split; [done | by apply elem_of_map_to_list]. }
  destruct (give_back_ok (destroyed_dbs s) s Hs) as (s' & E & Hc & Hdb & Hh).
  - apply NoDup_filter, NoDup_fst_map_to_list.
  - intros d Hd. by apply Hin in Hd as [_ Hd].
  - exists s'. split_and!; try done.
    + intros d ps Hd. rewrite Hh in Hd. unfold qheap. rewrite Hdb. fold (qheap s).
      destruct (decide (d ∈ destroyed_dbs s)) as [| Hn]; [done |].
      destruct (destructor_done (qheap s) d) eqn:Ed; [| done]. exfalso. apply Hn, Hin. split; [done | by exists ps].
    + intros d Hd. rewrite Hh, decide_False; [done |]. intros Hn. apply Hin in Hn as [Hn _]. congruence.
Qed.

(** ** Steps *)

(** The handles of the options are there: all have their pointers, or one was
    destroyed by a release function. *)
Lemma touch_all_cases ids : forall s,
  shared_wf s -> (forall id, id ∈ ids -> handle_held s id) ->
  intact s ids \/
  (touch_all ids s = Undef /\
   exists id o, id ∈ ids /\ r_handles s !! id = Some o /\ w_pointer (object o) = None).
Proof.
  induction ids as [|id ids IH]; intros s Hw Hh; [left; intros j Hj; by apply elem_of_nil in Hj |].
  destruct (Hh id ltac:(by left)) as (o & Ho & _). cbn [touch_all].
  destruct (w_pointer (object o)) as [p|] eqn:Hp.
  - assert (Hi : intact s [id]) by (intros j Hj; apply list_elem_of_singleton in Hj as ->; by exists o, p).
    destruct (touch_ok s id Hw Hi) as (s1 & E & Hw1 & Hs1 & _). rewrite E. cbn [obind].
    destruct (IH s1 Hw1) as [H | (H & j & oj & Hj & Hoj & Hpj)].
    + intros j Hj. unfold handle_held. rewrite Hs1. apply Hh. by right.
    + left. intros j Hj. apply elem_of_cons in Hj as [-> | Hj]; [by exists o, p |].
      destruct (H j Hj) as (oj & pj & Hoj & Hpj). rewrite Hs1 in Hoj. by exists oj, pj.
    + right. split; [done |]. exists j, oj. rewrite <- Hs1. split_and!; [by right | done | done].
  - right. split; [| exists id, o; split_and!; [by left | done | done]].
    unfold touch, copy_and_drop, pointer_of. rewrite Ho, Hp. by case_decide.
Qed.

Lemma fold_cells_undef {A} (f : term -> A -> outcome (A * term)) l : forall acc,
  fold_cells f l acc = Undef -> exists item acc', item ∈ l /\ f item acc' = Undef.
Proof.
  induction l as [|x l IH]; intros acc H; cbn [fold_cells] in H; [done |].
  destruct (f x acc) as [[acc1 r]|] eqn:E; [| exists x, acc; split; [by left | done]].
  cbn [obind] in H. destruct (is_atom "ok" r); [| done].
  destruct (IH _ H) as (y & acc' & Hy & Ey). exists y, acc'. split; [by right | done].
Qed.

(** The options of [open/2]: parsed, unless a compression type is unknown. *)
Lemma open_options_cases (t0 t1 : term) :
  (exists db cf r1 r2, fold (parse_db_option ip) t1 [] = Ok (db, r1) /\ fold (parse_cf_option ol) t1 [] = Ok (cf, r2) /\
     open_options ip ol [t0; t1] = Ok (VList [VStruct db; VStruct cf])) \/
  (exists db r1 item, fold (parse_db_option ip) t1 [] = Ok (db, r1) /\ fold (parse_cf_option ol) t1 [] = Undef /\
     item ∈ list_cells t1 /\ bad_compression item).
Proof.
  destruct (options_defined ip ol) as [Hdb Hcf]. destruct (Hdb t1 []) as [db Edb].
  unfold open_options. cbn [elem lookup list_lookup obind]. rewrite Edb. cbn [obind].
  destruct (fold (parse_cf_option ol) t1 []) as [[cf r2]|] eqn:Ecf.
  - left. by exists db, cf, ATOM_OK, r2.
  - right. destruct (fold_cells_undef _ _ _ Ecf) as (item & acc & Hin & Hu).
    exists db, ATOM_OK, item. split_and!; try done. by apply (Hcf item acc).
Qed.

Lemma open_step ro argv s :
  q_core s -> q_live s -> q_possible ip ol s (QOpen ro argv) ->
  (q_step ip ol lib_open (QOpen ro argv) s = Undef /\ q_misuse ip ol s (QOpen ro argv)) \/
  (exists s', q_step ip ol lib_open (QOpen ro argv) s = Ok s' /\ q_core s' /\ q_live s').
Proof.
  intros Hc Hl [Hlen Hheld]. destruct argv as [|t0 [|t1 [|]]]; try done.
  cbn [q_step]. unfold open_shared, Open. cbn [elem lookup list_lookup obind].
  destruct (get_c_string 4096 t0) as [name|].
  2: { right. exists s. cbn [obind]. by destruct s. }
  destruct (enif_is_list t1); [| right; exists s; cbn [obind]; by destruct s].
  destruct (open_options_cases t0 t1) as [(db & cf & r1 & r2 & Edb & Ecf & Eo) | (db & r1 & item & Edb & Ecf & Hin & Hbad)].
  2: { left. rewrite Edb. cbn [obind]. rewrite Ecf. split; [done |]. left. exists t1, item. by split_and!. }
  rewrite Edb. cbn [obind]. rewrite Ecf. cbn [obind].
  destruct Hc as [H1 H2 H3 H4]. set (opts := VList [VStruct db; VStruct cf]) in *.
  destruct (touch_all_cases (assigned_handles opts) (q_shared s) H2) as [Hi | (Hu & id & o & Hin & Ho & Hp)].
  { intros id Hid. by apply (Hheld opts). }
  2: { left. split; [| right; exists opts, id, o; by split_and!]. destruct (status_ok _) eqn:Es; cbn [negb obind].
       - destruct (create_db _ _ _) as [[s1 d]|]; [| done]. cbn [obind]. rewrite Eo. cbn [obind]. by rewrite Hu.
       - rewrite Eo. cbn [obind]. by rewrite Hu. }
  right. destruct (touch_all_ok _ _ H2 Hi) as (ra & Ea & Hwa & Hha & Hla).
  destruct (status_ok _) eqn:Es; cbn [negb obind].
  - unfold create_db. destruct (inv_CreateRoot KDb _ [] H1 eq_refl) as (h' & d & Ec & Hd & HI & ->).
    unfold qheap in *. unfold CreateDbObject. rewrite Ec. cbn [obind]. rewrite Eo. cbn [obind]. rewrite Ea. cbn [obind].
    destruct (hold_all_ok (kept_handles opts) ra Hwa) as (rb & ps & Eb & Hwb & _ & Hlb).
    { intros id Hid. rewrite Hha. by apply Hi, kept_assigned. }
    rewrite Eb. cbn [obind].
    set (h' := <[d := set_refs 1 (new_obj KDb None)]> (o_heap (q_db s))) in *.
    exists {| q_db := {| o_heap := h';
                         o_flags := <[d := {| m_IsPessimistic := false; m_IsTTL := false; db_is := PlainDB |}]> (o_flags (q_db s));
                         o_families := o_families (q_db s) |};
              q_shared := rb; q_held := <[d := ps]> (q_held s) |}.
    split; [reflexivity |].
    assert (Hnew : q_held s !! d = None).
    { destruct (q_held s !! d) eqn:E; [| done]. destruct (H4 d) as [x Hx]; [by rewrite E |]. congruence. }
    split; [split; unfold qheap; cbn [q_db q_shared q_held o_heap]; [done | done | |] |].
    + rewrite all_held_insert by done. rewrite Hlb, Hla. by rewrite H3.
    + intros j Hj. unfold h'. destruct (decide (j = d)) as [-> | Hne]; [rewrite lookup_insert_eq; by eexists |].
      rewrite lookup_insert_ne in Hj by done. rewrite lookup_insert_ne by done. by apply H4.
    + intros j ps' Hj. unfold qheap, destructor_done. cbn [q_db q_held o_heap] in *. unfold h'.
      destruct (decide (j = d)) as [-> | Hne]; [by rewrite lookup_insert_eq |].
      rewrite lookup_insert_ne in Hj by done. rewrite lookup_insert_ne by done. apply (Hl j ps' Hj).
  - rewrite Eo. cbn [obind]. rewrite Ea. cbn [obind].
    exists {| q_db := q_db s; q_shared := ra; q_held := q_held s |}.
    split; [unfold error_tuple; by destruct (IsIncomplete _) |]. split; [| done].
    split; [done | done | cbn [q_shared q_held]; by rewrite Hla | done].
Qed.

(** A change of the heap of handles, and what databases give back after it. *)
Lemma heap_step s h :
  q_core s -> INV h [] -> grows (qheap s) h ->
  exists s', settle (with_qheap s h) = Ok s' /\ q_core s' /\ q_live s'.
Proof.
  intros [H1 H2 H3 H4] HI Hg. destruct (settle_ok (with_qheap s h)) as (s' & E & Hc & Hl & _).
  { split; try done. intros d Hd. cbn [with_qheap qheap q_db o_heap]. apply elem_of_dom, Hg, elem_of_dom. by apply H4. }
  by exists s'.
Qed.

Lemma q_step_ok s e :
  q_core s -> q_live s -> q_possible ip ol s e ->
  (q_step ip ol lib_open e s = Undef /\ q_misuse ip ol s e) \/
  (exists s', q_step ip ol lib_open e s = Ok s' /\ q_core s' /\ q_live s').
Proof.
  intros Hc Hl Hp. destruct e as [e|ro argv|n argv|id].
  - assert (Hq : match e with RHold _ | RUnhold _ => False | _ => True end) by (by destruct e).
    assert (Hp' : shared_possible (q_shared s) e) by (by destruct e).
    cbn [q_step q_misuse]. destruct (shared_event_ok (q_shared s) e (qi_shared s Hc) Hp') as [[-> Ht] | (r & E & Hw & _)].
    { by left. }
    right. rewrite E. cbn [obind]. eexists. split; [reflexivity |]. split; [| done]. destruct Hc as [H1 H2 H3 H4].
    split; [done | done | | done]. cbn [q_shared q_held]. by rewrite (shared_event_holds e _ _ Hq E).
  - by apply open_step.
  - destruct Hp as (Ha & Hv & Hn & Hcf). set (opt := is_optimistic (o_flags (q_db s))).
    destruct (class_matches_dec opt n argv) as [Hm | (-> & d & Hd & Ho)].
    2: { destruct (run_nif opt NNewTransaction (qheap s) argv) as [[h r]|] eqn:E.
         - right. cbn [q_step]. fold opt. rewrite E. cbn [obind].
           apply heap_step; [done | | by apply run_nif_grows in E].
           by apply (refused_inv opt (qheap s) [] argv h r d (qi_heap s Hc) Ha Hv).
         - left. split; [cbn [q_step]; fold opt; by rewrite E | by exists d]. }
    right. destruct (handle_nifs_safe opt n (qheap s) [] argv (qi_heap s Hc) Ha Hv Hn Hcf Hm) as (h & r & E & HI).
    cbn [q_step]. fold opt. rewrite E. cbn [obind]. apply heap_step; [done | done |]. by apply run_nif_grows in E.
  - right. destruct Hp as (Ha & o & Ho).
    destruct (inv_InitiateCloseRequest (qheap s) [] id o (qi_heap s Hc)) as (h & E & HI & _); [| done |].
    { by apply (ample_evolves (qheap s) [] []); [| | cbn; lia]. }
    cbn [q_step]. unfold ResourceCleanup. rewrite E. cbn [obind]. apply heap_step; [done | done |]. by apply close_grows in E.
Qed.

Lemma q_start_ok : q_core q_start /\ q_live q_start.
Proof.
  split; [| by intros d ps H].
  split; [apply inv_init | apply start_wf | done | by intros d [x Hx]].
Qed.

Lemma q_reachable_ok s : q_reachable ip ol lib_open s -> q_core s /\ q_live s.
Proof.
  induction 1 as [|s e s' _ [Hc Hl] Hp Hs]; [apply q_start_ok |].
  destruct (q_step_ok s e Hc Hl Hp) as [[H _] | (s1 & H & Hs1)]; rewrite H in Hs; by simplify_eq.
Qed.

(** What a database holds is alive. *)
Lemma held_alive s d ps p :
  q_core s -> q_held s !! d = Some ps -> p ∈ ps ->
  exists v, r_objects (q_shared s) !! p = Some v /\ (0 < use_count v)%nat.
Proof.
  intros [_ [Hsh Hb] Hh _] Hd Hp.
  assert (Hin : p ∈ r_holds (q_shared s)) by (rewrite Hh, (all_held_delete _ d ps Hd); apply elem_of_app; by left).
  assert (Hu : (0 < users (q_shared s) p)%nat).
  { unfold users. apply list_elem_of_In, (count_occ_In Nat.eq_dec) in Hin. lia. }
  rewrite <- Hb in Hu. unfold counted in Hu. destruct (r_objects (q_shared s) !! p) as [v|]; [| lia].
  exists v. split; [done |]. destruct (is_env (value v)); lia.
Qed.

Lemma touch_handles id s s' : touch id s = Ok s' -> r_handles s' = r_handles s.
Proof.
  unfold touch, copy_and_drop. destruct (r_handles s !! id) as [o|]; [| done].
  destruct (pointer_of o) as [p|]; cbn [obind]; case_decide; try done; [by intros [= ->] |].
  unfold copy_pointer. destruct (r_objects s !! p); [| done]. cbn [obind]. intros Hd. by apply drop_pointer_same in Hd.
Qed.

Lemma touch_all_handles ids : forall s s', touch_all ids s = Ok s' -> r_handles s' = r_handles s.
Proof.
  induction ids as [|id ids IH]; intros s s' H; cbn [touch_all] in H; [by injection H as -> |].
  destruct (touch id s) as [s1|] eqn:E; [| done]. cbn [obind] in H. apply touch_handles in E. apply IH in H. congruence.
Qed.

Lemma hold_handles id s s' : hold_pointer id s = Ok s' -> r_handles s' = r_handles s.
Proof.
  unfold hold_pointer. destruct (r_handles s !! id) as [o|]; [| done]. destruct (pointer_of o) as [p|]; [| done].
  cbn [obind]. case_decide; [by intros [= ->] |]. unfold copy_pointer. destruct (r_objects s !! p); [| done].
  cbn [obind]. by intros [= <-].
Qed.

Lemma hold_all_in ids id p : forall s s' ps,
  hold_all ids s = Ok (s', ps) -> id ∈ ids -> p ∈ shared_of id s -> p ∈ ps.
Proof.
  induction ids as [|j ids IH]; intros s s' ps H Hid Hp; [by apply elem_of_nil in Hid |]. cbn [hold_all] in H.
  destruct (hold_pointer j s) as [s1|] eqn:E; [| done]. cbn [obind] in H. apply hold_handles in E.
  destruct (hold_all ids s1) as [[s2 ps']|] eqn:E2; [| done]. cbn [obind] in H. injection H as <- <-.
  apply elem_of_app. apply elem_of_cons in Hid as [-> | Hid]; [by left |]. right.
  apply (IH s1 s2 ps' E2 Hid). unfold shared_of in *. by rewrite E.
Qed.

(** A database that is opened holds what its options keep. *)
Lemma open_holds ro argv s s' d opts id p :
  q_step ip ol lib_open (QOpen ro argv) s = Ok s' -> q_held s !! d = None -> is_Some (q_held s' !! d) ->
  open_options ip ol argv = Ok opts -> id ∈ kept_handles opts -> p ∈ shared_of id (q_shared s) ->
  exists ps, q_held s' !! d = Some ps /\ p ∈ ps.
Proof.
  intros H Hnew [ps Hps] Ho Hid Hp. exists ps. split; [done |]. cbn [q_step] in H. unfold open_shared in H.
  destruct (Open _ _ _ _ _ _) as [[o1 rep]|]; [| done]. cbn [obind] in H.
  destruct rep as [|t]; [cbn [obind] in H; injection H as <-; cbn in Hps; congruence |].
  rewrite Ho in H. cbn [obind] in H. destruct (touch_all _ _) as [ra|] eqn:Ea; [| done]. cbn [obind] in H.
  apply touch_all_handles in Ea.
  assert (Hno : Ok {| q_db := o1; q_shared := ra; q_held := q_held s |} = Ok s' -> False).
  { intros [= <-]. cbn in Hps. congruence. }
  destruct t as [| | | | | |l| | |]; try by destruct (Hno H).
  destruct l as [|x [|y [|z l]]]; try by destruct (Hno H).
  2: { destruct y as [| | | | | | | |[] d'|]; by destruct (Hno H). }
  destruct y as [| | | | | | | |k d'|]; try by destruct (Hno H).
  destruct k; try by destruct (Hno H).
  destruct (hold_all _ ra) as [[rb ps']|] eqn:Eb; [| done]. cbn [obind] in H. injection H as <-.
  cbn [q_held] in Hps. destruct (decide (d = d')) as [-> | Hne]; [| rewrite lookup_insert_ne in Hps by done; congruence].
  rewrite lookup_insert_eq in Hps. injection Hps as <-. eapply hold_all_in; [exact Eb | exact Hid |].
  unfold shared_of in *. by rewrite Ea.
Qed.

(** C18.  Databases and the objects they share, as one system: Erlang creates, uses,
    releases and forgets caches, rate limiters, managers and statistics, opens
    databases with any options that name them, and closes or forgets databases and
    their handles, in any order.  Then a database holds the objects its options had
    when it was opened, each is alive until the database is destroyed, whatever
    Erlang released, and a destroyed database holds nothing; the use counts are exact;
    and no event is undefined but one that uses a handle a release function
    destroyed, opens with an unknown compression type, or begins a transaction with
    [transaction/2] on a database that was not opened as an optimistic transaction
    database. *)
Theorem database_keeps_shared (s : qsys) :
  q_reachable ip ol lib_open s ->
  (forall d ps p, q_held s !! d = Some ps -> p ∈ ps -> destructor_done (qheap s) d = false /\
     exists v, r_objects (q_shared s) !! p = Some v /\ (0 < use_count v)%nat) /\
  r_holds (q_shared s) ≡ₚ all_held (q_held s) /\
  (forall p v, r_objects (q_shared s) !! p = Some v -> is_env (value v) = false ->
     use_count v = users (q_shared s) p) /\
  (forall ro argv s' d opts id p, q_step ip ol lib_open (QOpen ro argv) s = Ok s' ->
     q_held s !! d = None -> is_Some (q_held s' !! d) -> open_options ip ol argv = Ok opts ->
     id ∈ kept_handles opts -> p ∈ shared_of id (q_shared s) -> exists ps, q_held s' !! d = Some ps /\ p ∈ ps) /\
  (forall e, q_possible ip ol s e -> q_step ip ol lib_open e s = Undef -> q_misuse ip ol s e).
Proof.
  intros Hr. destruct (q_reachable_ok s Hr) as [Hc Hl]. split_and!.
  - intros d ps p Hd Hp. split; [by apply (Hl d ps) | by apply (held_alive s d ps)].
  - apply Hc.
  - intros p v Hp Hv. rewrite <- (proj2 (qi_shared s Hc) p). unfold counted. by rewrite Hp, Hv.
  - intros ro argv s' d opts id p. apply open_holds.
  - intros e He Hu. destruct (q_step_ok s e Hc Hl He) as [[_ H] | (s' & H & _)]; [done | congruence].
Qed.

End Invariant.

(** ** Witness *)

Module OpenSharedWitness.
Import SharedWitness.
#[local] Existing Instance the_shared.

Definition nothing (_ : Z) : struct := [].
Definition opens (_ : bool) (_ _ : struct) (_ : bytes) : Status := StatusOK.

(** A database with a cache, given twice, and statistics. *)
Definition open_args : list term :=
  [enif_make_string "db";
   make_list [Ttuple [Tatom "statistics"; Tres RStatistics 1];
              Ttuple [Tatom "block_based_table_options";
                      make_list [Ttuple [Tatom "block_cache"; Tres RCache 0];
                                 Ttuple [Tatom "block_cache"; Tres RCache 0]]]]].

Fixpoint qplay (l : list q_event) (s : qsys) : outcome qsys :=
  match l with
  | [] => Ok s
  | e :: r => let! s1 := q_step nothing nothing opens e s in qplay r s1
  end.

(** The handles are made, the database is opened, and Erlang forgets the cache. *)
Definition history : list q_event :=
  [QShared (RCall NNewCache [Tatom "lru"; Tint 100]); QShared (RCall NNewStatistics []);
   QOpen false open_args; QShared (RCollect 0)].

Definition ok_state (r : outcome qsys) : qsys := match r with Ok s => s | Undef => q_start end.

Definition q_opened : qsys := ok_state (qplay (take 3 history) q_start).
Definition q_now : qsys := ok_state (qplay history q_start).

(** The pointers of the handles 0 and 1 are 1 and 2. *)
Definition uses (s : qsys) (p : nat) : option nat := use_count <$> r_objects (q_shared s) !! p.

Definition is_ok (r : outcome qsys) : bool := match r with Ok _ => true | Undef => false end.

Lemma more s e : q_reachable nothing nothing opens s -> q_possible nothing nothing s e ->
  is_ok (q_step nothing nothing opens e s) = true ->
  q_reachable nothing nothing opens (ok_state (q_step nothing nothing opens e s)).
Proof.
  intros Hs Hp Ho. eapply q_more; [exact Hs | exact Hp |].
  destruct (q_step nothing nothing opens e s); [reflexivity | discriminate Ho].
Qed.

Lemma reached_q_now : q_reachable nothing nothing opens q_now.
Proof.
  assert (Hopts : forall s, has_handle (q_shared s) 0 = true -> has_handle (q_shared s) 1 = true ->
            q_possible nothing nothing s (QOpen false open_args)).
  { intros s H0 H1. split; [reflexivity |]. intros opts id Ho Hin.
    assert (Ha : assigned_handles opts = [1; 0; 0]%nat).
    { vm_compute in Ho. injection Ho as <-. reflexivity. }
    rewrite Ha, list_elem_of_In in Hin. destruct Hin as [<- | [<- | [<- | []]]]; by apply has_handle_ok. }
  apply (more q_opened (QShared (RCollect 0))); [| by apply has_handle_ok | reflexivity].
  apply (more (ok_state (qplay (take 2 history) q_start)) (QOpen false open_args));
    [| apply Hopts; vm_compute; reflexivity | vm_compute; reflexivity].
  apply (more (ok_state (qplay (take 1 history) q_start)) (QShared (RCall NNewStatistics [])));
    [| apply shared_possible_ok; vm_compute; reflexivity | vm_compute; reflexivity].
  apply (more q_start (QShared (RCall NNewCache [Tatom "lru"; Tint 100])));
    [apply q_init | apply shared_possible_ok; vm_compute; reflexivity | vm_compute; reflexivity].
Qed.

(** The database keeps the cache that Erlang has forgotten. *)
Lemma database_keeps_shared_witness :
  q_held q_now !! 0%nat = Some [2; 1]%nat /\ has_handle (q_shared q_now) 0 = false /\
  exists v, r_objects (q_shared q_now) !! 1%nat = Some v /\ (0 < use_count v)%nat.
Proof.
  assert (Hh : q_held q_now !! 0%nat = Some [2; 1]%nat) by (vm_compute; reflexivity).
  split; [exact Hh |]. split; [vm_compute; reflexivity |].
  destruct (database_keeps_shared nothing nothing opens q_now reached_q_now) as (H & _).
  apply (H 0%nat [2; 1]%nat 1%nat Hh). rewrite list_elem_of_In. cbn. tauto.
Defined.

(** Open, forgotten, closed: one pointer with the handle, one with the database. *)
Example cache_uses :
  (uses q_opened 1, uses q_now 1, uses (ok_state (q_step nothing nothing opens (QNif NClose [Tres RDb 0]) q_now)) 1) =
  (Some 2%nat, Some 1%nat, None).
Proof. vm_compute. reflexivity. Qed.
End OpenSharedWitness.
