(* ===== verification/ErlDb.v ===== *)
(** * The Erlang functions over the database functions

    The functions of [src/rocksdb.erl] that are written in Erlang and end in one
    native call: [merge/4,5] with its encoding of posting-list operations, [count/1,2]
    and [stats/1,2], [flush/2], [delete_entity/3,4], and the deprecated names.

    The main theorem composes them with the posting-list operator: merging
    [posting_add] and [posting_delete] terms into a key of a column family that has the
    operator, and reading the key with [get] and [posting_list_keys], is a set of
    keys. *)

From stdpp Require Import base list numbers strings gmap sorting.
From Stdlib Require Import ZArith Lia Sorted.
From S2P Require Import Prelude StdMap Terms Etf Roaring Erl ErlWrite RefObjects WriteBatchLib ScalarMerge Options DbLib DbNif DbSpec PostingHash PostingMerge PostingNif HandleNif TransactionLog DbOpen Shared.

(** The value of a native call. *)
Definition nif_call {S : Type} (m : outcome (S * reply)) : outcome (S * erl term) :=
  let! (s, r) := m in Ok (s, nif_result r).

(** ** Databases *)

Section Databases.
Context `{L : DbLib} {N : NifEnv}.

(** [merge(DBHandle, Key, Value, WriteOpts)] and [merge(DBHandle, CFHandle, ...)]:
    [args] are the arguments before the value. *)
Definition merge (args : list term) (value opts : term) (s : dsys) : outcome (dsys * erl term) :=
  match encode_merge_value value with
  | Val v => nif_call (Merge (args ++ [v; opts]) s)
  | Err e => Ok (s, Err e)
  end.

Definition delete_entity (args : list term) (s : dsys) : outcome (dsys * erl term) :=
  nif_call (Delete args s).

Definition flush_2 (db opts : term) (s : dsys) : outcome (dsys * erl term) :=
  nif_call (Flush [db; Tatom "default_column_family"; opts] s).

(** The name of a property as a binary. *)
Definition property_name (name : string) : term := Tbin (String.list_byte_of_string name).

Definition estimate_num_keys : term := property_name "rocksdb.estimate-num-keys".

(** [erlang:binary_to_integer/1]: an optional sign and decimal digits. *)
Definition binary_to_integer (b : bytes) : erl Z :=
  let digits l := match l with
                  | [] => None
                  | _ => if forallb is_digit l then Some (read_digits 0 l) else None
                  end in
  let value := match b with
               | c :: r => if byte_val c =? 45 then Z.opp <$> digits r
                           else if byte_val c =? 43 then digits r
                           else digits b
               | [] => None
               end in
  match value with Some z => Val z | None => Err ATOM_BADARG end.

Definition count_1 (t : term) : erl term :=
  match t with
  | Ttuple [tag; count] =>
      if is_atom "ok" tag then
        match count with
        | Tbin b => let? z := binary_to_integer b in Val (Tint z)
        | _ => Err ATOM_BADARG
        end
      else Val t
  | _ => Val t
  end.

(** [args] are the database and the column family, if there is one. *)
Definition count (args : list term) (s : dsys) : outcome (dsys * erl term) :=
  let! (s1, r) := nif_call (GetProperty (args ++ [estimate_num_keys]) s) in
  Ok (s1, let? t := r in count_1 t).

Definition stats (args : list term) (s : dsys) : outcome (dsys * erl term) :=
  nif_call (GetProperty (args ++ [property_name "rocksdb.stats"]) s).

End Databases.

(** ** Names for other functions *)

Section Names.
Context (increase_parallelism optimize_level_style : Z -> struct).

(** The column families of the forms that name none: [[{"default", []}]]. *)
Definition default_families : term := make_list [Ttuple [enif_make_string "default"; Tnil]].

Definition open_with_cf_readonly
    (lib_open : bool -> struct -> list descriptor -> bytes -> Status * list cf_handle) (name opts families : term)
    (s : osys) : outcome (osys * erl term) :=
  nif_call (OpenWithCf increase_parallelism optimize_level_style lib_open true s [name; opts; families]).

Definition open_with_cf
    (lib_open : bool -> struct -> list descriptor -> bytes -> Status * list cf_handle) (name opts families : term)
    (s : osys) : outcome (osys * erl term) :=
  nif_call (OpenWithCf increase_parallelism optimize_level_style lib_open false s [name; opts; families]).

Definition open_optimistic_transaction_db
    (lib_open : struct -> list descriptor -> bytes -> Status * list cf_handle) (name opts : term) (s : osys) :
    outcome (osys * erl term) :=
  nif_call (OpenOptimisticTransactionDB increase_parallelism optimize_level_style lib_open s [name; opts; default_families]).

Definition open_pessimistic_transaction_db
    (lib_open : struct -> struct -> list descriptor -> bytes -> Status * list cf_handle) (name opts : term) (s : osys) :
    outcome (osys * erl term) :=
  nif_call (OpenPessimisticTransactionDB increase_parallelism optimize_level_style lib_open s [name; opts; default_families]).

Definition updates_iterator (status : Status) (valid : bool) (db since : term) (h : heap) :
    outcome (heap * erl term) :=
  nif_call (TransactionLogIterator status valid h [db; since]).

Definition close_updates_iterator (itr : term) (h : heap) : outcome (heap * erl term) :=
  nif_call (TransactionLogIteratorClose h [itr]).

Context `{TL : TLogLib}.

Definition next_binary_update (itr : term) (s : lsys) : outcome (lsys * erl term) :=
  nif_call (TransactionLogNextBinaryUpdate s [itr]).

Definition next_update (itr : term) (s : lsys) : outcome (lsys * erl term) :=
  nif_call (TransactionLogNextUpdate s [itr]).

Context `{SL : SharedLib}.

Definition new_lru_cache (capacity : term) (s : rsys) : outcome (rsys * erl term) :=
  nif_call (NewCache [Tatom "lru"; capacity] s).

Definition new_clock_cache (capacity : term) (s : rsys) : outcome (rsys * erl term) :=
  nif_call (NewCache [Tatom "clock"; capacity] s).

Definition get_usage (c : term) (s : rsys) : outcome (rsys * erl term) :=
  nif_call (CacheInfo [c; Tatom "usage"] s).

Definition get_pinned_usage (c : term) (s : rsys) : outcome (rsys * erl term) :=
  nif_call (CacheInfo [c; Tatom "pinned_usage"] s).

Definition get_capacity (c : term) (s : rsys) : outcome (rsys * erl term) :=
  nif_call (CacheInfo [c; Tatom "capacity"] s).

(** [new_env/0], [default_env/0] *)
Definition new_env (s : rsys) : outcome (rsys * erl term) := nif_call (NewEnv [Tatom "default"] s).

Definition mem_env (s : rsys) : outcome (rsys * erl term) := nif_call (NewEnv [Tatom "memenv"] s).

Definition new_sst_file_manager (env : term) (s : rsys) : outcome (rsys * erl term) :=
  nif_call (NewSstFileManager [env; Tnil] s).

End Names.

(** ** Posting lists over a database *)

(** What RocksDB may make of a stored value and the operands written over it: one full
    merge; operands next to each other combined first by [PartialMergeMulti], any number
    of times, when [partial] allows it; and a value stored half way, over which the
    later operands are merged.  Every list written on the way fits the format. *)
Section Evaluation.
Context {N : NifEnv} {R : Roaring} (wc partial : bool).

Inductive evaluates : option bytes -> list bytes -> bytes -> Prop :=
| eval_full base l :
    fits_v2 (merged_keys base l) -> evaluates base l (FullMergeV2 wc base l)
| eval_partial base l1 seg p l2 v :
    partial = true -> PartialMergeMulti wc seg = Some p -> fits_v2 (merged_keys None seg) ->
    evaluates base (l1 ++ p :: l2) v -> evaluates base (l1 ++ seg ++ l2) v
| eval_stored base l1 v1 l2 v :
    evaluates base l1 v1 -> evaluates (Some v1) l2 v -> evaluates base (l1 ++ l2) v.

(** No operand of [l] deletes a key. *)
Definition deletes_nothing (l : list bytes) : Prop := forall k, (k, true) ∉ l ≫= operand_entries.

Lemma set_entries_adds (l : list (bytes * bool)) (k : bytes) :
  (k, true) ∉ l -> map_get k (set_entries [] l) <> Some true.
Proof.
  induction l as [|[x t] l IH] using rev_ind; intros Hk; [done |].
  rewrite set_entries_app. cbn. rewrite map_get_set by (apply set_entries_wf; auto with stdmap).
  case_decide; [subst; intros [= ->]; set_solver | apply IH; set_solver].
Qed.

(** The state of a key after the entries [a] and then [b]. *)
Lemma get_entries_app (a b : list (bytes * bool)) (k : bytes) :
  map_get k (set_entries [] (a ++ b)) =
  match map_get k (set_entries [] b) with Some t => Some t | None => map_get k (set_entries [] a) end.
Proof. rewrite set_entries_app. apply get_set_entries, set_entries_wf; auto with stdmap. Qed.

Context {NL : NifLaws N} {RL : RoaringLaws R}.

(** The combined operand adds what its operands leave in the list. *)
Lemma partial_entry seg p k :
  PartialMergeMulti wc seg = Some p -> fits_v2 (merged_keys None seg) ->
  map_get k (set_entries [] (operand_entries p)) =
  match map_get k (set_entries [] (seg ≫= operand_entries)) with Some false => Some false | _ => None end.
Proof.
  intros Hp Hfit. pose proof (get_merge_partial wc None seg p k Hp Hfit) as H. cbn in H.
  rewrite app_nil_r in H. exact H.
Qed.

Lemma partial_adds seg p :
  PartialMergeMulti wc seg = Some p -> fits_v2 (merged_keys None seg) ->
  forall k, (k, true) ∉ operand_entries p.
Proof.
  intros Hp Hfit k. rewrite (partial_operand_entries wc seg p) by done.
  intros (x & Hx & _)%list_elem_of_fmap. by inversion Hx.
Qed.

Lemma full_evaluation base l k :
  fits_v2 (merged_keys base l) ->
  k ∈ posting_keys (FullMergeV2 wc base l) <->
  map_get k (set_entries [] (existing_entries base ++ (l ≫= operand_entries))) = Some false.
Proof.
  intros Hf. rewrite FullMergeV2_entries.
  rewrite posting_keys_SerializeV2 by (done || apply set_entries_wf; auto with stdmap).
  apply elem_of_state_keys, set_entries_wf; auto with stdmap.
Qed.

(** Combining [seg] first changes no key when nothing in it is deleted. *)
Lemma partial_evaluation base l1 seg p l2 k :
  PartialMergeMulti wc seg = Some p -> fits_v2 (merged_keys None seg) -> deletes_nothing seg ->
  map_get k (set_entries [] (existing_entries base ++ ((l1 ++ p :: l2) ≫= operand_entries))) =
  map_get k (set_entries [] (existing_entries base ++ ((l1 ++ seg ++ l2) ≫= operand_entries))).
Proof.
  intros Hp Hfit Hd. rewrite !bind_app, bind_cons, !get_entries_app, (partial_entry seg) by done.
  pose proof (set_entries_adds _ _ (Hd k)).
  by destruct (map_get k (set_entries [] (seg ≫= operand_entries))) as [[]|].
Qed.

(** Whatever was merged first, the keys are those of one merge of everything. *)
Lemma evaluated_keys base l v :
  evaluates base l v -> (partial = true -> deletes_nothing l) ->
  posting_keys v = state_keys (set_entries [] (existing_entries base ++ (l ≫= operand_entries))).
Proof.
  intros H Hd. apply set_eq. intros k.
  rewrite (elem_of_state_keys (set_entries [] _)) by (apply set_entries_wf; auto with stdmap).
  revert Hd k. induction H as [base l Hf | base l1 seg p l2 v Hpt Hp Hf H IH | base l1 v1 l2 v H1 IH1 H2 IH2];
    intros Hd k.
  - by apply full_evaluation.
  - specialize (Hd Hpt). unfold deletes_nothing in *. rewrite !bind_app in Hd.
    rewrite IH, (partial_evaluation base l1 seg p l2); try done; [intros x; set_solver |].
    intros _ x. rewrite bind_app, bind_cons. pose proof (partial_adds seg p Hp Hf x). set_solver.
  - assert (Hd1 : partial = true -> deletes_nothing l1).
    { intros Hpt x. specialize (Hd Hpt x). rewrite bind_app in Hd. set_solver. }
    assert (Hd2 : partial = true -> deletes_nothing l2).
    { intros Hpt x. specialize (Hd Hpt x). rewrite bind_app in Hd. set_solver. }
    specialize (IH1 Hd1 k). rewrite (IH2 Hd2 k), bind_app, app_assoc, !(get_entries_app _ (l2 ≫= _)).
    destruct (map_get k (set_entries [] (l2 ≫= operand_entries))); [done |].
    rewrite <- IH1. cbn [existing_entries]. unfold posting_keys. rewrite ParseExistingValue_entries.
    rewrite elem_of_state_keys by (apply set_entries_wf; auto with stdmap). done.
Qed.

(** The keys of an existing value by its entries. *)
Lemma existing_keys_entries base : existing_keys base = state_keys (set_entries [] (existing_entries base)).
Proof. destruct base as [v|]; [| done]. cbn. unfold posting_keys. by rewrite ParseExistingValue_entries. Qed.

(** Operations over whatever was merged before. *)
Lemma evaluated_ops base l (ops : list op) (operands : list bytes) v :
  alloc_env_ok = true -> Forall2 (fun o b => term_to_binary (op_term o) = Some b) ops operands ->
  evaluates base (l ++ operands) v -> (partial = true -> deletes_nothing (l ++ operands)) ->
  posting_keys v =
    foldl apply_op (state_keys (set_entries [] (existing_entries base ++ (l ≫= operand_entries)))) ops.
Proof.
  intros Henv Hops Hv Hd. rewrite (evaluated_keys _ _ _ Hv Hd), bind_app.
  rewrite (operand_entries_ops ops operands), app_assoc, set_entries_app by done.
  by rewrite state_keys_ops by (apply set_entries_wf; auto with stdmap).
Qed.
End Evaluation.

Section Postings.
Context `{L : DbLib} {LW : DbLaws L} {N : NifEnv} {NL : NifLaws N} {R : Roaring} {RL : RoaringLaws R}.
Context (with_croaring partial : bool).

(** [merge] of each operation in turn, with the answers. *)
Fixpoint run_posts (args : list term) (opts : term) (ops : list op) (s : dsys) :
    outcome (dsys * list (erl term)) :=
  match ops with
  | [] => Ok (s, [])
  | o :: r =>
      let! (s1, a) := merge args (op_term o) opts s in
      let! (s2, rest) := run_posts args opts r s1 in
      Ok (s2, a :: rest)
  end.

Lemma merge_op d cf k o b opts s :
  term_to_binary (op_term o) = Some b ->
  merge (Tres RDb d :: cf_args cf ++ [Tbin k]) (op_term o) opts s =
    nif_call (run_dcall d (DWrite cf (UMerge k b) opts) s).
Proof.
  intros Hb. unfold merge.
  assert (He : encode_merge_value (op_term o) = Val (Tbin b)).
  { destruct o; unfold encode_merge_value, op_term in *; eval_atoms; cbn [orb]; by rewrite Hb. }
  rewrite He. cbn [run_dcall write_nif write_args app]. by rewrite <- app_assoc.
Qed.

Lemma run_posts_calls d cf k opts ops operands : forall s,
  Forall2 (fun o b => term_to_binary (op_term o) = Some b) ops operands ->
  run_posts (Tres RDb d :: cf_args cf ++ [Tbin k]) opts ops s =
    let! (s1, rs) := run_dcalls d ((fun b => DWrite cf (UMerge k b) opts) <$> operands) s in
    Ok (s1, nif_result <$> rs).
Proof.
  intros s H. revert s. induction H as [|o b ops operands Hb H IH]; intros s; [done |].
  cbn [run_posts fmap list_fmap run_dcalls]. rewrite (merge_op d cf k o b) by done. unfold nif_call.
  destruct (run_dcall _ _ s) as [[s1 r]|]; [| done]. cbn [obind]. rewrite IH.
  destruct (run_dcalls _ _ s1) as [[s2 rs]|]; done.
Qed.

(** What a reader finds at [k] before the merges. *)
Definition value_before (d : nat) (f : Z) (s : dsys) (k : bytes) : option bytes :=
  default_value <$> resolved (full_merge d f) (DbLib.view (d_store s) d f) k.

(** The column family merges the key [k] with the posting-list operator: of the entry
    before, and of the entry with the new operands, RocksDB makes a value by the
    operator's merges. *)
Definition posting_merged (d : nat) (f : Z) (k : bytes) (e : option entry) (operands : list bytes) : Prop :=
  let base := default_value <$> base_of e in
  forall l, l <> [] -> l = pending e \/ l = pending e ++ operands ->
    exists v, full_merge d f k base l = Some v /\ evaluates with_croaring partial base l v.

Lemma default_set v c : default_value (set_default v c) = v.
Proof. by destruct c as [|[[|] ?] ?]. Qed.

(** The keys a reader finds before the merges. *)
Lemma value_before_keys (d : nat) (f : Z) (m : gmap bytes entry) (k : bytes) (operands : list bytes) :
  posting_merged d f k (m !! k) operands ->
  (partial = true -> deletes_nothing (pending (m !! k))) ->
  existing_keys (default_value <$> resolved (full_merge d f) m k) =
    state_keys (set_entries [] (existing_entries (default_value <$> base_of (m !! k)) ++
                                (pending (m !! k) ≫= operand_entries))).
Proof.
  intros Hm Hd. unfold posting_merged in Hm. unfold resolved.
  destruct (m !! k) as [e|]; cbn [pending base_of option_bind mbind] in *; [| done].
  unfold resolve. destruct (e_operands e) as [|y ys] eqn:Ee.
  { rewrite existing_keys_entries. cbn. by rewrite app_nil_r. }
  destruct (Hm (y :: ys)) as (v & Hv & Hev); [done | by left |].
  rewrite Hv. cbn [fmap option_fmap option_map]. rewrite default_set.
  by apply (evaluated_keys with_croaring partial).
Qed.

(** The value after merges, given the entry before them. *)
Lemma merged_value (d : nat) (f : Z) (m m' : gmap bytes entry) (k : bytes) (ops : list op)
    (operands : list bytes) :
  posting_merged d f k (m !! k) operands ->
  (partial = true -> deletes_nothing (pending (m !! k) ++ operands)) ->
  alloc_env_ok = true -> Forall2 (fun o b => term_to_binary (op_term o) = Some b) ops operands ->
  operands <> [] ->
  m' !! k = Some {| e_base := base_of (m !! k); e_operands := pending (m !! k) ++ operands |} ->
  exists c, resolved (full_merge d f) m' k = Some c /\
    posting_keys (default_value c) =
      foldl apply_op (existing_keys (default_value <$> resolved (full_merge d f) m k)) ops.
Proof.
  intros Hm Hd Henv Hops Hne Hm'.
  assert (Hd0 : partial = true -> deletes_nothing (pending (m !! k))).
  { intros Hp x. specialize (Hd Hp x). rewrite bind_app in Hd. set_solver. }
  destruct (Hm (pending (m !! k) ++ operands)) as (v & Hv & Hev);
    [by destruct (pending (m !! k)), operands | by right |].
  rewrite (value_before_keys d f m k operands Hm Hd0). unfold resolved. rewrite Hm'. unfold resolve. cbn [e_operands e_base].
  destruct (pending (m !! k) ++ operands) as [|x xs] eqn:Ex; [by destruct (pending (m !! k)) |].
  rewrite <- Ex in *. rewrite Hv. eexists. split; [done |]. rewrite default_set.
  by apply (evaluated_ops with_croaring partial _ _ ops operands).
Qed.

Lemma all_ok (rs : list reply) n :
  nif_result <$> rs = replicate n (Val ATOM_OK) -> rs = replicate n (Reply ATOM_OK).
Proof.
  revert n. induction rs as [|r rs IH]; intros [|n] H; try done. cbn in *. injection H as H1 H2.
  destruct r; cbn [nif_result] in H1; simplify_eq. by f_equal; apply IH.
Qed.

(** [posting_list_keys/1] on any binary. *)
Lemma keys_listed v :
  (forall n, new_binary_ok n = true) ->
  PostingListKeys [Tbin v] = Reply (make_list (Tbin <$> sorted_posting_keys v)) /\
  StronglySorted bytes_lt (sorted_posting_keys v).
Proof. intros Hok. by destruct (nif_keys_agree v Hok) as (H1 & H2 & _). Qed.

(** C14.  Posting lists over a database: on a column family whose merge operator is the
    posting-list operator, any sequence of [rocksdb:merge/4,5] calls with
    [{posting_add, Key}] and [{posting_delete, Key}] and a [rocksdb:get] return; when
    the merges were answered with ok, the binary read holds, by [posting_list_keys/1]
    and in increasing order, exactly the keys of the list before with the operations
    applied in order (or the read answered an error).  It does not matter how RocksDB
    groups the merges: it may store values half way, and, when [partial] is true, combine
    operands with [PartialMergeMulti] first; the claim then covers keys with no deletion
    among the pending and the new operands, since a combined operand loses deletions. *)
Theorem posting_over_database (fam : option nat -> Z) (d : nat) (s : dsys) (cf : option nat) (k : bytes)
    (ops : list op) (operands : list bytes) (opts : term) :
  posting_merged d (fam cf) k (DbLib.view (d_store s) d (fam cf) !! k) operands ->
  (partial = true -> deletes_nothing (pending (DbLib.view (d_store s) d (fam cf) !! k) ++ operands)) ->
  alloc_env_ok = true -> (forall n, new_binary_ok n = true) ->
  Forall2 (fun o b => term_to_binary (op_term o) = Some b) ops operands -> ops <> [] ->
  runs fam d s (((fun b => DWrite cf (UMerge k b) opts) <$> operands) ++ [DGet cf k []]) ->
  exists s1 s2 rs t,
    run_posts (Tres RDb d :: cf_args cf ++ [Tbin k]) opts ops s = Ok (s1, rs) /\
    run_dcall d (DGet cf k []) s1 = Ok (s2, Reply t) /\ d_heap s2 = d_heap s /\
    (rs = replicate (length ops) (Val ATOM_OK) -> read_error t \/
       exists v ks, t = Ttuple [ATOM_OK; Tbin v] /\
         PostingListKeys [Tbin v] = Reply (make_list (Tbin <$> ks)) /\ StronglySorted bytes_lt ks /\
         list_to_set ks = foldl apply_op (existing_keys (value_before d (fam cf) s k)) ops).
Proof.
  intros Hm Hd Henv Hbin Hops Hne Hruns. apply Forall_app in Hruns as [Hw Hg].
  apply Forall_singleton in Hg as (Hu & Hsees & Hfam).
  destruct (dcalls_refine fam d _ s Hw) as (s1 & rs & Hrun & Hh & Hsn & Hf & Hallow).
  destruct (dcall_refines fam d (DGet cf k []) s1) as (s2 & r & Hget & Hh2 & _ & _ & Hsays).
  { by rewrite Hh. } { by rewrite Hsn. } { by rewrite Hf. }
  destruct Hsays as (_ & m & t & Hm1 & -> & Hsays). rewrite seen_current in Hm1. injection Hm1 as <-.
  exists s1, s2, (nif_result <$> rs), t. split_and!; [| done | congruence |].
  { rewrite (run_posts_calls d cf k opts ops operands) by done. by rewrite Hrun. }
  intros Hrs. apply all_ok in Hrs. rewrite (Forall2_length _ _ _ Hops) in Hrs. subst rs.
  apply merges_accumulate in Hallow as Hk; [| by destruct Hops].
  destruct (merged_value d (fam cf) _ _ k ops operands Hm Hd Henv Hops ltac:(by destruct Hops) Hk)
    as (c & Hc & Hkeys).
  destruct Hsays as [(e & He & ->) | [[Hn _] | Herr]]; [right | congruence | by left].
  rewrite Hc in He. injection He as <-.
  exists (default_value c), (sorted_posting_keys (default_value c)).
  destruct (keys_listed (default_value c) Hbin) as (Hlist & Hsorted). by split_and!.
Qed.
End Postings.

(** ** Counting *)

(** [std::to_string(uint64_t)]: twenty digits hold every value. *)
Definition u64_text (n : Z) : bytes := decimal 20 n.

Lemma digits_not_sign b : is_digit b = true -> (byte_val b =? 45) = false /\ (byte_val b =? 43) = false.
Proof. intros H. destruct (digit_not_space b H) as (_ & H1 & H2). split; by apply Z.eqb_neq. Qed.

Lemma count_text n : 0 <= n < 2 ^ 64 -> binary_to_integer (u64_text n) = Val n.
Proof.
  intros Hn. unfold u64_text. pose proof (decimal_digits 20 n ltac:(lia)) as Hd.
  pose proof (read_decimal 20 n ltac:(change (10 ^ Z.of_nat 20) with 100000000000000000000; lia)) as Hr.
  destruct (decimal_head 20 n) as (b & r & Hb & Hdigit); [lia | lia |]. rewrite Hb in *.
  unfold binary_to_integer. destruct (digits_not_sign b Hdigit) as [-> ->].
  assert (forallb is_digit (b :: r) = true) as ->.
  { apply forallb_forall. intros x Hx. rewrite Forall_forall in Hd. by apply Hd, list_elem_of_In. }
  by rewrite Hr.
Qed.

Section Count.
Context `{L : DbLib}.

Lemma deref_pinned h c o : deref (pinned h c o) c = Ok (set_refs (m_RefCount o + 1) o).
Proof. unfold deref, pinned. by rewrite lookup_insert_eq. Qed.

Lemma deref_pinned_other h c d o : c <> d -> deref (pinned h c o) d = deref h d.
Proof. intros Hne. unfold deref, pinned. by rewrite lookup_insert_ne. Qed.

(** [get_property] through usable handles. *)
Lemma get_property_ok (s : dsys) (d : nat) (cf : option nat) (name : bytes) :
  usable (d_heap s) KDb d = true ->
  match cf with Some c => usable (d_heap s) KColumnFamily c | None => true end = true ->
  GetProperty ((Tres RDb d :: cf_args cf) ++ [Tbin name]) s =
    Ok (s, Reply (match lib_property (d_store s) d (CfHandle <$> cf) name with
                  | Some v => Ttuple [ATOM_OK; Tbin v]
                  | None => ATOM_ERROR
                  end)).
Proof.
  intros Hd Hc. destruct (usable_pin_any _ KDb d Hd ltac:(done)) as (o & Ho & Hret & Has & _ & Hrel & Hn).
  unfold GetProperty, RetrieveDbObject, RetrieveColumnFamilyObject. cbn [elem lookup list_lookup obind].
  change (Tres RDb d) with (Tres (res_kind_of KDb) d).
  destruct cf as [c|]; cbn [cf_args app elem lookup list_lookup obind length Nat.eqb]; rewrite Hret; cbn [obind];
    rewrite Has; cbn [obind].
  - assert (Hne : c <> d) by (by eapply usable_kind_ne).
    assert (Hc' : usable (pinned (d_heap s) d o) KColumnFamily c = true) by (by apply usable_pinned_other).
    destruct (usable_pin_any _ KColumnFamily c Hc' ltac:(done)) as (oc & Hoc & Hretc & Hasc & _ & Hrelc & Hnc).
    change (Tres RColumnFamily c) with (Tres (res_kind_of KColumnFamily) c). rewrite Hretc. cbn [obind].
    rewrite Hasc. cbn [obind enif_inspect_binary]. rewrite (deref_pinned_other _ c d), deref_pinned by done.
    cbn [obind set_refs m_Native]. rewrite Hn. cbn [negb]. unfold cf_pointer. rewrite deref_pinned.
    cbn [obind set_refs m_Native]. rewrite Hnc. cbn [use_cf obind]. rewrite Hrelc. cbn [obind]. rewrite Hrel. cbn [obind]. by destruct s.
  - unfold assign. rewrite decide_True by done. cbn [obind enif_inspect_binary]. rewrite deref_pinned.
    cbn [obind set_refs m_Native]. rewrite Hn. cbn [negb obind].
    change (release ?h None) with (Ok h). cbn [obind]. rewrite Hrel. cbn [obind]. by destruct s.
Qed.

(** [rocksdb:count/1,2] answers the number RocksDB estimates, and the atom [error] when
    it has no estimate; the handles keep their references. *)
Theorem count_correct (s : dsys) (d : nat) (cf : option nat) (estimate : option Z) :
  usable (d_heap s) KDb d = true ->
  match cf with Some c => usable (d_heap s) KColumnFamily c | None => true end = true ->
  lib_property (d_store s) d (CfHandle <$> cf) (String.list_byte_of_string "rocksdb.estimate-num-keys") =
    u64_text <$> estimate ->
  (forall n, estimate = Some n -> 0 <= n < 2 ^ 64) ->
  count (Tres RDb d :: cf_args cf) s =
    Ok (s, Val (match estimate with Some n => Tint n | None => ATOM_ERROR end)).
Proof.
  intros Hd Hc Hp Hn. unfold count, estimate_num_keys, property_name. rewrite get_property_ok, Hp by done.
  cbn [nif_call nif_result obind ebind]. destruct estimate as [n|]; [| done].
  cbn [fmap option_fmap option_map]. unfold count_1. change (is_atom "ok" ATOM_OK) with true. cbv iota.
  by rewrite (count_text n (Hn n eq_refl)).
Qed.
End Count.

(** ** Witnesses *)

Module ErlDbWitness.
Import PostingMergeWitness.
#[local] Existing Instances etf_env etf_laws list_roaring list_roaring_laws.

(** A database whose column families merge posting lists, storing a value after the
    first operand. *)
Definition posting_merge (_ : bytes) (base : option bytes) (l : list bytes) : option bytes :=
  match l with
  | [] => None
  | x :: r => Some (FullMergeV2 true (Some (FullMergeV2 true base [x])) r)
  end.

#[local] Instance the_lib : DbLib := MapDb.map_lib posting_merge.
#[local] Instance the_laws : DbLaws the_lib := MapDb.map_laws posting_merge.

Definition the_key : bytes := [Byte.x6b].
Definition the_fam (cf : option nat) : Z := match cf with Some c => Z.of_nat c | None => 0 end.

(** A stored list of the first format with one operand that is still pending. *)
Definition stored : gmap bytes entry :=
  {[the_key := {| e_base := Some (plain stored_v1); e_operands := [operand (Add doc3)] |}]}.

Definition the_dsys : dsys :=
  {| d_heap := DbWitness.the_heap;
     d_store := ({| MapDb.maps := fun _ _ => stored; MapDb.snaps := ∅ |} : dbs) |}.

(** What the database stores after the pending operand. *)
Definition half_way : bytes := FullMergeV2 true (Some stored_v1) [operand (Add doc3)].

Definition the_ops : list op := [Add doc2; Del doc1].
Definition the_operands : list bytes := [operand (Add doc2); operand (Del doc1)].

Lemma posting_over_database_witness :
  exists s1 s2 rs t,
    run_posts (Tres RDb 0 :: cf_args (Some 1%nat) ++ [Tbin the_key]) Tnil the_ops the_dsys = Ok (s1, rs) /\
    run_dcall 0 (DGet (Some 1%nat) the_key []) s1 = Ok (s2, Reply t) /\ d_heap s2 = d_heap the_dsys /\
    (rs = replicate (length the_ops) (Val ATOM_OK) -> read_error t \/
       exists v ks, t = Ttuple [ATOM_OK; Tbin v] /\
         PostingListKeys [Tbin v] = Reply (make_list (Tbin <$> ks)) /\ StronglySorted bytes_lt ks /\
         list_to_set ks = foldl apply_op (existing_keys (value_before 0 1 the_dsys the_key)) the_ops).
Proof.
  apply (posting_over_database true false the_fam 0 the_dsys (Some 1%nat) the_key the_ops the_operands Tnil).
  - intros l _ [-> | ->]; (eexists; split; [reflexivity |]).
    + apply (eval_stored true false _ [operand (Add doc3)] half_way []); apply eval_full; fits.
    + apply (eval_stored true false _ [operand (Add doc3)] half_way the_operands); apply eval_full; fits.
  - discriminate.
  - reflexivity.
  - reflexivity.
  - encodes.
  - discriminate.
  - repeat (apply Forall_cons; split; [split_and!; [vm_compute; reflexivity | exact I | reflexivity] |]).
    apply Forall_nil. exact I.
Defined.

(** Additions that RocksDB first combines into one operand. *)
Definition adds : list bytes := [operand (Add doc2); operand (Add doc1)].

Example combined_additions :
  exists p, PartialMergeMulti true adds = Some p /\
    evaluates true true (Some stored_v1) adds (FullMergeV2 true (Some stored_v1) [p]) /\
    deletes_nothing adds.
Proof.
  eexists. split_and!.
  - reflexivity.
  - eapply (eval_partial true true _ [] adds _ []); [reflexivity | reflexivity | fits | apply eval_full; fits].
  - intros k. unfold adds. rewrite (operand_entries_ops [Add doc2; Add doc1]); [| reflexivity | encodes].
    cbn. intros H. repeat (apply elem_of_cons in H as [[=] | H]). by apply elem_of_nil in H.
Qed.

(** The answers and the keys at the end. *)
Definition posting_report : option (list (erl term) * reply) :=
  match run_posts (Tres RDb 0 :: cf_args (Some 1%nat) ++ [Tbin the_key]) Tnil the_ops the_dsys with
  | Ok (s1, rs) =>
      match run_dcall 0 (DGet (Some 1%nat) the_key []) s1 with
      | Ok (_, Reply (Ttuple [_; v])) => Some (rs, PostingListKeys [v])
      | _ => None
      end
  | Undef => None
  end.

Example posting_report_keys :
  posting_report = Some ([Val ATOM_OK; Val ATOM_OK], Reply (make_list [Tbin doc2; Tbin doc3])).
Proof. vm_compute. reflexivity. Qed.
End ErlDbWitness.
