(* ===== verification/NifTable.v ===== *)
(** * The tables of the native library

    The tables of [c_src/erocksdb.cc] and [c_src/atoms.h], and the export list of
    [src/rocksdb.erl], as data: the functions the library registers
    ([nif_funcs], in the groups the source comments mark), the variables that hold
    atoms ([atom_externs] of the header, [atom_vars] of the definitions) and the
    assignments [on_load] makes to them ([atom_inits]), and the functions of the
    Erlang module ([exports], and the stubs it keeps to itself).

    [NifLoad] gives the tables their meaning. *)

From stdpp Require Import base list strings.
From S2P Require Import Prelude.

Open Scope string_scope.

(** ** Functions *)

(** [ErlNifFunc.flags]: the scheduler a call runs on. *)
Inductive nif_flags := REGULAR_BOUND | DIRTY_CPU | DIRTY_IO.

#[export] Instance nif_flags_eq_dec : EqDecision nif_flags.
Proof. solve_decision. Defined.

(** An [ErlNifFunc]; [fn_fptr] is the symbol of the C++ function in the namespace
    [erocksdb]. *)
Record ErlNifFunc := nif {
  fn_name : string;
  fn_arity : nat;
  fn_fptr : string;
  fn_flags : nif_flags;
}.

Definition nifs_open : list ErlNifFunc := [
    nif "open" 2 "Open" DIRTY_IO;
    nif "open_readonly" 2 "OpenReadOnly" DIRTY_IO;
    nif "open" 3 "OpenWithCf" DIRTY_IO;
    nif "open_readonly" 3 "OpenWithCfReadOnly" DIRTY_IO;
    nif "open_with_ttl" 4 "OpenWithTTL" DIRTY_IO;
    nif "open_with_ttl_cf" 4 "OpenWithTTLCf" DIRTY_IO;
    nif "get_ttl" 2 "GetTtl" DIRTY_IO;
    nif "set_ttl" 2 "SetTtl" DIRTY_IO;
    nif "set_ttl" 3 "SetTtl" DIRTY_IO;
    nif "create_column_family_with_ttl" 4 "CreateColumnFamilyWithTtl" DIRTY_IO;
    nif "open_optimistic_transaction_db" 3 "OpenOptimisticTransactionDB" DIRTY_IO;
    nif "close" 1 "Close" DIRTY_IO].

Definition nifs_management : list ErlNifFunc := [
    nif "checkpoint" 2 "Checkpoint" DIRTY_IO;
    nif "repair" 2 "Repair" DIRTY_IO;
    nif "is_empty" 1 "IsEmpty" DIRTY_IO;
    nif "destroy" 2 "Destroy" DIRTY_IO;
    nif "get_property" 2 "GetProperty" REGULAR_BOUND;
    nif "get_property" 3 "GetProperty" REGULAR_BOUND;
    nif "flush" 3 "Flush" DIRTY_IO;
    nif "sync_wal" 1 "SyncWal" DIRTY_IO;
    nif "flush_wal" 2 "FlushWal" DIRTY_IO;
    nif "supported_compressions" 0 "SupportedCompressions" REGULAR_BOUND;
    nif "pause_background_work" 1 "PauseBackgroundWork" DIRTY_IO;
    nif "continue_background_work" 1 "ContinueBackgroundWork" DIRTY_IO;
    nif "disable_manual_compaction" 1 "DisableManualCompaction" REGULAR_BOUND;
    nif "enable_manual_compaction" 1 "EnableManualCompaction" REGULAR_BOUND;
    nif "set_db_background_threads" 2 "SetDBBackgroundThreads" REGULAR_BOUND;
    nif "get_approximate_sizes" 3 "GetApproximateSizes" DIRTY_IO;
    nif "get_approximate_sizes" 4 "GetApproximateSizes" DIRTY_IO;
    nif "get_approximate_memtable_stats" 3 "GetApproximateMemTableStats" DIRTY_IO;
    nif "get_approximate_memtable_stats" 4 "GetApproximateMemTableStats" DIRTY_IO;
    nif "delete_range" 4 "DeleteRange" DIRTY_IO;
    nif "delete_range" 5 "DeleteRange" DIRTY_IO;
    nif "compact_range" 4 "CompactRange" DIRTY_IO;
    nif "compact_range" 5 "CompactRange" DIRTY_IO].

Definition nifs_families : list ErlNifFunc := [
    nif "list_column_families" 2 "ListColumnFamilies" DIRTY_IO;
    nif "create_column_family" 3 "CreateColumnFamily" DIRTY_IO;
    nif "drop_column_family" 1 "DropColumnFamily" DIRTY_IO;
    nif "drop_column_family" 2 "DropColumnFamily" DIRTY_IO;
    nif "destroy_column_family" 1 "DestroyColumnFamily" DIRTY_IO;
    nif "destroy_column_family" 2 "DestroyColumnFamily" DIRTY_IO;
    nif "get_column_family_metadata" 1 "GetColumnFamilyMetaData" DIRTY_IO;
    nif "get_column_family_metadata" 2 "GetColumnFamilyMetaData" DIRTY_IO].

Definition nifs_kv : list ErlNifFunc := [
    nif "get" 3 "Get" DIRTY_IO;
    nif "get" 4 "Get" DIRTY_IO;
    nif "multi_get" 3 "MultiGet" DIRTY_IO;
    nif "multi_get" 4 "MultiGet" DIRTY_IO;
    nif "put" 4 "Put" DIRTY_IO;
    nif "put" 5 "Put" DIRTY_IO;
    nif "merge_nif" 4 "Merge" DIRTY_IO;
    nif "merge_nif" 5 "Merge" DIRTY_IO;
    nif "delete" 3 "Delete" DIRTY_IO;
    nif "delete" 4 "Delete" DIRTY_IO;
    nif "single_delete" 3 "SingleDelete" DIRTY_IO;
    nif "single_delete" 4 "SingleDelete" DIRTY_IO;
    nif "put_entity" 4 "PutEntity" DIRTY_IO;
    nif "put_entity" 5 "PutEntity" DIRTY_IO;
    nif "get_entity" 3 "GetEntity" DIRTY_IO;
    nif "get_entity" 4 "GetEntity" DIRTY_IO;
    nif "snapshot" 1 "Snapshot" REGULAR_BOUND;
    nif "release_snapshot" 1 "ReleaseSnapshot" REGULAR_BOUND;
    nif "get_snapshot_sequence" 1 "GetSnapshotSequenceNumber" REGULAR_BOUND].

Definition nifs_iterators : list ErlNifFunc := [
    nif "iterator" 2 "Iterator" DIRTY_IO;
    nif "iterator" 3 "Iterator" DIRTY_IO;
    nif "iterators" 3 "Iterators" DIRTY_IO;
    nif "coalescing_iterator" 3 "CoalescingIterator" DIRTY_IO;
    nif "iterator_move" 2 "IteratorMove" DIRTY_IO;
    nif "iterator_refresh" 1 "IteratorRefresh" DIRTY_IO;
    nif "iterator_prepare_value" 1 "IteratorPrepareValue" DIRTY_IO;
    nif "iterator_close" 1 "IteratorClose" DIRTY_IO;
    nif "iterator_columns" 1 "IteratorColumns" DIRTY_IO;
    nif "get_latest_sequence_number" 1 "GetLatestSequenceNumber" REGULAR_BOUND].

Definition nifs_tlog : list ErlNifFunc := [
    nif "tlog_iterator" 2 "TransactionLogIterator" DIRTY_IO;
    nif "tlog_iterator_close" 1 "TransactionLogIteratorClose" DIRTY_IO;
    nif "tlog_next_binary_update" 1 "TransactionLogNextBinaryUpdate" DIRTY_IO;
    nif "tlog_next_update" 1 "TransactionLogNextUpdate" DIRTY_IO;
    nif "write_binary_update" 3 "WriteBinaryUpdate" DIRTY_IO].

Definition nifs_optimistic : list ErlNifFunc := [
    nif "transaction" 2 "NewTransaction" REGULAR_BOUND;
    nif "transaction_put" 3 "PutTransaction" DIRTY_IO;
    nif "transaction_put" 4 "PutTransaction" DIRTY_IO;
    nif "transaction_get" 3 "GetTransaction" DIRTY_IO;
    nif "transaction_get" 4 "GetTransaction" DIRTY_IO;
    nif "transaction_get_for_update" 3 "GetForUpdateTransaction" DIRTY_IO;
    nif "transaction_get_for_update" 4 "GetForUpdateTransaction" DIRTY_IO;
    nif "transaction_multi_get" 3 "MultiGetTransaction" DIRTY_IO;
    nif "transaction_multi_get" 4 "MultiGetTransaction" DIRTY_IO;
    nif "transaction_multi_get_for_update" 3 "MultiGetForUpdateTransaction" DIRTY_IO;
    nif "transaction_multi_get_for_update" 4 "MultiGetForUpdateTransaction" DIRTY_IO;
    nif "transaction_delete" 2 "DelTransaction" DIRTY_IO;
    nif "transaction_delete" 3 "DelTransaction" DIRTY_IO;
    nif "transaction_iterator" 2 "IteratorTransaction" DIRTY_IO;
    nif "transaction_iterator" 3 "IteratorTransaction" DIRTY_IO;
    nif "transaction_commit" 1 "CommitTransaction" DIRTY_IO;
    nif "transaction_rollback" 1 "RollbackTransaction" DIRTY_IO;
    nif "release_transaction" 1 "ReleaseTransaction" REGULAR_BOUND].

Definition nifs_pessimistic : list ErlNifFunc := [
    nif "open_pessimistic_transaction_db" 2 "OpenPessimisticTransactionDB" DIRTY_IO;
    nif "open_pessimistic_transaction_db" 3 "OpenPessimisticTransactionDB" DIRTY_IO;
    nif "pessimistic_transaction" 2 "NewPessimisticTransaction" DIRTY_IO;
    nif "pessimistic_transaction" 3 "NewPessimisticTransaction" DIRTY_IO;
    nif "pessimistic_transaction_put" 3 "PessimisticTransactionPut" DIRTY_IO;
    nif "pessimistic_transaction_put" 4 "PessimisticTransactionPut" DIRTY_IO;
    nif "pessimistic_transaction_get" 3 "PessimisticTransactionGet" DIRTY_IO;
    nif "pessimistic_transaction_get" 4 "PessimisticTransactionGet" DIRTY_IO;
    nif "pessimistic_transaction_get_for_update" 3 "PessimisticTransactionGetForUpdate" DIRTY_IO;
    nif "pessimistic_transaction_get_for_update" 4 "PessimisticTransactionGetForUpdate" DIRTY_IO;
    nif "pessimistic_transaction_multi_get" 3 "PessimisticTransactionMultiGet" DIRTY_IO;
    nif "pessimistic_transaction_multi_get" 4 "PessimisticTransactionMultiGet" DIRTY_IO;
    nif "pessimistic_transaction_multi_get_for_update" 3 "PessimisticTransactionMultiGetForUpdate" DIRTY_IO;
    nif "pessimistic_transaction_multi_get_for_update" 4 "PessimisticTransactionMultiGetForUpdate" DIRTY_IO;
    nif "pessimistic_transaction_delete" 2 "PessimisticTransactionDelete" DIRTY_IO;
    nif "pessimistic_transaction_delete" 3 "PessimisticTransactionDelete" DIRTY_IO;
    nif "pessimistic_transaction_iterator" 2 "PessimisticTransactionIterator" DIRTY_IO;
    nif "pessimistic_transaction_iterator" 3 "PessimisticTransactionIterator" DIRTY_IO;
    nif "pessimistic_transaction_commit" 1 "PessimisticTransactionCommit" DIRTY_IO;
    nif "pessimistic_transaction_rollback" 1 "PessimisticTransactionRollback" DIRTY_IO;
    nif "release_pessimistic_transaction" 1 "ReleasePessimisticTransaction" REGULAR_BOUND;
    nif "pessimistic_transaction_set_savepoint" 1 "PessimisticTransactionSetSavepoint" REGULAR_BOUND;
    nif "pessimistic_transaction_rollback_to_savepoint" 1 "PessimisticTransactionRollbackToSavepoint" DIRTY_IO;
    nif "pessimistic_transaction_pop_savepoint" 1 "PessimisticTransactionPopSavepoint" REGULAR_BOUND;
    nif "pessimistic_transaction_get_id" 1 "PessimisticTransactionGetId" REGULAR_BOUND;
    nif "pessimistic_transaction_get_waiting_txns" 1 "PessimisticTransactionGetWaitingTxns" REGULAR_BOUND].

Definition nifs_batch : list ErlNifFunc := [
    nif "batch" 0 "NewBatch" REGULAR_BOUND;
    nif "release_batch" 1 "ReleaseBatch" REGULAR_BOUND;
    nif "write_batch" 3 "WriteBatch" DIRTY_IO;
    nif "batch_put" 3 "PutBatch" REGULAR_BOUND;
    nif "batch_put" 4 "PutBatch" REGULAR_BOUND;
    nif "batch_merge_nif" 3 "MergeBatch" REGULAR_BOUND;
    nif "batch_merge_nif" 4 "MergeBatch" REGULAR_BOUND;
    nif "batch_delete" 2 "DeleteBatch" REGULAR_BOUND;
    nif "batch_delete" 3 "DeleteBatch" REGULAR_BOUND;
    nif "batch_single_delete" 2 "SingleDeleteBatch" REGULAR_BOUND;
    nif "batch_single_delete" 3 "SingleDeleteBatch" REGULAR_BOUND;
    nif "batch_delete_range" 3 "DeleteRangeBatch" REGULAR_BOUND;
    nif "batch_delete_range" 4 "DeleteRangeBatch" REGULAR_BOUND;
    nif "batch_clear" 1 "ClearBatch" REGULAR_BOUND;
    nif "batch_savepoint" 1 "BatchSetSavePoint" REGULAR_BOUND;
    nif "batch_rollback" 1 "BatchRollbackToSavePoint" REGULAR_BOUND;
    nif "batch_count" 1 "BatchCount" REGULAR_BOUND;
    nif "batch_data_size" 1 "BatchDataSize" REGULAR_BOUND;
    nif "batch_tolist" 1 "BatchToList" DIRTY_CPU].

Definition nifs_backup : list ErlNifFunc := [
    nif "open_backup_engine" 1 "OpenBackupEngine" DIRTY_IO;
    nif "create_new_backup" 2 "CreateNewBackup" DIRTY_IO;
    nif "get_backup_info" 1 "GetBackupInfo" DIRTY_IO;
    nif "verify_backup" 2 "VerifyBackup" DIRTY_IO;
    nif "stop_backup" 1 "StopBackup" DIRTY_IO;
    nif "delete_backup" 2 "DeleteBackup" DIRTY_IO;
    nif "purge_old_backup" 2 "PurgeOldBackup" DIRTY_IO;
    nif "restore_db_from_backup" 3 "RestoreDBFromBackup" DIRTY_IO;
    nif "restore_db_from_backup" 4 "RestoreDBFromBackup" DIRTY_IO;
    nif "restore_db_from_latest_backup" 2 "RestoreDBFromLatestBackup" DIRTY_IO;
    nif "restore_db_from_latest_backup" 3 "RestoreDBFromLatestBackup" DIRTY_IO;
    nif "gc_backup_engine" 1 "GCBackupEngine" DIRTY_IO;
    nif "close_backup_engine" 1 "CloseBackupEngine" DIRTY_IO].

Definition nifs_shared : list ErlNifFunc := [
    nif "new_cache" 2 "NewCache" REGULAR_BOUND;
    nif "cache_info" 1 "CacheInfo" REGULAR_BOUND;
    nif "cache_info" 2 "CacheInfo" REGULAR_BOUND;
    nif "release_cache" 1 "ReleaseCache" REGULAR_BOUND;
    nif "set_strict_capacity_limit" 2 "SetStrictCapacityLimit" REGULAR_BOUND;
    nif "set_capacity" 2 "SetCapacity" DIRTY_CPU;
    nif "new_rate_limiter" 2 "NewRateLimiter" REGULAR_BOUND;
    nif "release_rate_limiter" 1 "ReleaseRateLimiter" REGULAR_BOUND;
    nif "new_env" 1 "NewEnv" REGULAR_BOUND;
    nif "set_env_background_threads" 2 "SetEnvBackgroundThreads" REGULAR_BOUND;
    nif "set_env_background_threads" 3 "SetEnvBackgroundThreads" REGULAR_BOUND;
    nif "destroy_env" 1 "DestroyEnv" REGULAR_BOUND].

Definition nifs_sst : list ErlNifFunc := [
    nif "new_sst_file_manager" 2 "NewSstFileManager" REGULAR_BOUND;
    nif "release_sst_file_manager" 1 "ReleaseSstFileManager" REGULAR_BOUND;
    nif "sst_file_manager_flag" 3 "SstFileManagerFlag" REGULAR_BOUND;
    nif "sst_file_manager_info" 1 "SstFileManagerInfo" REGULAR_BOUND;
    nif "sst_file_manager_info" 2 "SstFileManagerInfo" REGULAR_BOUND;
    nif "sst_file_manager_tracked_files" 1 "SstFileManagerTrackedFiles" DIRTY_IO;
    nif "sst_file_writer_open" 2 "SstFileWriterOpen" DIRTY_IO;
    nif "sst_file_writer_put" 3 "SstFileWriterPut" DIRTY_IO;
    nif "sst_file_writer_put_entity" 3 "SstFileWriterPutEntity" DIRTY_IO;
    nif "sst_file_writer_merge" 3 "SstFileWriterMerge" DIRTY_IO;
    nif "sst_file_writer_delete" 2 "SstFileWriterDelete" DIRTY_IO;
    nif "sst_file_writer_delete_range" 3 "SstFileWriterDeleteRange" DIRTY_IO;
    nif "sst_file_writer_finish" 1 "SstFileWriterFinish" DIRTY_IO;
    nif "sst_file_writer_finish" 2 "SstFileWriterFinish" DIRTY_IO;
    nif "sst_file_writer_file_size" 1 "SstFileWriterFileSize" REGULAR_BOUND;
    nif "release_sst_file_writer" 1 "ReleaseSstFileWriter" REGULAR_BOUND;
    nif "ingest_external_file" 3 "IngestExternalFile" DIRTY_IO;
    nif "ingest_external_file" 4 "IngestExternalFile" DIRTY_IO;
    nif "sst_file_reader_open" 2 "SstFileReaderOpen" DIRTY_IO;
    nif "sst_file_reader_iterator" 2 "SstFileReaderIterator" DIRTY_IO;
    nif "sst_file_reader_get_table_properties" 1 "SstFileReaderGetTableProperties" REGULAR_BOUND;
    nif "sst_file_reader_verify_checksum" 1 "SstFileReaderVerifyChecksum" DIRTY_IO;
    nif "sst_file_reader_verify_checksum" 2 "SstFileReaderVerifyChecksum" DIRTY_IO;
    nif "sst_file_reader_iterator_move" 2 "SstFileReaderIteratorMove" DIRTY_IO;
    nif "sst_file_reader_iterator_close" 1 "SstFileReaderIteratorClose" REGULAR_BOUND;
    nif "release_sst_file_reader" 1 "ReleaseSstFileReader" REGULAR_BOUND].

Definition nifs_counters : list ErlNifFunc := [
    nif "new_write_buffer_manager" 1 "NewWriteBufferManager" REGULAR_BOUND;
    nif "new_write_buffer_manager" 2 "NewWriteBufferManager" REGULAR_BOUND;
    nif "release_write_buffer_manager" 1 "ReleaseWriteBufferManager" REGULAR_BOUND;
    nif "write_buffer_manager_info" 1 "WriteBufferManagerInfo" REGULAR_BOUND;
    nif "write_buffer_manager_info" 2 "WriteBufferManagerInfo" REGULAR_BOUND;
    nif "new_statistics" 0 "NewStatistics" REGULAR_BOUND;
    nif "set_stats_level" 2 "SetStatsLevel" REGULAR_BOUND;
    nif "statistics_info" 1 "StatisticsInfo" REGULAR_BOUND;
    nif "statistics_ticker" 2 "StatisticsTicker" REGULAR_BOUND;
    nif "statistics_histogram" 2 "StatisticsHistogram" REGULAR_BOUND;
    nif "release_statistics" 1 "ReleaseStatistics" REGULAR_BOUND].

Definition nifs_posting : list ErlNifFunc := [
    nif "compaction_filter_reply" 2 "CompactionFilterReply" REGULAR_BOUND;
    nif "posting_list_keys" 1 "PostingListKeys" REGULAR_BOUND;
    nif "posting_list_contains" 2 "PostingListContains" REGULAR_BOUND;
    nif "posting_list_find" 2 "PostingListFind" REGULAR_BOUND;
    nif "posting_list_count" 1 "PostingListCount" REGULAR_BOUND;
    nif "posting_list_to_map" 1 "PostingListToMap" REGULAR_BOUND;
    nif "posting_list_version" 1 "PostingListVersion" REGULAR_BOUND;
    nif "posting_list_intersection" 2 "PostingListIntersection" REGULAR_BOUND;
    nif "posting_list_union" 2 "PostingListUnion" REGULAR_BOUND;
    nif "posting_list_difference" 2 "PostingListDifference" REGULAR_BOUND;
    nif "posting_list_intersection_count" 2 "PostingListIntersectionCount" REGULAR_BOUND;
    nif "posting_list_bitmap_contains" 2 "PostingListBitmapContains" REGULAR_BOUND;
    nif "postings_open" 1 "PostingsOpen" REGULAR_BOUND;
    nif "postings_contains" 2 "PostingsContains" REGULAR_BOUND;
    nif "postings_bitmap_contains" 2 "PostingsBitmapContains" REGULAR_BOUND;
    nif "postings_count" 1 "PostingsCount" REGULAR_BOUND;
    nif "postings_keys" 1 "PostingsKeys" REGULAR_BOUND;
    nif "postings_to_binary" 1 "PostingsToBinary" REGULAR_BOUND].

(** The table registered by [ERL_NIF_INIT]. *)
Definition nif_funcs : list ErlNifFunc :=
  nifs_open ++ nifs_management ++ nifs_families ++ nifs_kv ++ nifs_iterators ++ nifs_tlog ++
  nifs_optimistic ++ nifs_pessimistic ++ nifs_batch ++ nifs_backup ++ nifs_shared ++ nifs_sst ++
  nifs_counters ++ nifs_posting.

(** ** Assignments of atoms *)

Definition atoms_erlang : list (string * string) := [
    ("ATOM_TRUE", "true");
    ("ATOM_FALSE", "false");
    ("ATOM_OK", "ok");
    ("ATOM_ERROR", "error");
    ("ATOM_EINVAL", "einval");
    ("ATOM_BADARG", "badarg");
    ("ATOM_NOT_FOUND", "not_found");
    ("ATOM_CORRUPTION", "corruption");
    ("ATOM_INC", "inc");
    ("ATOM_DEC", "dec");
    ("ATOM_UNKNOWN_STATUS_ERROR", "unknown_status");
    ("ATOM_UNDEFINED", "undefined");
    ("ATOM_DEFAULT", "default");
    ("ATOM_MEMENV", "memenv");
    ("ATOM_LRU", "lru");
    ("ATOM_CLOCK", "clock");
    ("ATOM_USAGE", "usage");
    ("ATOM_PINNED_USAGE", "pinned_usage");
    ("ATOM_CAPACITY", "capacity");
    ("ATOM_STRICT_CAPACITY", "strict_capacity");
    ("ATOM_FLUSH_ONLY", "flush_only");
    ("ATOM_DISABLE", "disable");
    ("ATOM_DEFAULT_COLUMN_FAMILY", "default_column_family")].

Definition atoms_cf : list (string * string) := [
    ("ATOM_BLOCK_CACHE_SIZE_MB_FOR_POINT_LOOKUP", "block_cache_size_mb_for_point_lookup");
    ("ATOM_MEMTABLE_MEMORY_BUDGET", "memtable_memory_budget");
    ("ATOM_WRITE_BUFFER_SIZE", "write_buffer_size");
    ("ATOM_MAX_WRITE_BUFFER_NUMBER", "max_write_buffer_number");
    ("ATOM_MIN_WRITE_BUFFER_NUMBER_TO_MERGE", "min_write_buffer_number_to_merge");
    ("ATOM_COMPRESSION", "compression");
    ("ATOM_ENABLE_BLOB_FILES", "enable_blob_files");
    ("ATOM_MIN_BLOB_SIZE", "min_blob_size");
    ("ATOM_BLOB_FILE_SIZE", "blob_file_size");
    ("ATOM_BLOB_COMPRESSION_TYPE", "blob_compression_type");
    ("ATOM_ENABLE_BLOB_GC", "enable_blob_garbage_collection");
    ("ATOM_BLOB_GC_AGE_CUTOFF", "blob_garbage_collection_age_cutoff");
    ("ATOM_BLOB_GC_FORCE_THRESHOLD", "blob_garbage_collection_force_threshold");
    ("ATOM_BLOB_COMPACTION_READAHEAD_SIZE", "blob_compaction_readahead_size");
    ("ATOM_BLOB_FILE_STARTING_LEVEL", "blob_file_starting_level");
    ("ATOM_BLOB_CACHE", "blob_cache");
    ("ATOM_PREPOPULATE_BLOB_CACHE", "prepopulate_blob_cache");
    ("ATOM_BOTTOMMOST_COMPRESSION", "bottommost_compression");
    ("ATOM_BOTTOMMOST_COMPRESSION_OPTS", "bottommost_compression_opts");
    ("ATOM_COMPRESSION_OPTS", "compression_opts");
    ("ATOM_WINDOW_BITS", "window_bits");
    ("ATOM_LEVEL", "level");
    ("ATOM_STRATEGY", "strategy");
    ("ATOM_MAX_DICT_BYTES", "max_dict_bytes");
    ("ATOM_ZSTD_MAX_TRAIN_BYTES", "zstd_max_train_bytes");
    ("ATOM_NUM_LEVELS", "num_levels");
    ("ATOM_LEVEL0_FILE_NUM_COMPACTION_TRIGGER", "level0_file_num_compaction_trigger");
    ("ATOM_LEVEL0_SLOWDOWN_WRITES_TRIGGER", "level0_slowdown_writes_trigger");
    ("ATOM_LEVEL0_STOP_WRITES_TRIGGER", "level0_stop_writes_trigger");
    ("ATOM_TARGET_FILE_SIZE_BASE", "target_file_size_base");
    ("ATOM_TARGET_FILE_SIZE_MULTIPLIER", "target_file_size_multiplier");
    ("ATOM_MAX_BYTES_FOR_LEVEL_BASE", "max_bytes_for_level_base");
    ("ATOM_MAX_BYTES_FOR_LEVEL_MULTIPLIER", "max_bytes_for_level_multiplier");
    ("ATOM_MAX_COMPACTION_BYTES", "max_compaction_bytes");
    ("ATOM_ARENA_BLOCK_SIZE", "arena_block_size");
    ("ATOM_DISABLE_AUTO_COMPACTIONS", "disable_auto_compactions");
    ("ATOM_COMPACTION_STYLE", "compaction_style");
    ("ATOM_COMPACTION_PRI", "compaction_pri");
    ("ATOM_FILTER_DELETES", "filter_deletes");
    ("ATOM_MAX_SEQUENTIAL_SKIP_IN_ITERATIONS", "max_sequential_skip_in_iterations");
    ("ATOM_INPLACE_UPDATE_SUPPORT", "inplace_update_support");
    ("ATOM_INPLACE_UPDATE_NUM_LOCKS", "inplace_update_num_locks");
    ("ATOM_TABLE_FACTORY_BLOCK_CACHE_SIZE", "table_factory_block_cache_size");
    ("ATOM_IN_MEMORY_MODE", "in_memory_mode");
    ("ATOM_IN_MEMORY", "in_memory");
    ("ATOM_BLOCK_BASED_TABLE_OPTIONS", "block_based_table_options");
    ("ATOM_LEVEL_COMPACTION_DYNAMIC_LEVEL_BYTES", "level_compaction_dynamic_level_bytes");
    ("ATOM_OPTIMIZE_FILTERS_FOR_HITS", "optimize_filters_for_hits");
    ("ATOM_PREFIX_EXTRACTOR", "prefix_extractor")].

Definition atoms_db : list (string * string) := [
    ("ATOM_TOTAL_THREADS", "total_threads");
    ("ATOM_CREATE_IF_MISSING", "create_if_missing");
    ("ATOM_CREATE_MISSING_COLUMN_FAMILIES", "create_missing_column_families");
    ("ATOM_ERROR_IF_EXISTS", "error_if_exists");
    ("ATOM_PARANOID_CHECKS", "paranoid_checks");
    ("ATOM_MAX_OPEN_FILES", "max_open_files");
    ("ATOM_MAX_TOTAL_WAL_SIZE", "max_total_wal_size");
    ("ATOM_USE_FSYNC", "use_fsync");
    ("ATOM_DB_PATHS", "db_paths");
    ("ATOM_DB_LOG_DIR", "db_log_dir");
    ("ATOM_WAL_DIR", "wal_dir");
    ("ATOM_DELETE_OBSOLETE_FILES_PERIOD_MICROS", "delete_obsolete_files_period_micros");
    ("ATOM_MAX_BACKGROUND_JOBS", "max_background_jobs");
    ("ATOM_MAX_BACKGROUND_COMPACTIONS", "max_background_compactions");
    ("ATOM_MAX_BACKGROUND_FLUSHES", "max_background_flushes");
    ("ATOM_MAX_LOG_FILE_SIZE", "max_log_file_size");
    ("ATOM_LOG_FILE_TIME_TO_ROLL", "log_file_time_to_roll");
    ("ATOM_KEEP_LOG_FILE_NUM", "keep_log_file_num");
    ("ATOM_MAX_MANIFEST_FILE_SIZE", "max_manifest_file_size");
    ("ATOM_TABLE_CACHE_NUMSHARDBITS", "table_cache_numshardbits");
    ("ATOM_WAL_TTL_SECONDS", "wal_ttl_seconds");
    ("ATOM_WAL_SIZE_LIMIT_MB", "wal_size_limit_mb");
    ("ATOM_MANIFEST_PREALLOCATION_SIZE", "manifest_preallocation_size");
    ("ATOM_ALLOW_MMAP_READS", "allow_mmap_reads");
    ("ATOM_ALLOW_MMAP_WRITES", "allow_mmap_writes");
    ("ATOM_IS_FD_CLOSE_ON_EXEC", "is_fd_close_on_exec");
    ("ATOM_STATS_DUMP_PERIOD_SEC", "stats_dump_period_sec");
    ("ATOM_ADVISE_RANDOM_ON_OPEN", "advise_random_on_open");
    ("ATOM_COMPACTION_READAHEAD_SIZE", "compaction_readahead_size");
    ("ATOM_USE_ADAPTIVE_MUTEX", "use_adaptive_mutex");
    ("ATOM_BYTES_PER_SYNC", "bytes_per_sync");
    ("ATOM_SKIP_STATS_UPDATE_ON_DB_OPEN", "skip_stats_update_on_db_open");
    ("ATOM_WAL_RECOVERY_MODE", "wal_recovery_mode");
    ("ATOM_ALLOW_CONCURRENT_MEMTABLE_WRITE", "allow_concurrent_memtable_write");
    ("ATOM_ENABLE_WRITE_THREAD_ADAPTATIVE_YIELD", "enable_write_thread_adaptive_yield");
    ("ATOM_DB_WRITE_BUFFER_SIZE", "db_write_buffer_size");
    ("ATOM_RATE_LIMITER", "rate_limiter");
    ("ATOM_SST_FILE_MANAGER", "sst_file_manager");
    ("ATOM_WRITE_BUFFER_MANAGER", "write_buffer_manager");
    ("ATOM_MAX_SUBCOMPACTIONS", "max_subcompactions");
    ("ATOM_MANUAL_WAL_FLUSH", "manual_wal_flush");
    ("ATOM_ATOMIC_FLUSH", "atomic_flush");
    ("ATOM_USE_DIRECT_READS", "use_direct_reads");
    ("ATOM_USE_DIRECT_IO_FOR_FLUSH_AND_COMPACTION", "use_direct_io_for_flush_and_compaction");
    ("ATOM_ENABLE_PIPELINED_WRITE", "enable_pipelined_write");
    ("ATOM_UNORDERED_WRITE", "unordered_write");
    ("ATOM_TWO_WRITE_QUEUES", "two_write_queues")].

Definition atoms_io : list (string * string) := [
    ("ATOM_NO_BLOCK_CACHE", "no_block_cache");
    ("ATOM_BLOCK_CACHE", "block_cache");
    ("ATOM_BLOCK_SIZE", "block_size");
    ("ATOM_BLOCK_CACHE_SIZE", "block_cache_size");
    ("ATOM_BLOOM_FILTER_POLICY", "bloom_filter_policy");
    ("ATOM_FORMAT_VERSION", "format_version");
    ("ATOM_CACHE_INDEX_AND_FILTER_BLOCKS", "cache_index_and_filter_blocks");
    ("ATOM_READ_TIER", "read_tier");
    ("ATOM_READ_ALL_TIER", "read_all_tier");
    ("ATOM_BLOCK_CACHE_TIER", "block_cache_tier");
    ("ATOM_PERSISTED_TIER", "persisted_tier");
    ("ATOM_MEMTABLE_TIER", "memtable_tier");
    ("ATOM_VERIFY_CHECKSUMS", "verify_checksums");
    ("ATOM_FILL_CACHE", "fill_cache");
    ("ATOM_ITERATE_UPPER_BOUND", "iterate_upper_bound");
    ("ATOM_ITERATE_LOWER_BOUND", "iterate_lower_bound");
    ("ATOM_TAILING", "tailing");
    ("ATOM_TOTAL_ORDER_SEEK", "total_order_seek");
    ("ATOM_PREFIX_SAME_AS_START", "prefix_same_as_start");
    ("ATOM_SNAPSHOT", "snapshot");
    ("ATOM_BAD_SNAPSHOT", "bad_snapshot");
    ("ATOM_AUTO_REFRESH_ITERATOR_WITH_SNAPSHOT", "auto_refresh_iterator_with_snapshot");
    ("ATOM_AUTO_READAHEAD_SIZE", "auto_readahead_size");
    ("ATOM_ALLOW_UNPREPARED_VALUE", "allow_unprepared_value");
    ("ATOM_READAHEAD_SIZE", "readahead_size");
    ("ATOM_ASYNC_IO", "async_io");
    ("ATOM_SYNC", "sync");
    ("ATOM_DISABLE_WAL", "disable_wal");
    ("ATOM_IGNORE_MISSING_COLUMN_FAMILIES", "ignore_missing_column_families");
    ("ATOM_NO_SLOWDOWN", "no_slowdown");
    ("ATOM_LOW_PRI", "low_pri");
    ("ATOM_CLEAR", "clear");
    ("ATOM_PUT", "put");
    ("ATOM_MERGE", "merge");
    ("ATOM_DELETE", "delete");
    ("ATOM_SINGLE_DELETE", "single_delete")].

Definition atoms_compact : list (string * string) := [
    ("ATOM_EXCLUSIVE_MANUAL_COMPACTION", "exclusive_manual_compaction");
    ("ATOM_CHANGE_LEVEL", "change_level");
    ("ATOM_TARGET_LEVEL", "target_level");
    ("ATOM_ALLOW_WRITE_STALL", "allow_write_stall");
    ("ATOM_BOTTOMMOST_LEVEL_COMPACTION", "bottommost_level_compaction");
    ("ATOM_SKIP", "skip");
    ("ATOM_IF_HAVE_COMPACTION_FILTER", "if_have_compaction_filter");
    ("ATOM_FORCE", "force");
    ("ATOM_FORCE_OPTIMIZED", "force_optimized");
    ("ATOM_COMPACTION_OPTIONS_FIFO", "compaction_options_fifo");
    ("ATOM_MAX_TABLE_FILE_SIZE", "max_table_files_size");
    ("ATOM_ALLOW_COMPACTION", "allow_compaction");
    ("ATOM_TTL", "ttl");
    ("ATOM_WAIT", "wait");
    ("ATOM_FIRST", "first");
    ("ATOM_LAST", "last");
    ("ATOM_NEXT", "next");
    ("ATOM_PREV", "prev");
    ("ATOM_SEEK_FOR_PREV", "seek_for_prev");
    ("ATOM_SEEK", "seek");
    ("ATOM_KEYS_ONLY", "keys_only")].

Definition atoms_enums : list (string * string) := [
    ("ATOM_COMPRESSION_TYPE_SNAPPY", "snappy");
    ("ATOM_COMPRESSION_TYPE_ZLIB", "zlib");
    ("ATOM_COMPRESSION_TYPE_BZIP2", "bzip2");
    ("ATOM_COMPRESSION_TYPE_LZ4", "lz4");
    ("ATOM_COMPRESSION_TYPE_LZ4H", "lz4h");
    ("ATOM_COMPRESSION_TYPE_ZSTD", "zstd");
    ("ATOM_COMPRESSION_TYPE_NONE", "none");
    ("ATOM_COMPACTION_STYLE_LEVEL", "level");
    ("ATOM_COMPACTION_STYLE_UNIVERSAL", "universal");
    ("ATOM_COMPACTION_STYLE_FIFO", "fifo");
    ("ATOM_COMPACTION_STYLE_NONE", "none");
    ("ATOM_COMPACTION_PRI_COMPENSATED_SIZE", "compensated_size");
    ("ATOM_COMPACTION_PRI_OLDEST_LARGEST_SEQ_FIRST", "oldest_largest_seq_first");
    ("ATOM_COMPACTION_PRI_OLDEST_SMALLEST_SEQ_FIRST", "oldest_smallest_seq_first");
    ("ATOM_WAL_TOLERATE_CORRUPTED_TAIL_RECORDS", "tolerate_corrupted_tail_records");
    ("ATOM_WAL_ABSOLUTE_CONSISTENCY", "absolute_consistency");
    ("ATOM_WAL_POINT_IN_TIME_RECOVERY", "point_in_time_recovery");
    ("ATOM_WAL_SKIP_ANY_CORRUPTED_RECORDS", "skip_any_corrupted_records")].

Definition atoms_errors : list (string * string) := [
    ("ATOM_ERROR_DB_OPEN", "db_open");
    ("ATOM_ERROR_DB_PUT", "db_put");
    ("ATOM_ERROR_DB_DELETE", "db_delete");
    ("ATOM_ERROR_DB_WRITE", "db_write");
    ("ATOM_ERROR_DB_DESTROY", "error_db_destroy");
    ("ATOM_ERROR_DB_REPAIR", "error_db_repair");
    ("ATOM_BAD_WRITE_ACTION", "bad_write_action");
    ("ATOM_KEEP_RESOURCE_FAILED", "keep_resource_failed");
    ("ATOM_ITERATOR_CLOSED", "iterator_closed");
    ("ATOM_INVALID_ITERATOR", "invalid_iterator");
    ("ATOM_ERROR_BACKUP_ENGINE_OPEN", "backup_engine_open");
    ("ATOM_ERROR_INCOMPLETE", "incomplete");
    ("ATOM_WRITE_THREADS", "write_threads");
    ("ATOM_PRIORITY_HIGH", "priority_high");
    ("ATOM_PRIORITY_LOW", "priority_low");
    ("ATOM_ENV", "env");
    ("ATOM_BACKUP_INFO_ID", "backup_id");
    ("ATOM_BACKUP_INFO_TIMESTAMP", "timestamp");
    ("ATOM_BACKUP_INFO_SIZE", "size");
    ("ATOM_BACKUP_INFO_NUMBER_FILES", "number_files")].

Definition atoms_merge : list (string * string) := [
    ("ATOM_MERGE_OPERATOR", "merge_operator");
    ("ATOM_ERLANG_MERGE_OPERATOR", "erlang_merge_operator");
    ("ATOM_BITSET_MERGE_OPERATOR", "bitset_merge_operator");
    ("ATOM_COUNTER_MERGE_OPERATOR", "counter_merge_operator");
    ("ATOM_MERGE_INT_ADD", "int_add");
    ("ATOM_MERGE_LIST_APPEND", "list_append");
    ("ATOM_MERGE_LIST_SUBSTRACT", "list_substract");
    ("ATOM_MERGE_LIST_SET", "list_set");
    ("ATOM_MERGE_LIST_DELETE", "list_delete");
    ("ATOM_MERGE_LIST_INSERT", "list_insert");
    ("ATOM_MERGE_BINARY_APPEND", "binary_append");
    ("ATOM_MERGE_BINARY_REPLACE", "binary_replace");
    ("ATOM_MERGE_BINARY_INSERT", "binary_insert");
    ("ATOM_MERGE_BINARY_ERASE", "binary_erase");
    ("ATOM_POSTING_LIST_MERGE_OPERATOR", "posting_list_merge_operator");
    ("ATOM_POSTING_ADD", "posting_add");
    ("ATOM_POSTING_DELETE", "posting_delete");
    ("ATOM_ACTIVE", "active");
    ("ATOM_TOMBSTONE", "tombstone");
    ("ATOM_FIXED_PREFIX_TRANSFORM", "fixed_prefix_transform");
    ("ATOM_CAPPED_PREFIX_TRANSFORM", "capped_prefix_transform");
    ("ATOM_COMPARATOR", "comparator");
    ("ATOM_BYTEWISE_COMPARATOR", "bytewise_comparator");
    ("ATOM_REVERSE_BYTEWISE_COMPARATOR", "reverse_bytewise_comparator")].

Definition atoms_filter : list (string * string) := [
    ("ATOM_COMPACTION_FILTER", "compaction_filter");
    ("ATOM_RULES", "rules");
    ("ATOM_HANDLER", "handler");
    ("ATOM_BATCH_SIZE", "batch_size");
    ("ATOM_TIMEOUT", "timeout");
    ("ATOM_KEY_PREFIX", "key_prefix");
    ("ATOM_KEY_SUFFIX", "key_suffix");
    ("ATOM_KEY_CONTAINS", "key_contains");
    ("ATOM_VALUE_EMPTY", "value_empty");
    ("ATOM_VALUE_PREFIX", "value_prefix");
    ("ATOM_TTL_FROM_KEY", "ttl_from_key");
    ("ATOM_ALWAYS_DELETE", "always_delete");
    ("ATOM_KEEP", "keep");
    ("ATOM_REMOVE", "remove");
    ("ATOM_CHANGE_VALUE", "change_value");
    ("ATOM_NONE", "none");
    ("ATOM_INCLUDE_MEMTABLES", "include_memtables");
    ("ATOM_INCLUDE_FILES", "include_files");
    ("ATOM_INCLUDE_BOTH", "include_both")].

Definition atoms_managers : list (string * string) := [
    ("ATOM_ENABLED", "enabled");
    ("ATOM_BUFFER_SIZE", "buffer_size");
    ("ATOM_MUTABLE_MEMTABLE_MEMORY_USAGE", "mutable_memtable_memory_usage");
    ("ATOM_MEMORY_USAGE", "memory_usage");
    ("ATOM_DELETE_RATE_BYTES_PER_SEC", "delete_rate_bytes_per_sec");
    ("ATOM_MAX_TRASH_DB_RATIO", "max_trash_db_ratio");
    ("ATOM_BYTES_MAX_DELETE_CHUNK", "bytes_max_delete_chunk");
    ("ATOM_MAX_ALLOWED_SPACE_USAGE", "max_allowed_space_usage");
    ("ATOM_COMPACTION_BUFFER_SIZE", "compaction_buffer_size");
    ("ATOM_IS_MAX_ALLOWED_SPACE_REACHED", "is_max_allowed_space_reached");
    ("ATOM_MAX_ALLOWED_SPACE_REACHED_INCLUDING_COMPACTIONS", "max_allowed_space_reached_including_compactions");
    ("ATOM_TOTAL_SIZE", "total_size");
    ("ATOM_TOTAL_TRASH_SIZE", "total_trash_size");
    ("ATOM_WITH_FILE_INFO", "with_file_info");
    ("ATOM_FILE_PATH", "file_path");
    ("ATOM_SMALLEST_KEY", "smallest_key");
    ("ATOM_LARGEST_KEY", "largest_key");
    ("ATOM_SMALLEST_RANGE_DEL_KEY", "smallest_range_del_key");
    ("ATOM_LARGEST_RANGE_DEL_KEY", "largest_range_del_key");
    ("ATOM_FILE_SIZE", "file_size");
    ("ATOM_NUM_ENTRIES", "num_entries");
    ("ATOM_NUM_RANGE_DEL_ENTRIES", "num_range_del_entries");
    ("ATOM_SEQUENCE_NUMBER", "sequence_number");
    ("ATOM_MOVE_FILES", "move_files");
    ("ATOM_FAILED_MOVE_FALL_BACK_TO_COPY", "failed_move_fall_back_to_copy");
    ("ATOM_SNAPSHOT_CONSISTENCY", "snapshot_consistency");
    ("ATOM_ALLOW_GLOBAL_SEQNO", "allow_global_seqno");
    ("ATOM_ALLOW_BLOCKING_FLUSH", "allow_blocking_flush");
    ("ATOM_INGEST_BEHIND", "ingest_behind");
    ("ATOM_VERIFY_CHECKSUMS_BEFORE_INGEST", "verify_checksums_before_ingest");
    ("ATOM_VERIFY_CHECKSUMS_READAHEAD_SIZE", "verify_checksums_readahead_size");
    ("ATOM_VERIFY_FILE_CHECKSUM", "verify_file_checksum");
    ("ATOM_FAIL_IF_NOT_BOTTOMMOST_LEVEL", "fail_if_not_bottommost_level");
    ("ATOM_ALLOW_DB_GENERATED_FILES", "allow_db_generated_files")].

Definition atoms_properties : list (string * string) := [
    ("ATOM_DATA_SIZE", "data_size");
    ("ATOM_INDEX_SIZE", "index_size");
    ("ATOM_INDEX_PARTITIONS", "index_partitions");
    ("ATOM_TOP_LEVEL_INDEX_SIZE", "top_level_index_size");
    ("ATOM_FILTER_SIZE", "filter_size");
    ("ATOM_RAW_KEY_SIZE", "raw_key_size");
    ("ATOM_RAW_VALUE_SIZE", "raw_value_size");
    ("ATOM_NUM_DATA_BLOCKS", "num_data_blocks");
    ("ATOM_NUM_DELETIONS", "num_deletions");
    ("ATOM_NUM_MERGE_OPERANDS", "num_merge_operands");
    ("ATOM_NUM_RANGE_DELETIONS", "num_range_deletions");
    ("ATOM_FIXED_KEY_LEN", "fixed_key_len");
    ("ATOM_COLUMN_FAMILY_ID", "column_family_id");
    ("ATOM_COLUMN_FAMILY_NAME", "column_family_name");
    ("ATOM_FILTER_POLICY_NAME", "filter_policy_name");
    ("ATOM_COMPARATOR_NAME", "comparator_name");
    ("ATOM_MERGE_OPERATOR_NAME", "merge_operator_name");
    ("ATOM_PREFIX_EXTRACTOR_NAME", "prefix_extractor_name");
    ("ATOM_PROPERTY_COLLECTORS_NAMES", "property_collectors_names");
    ("ATOM_COMPRESSION_NAME", "compression_name");
    ("ATOM_COMPRESSION_OPTIONS", "compression_options");
    ("ATOM_CREATION_TIME", "creation_time");
    ("ATOM_OLDEST_KEY_TIME", "oldest_key_time");
    ("ATOM_FILE_CREATION_TIME", "file_creation_time");
    ("ATOM_SLOW_COMPRESSION_ESTIMATED_DATA_SIZE", "slow_compression_estimated_data_size");
    ("ATOM_FAST_COMPRESSION_ESTIMATED_DATA_SIZE", "fast_compression_estimated_data_size");
    ("ATOM_EXTERNAL_SST_FILE_GLOBAL_SEQNO_OFFSET", "external_sst_file_global_seqno_offset")].

Definition atoms_statistics : list (string * string) := [
    ("ATOM_STATISTICS", "statistics");
    ("ATOM_STATS_DISABLE_ALL", "stats_disable_all");
    ("ATOM_STATS_EXCEPT_TICKERS", "stats_except_tickers");
    ("ATOM_STATS_EXCEPT_HISTOGRAM_OR_TIMERS", "stats_except_histogram_or_timers");
    ("ATOM_STATS_EXCEPT_TIMERS", "stats_except_timers");
    ("ATOM_STATS_EXCEPT_DETAILED_TIMERS", "stats_except_detailed_timers");
    ("ATOM_STATS_EXCEPT_TIME_FOR_MUTEX", "stats_except_time_for_mutex");
    ("ATOM_STATS_ALL", "stats_all");
    ("ATOM_STATS_LEVEL", "stats_level");
    ("ATOM_BLOB_DB_NUM_PUT", "blob_db_num_put");
    ("ATOM_BLOB_DB_NUM_WRITE", "blob_db_num_write");
    ("ATOM_BLOB_DB_NUM_GET", "blob_db_num_get");
    ("ATOM_BLOB_DB_NUM_MULTIGET", "blob_db_num_multiget");
    ("ATOM_BLOB_DB_NUM_SEEK", "blob_db_num_seek");
    ("ATOM_BLOB_DB_NUM_NEXT", "blob_db_num_next");
    ("ATOM_BLOB_DB_NUM_PREV", "blob_db_num_prev");
    ("ATOM_BLOB_DB_NUM_KEYS_WRITTEN", "blob_db_num_keys_written");
    ("ATOM_BLOB_DB_NUM_KEYS_READ", "blob_db_num_keys_read");
    ("ATOM_BLOB_DB_BYTES_WRITTEN", "blob_db_bytes_written");
    ("ATOM_BLOB_DB_BYTES_READ", "blob_db_bytes_read");
    ("ATOM_BLOB_DB_WRITE_INLINED", "blob_db_write_inlined");
    ("ATOM_BLOB_DB_WRITE_INLINED_TTL", "blob_db_write_inlined_ttl");
    ("ATOM_BLOB_DB_WRITE_BLOB", "blob_db_write_blob");
    ("ATOM_BLOB_DB_WRITE_BLOB_TTL", "blob_db_write_blob_ttl");
    ("ATOM_BLOB_DB_BLOB_FILE_BYTES_WRITTEN", "blob_db_blob_file_bytes_written");
    ("ATOM_BLOB_DB_BLOB_FILE_BYTES_READ", "blob_db_blob_file_bytes_read");
    ("ATOM_BLOB_DB_BLOB_FILE_SYNCED", "blob_db_blob_file_synced");
    ("ATOM_BLOB_DB_BLOB_INDEX_EXPIRED_COUNT", "blob_db_blob_index_expired_count");
    ("ATOM_BLOB_DB_BLOB_INDEX_EXPIRED_SIZE", "blob_db_blob_index_expired_size");
    ("ATOM_BLOB_DB_BLOB_INDEX_EVICTED_COUNT", "blob_db_blob_index_evicted_count");
    ("ATOM_BLOB_DB_BLOB_INDEX_EVICTED_SIZE", "blob_db_blob_index_evicted_size");
    ("ATOM_BLOB_DB_GC_NUM_FILES", "blob_db_gc_num_files");
    ("ATOM_BLOB_DB_GC_NUM_NEW_FILES", "blob_db_gc_num_new_files");
    ("ATOM_BLOB_DB_GC_FAILURES", "blob_db_gc_failures");
    ("ATOM_BLOB_DB_GC_NUM_KEYS_RELOCATED", "blob_db_gc_num_keys_relocated");
    ("ATOM_BLOB_DB_GC_BYTES_RELOCATED", "blob_db_gc_bytes_relocated");
    ("ATOM_BLOB_DB_FIFO_NUM_FILES_EVICTED", "blob_db_fifo_num_files_evicted");
    ("ATOM_BLOB_DB_FIFO_NUM_KEYS_EVICTED", "blob_db_fifo_num_keys_evicted");
    ("ATOM_BLOB_DB_FIFO_BYTES_EVICTED", "blob_db_fifo_bytes_evicted");
    ("ATOM_BLOB_DB_CACHE_MISS", "blob_db_cache_miss");
    ("ATOM_BLOB_DB_CACHE_HIT", "blob_db_cache_hit");
    ("ATOM_BLOB_DB_CACHE_ADD", "blob_db_cache_add");
    ("ATOM_BLOB_DB_CACHE_ADD_FAILURES", "blob_db_cache_add_failures");
    ("ATOM_BLOB_DB_CACHE_BYTES_READ", "blob_db_cache_bytes_read");
    ("ATOM_BLOB_DB_CACHE_BYTES_WRITE", "blob_db_cache_bytes_write");
    ("ATOM_BLOB_DB_KEY_SIZE", "blob_db_key_size");
    ("ATOM_BLOB_DB_VALUE_SIZE", "blob_db_value_size");
    ("ATOM_BLOB_DB_WRITE_MICROS", "blob_db_write_micros");
    ("ATOM_BLOB_DB_GET_MICROS", "blob_db_get_micros");
    ("ATOM_BLOB_DB_MULTIGET_MICROS", "blob_db_multiget_micros");
    ("ATOM_BLOB_DB_SEEK_MICROS", "blob_db_seek_micros");
    ("ATOM_BLOB_DB_NEXT_MICROS", "blob_db_next_micros");
    ("ATOM_BLOB_DB_PREV_MICROS", "blob_db_prev_micros");
    ("ATOM_BLOB_DB_BLOB_FILE_WRITE_MICROS", "blob_db_blob_file_write_micros");
    ("ATOM_BLOB_DB_BLOB_FILE_READ_MICROS", "blob_db_blob_file_read_micros");
    ("ATOM_BLOB_DB_BLOB_FILE_SYNC_MICROS", "blob_db_blob_file_sync_micros");
    ("ATOM_BLOB_DB_COMPRESSION_MICROS", "blob_db_compression_micros");
    ("ATOM_BLOB_DB_DECOMPRESSION_MICROS", "blob_db_decompression_micros")].

Definition atoms_operations : list (string * string) := [
    ("ATOM_DB_GET", "db_get");
    ("ATOM_DB_WRITE", "db_write");
    ("ATOM_DB_MULTIGET", "db_multiget");
    ("ATOM_DB_SEEK", "db_seek");
    ("ATOM_COMPACTION_TIME", "compaction_time");
    ("ATOM_FLUSH_TIME", "flush_time");
    ("ATOM_SST_READ_MICROS", "sst_read_micros");
    ("ATOM_SST_WRITE_MICROS", "sst_write_micros");
    ("ATOM_TABLE_SYNC_MICROS", "table_sync_micros");
    ("ATOM_WAL_FILE_SYNC_MICROS", "wal_file_sync_micros");
    ("ATOM_BYTES_PER_READ", "bytes_per_read");
    ("ATOM_BYTES_PER_WRITE", "bytes_per_write");
    ("ATOM_NUM_OP_PER_TRANSACTION", "num_op_per_transaction");
    ("ATOM_COMPACT_READ_BYTES", "compact_read_bytes");
    ("ATOM_COMPACT_WRITE_BYTES", "compact_write_bytes");
    ("ATOM_FLUSH_WRITE_BYTES", "flush_write_bytes");
    ("ATOM_COMPACTION_KEY_DROP_NEWER_ENTRY", "compaction_key_drop_newer_entry");
    ("ATOM_COMPACTION_KEY_DROP_OBSOLETE", "compaction_key_drop_obsolete");
    ("ATOM_COMPACTION_KEY_DROP_RANGE_DEL", "compaction_key_drop_range_del");
    ("ATOM_COMPACTION_KEY_DROP_USER", "compaction_key_drop_user");
    ("ATOM_COMPACTION_CANCELLED", "compaction_cancelled");
    ("ATOM_NUMBER_SUPERVERSION_ACQUIRES", "number_superversion_acquires");
    ("ATOM_NUMBER_SUPERVERSION_RELEASES", "number_superversion_releases");
    ("ATOM_NUMBER_KEYS_WRITTEN", "number_keys_written");
    ("ATOM_NUMBER_KEYS_READ", "number_keys_read");
    ("ATOM_NUMBER_KEYS_UPDATED", "number_keys_updated");
    ("ATOM_BYTES_WRITTEN", "bytes_written");
    ("ATOM_BYTES_READ", "bytes_read");
    ("ATOM_ITER_BYTES_READ", "iter_bytes_read");
    ("ATOM_NUMBER_DB_SEEK", "number_db_seek");
    ("ATOM_NUMBER_DB_NEXT", "number_db_next");
    ("ATOM_NUMBER_DB_PREV", "number_db_prev");
    ("ATOM_NUMBER_DB_SEEK_FOUND", "number_db_seek_found");
    ("ATOM_NUMBER_DB_NEXT_FOUND", "number_db_next_found");
    ("ATOM_NUMBER_DB_PREV_FOUND", "number_db_prev_found");
    ("ATOM_BLOCK_CACHE_MISS", "block_cache_miss");
    ("ATOM_BLOCK_CACHE_HIT", "block_cache_hit");
    ("ATOM_BLOCK_CACHE_ADD", "block_cache_add");
    ("ATOM_BLOCK_CACHE_ADD_FAILURES", "block_cache_add_failures");
    ("ATOM_BLOCK_CACHE_INDEX_MISS", "block_cache_index_miss");
    ("ATOM_BLOCK_CACHE_INDEX_HIT", "block_cache_index_hit");
    ("ATOM_BLOCK_CACHE_FILTER_MISS", "block_cache_filter_miss");
    ("ATOM_BLOCK_CACHE_FILTER_HIT", "block_cache_filter_hit");
    ("ATOM_BLOCK_CACHE_DATA_MISS", "block_cache_data_miss");
    ("ATOM_BLOCK_CACHE_DATA_HIT", "block_cache_data_hit");
    ("ATOM_BLOCK_CACHE_BYTES_READ", "block_cache_bytes_read");
    ("ATOM_BLOCK_CACHE_BYTES_WRITE", "block_cache_bytes_write");
    ("ATOM_MEMTABLE_HIT", "memtable_hit");
    ("ATOM_MEMTABLE_MISS", "memtable_miss");
    ("ATOM_STALL_MICROS", "stall_micros");
    ("ATOM_WRITE_DONE_BY_SELF", "write_done_by_self");
    ("ATOM_WRITE_DONE_BY_OTHER", "write_done_by_other");
    ("ATOM_WAL_FILE_SYNCED", "wal_file_synced");
    ("ATOM_TXN_PREPARE_MUTEX_OVERHEAD", "txn_prepare_mutex_overhead");
    ("ATOM_TXN_OLD_COMMIT_MAP_MUTEX_OVERHEAD", "txn_old_commit_map_mutex_overhead");
    ("ATOM_TXN_DUPLICATE_KEY_OVERHEAD", "txn_duplicate_key_overhead");
    ("ATOM_TXN_SNAPSHOT_MUTEX_OVERHEAD", "txn_snapshot_mutex_overhead");
    ("ATOM_TXN_GET_TRY_AGAIN", "txn_get_try_again");
    ("ATOM_MEDIAN", "median");
    ("ATOM_PERCENTILE95", "percentile95");
    ("ATOM_PERCENTILE99", "percentile99");
    ("ATOM_AVERAGE", "average");
    ("ATOM_STANDARD_DEVIATION", "standard_deviation");
    ("ATOM_MAX", "max");
    ("ATOM_COUNT", "count");
    ("ATOM_SUM", "sum")].

Definition atoms_transactions : list (string * string) := [
    ("ATOM_MAX_NUM_LOCKS", "max_num_locks");
    ("ATOM_NUM_STRIPES", "num_stripes");
    ("ATOM_TRANSACTION_LOCK_TIMEOUT", "transaction_lock_timeout");
    ("ATOM_DEFAULT_LOCK_TIMEOUT", "default_lock_timeout");
    ("ATOM_SET_SNAPSHOT", "set_snapshot");
    ("ATOM_DEADLOCK_DETECT", "deadlock_detect");
    ("ATOM_LOCK_TIMEOUT", "lock_timeout");
    ("ATOM_BUSY", "busy");
    ("ATOM_TIMED_OUT", "timed_out");
    ("ATOM_EXPIRED", "expired");
    ("ATOM_TRY_AGAIN", "try_again");
    ("ATOM_SIZE", "size");
    ("ATOM_FILE_COUNT", "file_count");
    ("ATOM_NAME", "name");
    ("ATOM_BLOB_FILES", "blob_files");
    ("ATOM_BLOB_FILE_NUMBER", "blob_file_number");
    ("ATOM_BLOB_FILE_NAME", "blob_file_name");
    ("ATOM_BLOB_FILE_PATH", "blob_file_path");
    ("ATOM_TOTAL_BLOB_COUNT", "total_blob_count");
    ("ATOM_TOTAL_BLOB_BYTES", "total_blob_bytes");
    ("ATOM_GARBAGE_BLOB_COUNT", "garbage_blob_count");
    ("ATOM_GARBAGE_BLOB_BYTES", "garbage_blob_bytes");
    ("ATOM_RATE_LIMITER_PRIORITY", "rate_limiter_priority");
    ("ATOM_IO_LOW", "io_low");
    ("ATOM_IO_MID", "io_mid");
    ("ATOM_IO_HIGH", "io_high");
    ("ATOM_IO_USER", "io_user");
    ("ATOM_IO_TOTAL", "io_total");
    ("ATOM_MAX_MANIFEST_SPACE_AMP_PCT", "max_manifest_space_amp_pct");
    ("ATOM_TARGET_FILE_SIZE_IS_UPPER_BOUND", "target_file_size_is_upper_bound")].

(** Every assignment of [on_load], in its order. *)
Definition atom_inits : list (string * string) :=
  atoms_erlang ++ atoms_cf ++ atoms_db ++ atoms_io ++ atoms_compact ++ atoms_enums ++
  atoms_errors ++ atoms_merge ++ atoms_filter ++ atoms_managers ++ atoms_properties ++
  atoms_statistics ++ atoms_operations ++ atoms_transactions.

(** ** Definitions of the variables *)

Definition vars_erlang : list string := [
    "ATOM_TRUE"; "ATOM_FALSE"; "ATOM_OK"; "ATOM_ERROR"; "ATOM_EINVAL"; "ATOM_BADARG";
    "ATOM_NOT_FOUND"; "ATOM_CORRUPTION"; "ATOM_INC"; "ATOM_DEC"; "ATOM_UNKNOWN_STATUS_ERROR";
    "ATOM_UNDEFINED"; "ATOM_DEFAULT"; "ATOM_MEMENV"; "ATOM_LRU"; "ATOM_CLOCK"; "ATOM_USAGE";
    "ATOM_PINNED_USAGE"; "ATOM_CAPACITY"; "ATOM_STRICT_CAPACITY"; "ATOM_FLUSH_ONLY";
    "ATOM_DISABLE"; "ATOM_DEFAULT_COLUMN_FAMILY"].

Definition vars_cf : list string := [
    "ATOM_BLOCK_CACHE_SIZE_MB_FOR_POINT_LOOKUP"; "ATOM_MEMTABLE_MEMORY_BUDGET";
    "ATOM_WRITE_BUFFER_SIZE"; "ATOM_MAX_WRITE_BUFFER_NUMBER";
    "ATOM_MIN_WRITE_BUFFER_NUMBER_TO_MERGE"; "ATOM_COMPRESSION"; "ATOM_ENABLE_BLOB_FILES";
    "ATOM_MIN_BLOB_SIZE"; "ATOM_BLOB_FILE_SIZE"; "ATOM_BLOB_COMPRESSION_TYPE";
    "ATOM_ENABLE_BLOB_GC"; "ATOM_BLOB_GC_AGE_CUTOFF"; "ATOM_BLOB_GC_FORCE_THRESHOLD";
    "ATOM_BLOB_COMPACTION_READAHEAD_SIZE"; "ATOM_BLOB_FILE_STARTING_LEVEL"; "ATOM_BLOB_CACHE";
    "ATOM_PREPOPULATE_BLOB_CACHE"; "ATOM_BOTTOMMOST_COMPRESSION";
    "ATOM_BOTTOMMOST_COMPRESSION_OPTS"; "ATOM_COMPRESSION_OPTS"; "ATOM_WINDOW_BITS";
    "ATOM_LEVEL"; "ATOM_STRATEGY"; "ATOM_MAX_DICT_BYTES"; "ATOM_ZSTD_MAX_TRAIN_BYTES";
    "ATOM_NUM_LEVELS"; "ATOM_LEVEL0_FILE_NUM_COMPACTION_TRIGGER";
    "ATOM_LEVEL0_SLOWDOWN_WRITES_TRIGGER"; "ATOM_LEVEL0_STOP_WRITES_TRIGGER";
    "ATOM_TARGET_FILE_SIZE_BASE"; "ATOM_TARGET_FILE_SIZE_MULTIPLIER";
    "ATOM_MAX_BYTES_FOR_LEVEL_BASE"; "ATOM_MAX_BYTES_FOR_LEVEL_MULTIPLIER";
    "ATOM_MAX_COMPACTION_BYTES"; "ATOM_ARENA_BLOCK_SIZE"; "ATOM_DISABLE_AUTO_COMPACTIONS";
    "ATOM_COMPACTION_STYLE"; "ATOM_COMPACTION_PRI"; "ATOM_FILTER_DELETES";
    "ATOM_MAX_SEQUENTIAL_SKIP_IN_ITERATIONS"; "ATOM_INPLACE_UPDATE_SUPPORT";
    "ATOM_INPLACE_UPDATE_NUM_LOCKS"; "ATOM_TABLE_FACTORY_BLOCK_CACHE_SIZE";
    "ATOM_IN_MEMORY_MODE"; "ATOM_IN_MEMORY"; "ATOM_BLOCK_BASED_TABLE_OPTIONS";
    "ATOM_LEVEL_COMPACTION_DYNAMIC_LEVEL_BYTES"; "ATOM_OPTIMIZE_FILTERS_FOR_HITS";
    "ATOM_PREFIX_EXTRACTOR"].

Definition vars_db : list string := [
    "ATOM_TOTAL_THREADS"; "ATOM_CREATE_IF_MISSING"; "ATOM_CREATE_MISSING_COLUMN_FAMILIES";
    "ATOM_ERROR_IF_EXISTS"; "ATOM_PARANOID_CHECKS"; "ATOM_MAX_OPEN_FILES";
    "ATOM_MAX_TOTAL_WAL_SIZE"; "ATOM_USE_FSYNC"; "ATOM_DB_PATHS"; "ATOM_DB_LOG_DIR";
    "ATOM_WAL_DIR"; "ATOM_DELETE_OBSOLETE_FILES_PERIOD_MICROS"; "ATOM_MAX_BACKGROUND_JOBS";
    "ATOM_MAX_BACKGROUND_COMPACTIONS"; "ATOM_MAX_BACKGROUND_FLUSHES"; "ATOM_MAX_LOG_FILE_SIZE";
    "ATOM_LOG_FILE_TIME_TO_ROLL"; "ATOM_KEEP_LOG_FILE_NUM"; "ATOM_MAX_MANIFEST_FILE_SIZE";
    "ATOM_TABLE_CACHE_NUMSHARDBITS"; "ATOM_WAL_TTL_SECONDS"; "ATOM_WAL_SIZE_LIMIT_MB";
    "ATOM_MANIFEST_PREALLOCATION_SIZE"; "ATOM_ALLOW_MMAP_READS"; "ATOM_ALLOW_MMAP_WRITES";
    "ATOM_IS_FD_CLOSE_ON_EXEC"; "ATOM_STATS_DUMP_PERIOD_SEC"; "ATOM_ADVISE_RANDOM_ON_OPEN";
    "ATOM_COMPACTION_READAHEAD_SIZE"; "ATOM_USE_ADAPTIVE_MUTEX"; "ATOM_BYTES_PER_SYNC";
    "ATOM_SKIP_STATS_UPDATE_ON_DB_OPEN"; "ATOM_WAL_RECOVERY_MODE";
    "ATOM_ALLOW_CONCURRENT_MEMTABLE_WRITE"; "ATOM_ENABLE_WRITE_THREAD_ADAPTATIVE_YIELD";
    "ATOM_DB_WRITE_BUFFER_SIZE"; "ATOM_RATE_LIMITER"; "ATOM_SST_FILE_MANAGER";
    "ATOM_WRITE_BUFFER_MANAGER"; "ATOM_MAX_SUBCOMPACTIONS"; "ATOM_MANUAL_WAL_FLUSH";
    "ATOM_ATOMIC_FLUSH"; "ATOM_USE_DIRECT_READS"; "ATOM_USE_DIRECT_IO_FOR_FLUSH_AND_COMPACTION";
    "ATOM_ENABLE_PIPELINED_WRITE"; "ATOM_UNORDERED_WRITE"; "ATOM_TWO_WRITE_QUEUES"].

Definition vars_io : list string := [
    "ATOM_NO_BLOCK_CACHE"; "ATOM_BLOCK_CACHE"; "ATOM_BLOCK_SIZE"; "ATOM_BLOCK_CACHE_SIZE";
    "ATOM_BLOOM_FILTER_POLICY"; "ATOM_FORMAT_VERSION"; "ATOM_CACHE_INDEX_AND_FILTER_BLOCKS";
    "ATOM_READ_TIER"; "ATOM_READ_ALL_TIER"; "ATOM_BLOCK_CACHE_TIER"; "ATOM_PERSISTED_TIER";
    "ATOM_MEMTABLE_TIER"; "ATOM_VERIFY_CHECKSUMS"; "ATOM_FILL_CACHE";
    "ATOM_ITERATE_UPPER_BOUND"; "ATOM_ITERATE_LOWER_BOUND"; "ATOM_TAILING";
    "ATOM_TOTAL_ORDER_SEEK"; "ATOM_PREFIX_SAME_AS_START"; "ATOM_SNAPSHOT"; "ATOM_BAD_SNAPSHOT";
    "ATOM_AUTO_REFRESH_ITERATOR_WITH_SNAPSHOT"; "ATOM_AUTO_READAHEAD_SIZE";
    "ATOM_ALLOW_UNPREPARED_VALUE"; "ATOM_READAHEAD_SIZE"; "ATOM_ASYNC_IO"; "ATOM_SYNC";
    "ATOM_DISABLE_WAL"; "ATOM_IGNORE_MISSING_COLUMN_FAMILIES"; "ATOM_NO_SLOWDOWN";
    "ATOM_LOW_PRI"; "ATOM_CLEAR"; "ATOM_PUT"; "ATOM_MERGE"; "ATOM_DELETE"; "ATOM_SINGLE_DELETE"].

Definition vars_compact : list string := [
    "ATOM_EXCLUSIVE_MANUAL_COMPACTION"; "ATOM_CHANGE_LEVEL"; "ATOM_TARGET_LEVEL";
    "ATOM_ALLOW_WRITE_STALL"; "ATOM_BOTTOMMOST_LEVEL_COMPACTION"; "ATOM_SKIP";
    "ATOM_IF_HAVE_COMPACTION_FILTER"; "ATOM_FORCE"; "ATOM_FORCE_OPTIMIZED";
    "ATOM_COMPACTION_OPTIONS_FIFO"; "ATOM_MAX_TABLE_FILE_SIZE"; "ATOM_ALLOW_COMPACTION";
    "ATOM_TTL"; "ATOM_WAIT"; "ATOM_FIRST"; "ATOM_LAST"; "ATOM_NEXT"; "ATOM_PREV";
    "ATOM_SEEK_FOR_PREV"; "ATOM_SEEK"; "ATOM_KEYS_ONLY"].

Definition vars_enums : list string := [
    "ATOM_COMPRESSION_TYPE_SNAPPY"; "ATOM_COMPRESSION_TYPE_ZLIB"; "ATOM_COMPRESSION_TYPE_BZIP2";
    "ATOM_COMPRESSION_TYPE_LZ4"; "ATOM_COMPRESSION_TYPE_LZ4H"; "ATOM_COMPRESSION_TYPE_ZSTD";
    "ATOM_COMPRESSION_TYPE_NONE"; "ATOM_COMPACTION_STYLE_LEVEL";
    "ATOM_COMPACTION_STYLE_UNIVERSAL"; "ATOM_COMPACTION_STYLE_FIFO";
    "ATOM_COMPACTION_STYLE_NONE"; "ATOM_COMPACTION_PRI_COMPENSATED_SIZE";
    "ATOM_COMPACTION_PRI_OLDEST_LARGEST_SEQ_FIRST";
    "ATOM_COMPACTION_PRI_OLDEST_SMALLEST_SEQ_FIRST"; "ATOM_WAL_TOLERATE_CORRUPTED_TAIL_RECORDS";
    "ATOM_WAL_ABSOLUTE_CONSISTENCY"; "ATOM_WAL_POINT_IN_TIME_RECOVERY";
    "ATOM_WAL_SKIP_ANY_CORRUPTED_RECORDS"].

Definition vars_errors : list string := [
    "ATOM_ERROR_DB_OPEN"; "ATOM_ERROR_DB_PUT"; "ATOM_ERROR_DB_DELETE"; "ATOM_ERROR_DB_WRITE";
    "ATOM_ERROR_DB_DESTROY"; "ATOM_ERROR_DB_REPAIR"; "ATOM_BAD_WRITE_ACTION";
    "ATOM_KEEP_RESOURCE_FAILED"; "ATOM_ITERATOR_CLOSED"; "ATOM_INVALID_ITERATOR";
    "ATOM_ERROR_BACKUP_ENGINE_OPEN"; "ATOM_ERROR_INCOMPLETE"; "ATOM_WRITE_THREADS"; "ATOM_ENV";
    "ATOM_PRIORITY_HIGH"; "ATOM_PRIORITY_LOW"; "ATOM_BACKUP_INFO_ID";
    "ATOM_BACKUP_INFO_TIMESTAMP"; "ATOM_BACKUP_INFO_SIZE"; "ATOM_BACKUP_INFO_NUMBER_FILES"].

Definition vars_merge : list string := [
    "ATOM_MERGE_OPERATOR"; "ATOM_ERLANG_MERGE_OPERATOR"; "ATOM_BITSET_MERGE_OPERATOR";
    "ATOM_COUNTER_MERGE_OPERATOR"; "ATOM_MERGE_INT_ADD"; "ATOM_MERGE_LIST_APPEND";
    "ATOM_MERGE_LIST_SUBSTRACT"; "ATOM_MERGE_LIST_SET"; "ATOM_MERGE_LIST_DELETE";
    "ATOM_MERGE_LIST_INSERT"; "ATOM_MERGE_BINARY_APPEND"; "ATOM_MERGE_BINARY_REPLACE";
    "ATOM_MERGE_BINARY_INSERT"; "ATOM_MERGE_BINARY_ERASE"; "ATOM_POSTING_LIST_MERGE_OPERATOR";
    "ATOM_POSTING_ADD"; "ATOM_POSTING_DELETE"; "ATOM_ACTIVE"; "ATOM_TOMBSTONE";
    "ATOM_FIXED_PREFIX_TRANSFORM"; "ATOM_CAPPED_PREFIX_TRANSFORM"; "ATOM_COMPARATOR";
    "ATOM_BYTEWISE_COMPARATOR"; "ATOM_REVERSE_BYTEWISE_COMPARATOR"].

Definition vars_filter : list string := [
    "ATOM_COMPACTION_FILTER"; "ATOM_RULES"; "ATOM_HANDLER"; "ATOM_BATCH_SIZE"; "ATOM_TIMEOUT";
    "ATOM_KEY_PREFIX"; "ATOM_KEY_SUFFIX"; "ATOM_KEY_CONTAINS"; "ATOM_VALUE_EMPTY";
    "ATOM_VALUE_PREFIX"; "ATOM_TTL_FROM_KEY"; "ATOM_ALWAYS_DELETE"; "ATOM_KEEP"; "ATOM_REMOVE";
    "ATOM_CHANGE_VALUE"; "ATOM_NONE"; "ATOM_INCLUDE_MEMTABLES"; "ATOM_INCLUDE_FILES";
    "ATOM_INCLUDE_BOTH"].

Definition vars_managers : list string := [
    "ATOM_ENABLED"; "ATOM_BUFFER_SIZE"; "ATOM_MUTABLE_MEMTABLE_MEMORY_USAGE";
    "ATOM_MEMORY_USAGE"; "ATOM_DELETE_RATE_BYTES_PER_SEC"; "ATOM_MAX_TRASH_DB_RATIO";
    "ATOM_BYTES_MAX_DELETE_CHUNK"; "ATOM_MAX_ALLOWED_SPACE_USAGE";
    "ATOM_COMPACTION_BUFFER_SIZE"; "ATOM_IS_MAX_ALLOWED_SPACE_REACHED";
    "ATOM_MAX_ALLOWED_SPACE_REACHED_INCLUDING_COMPACTIONS"; "ATOM_TOTAL_SIZE";
    "ATOM_TOTAL_TRASH_SIZE"; "ATOM_WITH_FILE_INFO"; "ATOM_FILE_PATH"; "ATOM_SMALLEST_KEY";
    "ATOM_LARGEST_KEY"; "ATOM_SMALLEST_RANGE_DEL_KEY"; "ATOM_LARGEST_RANGE_DEL_KEY";
    "ATOM_FILE_SIZE"; "ATOM_NUM_ENTRIES"; "ATOM_NUM_RANGE_DEL_ENTRIES"; "ATOM_SEQUENCE_NUMBER";
    "ATOM_MOVE_FILES"; "ATOM_FAILED_MOVE_FALL_BACK_TO_COPY"; "ATOM_SNAPSHOT_CONSISTENCY";
    "ATOM_ALLOW_GLOBAL_SEQNO"; "ATOM_ALLOW_BLOCKING_FLUSH"; "ATOM_INGEST_BEHIND";
    "ATOM_VERIFY_CHECKSUMS_BEFORE_INGEST"; "ATOM_VERIFY_CHECKSUMS_READAHEAD_SIZE";
    "ATOM_VERIFY_FILE_CHECKSUM"; "ATOM_FAIL_IF_NOT_BOTTOMMOST_LEVEL";
    "ATOM_ALLOW_DB_GENERATED_FILES"].

Definition vars_properties : list string := [
    "ATOM_DATA_SIZE"; "ATOM_INDEX_SIZE"; "ATOM_INDEX_PARTITIONS"; "ATOM_TOP_LEVEL_INDEX_SIZE";
    "ATOM_FILTER_SIZE"; "ATOM_RAW_KEY_SIZE"; "ATOM_RAW_VALUE_SIZE"; "ATOM_NUM_DATA_BLOCKS";
    "ATOM_NUM_DELETIONS"; "ATOM_NUM_MERGE_OPERANDS"; "ATOM_NUM_RANGE_DELETIONS";
    "ATOM_FIXED_KEY_LEN"; "ATOM_COLUMN_FAMILY_ID"; "ATOM_COLUMN_FAMILY_NAME";
    "ATOM_FILTER_POLICY_NAME"; "ATOM_COMPARATOR_NAME"; "ATOM_MERGE_OPERATOR_NAME";
    "ATOM_PREFIX_EXTRACTOR_NAME"; "ATOM_PROPERTY_COLLECTORS_NAMES"; "ATOM_COMPRESSION_NAME";
    "ATOM_COMPRESSION_OPTIONS"; "ATOM_CREATION_TIME"; "ATOM_OLDEST_KEY_TIME";
    "ATOM_FILE_CREATION_TIME"; "ATOM_SLOW_COMPRESSION_ESTIMATED_DATA_SIZE";
    "ATOM_FAST_COMPRESSION_ESTIMATED_DATA_SIZE"; "ATOM_EXTERNAL_SST_FILE_GLOBAL_SEQNO_OFFSET"].

Definition vars_statistics : list string := [
    "ATOM_STATISTICS"; "ATOM_STATS_DISABLE_ALL"; "ATOM_STATS_EXCEPT_TICKERS";
    "ATOM_STATS_EXCEPT_HISTOGRAM_OR_TIMERS"; "ATOM_STATS_EXCEPT_TIMERS";
    "ATOM_STATS_EXCEPT_DETAILED_TIMERS"; "ATOM_STATS_EXCEPT_TIME_FOR_MUTEX"; "ATOM_STATS_ALL";
    "ATOM_STATS_LEVEL"; "ATOM_BLOB_DB_NUM_PUT"; "ATOM_BLOB_DB_NUM_WRITE";
    "ATOM_BLOB_DB_NUM_GET"; "ATOM_BLOB_DB_NUM_MULTIGET"; "ATOM_BLOB_DB_NUM_SEEK";
    "ATOM_BLOB_DB_NUM_NEXT"; "ATOM_BLOB_DB_NUM_PREV"; "ATOM_BLOB_DB_NUM_KEYS_WRITTEN";
    "ATOM_BLOB_DB_NUM_KEYS_READ"; "ATOM_BLOB_DB_BYTES_WRITTEN"; "ATOM_BLOB_DB_BYTES_READ";
    "ATOM_BLOB_DB_WRITE_INLINED"; "ATOM_BLOB_DB_WRITE_INLINED_TTL"; "ATOM_BLOB_DB_WRITE_BLOB";
    "ATOM_BLOB_DB_WRITE_BLOB_TTL"; "ATOM_BLOB_DB_BLOB_FILE_BYTES_WRITTEN";
    "ATOM_BLOB_DB_BLOB_FILE_BYTES_READ"; "ATOM_BLOB_DB_BLOB_FILE_SYNCED";
    "ATOM_BLOB_DB_BLOB_INDEX_EXPIRED_COUNT"; "ATOM_BLOB_DB_BLOB_INDEX_EXPIRED_SIZE";
    "ATOM_BLOB_DB_BLOB_INDEX_EVICTED_COUNT"; "ATOM_BLOB_DB_BLOB_INDEX_EVICTED_SIZE";
    "ATOM_BLOB_DB_GC_NUM_FILES"; "ATOM_BLOB_DB_GC_NUM_NEW_FILES"; "ATOM_BLOB_DB_GC_FAILURES";
    "ATOM_BLOB_DB_GC_NUM_KEYS_RELOCATED"; "ATOM_BLOB_DB_GC_BYTES_RELOCATED";
    "ATOM_BLOB_DB_FIFO_NUM_FILES_EVICTED"; "ATOM_BLOB_DB_FIFO_NUM_KEYS_EVICTED";
    "ATOM_BLOB_DB_FIFO_BYTES_EVICTED"; "ATOM_BLOB_DB_CACHE_MISS"; "ATOM_BLOB_DB_CACHE_HIT";
    "ATOM_BLOB_DB_CACHE_ADD"; "ATOM_BLOB_DB_CACHE_ADD_FAILURES";
    "ATOM_BLOB_DB_CACHE_BYTES_READ"; "ATOM_BLOB_DB_CACHE_BYTES_WRITE"; "ATOM_BLOB_DB_KEY_SIZE";
    "ATOM_BLOB_DB_VALUE_SIZE"; "ATOM_BLOB_DB_WRITE_MICROS"; "ATOM_BLOB_DB_GET_MICROS";
    "ATOM_BLOB_DB_MULTIGET_MICROS"; "ATOM_BLOB_DB_SEEK_MICROS"; "ATOM_BLOB_DB_NEXT_MICROS";
    "ATOM_BLOB_DB_PREV_MICROS"; "ATOM_BLOB_DB_BLOB_FILE_WRITE_MICROS";
    "ATOM_BLOB_DB_BLOB_FILE_READ_MICROS"; "ATOM_BLOB_DB_BLOB_FILE_SYNC_MICROS";
    "ATOM_BLOB_DB_COMPRESSION_MICROS"; "ATOM_BLOB_DB_DECOMPRESSION_MICROS"].

Definition vars_operations : list string := [
    "ATOM_DB_GET"; "ATOM_DB_WRITE"; "ATOM_DB_MULTIGET"; "ATOM_DB_SEEK"; "ATOM_COMPACTION_TIME";
    "ATOM_FLUSH_TIME"; "ATOM_SST_READ_MICROS"; "ATOM_SST_WRITE_MICROS";
    "ATOM_TABLE_SYNC_MICROS"; "ATOM_WAL_FILE_SYNC_MICROS"; "ATOM_BYTES_PER_READ";
    "ATOM_BYTES_PER_WRITE"; "ATOM_NUM_OP_PER_TRANSACTION"; "ATOM_COMPACT_READ_BYTES";
    "ATOM_COMPACT_WRITE_BYTES"; "ATOM_FLUSH_WRITE_BYTES";
    "ATOM_COMPACTION_KEY_DROP_NEWER_ENTRY"; "ATOM_COMPACTION_KEY_DROP_OBSOLETE";
    "ATOM_COMPACTION_KEY_DROP_RANGE_DEL"; "ATOM_COMPACTION_KEY_DROP_USER";
    "ATOM_COMPACTION_CANCELLED"; "ATOM_NUMBER_SUPERVERSION_ACQUIRES";
    "ATOM_NUMBER_SUPERVERSION_RELEASES"; "ATOM_NUMBER_KEYS_WRITTEN"; "ATOM_NUMBER_KEYS_READ";
    "ATOM_NUMBER_KEYS_UPDATED"; "ATOM_BYTES_WRITTEN"; "ATOM_BYTES_READ"; "ATOM_ITER_BYTES_READ";
    "ATOM_NUMBER_DB_SEEK"; "ATOM_NUMBER_DB_NEXT"; "ATOM_NUMBER_DB_PREV";
    "ATOM_NUMBER_DB_SEEK_FOUND"; "ATOM_NUMBER_DB_NEXT_FOUND"; "ATOM_NUMBER_DB_PREV_FOUND";
    "ATOM_BLOCK_CACHE_MISS"; "ATOM_BLOCK_CACHE_HIT"; "ATOM_BLOCK_CACHE_ADD";
    "ATOM_BLOCK_CACHE_ADD_FAILURES"; "ATOM_BLOCK_CACHE_INDEX_MISS";
    "ATOM_BLOCK_CACHE_INDEX_HIT"; "ATOM_BLOCK_CACHE_FILTER_MISS"; "ATOM_BLOCK_CACHE_FILTER_HIT";
    "ATOM_BLOCK_CACHE_DATA_MISS"; "ATOM_BLOCK_CACHE_DATA_HIT"; "ATOM_BLOCK_CACHE_BYTES_READ";
    "ATOM_BLOCK_CACHE_BYTES_WRITE"; "ATOM_MEMTABLE_HIT"; "ATOM_MEMTABLE_MISS";
    "ATOM_STALL_MICROS"; "ATOM_WRITE_DONE_BY_SELF"; "ATOM_WRITE_DONE_BY_OTHER";
    "ATOM_WAL_FILE_SYNCED"; "ATOM_TXN_PREPARE_MUTEX_OVERHEAD";
    "ATOM_TXN_OLD_COMMIT_MAP_MUTEX_OVERHEAD"; "ATOM_TXN_DUPLICATE_KEY_OVERHEAD";
    "ATOM_TXN_SNAPSHOT_MUTEX_OVERHEAD"; "ATOM_TXN_GET_TRY_AGAIN"; "ATOM_MEDIAN";
    "ATOM_PERCENTILE95"; "ATOM_PERCENTILE99"; "ATOM_AVERAGE"; "ATOM_STANDARD_DEVIATION";
    "ATOM_MAX"; "ATOM_COUNT"; "ATOM_SUM"].

Definition vars_transactions : list string := [
    "ATOM_MAX_NUM_LOCKS"; "ATOM_NUM_STRIPES"; "ATOM_TRANSACTION_LOCK_TIMEOUT";
    "ATOM_DEFAULT_LOCK_TIMEOUT"; "ATOM_SET_SNAPSHOT"; "ATOM_DEADLOCK_DETECT";
    "ATOM_LOCK_TIMEOUT"; "ATOM_BUSY"; "ATOM_TIMED_OUT"; "ATOM_EXPIRED"; "ATOM_TRY_AGAIN";
    "ATOM_SIZE"; "ATOM_FILE_COUNT"; "ATOM_NAME"; "ATOM_BLOB_FILES"; "ATOM_BLOB_FILE_NUMBER";
    "ATOM_BLOB_FILE_NAME"; "ATOM_BLOB_FILE_PATH"; "ATOM_TOTAL_BLOB_COUNT";
    "ATOM_TOTAL_BLOB_BYTES"; "ATOM_GARBAGE_BLOB_COUNT"; "ATOM_GARBAGE_BLOB_BYTES";
    "ATOM_RATE_LIMITER_PRIORITY"; "ATOM_IO_LOW"; "ATOM_IO_MID"; "ATOM_IO_HIGH"; "ATOM_IO_USER";
    "ATOM_IO_TOTAL"; "ATOM_MAX_MANIFEST_SPACE_AMP_PCT"; "ATOM_TARGET_FILE_SIZE_IS_UPPER_BOUND"].

(** The variables, which the loader of the library zero-initialises. *)
Definition atom_vars : list string :=
  vars_erlang ++ vars_cf ++ vars_db ++ vars_io ++ vars_compact ++ vars_enums ++ vars_errors ++
  vars_merge ++ vars_filter ++ vars_managers ++ vars_properties ++ vars_statistics ++
  vars_operations ++ vars_transactions.

(** ** Declarations of the header *)

Definition externs_erlang : list string := [
    "ATOM_TRUE"; "ATOM_FALSE"; "ATOM_OK"; "ATOM_ERROR"; "ATOM_EINVAL"; "ATOM_BADARG";
    "ATOM_NOT_FOUND"; "ATOM_INC"; "ATOM_DEC"; "ATOM_CORRUPTION"; "ATOM_UNKNOWN_STATUS_ERROR";
    "ATOM_UNDEFINED"; "ATOM_DEFAULT"; "ATOM_MEMENV"; "ATOM_LRU"; "ATOM_CLOCK"; "ATOM_USAGE";
    "ATOM_PINNED_USAGE"; "ATOM_CAPACITY"; "ATOM_STRICT_CAPACITY"; "ATOM_FLUSH_ONLY";
    "ATOM_DISABLE"; "ATOM_DEFAULT_COLUMN_FAMILY"].

Definition externs_cf : list string := [
    "ATOM_BLOCK_CACHE_SIZE_MB_FOR_POINT_LOOKUP"; "ATOM_MEMTABLE_MEMORY_BUDGET";
    "ATOM_WRITE_BUFFER_SIZE"; "ATOM_MAX_WRITE_BUFFER_NUMBER";
    "ATOM_MIN_WRITE_BUFFER_NUMBER_TO_MERGE"; "ATOM_COMPRESSION"; "ATOM_ENABLE_BLOB_FILES";
    "ATOM_MIN_BLOB_SIZE"; "ATOM_BLOB_FILE_SIZE"; "ATOM_BLOB_COMPRESSION_TYPE";
    "ATOM_ENABLE_BLOB_GC"; "ATOM_BLOB_GC_AGE_CUTOFF"; "ATOM_BLOB_GC_FORCE_THRESHOLD";
    "ATOM_BLOB_COMPACTION_READAHEAD_SIZE"; "ATOM_BLOB_FILE_STARTING_LEVEL"; "ATOM_BLOB_CACHE";
    "ATOM_PREPOPULATE_BLOB_CACHE"; "ATOM_BOTTOMMOST_COMPRESSION";
    "ATOM_BOTTOMMOST_COMPRESSION_OPTS"; "ATOM_COMPRESSION_OPTS"; "ATOM_WINDOW_BITS";
    "ATOM_LEVEL"; "ATOM_STRATEGY"; "ATOM_MAX_DICT_BYTES"; "ATOM_ZSTD_MAX_TRAIN_BYTES";
    "ATOM_NUM_LEVELS"; "ATOM_LEVEL0_FILE_NUM_COMPACTION_TRIGGER";
    "ATOM_LEVEL0_SLOWDOWN_WRITES_TRIGGER"; "ATOM_LEVEL0_STOP_WRITES_TRIGGER";
    "ATOM_TARGET_FILE_SIZE_BASE"; "ATOM_TARGET_FILE_SIZE_MULTIPLIER";
    "ATOM_MAX_BYTES_FOR_LEVEL_BASE"; "ATOM_MAX_BYTES_FOR_LEVEL_MULTIPLIER";
    "ATOM_MAX_COMPACTION_BYTES"; "ATOM_ARENA_BLOCK_SIZE"; "ATOM_DISABLE_AUTO_COMPACTIONS";
    "ATOM_COMPACTION_STYLE"; "ATOM_COMPACTION_PRI"; "ATOM_FILTER_DELETES";
    "ATOM_MAX_SEQUENTIAL_SKIP_IN_ITERATIONS"; "ATOM_INPLACE_UPDATE_SUPPORT";
    "ATOM_INPLACE_UPDATE_NUM_LOCKS"; "ATOM_TABLE_FACTORY_BLOCK_CACHE_SIZE";
    "ATOM_IN_MEMORY_MODE"; "ATOM_IN_MEMORY"; "ATOM_BLOCK_BASED_TABLE_OPTIONS";
    "ATOM_ALLOW_CONCURRENT_MEMTABLE_WRITE"; "ATOM_ENABLE_WRITE_THREAD_ADAPTATIVE_YIELD";
    "ATOM_LEVEL_COMPACTION_DYNAMIC_LEVEL_BYTES"; "ATOM_OPTIMIZE_FILTERS_FOR_HITS";
    "ATOM_PREFIX_EXTRACTOR"].

Definition externs_db : list string := [
    "ATOM_TOTAL_THREADS"; "ATOM_CREATE_IF_MISSING"; "ATOM_CREATE_MISSING_COLUMN_FAMILIES";
    "ATOM_ERROR_IF_EXISTS"; "ATOM_PARANOID_CHECKS"; "ATOM_MAX_OPEN_FILES";
    "ATOM_MAX_TOTAL_WAL_SIZE"; "ATOM_USE_FSYNC"; "ATOM_DB_PATHS"; "ATOM_DB_LOG_DIR";
    "ATOM_WAL_DIR"; "ATOM_DELETE_OBSOLETE_FILES_PERIOD_MICROS"; "ATOM_MAX_BACKGROUND_JOBS";
    "ATOM_MAX_BACKGROUND_COMPACTIONS"; "ATOM_MAX_BACKGROUND_FLUSHES"; "ATOM_MAX_LOG_FILE_SIZE";
    "ATOM_LOG_FILE_TIME_TO_ROLL"; "ATOM_KEEP_LOG_FILE_NUM"; "ATOM_MAX_MANIFEST_FILE_SIZE";
    "ATOM_TABLE_CACHE_NUMSHARDBITS"; "ATOM_WAL_TTL_SECONDS"; "ATOM_WAL_SIZE_LIMIT_MB";
    "ATOM_MANIFEST_PREALLOCATION_SIZE"; "ATOM_ALLOW_MMAP_READS"; "ATOM_ALLOW_MMAP_WRITES";
    "ATOM_IS_FD_CLOSE_ON_EXEC"; "ATOM_STATS_DUMP_PERIOD_SEC"; "ATOM_ADVISE_RANDOM_ON_OPEN";
    "ATOM_COMPACTION_READAHEAD_SIZE"; "ATOM_SKIP_STATS_UPDATE_ON_DB_OPEN";
    "ATOM_WAL_RECOVERY_MODE"; "ATOM_USE_ADAPTIVE_MUTEX"; "ATOM_BYTES_PER_SYNC";
    "ATOM_DB_WRITE_BUFFER_SIZE"; "ATOM_RATE_LIMITER"; "ATOM_SST_FILE_MANAGER";
    "ATOM_WRITE_BUFFER_MANAGER"; "ATOM_MAX_SUBCOMPACTIONS"; "ATOM_MANUAL_WAL_FLUSH";
    "ATOM_ATOMIC_FLUSH"; "ATOM_USE_DIRECT_READS"; "ATOM_USE_DIRECT_IO_FOR_FLUSH_AND_COMPACTION";
    "ATOM_ENABLE_PIPELINED_WRITE"; "ATOM_UNORDERED_WRITE"; "ATOM_TWO_WRITE_QUEUES"].

Definition externs_io : list string := [
    "ATOM_NO_BLOCK_CACHE"; "ATOM_BLOCK_SIZE"; "ATOM_BLOCK_CACHE_SIZE";
    "ATOM_BLOOM_FILTER_POLICY"; "ATOM_FORMAT_VERSION"; "ATOM_CACHE_INDEX_AND_FILTER_BLOCKS";
    "ATOM_READ_TIER"; "ATOM_READ_ALL_TIER"; "ATOM_BLOCK_CACHE_TIER"; "ATOM_PERSISTED_TIER";
    "ATOM_MEMTABLE_TIER"; "ATOM_VERIFY_CHECKSUMS"; "ATOM_FILL_CACHE";
    "ATOM_ITERATE_UPPER_BOUND"; "ATOM_ITERATE_LOWER_BOUND"; "ATOM_TAILING";
    "ATOM_TOTAL_ORDER_SEEK"; "ATOM_PREFIX_SAME_AS_START"; "ATOM_SNAPSHOT"; "ATOM_BAD_SNAPSHOT";
    "ATOM_AUTO_REFRESH_ITERATOR_WITH_SNAPSHOT"; "ATOM_AUTO_READAHEAD_SIZE";
    "ATOM_ALLOW_UNPREPARED_VALUE"; "ATOM_READAHEAD_SIZE"; "ATOM_ASYNC_IO"; "ATOM_SYNC";
    "ATOM_DISABLE_WAL"; "ATOM_IGNORE_MISSING_COLUMN_FAMILIES"; "ATOM_NO_SLOWDOWN";
    "ATOM_LOW_PRI"; "ATOM_CLEAR"; "ATOM_PUT"; "ATOM_MERGE"; "ATOM_DELETE"; "ATOM_SINGLE_DELETE"].

Definition externs_compact : list string := [
    "ATOM_EXCLUSIVE_MANUAL_COMPACTION"; "ATOM_CHANGE_LEVEL"; "ATOM_TARGET_LEVEL";
    "ATOM_ALLOW_WRITE_STALL"; "ATOM_BOTTOMMOST_LEVEL_COMPACTION"; "ATOM_SKIP";
    "ATOM_IF_HAVE_COMPACTION_FILTER"; "ATOM_FORCE"; "ATOM_FORCE_OPTIMIZED";
    "ATOM_COMPACTION_OPTIONS_FIFO"; "ATOM_MAX_TABLE_FILE_SIZE"; "ATOM_ALLOW_COMPACTION";
    "ATOM_TTL"; "ATOM_WAIT"; "ATOM_FIRST"; "ATOM_LAST"; "ATOM_NEXT"; "ATOM_PREV";
    "ATOM_SEEK_FOR_PREV"; "ATOM_SEEK"; "ATOM_KEYS_ONLY"].

Definition externs_enums : list string := [
    "ATOM_COMPRESSION_TYPE_SNAPPY"; "ATOM_COMPRESSION_TYPE_ZLIB"; "ATOM_COMPRESSION_TYPE_BZIP2";
    "ATOM_COMPRESSION_TYPE_LZ4"; "ATOM_COMPRESSION_TYPE_LZ4H"; "ATOM_COMPRESSION_TYPE_ZSTD";
    "ATOM_COMPRESSION_TYPE_NONE"; "ATOM_COMPACTION_STYLE_LEVEL";
    "ATOM_COMPACTION_STYLE_UNIVERSAL"; "ATOM_COMPACTION_STYLE_FIFO";
    "ATOM_COMPACTION_STYLE_NONE"; "ATOM_COMPACTION_PRI_COMPENSATED_SIZE";
    "ATOM_COMPACTION_PRI_OLDEST_LARGEST_SEQ_FIRST";
    "ATOM_COMPACTION_PRI_OLDEST_SMALLEST_SEQ_FIRST"; "ATOM_WAL_TOLERATE_CORRUPTED_TAIL_RECORDS";
    "ATOM_WAL_ABSOLUTE_CONSISTENCY"; "ATOM_WAL_POINT_IN_TIME_RECOVERY";
    "ATOM_WAL_SKIP_ANY_CORRUPTED_RECORDS"].

Definition externs_errors : list string := [
    "ATOM_ERROR_DB_OPEN"; "ATOM_ERROR_DB_PUT"; "ATOM_ERROR_DB_DELETE"; "ATOM_ERROR_DB_WRITE";
    "ATOM_ERROR_DB_DESTROY"; "ATOM_ERROR_DB_REPAIR"; "ATOM_BAD_WRITE_ACTION";
    "ATOM_KEEP_RESOURCE_FAILED"; "ATOM_ITERATOR_CLOSED"; "ATOM_INVALID_ITERATOR";
    "ATOM_ERROR_INCOMPLETE"; "ATOM_ERROR_BACKUP_ENGINE_OPEN"; "ATOM_WRITE_THREADS";
    "ATOM_PRIORITY_HIGH"; "ATOM_PRIORITY_LOW"; "ATOM_ENV"; "ATOM_BLOCK_CACHE";
    "ATOM_BACKUP_INFO_ID"; "ATOM_BACKUP_INFO_TIMESTAMP"; "ATOM_BACKUP_INFO_SIZE";
    "ATOM_BACKUP_INFO_NUMBER_FILES"].

Definition externs_merge : list string := [
    "ATOM_MERGE_OPERATOR"; "ATOM_ERLANG_MERGE_OPERATOR"; "ATOM_BITSET_MERGE_OPERATOR";
    "ATOM_COUNTER_MERGE_OPERATOR"; "ATOM_MERGE_INT_ADD"; "ATOM_MERGE_LIST_APPEND";
    "ATOM_MERGE_LIST_SUBSTRACT"; "ATOM_MERGE_LIST_SET"; "ATOM_MERGE_LIST_DELETE";
    "ATOM_MERGE_LIST_INSERT"; "ATOM_MERGE_BINARY_APPEND"; "ATOM_MERGE_BINARY_REPLACE";
    "ATOM_MERGE_BINARY_INSERT"; "ATOM_MERGE_BINARY_ERASE"; "ATOM_POSTING_LIST_MERGE_OPERATOR";
    "ATOM_POSTING_ADD"; "ATOM_POSTING_DELETE"; "ATOM_ACTIVE"; "ATOM_TOMBSTONE";
    "ATOM_FIXED_PREFIX_TRANSFORM"; "ATOM_CAPPED_PREFIX_TRANSFORM"; "ATOM_COMPARATOR";
    "ATOM_BYTEWISE_COMPARATOR"; "ATOM_REVERSE_BYTEWISE_COMPARATOR"].

Definition externs_filter : list string := [
    "ATOM_COMPACTION_FILTER"; "ATOM_RULES"; "ATOM_HANDLER"; "ATOM_BATCH_SIZE"; "ATOM_TIMEOUT";
    "ATOM_KEY_PREFIX"; "ATOM_KEY_SUFFIX"; "ATOM_KEY_CONTAINS"; "ATOM_VALUE_EMPTY";
    "ATOM_VALUE_PREFIX"; "ATOM_TTL_FROM_KEY"; "ATOM_ALWAYS_DELETE"; "ATOM_KEEP"; "ATOM_REMOVE";
    "ATOM_CHANGE_VALUE"; "ATOM_NONE"; "ATOM_INCLUDE_MEMTABLES"; "ATOM_INCLUDE_FILES";
    "ATOM_INCLUDE_BOTH"].

Definition externs_managers : list string := [
    "ATOM_ENABLED"; "ATOM_BUFFER_SIZE"; "ATOM_MUTABLE_MEMTABLE_MEMORY_USAGE";
    "ATOM_MEMORY_USAGE"; "ATOM_DELETE_RATE_BYTES_PER_SEC"; "ATOM_MAX_TRASH_DB_RATIO";
    "ATOM_BYTES_MAX_DELETE_CHUNK"; "ATOM_MAX_ALLOWED_SPACE_USAGE";
    "ATOM_COMPACTION_BUFFER_SIZE"; "ATOM_IS_MAX_ALLOWED_SPACE_REACHED";
    "ATOM_MAX_ALLOWED_SPACE_REACHED_INCLUDING_COMPACTIONS"; "ATOM_TOTAL_SIZE";
    "ATOM_TOTAL_TRASH_SIZE"; "ATOM_WITH_FILE_INFO"; "ATOM_FILE_PATH"; "ATOM_SMALLEST_KEY";
    "ATOM_LARGEST_KEY"; "ATOM_SMALLEST_RANGE_DEL_KEY"; "ATOM_LARGEST_RANGE_DEL_KEY";
    "ATOM_FILE_SIZE"; "ATOM_NUM_ENTRIES"; "ATOM_NUM_RANGE_DEL_ENTRIES"; "ATOM_SEQUENCE_NUMBER";
    "ATOM_MOVE_FILES"; "ATOM_FAILED_MOVE_FALL_BACK_TO_COPY"; "ATOM_SNAPSHOT_CONSISTENCY";
    "ATOM_ALLOW_GLOBAL_SEQNO"; "ATOM_ALLOW_BLOCKING_FLUSH"; "ATOM_INGEST_BEHIND";
    "ATOM_VERIFY_CHECKSUMS_BEFORE_INGEST"; "ATOM_VERIFY_CHECKSUMS_READAHEAD_SIZE";
    "ATOM_VERIFY_FILE_CHECKSUM"; "ATOM_FAIL_IF_NOT_BOTTOMMOST_LEVEL";
    "ATOM_ALLOW_DB_GENERATED_FILES"].

Definition externs_properties : list string := [
    "ATOM_DATA_SIZE"; "ATOM_INDEX_SIZE"; "ATOM_INDEX_PARTITIONS"; "ATOM_TOP_LEVEL_INDEX_SIZE";
    "ATOM_FILTER_SIZE"; "ATOM_RAW_KEY_SIZE"; "ATOM_RAW_VALUE_SIZE"; "ATOM_NUM_DATA_BLOCKS";
    "ATOM_NUM_DELETIONS"; "ATOM_NUM_MERGE_OPERANDS"; "ATOM_NUM_RANGE_DELETIONS";
    "ATOM_FORMAT_VERSION"; "ATOM_FIXED_KEY_LEN"; "ATOM_COLUMN_FAMILY_ID";
    "ATOM_COLUMN_FAMILY_NAME"; "ATOM_FILTER_POLICY_NAME"; "ATOM_COMPARATOR_NAME";
    "ATOM_MERGE_OPERATOR_NAME"; "ATOM_PREFIX_EXTRACTOR_NAME"; "ATOM_PROPERTY_COLLECTORS_NAMES";
    "ATOM_COMPRESSION_NAME"; "ATOM_COMPRESSION_OPTIONS"; "ATOM_CREATION_TIME";
    "ATOM_OLDEST_KEY_TIME"; "ATOM_FILE_CREATION_TIME";
    "ATOM_SLOW_COMPRESSION_ESTIMATED_DATA_SIZE"; "ATOM_FAST_COMPRESSION_ESTIMATED_DATA_SIZE";
    "ATOM_EXTERNAL_SST_FILE_GLOBAL_SEQNO_OFFSET"].

Definition externs_statistics : list string := [
    "ATOM_STATISTICS"; "ATOM_STATS_DISABLE_ALL"; "ATOM_STATS_EXCEPT_TICKERS";
    "ATOM_STATS_EXCEPT_HISTOGRAM_OR_TIMERS"; "ATOM_STATS_EXCEPT_TIMERS";
    "ATOM_STATS_EXCEPT_DETAILED_TIMERS"; "ATOM_STATS_EXCEPT_TIME_FOR_MUTEX"; "ATOM_STATS_ALL";
    "ATOM_STATS_LEVEL"; "ATOM_BLOB_DB_NUM_PUT"; "ATOM_BLOB_DB_NUM_WRITE";
    "ATOM_BLOB_DB_NUM_GET"; "ATOM_BLOB_DB_NUM_MULTIGET"; "ATOM_BLOB_DB_NUM_SEEK";
    "ATOM_BLOB_DB_NUM_NEXT"; "ATOM_BLOB_DB_NUM_PREV"; "ATOM_BLOB_DB_NUM_KEYS_WRITTEN";
    "ATOM_BLOB_DB_NUM_KEYS_READ"; "ATOM_BLOB_DB_BYTES_WRITTEN"; "ATOM_BLOB_DB_BYTES_READ";
    "ATOM_BLOB_DB_WRITE_INLINED"; "ATOM_BLOB_DB_WRITE_INLINED_TTL"; "ATOM_BLOB_DB_WRITE_BLOB";
    "ATOM_BLOB_DB_WRITE_BLOB_TTL"; "ATOM_BLOB_DB_BLOB_FILE_BYTES_WRITTEN";
    "ATOM_BLOB_DB_BLOB_FILE_BYTES_READ"; "ATOM_BLOB_DB_BLOB_FILE_SYNCED";
    "ATOM_BLOB_DB_BLOB_INDEX_EXPIRED_COUNT"; "ATOM_BLOB_DB_BLOB_INDEX_EXPIRED_SIZE";
    "ATOM_BLOB_DB_BLOB_INDEX_EVICTED_COUNT"; "ATOM_BLOB_DB_BLOB_INDEX_EVICTED_SIZE";
    "ATOM_BLOB_DB_GC_NUM_FILES"; "ATOM_BLOB_DB_GC_NUM_NEW_FILES"; "ATOM_BLOB_DB_GC_FAILURES";
    "ATOM_BLOB_DB_GC_NUM_KEYS_RELOCATED"; "ATOM_BLOB_DB_GC_BYTES_RELOCATED";
    "ATOM_BLOB_DB_FIFO_NUM_FILES_EVICTED"; "ATOM_BLOB_DB_FIFO_NUM_KEYS_EVICTED";
    "ATOM_BLOB_DB_FIFO_BYTES_EVICTED"; "ATOM_BLOB_DB_CACHE_MISS"; "ATOM_BLOB_DB_CACHE_HIT";
    "ATOM_BLOB_DB_CACHE_ADD"; "ATOM_BLOB_DB_CACHE_ADD_FAILURES";
    "ATOM_BLOB_DB_CACHE_BYTES_READ"; "ATOM_BLOB_DB_CACHE_BYTES_WRITE"; "ATOM_BLOB_DB_KEY_SIZE";
    "ATOM_BLOB_DB_VALUE_SIZE"; "ATOM_BLOB_DB_WRITE_MICROS"; "ATOM_BLOB_DB_GET_MICROS";
    "ATOM_BLOB_DB_MULTIGET_MICROS"; "ATOM_BLOB_DB_SEEK_MICROS"; "ATOM_BLOB_DB_NEXT_MICROS";
    "ATOM_BLOB_DB_PREV_MICROS"; "ATOM_BLOB_DB_BLOB_FILE_WRITE_MICROS";
    "ATOM_BLOB_DB_BLOB_FILE_READ_MICROS"; "ATOM_BLOB_DB_BLOB_FILE_SYNC_MICROS";
    "ATOM_BLOB_DB_COMPRESSION_MICROS"; "ATOM_BLOB_DB_DECOMPRESSION_MICROS"].

Definition externs_operations : list string := [
    "ATOM_DB_GET"; "ATOM_DB_WRITE"; "ATOM_DB_MULTIGET"; "ATOM_DB_SEEK"; "ATOM_COMPACTION_TIME";
    "ATOM_FLUSH_TIME"; "ATOM_SST_READ_MICROS"; "ATOM_SST_WRITE_MICROS";
    "ATOM_TABLE_SYNC_MICROS"; "ATOM_WAL_FILE_SYNC_MICROS"; "ATOM_BYTES_PER_READ";
    "ATOM_BYTES_PER_WRITE"; "ATOM_NUM_OP_PER_TRANSACTION"; "ATOM_COMPACT_READ_BYTES";
    "ATOM_COMPACT_WRITE_BYTES"; "ATOM_FLUSH_WRITE_BYTES";
    "ATOM_COMPACTION_KEY_DROP_NEWER_ENTRY"; "ATOM_COMPACTION_KEY_DROP_OBSOLETE";
    "ATOM_COMPACTION_KEY_DROP_RANGE_DEL"; "ATOM_COMPACTION_KEY_DROP_USER";
    "ATOM_COMPACTION_CANCELLED"; "ATOM_NUMBER_SUPERVERSION_ACQUIRES";
    "ATOM_NUMBER_SUPERVERSION_RELEASES"; "ATOM_NUMBER_KEYS_WRITTEN"; "ATOM_NUMBER_KEYS_READ";
    "ATOM_NUMBER_KEYS_UPDATED"; "ATOM_BYTES_WRITTEN"; "ATOM_BYTES_READ"; "ATOM_ITER_BYTES_READ";
    "ATOM_NUMBER_DB_SEEK"; "ATOM_NUMBER_DB_NEXT"; "ATOM_NUMBER_DB_PREV";
    "ATOM_NUMBER_DB_SEEK_FOUND"; "ATOM_NUMBER_DB_NEXT_FOUND"; "ATOM_NUMBER_DB_PREV_FOUND";
    "ATOM_BLOCK_CACHE_MISS"; "ATOM_BLOCK_CACHE_HIT"; "ATOM_BLOCK_CACHE_ADD";
    "ATOM_BLOCK_CACHE_ADD_FAILURES"; "ATOM_BLOCK_CACHE_INDEX_MISS";
    "ATOM_BLOCK_CACHE_INDEX_HIT"; "ATOM_BLOCK_CACHE_FILTER_MISS"; "ATOM_BLOCK_CACHE_FILTER_HIT";
    "ATOM_BLOCK_CACHE_DATA_MISS"; "ATOM_BLOCK_CACHE_DATA_HIT"; "ATOM_BLOCK_CACHE_BYTES_READ";
    "ATOM_BLOCK_CACHE_BYTES_WRITE"; "ATOM_MEMTABLE_HIT"; "ATOM_MEMTABLE_MISS";
    "ATOM_STALL_MICROS"; "ATOM_WRITE_DONE_BY_SELF"; "ATOM_WRITE_DONE_BY_OTHER";
    "ATOM_WAL_FILE_SYNCED"; "ATOM_TXN_PREPARE_MUTEX_OVERHEAD";
    "ATOM_TXN_OLD_COMMIT_MAP_MUTEX_OVERHEAD"; "ATOM_TXN_DUPLICATE_KEY_OVERHEAD";
    "ATOM_TXN_SNAPSHOT_MUTEX_OVERHEAD"; "ATOM_TXN_GET_TRY_AGAIN"; "ATOM_MEDIAN";
    "ATOM_PERCENTILE95"; "ATOM_PERCENTILE99"; "ATOM_AVERAGE"; "ATOM_STANDARD_DEVIATION";
    "ATOM_MAX"; "ATOM_COUNT"; "ATOM_SUM"].

Definition externs_transactions : list string := [
    "ATOM_MAX_NUM_LOCKS"; "ATOM_NUM_STRIPES"; "ATOM_TRANSACTION_LOCK_TIMEOUT";
    "ATOM_DEFAULT_LOCK_TIMEOUT"; "ATOM_SET_SNAPSHOT"; "ATOM_DEADLOCK_DETECT";
    "ATOM_LOCK_TIMEOUT"; "ATOM_BUSY"; "ATOM_TIMED_OUT"; "ATOM_EXPIRED"; "ATOM_TRY_AGAIN";
    "ATOM_SIZE"; "ATOM_FILE_COUNT"; "ATOM_NAME"; "ATOM_BLOB_FILES"; "ATOM_BLOB_FILE_NUMBER";
    "ATOM_BLOB_FILE_NAME"; "ATOM_BLOB_FILE_PATH"; "ATOM_TOTAL_BLOB_COUNT";
    "ATOM_TOTAL_BLOB_BYTES"; "ATOM_GARBAGE_BLOB_COUNT"; "ATOM_GARBAGE_BLOB_BYTES";
    "ATOM_RATE_LIMITER_PRIORITY"; "ATOM_IO_LOW"; "ATOM_IO_MID"; "ATOM_IO_HIGH"; "ATOM_IO_USER";
    "ATOM_IO_TOTAL"; "ATOM_MAX_MANIFEST_SPACE_AMP_PCT"; "ATOM_TARGET_FILE_SIZE_IS_UPPER_BOUND"].

(** The variables [atoms.h] offers to the other files. *)
Definition atom_externs : list string :=
  externs_erlang ++ externs_cf ++ externs_db ++ externs_io ++ externs_compact ++
  externs_enums ++ externs_errors ++ externs_merge ++ externs_filter ++ externs_managers ++
  externs_properties ++ externs_statistics ++ externs_operations ++ externs_transactions.

(** ** The Erlang module *)

Definition exports_database : list (string * nat) := [
    ("open", 2%nat); ("open", 3%nat); ("open_readonly", 2%nat); ("open_readonly", 3%nat);
    ("open_optimistic_transaction_db", 2%nat); ("open_optimistic_transaction_db", 3%nat);
    ("open_with_ttl", 4%nat); ("open_with_ttl_cf", 4%nat); ("get_ttl", 2%nat);
    ("set_ttl", 2%nat); ("set_ttl", 3%nat); ("create_column_family_with_ttl", 4%nat);
    ("close", 1%nat); ("set_db_background_threads", 2%nat);
    ("set_db_background_threads", 3%nat); ("destroy", 2%nat); ("repair", 2%nat);
    ("is_empty", 1%nat); ("list_column_families", 2%nat); ("create_column_family", 3%nat);
    ("drop_column_family", 2%nat); ("destroy_column_family", 2%nat); ("checkpoint", 2%nat);
    ("flush", 2%nat); ("flush", 3%nat); ("sync_wal", 1%nat); ("flush_wal", 2%nat);
    ("supported_compressions", 0%nat); ("pause_background_work", 1%nat);
    ("continue_background_work", 1%nat); ("disable_manual_compaction", 1%nat);
    ("enable_manual_compaction", 1%nat); ("stats", 1%nat); ("stats", 2%nat);
    ("get_property", 2%nat); ("get_property", 3%nat); ("get_approximate_sizes", 3%nat);
    ("get_approximate_sizes", 4%nat); ("get_approximate_memtable_stats", 3%nat);
    ("get_approximate_memtable_stats", 4%nat); ("open_with_cf", 3%nat);
    ("open_with_cf_readonly", 3%nat); ("drop_column_family", 1%nat);
    ("destroy_column_family", 1%nat); ("get_column_family_metadata", 1%nat);
    ("get_column_family_metadata", 2%nat); ("get_latest_sequence_number", 1%nat);
    ("snapshot", 1%nat); ("release_snapshot", 1%nat); ("get_snapshot_sequence", 1%nat);
    ("put", 4%nat); ("put", 5%nat); ("merge", 4%nat); ("merge", 5%nat); ("delete", 3%nat);
    ("delete", 4%nat); ("single_delete", 3%nat); ("single_delete", 4%nat); ("get", 3%nat);
    ("get", 4%nat); ("multi_get", 3%nat); ("multi_get", 4%nat); ("put_entity", 4%nat);
    ("put_entity", 5%nat); ("get_entity", 3%nat); ("get_entity", 4%nat);
    ("delete_range", 4%nat); ("delete_range", 5%nat); ("compact_range", 4%nat);
    ("compact_range", 5%nat); ("iterator", 2%nat); ("iterator", 3%nat); ("iterators", 3%nat);
    ("coalescing_iterator", 3%nat); ("iterator_move", 2%nat); ("iterator_refresh", 1%nat);
    ("iterator_prepare_value", 1%nat); ("iterator_close", 1%nat); ("iterator_columns", 1%nat);
    ("delete_entity", 3%nat); ("delete_entity", 4%nat)].

Definition exports_resources : list (string * nat) := [
    ("write", 3%nat); ("count", 1%nat); ("count", 2%nat); ("fold", 4%nat); ("fold", 5%nat);
    ("fold_keys", 4%nat); ("fold_keys", 5%nat); ("new_cache", 2%nat); ("release_cache", 1%nat);
    ("cache_info", 1%nat); ("cache_info", 2%nat); ("set_capacity", 2%nat);
    ("set_strict_capacity_limit", 2%nat); ("new_lru_cache", 1%nat); ("new_clock_cache", 1%nat);
    ("get_usage", 1%nat); ("get_pinned_usage", 1%nat); ("get_capacity", 1%nat);
    ("new_rate_limiter", 2%nat); ("release_rate_limiter", 1%nat);
    ("new_sst_file_manager", 1%nat); ("new_sst_file_manager", 2%nat);
    ("release_sst_file_manager", 1%nat); ("sst_file_manager_flag", 3%nat);
    ("sst_file_manager_info", 1%nat); ("sst_file_manager_info", 2%nat);
    ("sst_file_manager_tracked_files", 1%nat); ("sst_file_writer_open", 2%nat);
    ("sst_file_writer_put", 3%nat); ("sst_file_writer_put_entity", 3%nat);
    ("sst_file_writer_merge", 3%nat); ("sst_file_writer_delete", 2%nat);
    ("sst_file_writer_delete_range", 3%nat); ("sst_file_writer_finish", 1%nat);
    ("sst_file_writer_finish", 2%nat); ("sst_file_writer_file_size", 1%nat);
    ("release_sst_file_writer", 1%nat); ("ingest_external_file", 3%nat);
    ("ingest_external_file", 4%nat); ("sst_file_reader_open", 2%nat);
    ("sst_file_reader_iterator", 2%nat); ("sst_file_reader_get_table_properties", 1%nat);
    ("sst_file_reader_verify_checksum", 1%nat); ("sst_file_reader_verify_checksum", 2%nat);
    ("sst_file_reader_iterator_move", 2%nat); ("sst_file_reader_iterator_close", 1%nat);
    ("release_sst_file_reader", 1%nat); ("new_write_buffer_manager", 1%nat);
    ("new_write_buffer_manager", 2%nat); ("release_write_buffer_manager", 1%nat);
    ("write_buffer_manager_info", 1%nat); ("write_buffer_manager_info", 2%nat);
    ("new_statistics", 0%nat); ("set_stats_level", 2%nat); ("statistics_info", 1%nat);
    ("statistics_ticker", 2%nat); ("statistics_histogram", 2%nat);
    ("release_statistics", 1%nat); ("new_env", 0%nat); ("new_env", 1%nat);
    ("set_env_background_threads", 2%nat); ("set_env_background_threads", 3%nat);
    ("destroy_env", 1%nat); ("default_env", 0%nat); ("mem_env", 0%nat);
    ("tlog_iterator", 2%nat); ("tlog_iterator_close", 1%nat);
    ("tlog_next_binary_update", 1%nat); ("tlog_next_update", 1%nat);
    ("write_binary_update", 3%nat); ("updates_iterator", 2%nat);
    ("close_updates_iterator", 1%nat); ("next_binary_update", 1%nat); ("next_update", 1%nat);
    ("batch", 0%nat); ("release_batch", 1%nat); ("write_batch", 3%nat); ("batch_put", 3%nat);
    ("batch_put", 4%nat); ("batch_merge", 3%nat); ("batch_merge", 4%nat);
    ("batch_delete", 2%nat); ("batch_delete", 3%nat); ("batch_single_delete", 2%nat);
    ("batch_single_delete", 3%nat); ("batch_delete_range", 3%nat);
    ("batch_delete_range", 4%nat); ("batch_clear", 1%nat); ("batch_savepoint", 1%nat);
    ("batch_rollback", 1%nat); ("batch_count", 1%nat); ("batch_data_size", 1%nat);
    ("batch_tolist", 1%nat)].

Definition exports_transactions : list (string * nat) := [
    ("transaction", 2%nat); ("release_transaction", 1%nat); ("transaction_put", 3%nat);
    ("transaction_put", 4%nat); ("transaction_get", 3%nat); ("transaction_get", 4%nat);
    ("transaction_get_for_update", 3%nat); ("transaction_get_for_update", 4%nat);
    ("transaction_multi_get", 3%nat); ("transaction_multi_get", 4%nat);
    ("transaction_multi_get_for_update", 3%nat); ("transaction_multi_get_for_update", 4%nat);
    ("transaction_delete", 2%nat); ("transaction_delete", 3%nat);
    ("transaction_iterator", 2%nat); ("transaction_iterator", 3%nat);
    ("transaction_commit", 1%nat); ("transaction_rollback", 1%nat);
    ("open_pessimistic_transaction_db", 2%nat); ("open_pessimistic_transaction_db", 3%nat);
    ("pessimistic_transaction", 2%nat); ("pessimistic_transaction", 3%nat);
    ("release_pessimistic_transaction", 1%nat); ("pessimistic_transaction_put", 3%nat);
    ("pessimistic_transaction_put", 4%nat); ("pessimistic_transaction_get", 3%nat);
    ("pessimistic_transaction_get", 4%nat); ("pessimistic_transaction_get_for_update", 3%nat);
    ("pessimistic_transaction_get_for_update", 4%nat);
    ("pessimistic_transaction_multi_get", 3%nat); ("pessimistic_transaction_multi_get", 4%nat);
    ("pessimistic_transaction_multi_get_for_update", 3%nat);
    ("pessimistic_transaction_multi_get_for_update", 4%nat);
    ("pessimistic_transaction_delete", 2%nat); ("pessimistic_transaction_delete", 3%nat);
    ("pessimistic_transaction_iterator", 2%nat); ("pessimistic_transaction_iterator", 3%nat);
    ("pessimistic_transaction_commit", 1%nat); ("pessimistic_transaction_rollback", 1%nat);
    ("pessimistic_transaction_set_savepoint", 1%nat);
    ("pessimistic_transaction_rollback_to_savepoint", 1%nat);
    ("pessimistic_transaction_pop_savepoint", 1%nat); ("pessimistic_transaction_get_id", 1%nat);
    ("pessimistic_transaction_get_waiting_txns", 1%nat); ("open_backup_engine", 1%nat);
    ("close_backup_engine", 1%nat); ("gc_backup_engine", 1%nat); ("create_new_backup", 2%nat);
    ("stop_backup", 1%nat); ("get_backup_info", 1%nat); ("verify_backup", 2%nat);
    ("delete_backup", 2%nat); ("purge_old_backup", 2%nat); ("restore_db_from_backup", 3%nat);
    ("restore_db_from_backup", 4%nat); ("restore_db_from_latest_backup", 2%nat);
    ("restore_db_from_latest_backup", 3%nat); ("compaction_filter_reply", 2%nat);
    ("posting_list_decode", 1%nat); ("posting_list_fold", 3%nat); ("posting_list_keys", 1%nat);
    ("posting_list_contains", 2%nat); ("posting_list_find", 2%nat);
    ("posting_list_count", 1%nat); ("posting_list_to_map", 1%nat);
    ("posting_list_version", 1%nat); ("posting_list_intersection", 2%nat);
    ("posting_list_union", 2%nat); ("posting_list_difference", 2%nat);
    ("posting_list_intersection_count", 2%nat); ("posting_list_bitmap_contains", 2%nat);
    ("posting_list_intersect_all", 1%nat); ("postings_open", 1%nat);
    ("postings_contains", 2%nat); ("postings_bitmap_contains", 2%nat);
    ("postings_count", 1%nat); ("postings_keys", 1%nat); ("postings_intersection", 2%nat);
    ("postings_union", 2%nat); ("postings_difference", 2%nat);
    ("postings_intersection_count", 2%nat); ("postings_intersect_all", 1%nat);
    ("postings_to_binary", 1%nat)].

Definition exports : list (string * nat) :=
  exports_database ++ exports_resources ++ exports_transactions.

(** The functions behind [merge] and [batch_merge], which the module keeps to itself. *)
Definition merge_stubs : list (string * nat) := [("merge_nif", 4%nat); ("merge_nif", 5%nat)].

Definition batch_merge_stubs : list (string * nat) := [("batch_merge_nif", 3%nat); ("batch_merge_nif", 4%nat)].
