(* ===== verification/NifLoad.v ===== *)
(** * Loading the native library and calling through its table

    [on_load], [on_upgrade] and the registration of [c_src/erocksdb.cc], with the
    functions that open the resource types of each component: the statics they
    set, and what the Erlang runtime does with the table of [NifTable] when it
    loads the library and when a process calls a function by name.

    The runtime is modelled as [erl_nif(3)] documents it: a registry of resource
    types ([enif_open_resource_type] creates a type, or takes an existing one over
    when the flags allow it), and [load_nif], which refuses a library whose table
    names a function the module does not have before it calls [on_load]. *)

From stdpp Require Import base list gmap strings.
From Stdlib Require Import ZArith Lia.
From S2P Require Import Prelude Terms RefObjects RefInv RefSystem HandleNif Options DbLib DbNif DbOpen DbSafe NifTable.

Open Scope string_scope.

(** ** Statics and the registry of resource types *)

(** The types of this module the runtime knows, by name. *)
Record runtime := {
  rt_types : gmap string nat;
  rt_next : nat;
}.

(** The static variables of the library: the resource types and the atoms.  A
    library just mapped has them all zero. *)
Record statics := {
  s_type : res_kind -> option nat;
  s_atom : gmap string term;
}.

Definition unset : statics := {| s_type := fun _ => None; s_atom := ∅ |}.

Definition enif_open_resource_type (name : string) (takeover : bool) (R : runtime) :
    runtime * option nat :=
  match rt_types R !! name with
  | Some ty => (R, if takeover then Some ty else None)
  | None =>
      ({| rt_types := <[name := rt_next R]> (rt_types R); rt_next := S (rt_next R) |},
       Some (rt_next R))
  end.

Definition loader : Type := runtime * statics -> runtime * statics.

Definition set_type (k : res_kind) (ty : option nat) (st : statics) : statics :=
  {| s_type := fun k' => if decide (k' = k) then ty else s_type st k'; s_atom := s_atom st |}.

Definition open_type (k : res_kind) (name : string) (takeover : bool) : loader := fun '(R, st) =>
  let '(R', ty) := enif_open_resource_type name takeover R in (R', set_type k ty st).

Definition CreateEnvType : loader := open_type REnv "erocksdb_Env" true.
Definition CreateDbObjectType : loader := open_type RDb "erocksdb_DbObject" true.
Definition CreateColumnFamilyObjectType : loader :=
  open_type RColumnFamily "erocksdb_ColumnFamilyObject" true.
Definition CreateItrObjectType : loader := open_type RItr "erocksdb_ItrObject" true.
Definition CreateSnapshotObjectType : loader := open_type RSnapshot "erocksdb_SnapshotObject" true.
Definition CreateBatchType : loader := open_type RBatch "rocksdb_WriteBatch" true.
Definition CreateTransactionObjectType : loader :=
  open_type RTransaction "erocksdb_TransactionObject" true.
Definition CreateTLogItrObjectType : loader := open_type RTLogItr "erocksdb_TLogItrObject" true.
Definition CreateBackupEngineObjectType : loader :=
  open_type RBackupEngine "erocksdb_BackupEngineObject" true.
Definition CreateCacheType : loader := open_type RCache "erocksdb_Cache" true.
Definition CreateStatisticsType : loader := open_type RStatistics "erocksdb_Statistics" true.
Definition CreateRateLimiterType : loader := open_type RRateLimiter "erocksdb_RateLimiter" true.
Definition CreateSstFileManagerType : loader :=
  open_type RSstFileManager "erocksdb_SstFileManager" true.
Definition CreateSstFileWriterType : loader :=
  open_type RSstFileWriter "erocksdb_SstFileWriter" true.
Definition CreateSstFileReaderItrType : loader :=
  open_type RSstFileReaderItr "erocksdb_SstFileReaderItr" true.
Definition CreateSstFileReaderType : loader := fun m =>
  CreateSstFileReaderItrType (open_type RSstFileReader "erocksdb_SstFileReader" true m).
Definition CreateWriteBufferManagerType : loader :=
  open_type RWriteBufferManager "erocksdb_WriteBufferManager" true.
Definition CreateCompactionBatchResourceType : loader :=
  open_type RCompactionBatch "erocksdb_CompactionBatch" true.

(** [init_posting_list_resource]: created, never taken over; whether it succeeded is
    returned. *)
Definition init_posting_list_resource (m : runtime * statics) : (runtime * statics) * bool :=
  let m' := open_type RPostings "posting_list" false m in
  (m', bool_decide (is_Some (s_type m'.2 RPostings))).

(** ** [on_load] *)

(** [ATOM(Id, Value)]: [enif_make_atom] of a Latin-1 text. *)
Definition set_atom (x : string * string) : loader := fun '(R, st) =>
  (R, {| s_type := s_type st; s_atom := <[x.1 := Tatom x.2]> (s_atom st) |}).

Definition create_types : list loader := [
  CreateEnvType; CreateDbObjectType; CreateColumnFamilyObjectType; CreateItrObjectType;
  CreateSnapshotObjectType; CreateBatchType; CreateTransactionObjectType;
  CreateTLogItrObjectType; CreateBackupEngineObjectType; CreateCacheType;
  CreateStatisticsType; CreateRateLimiterType; CreateSstFileManagerType;
  CreateSstFileWriterType; CreateSstFileReaderType; CreateWriteBufferManagerType;
  CreateCompactionBatchResourceType].

Definition run_all (l : list loader) (m : runtime * statics) : runtime * statics :=
  foldl (fun m f => f m) m l.

(** [on_load]; [env_default] tells whether [rocksdb::Env::Default()] returns rather
    than throws.  The result of [init_posting_list_resource] is dropped. *)
Definition on_load (env_default : bool) (m : runtime * statics) : (runtime * statics) * Z :=
  if env_default then
    let m1 := run_all create_types m in
    let '(m2, _) := init_posting_list_resource m1 in
    (run_all (map set_atom atom_inits) m2, 0)
  else (m, -1).

(** [on_upgrade] hands the private data over and touches no static. *)
Definition on_upgrade (m : runtime * statics) : (runtime * statics) * Z := (m, 0).

(** ** [erlang:load_nif] and calls by name *)

Inductive load_result :=
| Loaded (funcs : list ErlNifFunc)
| BadLib (f : string * nat)
| LoadFailed (rc : Z).

Definition fn_key (f : ErlNifFunc) : string * nat := (fn_name f, fn_arity f).

Definition load_nif (module_functions : list (string * nat)) (funcs : list ErlNifFunc) (rc : Z) :
    load_result :=
  match find (fun f => negb (bool_decide (fn_key f ∈ module_functions))) funcs with
  | Some f => BadLib (fn_key f)
  | None => if (rc =? 0)%Z then Loaded funcs else LoadFailed rc
  end.

(** The C++ function a call of [name] with [argc] arguments reaches; [None] when
    the module's own Erlang code runs. *)
Definition dispatch (funcs : list ErlNifFunc) (name : string) (argc : nat) : option string :=
  fn_fptr <$> find (fun f => bool_decide (fn_key f = (name, argc))) funcs.

(** The functions [rocksdb.erl] defines that the library may replace. *)
Definition module_functions : list (string * nat) := exports ++ merge_stubs ++ batch_merge_stubs.

(** The handle a resource of kind [k] carries, and the test of [enif_get_resource]
    with the type variable of kind [k']. *)
Definition handle_type (st : statics) (k : res_kind) : option nat := s_type st k.

Definition accepts (st : statics) (k' : res_kind) (ty : nat) : bool :=
  bool_decide (s_type st k' = Some ty).

(** ** The registry after [on_load] *)

(** [opened l m m']: running the openings [l] from [m], each of a name the registry
    does not have, gives [m']; every kind opened has a type of its own. *)
Definition opens (m : runtime * statics) : Prop :=
  (forall name ty, rt_types m.1 !! name = Some ty -> (ty < rt_next m.1)%nat) /\
  (forall k ty, s_type m.2 k = Some ty -> (ty < rt_next m.1)%nat) /\
  (forall k k' ty, s_type m.2 k = Some ty -> s_type m.2 k' = Some ty -> k = k').

Lemma open_type_new k name t m :
  opens m -> rt_types m.1 !! name = None ->
  opens (open_type k name t m) /\
  s_type (open_type k name t m).2 k = Some (rt_next m.1) /\
  (forall k', k' <> k -> s_type (open_type k name t m).2 k' = s_type m.2 k') /\
  dom (rt_types (open_type k name t m).1) = {[ name ]} ∪ dom (rt_types m.1) /\
  s_atom (open_type k name t m).2 = s_atom m.2.
Proof.
  intros (Hr & Hs & Hinj) Hn. destruct m as [R st]. cbn [fst snd] in *.
  unfold opens, open_type, enif_open_resource_type. rewrite Hn. cbn [fst snd].
  unfold set_type. cbn [rt_types rt_next s_type s_atom].
  assert (Hlt : forall k0 ty, s_type st k0 = Some ty -> ty <> rt_next R) by (intros k0 ty E%Hs; lia).
  split_and!; [| | | by rewrite decide_True | intros; by rewrite decide_False | | done].
  - intros name' ty [[<- <-] | [_ E%Hr]]%lookup_insert_Some; lia.
  - intros k0 ty. case_decide; [intros [= <-]; lia | intros E%Hs; lia].
  - intros k0 k1 ty. repeat case_decide; subst; [done | | | apply Hinj];
      [intros [= <-] E%Hlt; done | intros E%Hlt [= <-]; done].
  - by rewrite dom_insert_L.
Qed.

(** The openings in their order, as the kind and the name each one uses. *)
Definition openings : list (res_kind * string * bool) := [
  (REnv, "erocksdb_Env", true); (RDb, "erocksdb_DbObject", true);
  (RColumnFamily, "erocksdb_ColumnFamilyObject", true); (RItr, "erocksdb_ItrObject", true);
  (RSnapshot, "erocksdb_SnapshotObject", true); (RBatch, "rocksdb_WriteBatch", true);
  (RTransaction, "erocksdb_TransactionObject", true); (RTLogItr, "erocksdb_TLogItrObject", true);
  (RBackupEngine, "erocksdb_BackupEngineObject", true); (RCache, "erocksdb_Cache", true);
  (RStatistics, "erocksdb_Statistics", true); (RRateLimiter, "erocksdb_RateLimiter", true);
  (RSstFileManager, "erocksdb_SstFileManager", true);
  (RSstFileWriter, "erocksdb_SstFileWriter", true);
  (RSstFileReader, "erocksdb_SstFileReader", true);
  (RSstFileReaderItr, "erocksdb_SstFileReaderItr", true);
  (RWriteBufferManager, "erocksdb_WriteBufferManager", true);
  (RCompactionBatch, "erocksdb_CompactionBatch", true); (RPostings, "posting_list", false)].

Definition open_all (l : list (res_kind * string * bool)) (m : runtime * statics) :
    runtime * statics :=
  foldl (fun m '(k, name, t) => open_type k name t m) m l.

Lemma on_load_openings m :
  on_load true m = (run_all (map set_atom atom_inits) (open_all openings m), 0).
Proof. reflexivity. Qed.

Lemma open_all_new l m :
  opens m -> NoDup (map (fun x => x.1.2) l) ->
  (forall x, x ∈ l -> rt_types m.1 !! x.1.2 = None) ->
  opens (open_all l m) /\
  (forall k, k ∈ map (fun x => x.1.1) l -> is_Some (s_type (open_all l m).2 k)) /\
  (forall k, is_Some (s_type m.2 k) -> is_Some (s_type (open_all l m).2 k)).
Proof.
  revert m. induction l as [|[[k name] t] l IH]; intros m Hm Hnd Hnew; cbn [open_all foldl map].
  { split_and!; [done | by intros k ?%not_elem_of_nil | done]. }
  cbn [map fst snd] in Hnd. apply NoDup_cons in Hnd as [Hn Hnd].
  destruct (open_type_new k name t m Hm) as (Hm' & Hk & Hoth & Hdom & _).
  { apply (Hnew (k, name, t)). by left. }
  destruct (IH (open_type k name t m) Hm' Hnd) as (Ho & Hin & Hkeep).
  { intros x Hx. apply not_elem_of_dom. rewrite Hdom, not_elem_of_union, not_elem_of_singleton. split.
    - intros Heq. apply Hn. rewrite <- Heq. by apply (list_elem_of_fmap_2 (fun x => x.1.2)).
    - apply not_elem_of_dom, Hnew. by right. }
  assert (Hst : forall k', is_Some (s_type m.2 k') -> is_Some (s_type (open_type k name t m).2 k')).
  { intros k' Hs. destruct (decide (k' = k)) as [-> | Hne]; [by rewrite Hk | by rewrite Hoth]. }
  split_and!; [done | |].
  - intros k' [-> | Hk']%elem_of_cons; [apply Hkeep; cbn [fst]; by rewrite Hk | by apply Hin].
  - intros k' Hs. by apply Hkeep, Hst.
Qed.

(** ** The atoms after [on_load] *)

Lemma run_atoms l m :
  run_all (map set_atom l) m =
  (m.1, {| s_type := s_type m.2;
           s_atom := foldl (fun a x => <[x.1 := Tatom x.2]> a) (s_atom m.2) l |}).
Proof.
  revert m. induction l as [|x l IH]; intros [R [ty a]]; [done |].
  cbn [map run_all foldl]. unfold run_all in IH. rewrite IH. done.
Qed.

(** Assignments to distinct variables do not disturb each other. *)
Lemma assignments_lookup (l : list (string * string)) (a : gmap string term) x v :
  NoDup (map fst l) -> (x, v) ∈ l ->
  foldl (fun a y => <[y.1 := Tatom y.2]> a) a l !! x = Some (Tatom v).
Proof.
  intros Hnd Hx.
  assert (Hother : forall (l : list (string * string)) (a : gmap string term), x ∉ map fst l ->
            foldl (fun a y => <[y.1 := Tatom y.2]> a) a l !! x = a !! x).
  { clear. intros l. induction l as [|y l IH]; intros a Hn; cbn [foldl]; [done |].
    cbn [map] in Hn. apply not_elem_of_cons in Hn as [Hne Hn]. rewrite IH by done.
    by apply lookup_insert_ne. }
  revert a. induction l as [|y l IH]; intros a; [by apply not_elem_of_nil in Hx |].
  cbn [map foldl] in *. apply NoDup_cons in Hnd as [Hn Hnd].
  apply elem_of_cons in Hx as [<- | Hx]; [| by apply IH].
  rewrite Hother by done. apply lookup_insert_eq.
Qed.

Lemma inits_distinct : NoDup (map fst atom_inits).
Proof. apply (bool_decide_eq_true (NoDup (map fst atom_inits))). vm_compute. reflexivity. Qed.

(** Inclusion of tables of names, by computation. *)
Lemma names_incl (l l' : list string) :
  forallb (fun x => existsb (String.eqb x) l') l = true -> l ⊆ l'.
Proof.
  intros H x Hx%list_elem_of_In. rewrite forallb_forall in H. specialize (H x Hx).
  apply existsb_exists in H as (y & Hy & E%String.eqb_eq). subst y. by apply list_elem_of_In.
Qed.

(** ** Theorems *)

(** The shape of an atom text: what [enif_make_atom] accepts (at most 255 characters). *)
Definition valid_atom (a : string) : bool := (String.length a <=? 255)%nat.

(** The variables that share an atom with an earlier one. *)
Definition aliases : list (string * string) := [
  ("ATOM_COMPACTION_STYLE_LEVEL", "ATOM_LEVEL");
  ("ATOM_COMPACTION_STYLE_NONE", "ATOM_COMPRESSION_TYPE_NONE");
  ("ATOM_NONE", "ATOM_COMPRESSION_TYPE_NONE"); ("ATOM_DB_WRITE", "ATOM_ERROR_DB_WRITE");
  ("ATOM_SIZE", "ATOM_BACKUP_INFO_SIZE")].

Definition canonical (x : string) : string :=
  match find (fun p => String.eqb p.1 x) aliases with Some p => p.2 | None => x end.

Lemma aliases_exact :
  forallb (fun p => forallb (fun q =>
    Bool.eqb (String.eqb p.2 q.2) (String.eqb (canonical p.1) (canonical q.1))) atom_inits)
    atom_inits = true.
Proof. vm_compute. reflexivity. Qed.

(** After [on_load] every variable [atoms.h] declares is defined, and holds the
    atom its one assignment names, which fits the limit of an atom; two variables
    hold the same atom exactly when they are the same or one of the five aliases of
    the tables.  (So a comparison of a term with one of them tests one atom.) *)
Theorem on_load_sets_atoms (m : runtime * statics) :
  let st := (on_load true m).1.2 in
  (forall x, x ∈ atom_externs <-> x ∈ atom_vars) /\
  (forall x, x ∈ atom_externs <-> exists a, (x, a) ∈ atom_inits) /\
  (forall x a, (x, a) ∈ atom_inits -> s_atom st !! x = Some (Tatom a) /\ valid_atom a = true) /\
  (forall x y a b, (x, a) ∈ atom_inits -> (y, b) ∈ atom_inits ->
     (a = b <-> canonical x = canonical y)).
Proof.
  assert (Hvars : atom_externs ⊆ atom_vars /\ atom_vars ⊆ atom_externs /\
            atom_externs ⊆ map fst atom_inits /\ map fst atom_inits ⊆ atom_externs)
    by (split_and!; apply names_incl; vm_compute; reflexivity).
  destruct Hvars as (H1 & H2 & H3 & H4). split_and!.
  - split; [apply H1 | apply H2].
  - intros x. split.
    + intros ([x' a] & -> & Hin)%H3%list_elem_of_fmap. by exists a.
    + intros (a & Hin). apply H4, list_elem_of_fmap. by exists (x, a).
  - intros x a Hin. split.
    + rewrite on_load_openings. cbn [fst]. rewrite run_atoms. cbn [snd s_atom].
      by apply assignments_lookup; [apply inits_distinct |].
    + assert (Hv : forallb (fun p => valid_atom p.2) atom_inits = true) by (vm_compute; reflexivity).
      rewrite forallb_forall in Hv. by apply (Hv (x, a)), list_elem_of_In.
  - intros x y a b Hx%list_elem_of_In Hy%list_elem_of_In.
    pose proof aliases_exact as Hal. rewrite forallb_forall in Hal. specialize (Hal _ Hx).
    rewrite forallb_forall in Hal. specialize (Hal _ Hy). cbn [fst snd] in Hal.
    apply Bool.eqb_prop in Hal. rewrite <- !String.eqb_eq, Hal. done.
Qed.

(** C38.  In a runtime with no type of this module, [on_load] opens a type for every
    kind of resource, and a handle made with the type of one kind is accepted by the
    accessors of that kind alone: a term of another kind is refused, never
    reinterpreted. *)
Theorem kinds_distinguished (k k' : res_kind) :
  let st := (on_load true ({| rt_types := ∅; rt_next := 0 |}, unset)).1.2 in
  exists ty, handle_type st k = Some ty /\ (accepts st k' ty = true <-> k' = k).
Proof.
  rewrite on_load_openings. cbn [fst]. rewrite run_atoms. cbn [snd].
  destruct (open_all_new openings ({| rt_types := ∅; rt_next := 0 |}, unset)) as ((_ & _ & Hinj) & Hin & _).
  - by split_and!.
  - apply (bool_decide_eq_true (NoDup (map (fun x => x.1.2) openings))). vm_compute. reflexivity.
  - intros x _. apply lookup_empty.
  - destruct (Hin k) as [ty Hty]; [by destruct k; apply list_elem_of_In; cbn; tauto |].
    revert Hty Hinj. generalize (open_all openings ({| rt_types := ∅; rt_next := 0 |}, unset)).
    intros m Hty Hinj. exists ty. split; [exact Hty |].
    unfold accepts. cbn [s_type]. rewrite bool_decide_eq_true. split.
    + intros E. by apply (Hinj k' k ty).
    + by intros ->.
Qed.

(** ** Calls through the table *)

Lemma dispatch_entry name argc sym :
  dispatch nif_funcs name argc = Some sym ->
  argc ∈ map fn_arity (filter (fun f => fn_fptr f = sym) nif_funcs).
Proof.
  unfold dispatch. intros (f & Hf & ->)%fmap_Some.
  apply find_some in Hf as [Hin Hk%bool_decide_eq_true_1]. unfold fn_key in Hk. injection Hk as _ <-.
  apply list_elem_of_fmap. exists f. split; [done |]. apply list_elem_of_filter. split; [done |].
  by apply list_elem_of_In.
Qed.

(** The native functions with a model of every path. *)
Inductive native := NHandle (n : handle_nif) | NData (n : db_nif).

Definition symbol_of (n : native) : string :=
  match n with
  | NHandle NClose => "Close"
  | NHandle NCloseBackupEngine => "CloseBackupEngine"
  | NHandle NIteratorClose => "IteratorClose"
  | NHandle NTransactionLogIteratorClose => "TransactionLogIteratorClose"
  | NHandle NReleaseSnapshot => "ReleaseSnapshot"
  | NHandle NReleaseTransaction => "ReleaseTransaction"
  | NHandle NReleasePessimisticTransaction => "ReleasePessimisticTransaction"
  | NHandle NSnapshot => "Snapshot"
  | NHandle NNewTransaction => "NewTransaction"
  | NHandle (NTransactionLogIterator _ _) => "TransactionLogIterator"
  | NHandle (NGetSnapshotSequenceNumber _) => "GetSnapshotSequenceNumber"
  | NHandle (NDropColumnFamily _) => "DropColumnFamily"
  | NHandle (NDestroyColumnFamily _) => "DestroyColumnFamily"
  | NData NGet => "Get" | NData NMultiGet => "MultiGet" | NData NPut => "Put"
  | NData NMerge => "Merge" | NData NDelete => "Delete" | NData NSingleDelete => "SingleDelete"
  | NData NDeleteRange => "DeleteRange" | NData NPutEntity => "PutEntity"
  | NData NGetEntity => "GetEntity" | NData NIsEmpty => "IsEmpty"
  | NData NGetLatestSequenceNumber => "GetLatestSequenceNumber"
  | NData NGetProperty => "GetProperty" | NData NGetApproximateSizes => "GetApproximateSizes"
  | NData NGetApproximateMemTableStats => "GetApproximateMemTableStats"
  | NData NCompactRange => "CompactRange" | NData NFlush => "Flush" | NData NSyncWal => "SyncWal"
  | NData NPauseBackgroundWork => "PauseBackgroundWork"
  | NData NContinueBackgroundWork => "ContinueBackgroundWork"
  | NData NDisableManualCompaction => "DisableManualCompaction"
  | NData NEnableManualCompaction => "EnableManualCompaction" | NData NFlushWal => "FlushWal"
  | NData NSetDBBackgroundThreads => "SetDBBackgroundThreads" | NData (NCheckpoint _) => "Checkpoint"
  end.

Section Calls.
Context `{L : DbLib}.

(** [optimistic]: the databases that were opened as optimistic transaction databases. *)
Context (optimistic : nat -> bool).

Definition run_native (n : native) (argv : list term) (s : dsys) : outcome (dsys * reply) :=
  match n with
  | NHandle n => let! (h, r) := run_nif optimistic n (d_heap s) argv in Ok (set_heap s h, r)
  | NData n => run_db_nif n argv s
  end.

(** What [class_matches] asks of the database of [transaction/2], and [options_ok] of
    a read's options and of [Checkpoint::Create]. *)
Definition call_allowed (n : native) (h : heap) (argv : list term) : Prop :=
  match n with NHandle n => class_matches optimistic n argv | NData n => options_ok n h argv end.

Lemma native_arity (n : native) (argv : list term) (name : string) :
  dispatch nif_funcs name (length argv) = Some (symbol_of n) ->
  match n with
  | NHandle n => (HandleNif.nif_arity n <= length argv)%nat
  | NData n => length argv ∈ arities n
  end.
Proof.
  intros H%dispatch_entry.
  destruct n as [[]|[]]; cbn [symbol_of HandleNif.nif_arity arities] in *;
    match goal with H : _ ∈ ?l |- _ => let v := eval vm_compute in l in change l with v in H end;
    first [ exact H
          | rewrite list_elem_of_In in H; cbn [In] in H; lia
          | rewrite list_elem_of_In in *; cbn [In] in *; tauto ].
Qed.

(** C4.  A call of any name with any number of arguments that the table routes to
    one of these functions returns, without undefined behaviour and with the
    reference counts exact (it releases what it takes, and a data function leaves
    every handle as it found it): the arities the table registers are ones the
    functions can read.  It is required that the resources among the arguments
    and in a read's options are allocated, that an open column family still has its
    handle, that [transaction/2] gets a database that was
    opened as an optimistic transaction database (the code casts without a test),
    and that [Checkpoint::Create] succeeds (the code deletes an uninitialised pointer
    when it does not). *)
Theorem table_calls_safe (n : native) (name : string) (s : dsys) (pins : list nat) (argv : list term) :
  dispatch nif_funcs name (length argv) = Some (symbol_of n) ->
  INV (d_heap s) pins -> ample (d_heap s) pins -> cf_handles (d_heap s) ->
  Forall (valid_term (d_heap s)) argv -> call_allowed n (d_heap s) argv ->
  exists s' r, run_native n argv s = Ok (s', r) /\ INV (d_heap s') pins /\
    (forall d, n = NData d -> d_heap s' = d_heap s).
Proof.
  intros Hd HI Ha Hcf Hv Ho. pose proof (native_arity n argv name Hd) as Hl.
  destruct n as [n|n]; cbn [run_native call_allowed] in *.
  - destruct (handle_nifs_safe optimistic n (d_heap s) pins argv) as (h' & r & -> & HI'); try done.
    by exists (set_heap s h'), r.
  - destruct (db_nifs_neutral n s pins argv) as (s' & r & E & Eh); try done.
    exists s', r. rewrite Eh. by split_and!.
Qed.

End Calls.

(** The exported functions with a body in Erlang. *)
Definition erlang_functions : list (string * nat) := [
    ("open_optimistic_transaction_db", 2%nat); ("flush", 2%nat); ("stats", 1%nat);
    ("stats", 2%nat); ("open_with_cf", 3%nat); ("open_with_cf_readonly", 3%nat);
    ("merge", 4%nat); ("merge", 5%nat); ("delete_entity", 3%nat); ("delete_entity", 4%nat);
    ("write", 3%nat); ("count", 1%nat); ("count", 2%nat); ("fold", 4%nat); ("fold", 5%nat);
    ("fold_keys", 4%nat); ("fold_keys", 5%nat); ("new_lru_cache", 1%nat);
    ("new_clock_cache", 1%nat); ("get_usage", 1%nat); ("get_pinned_usage", 1%nat);
    ("get_capacity", 1%nat); ("new_sst_file_manager", 1%nat); ("new_env", 0%nat);
    ("default_env", 0%nat); ("mem_env", 0%nat); ("updates_iterator", 2%nat);
    ("close_updates_iterator", 1%nat); ("next_binary_update", 1%nat); ("next_update", 1%nat);
    ("batch_merge", 3%nat); ("batch_merge", 4%nat); ("posting_list_decode", 1%nat);
    ("posting_list_fold", 3%nat); ("posting_list_intersect_all", 1%nat);
    ("postings_intersection", 2%nat); ("postings_union", 2%nat); ("postings_difference", 2%nat);
    ("postings_intersection_count", 2%nat); ("postings_intersect_all", 1%nat)].

(** [erlang:load_nif] accepts the library: every function of the table is one of
    the module's and none is registered twice, so each function of the table, called
    with its arity, runs the C++ function the table gives it.  The exported functions
    the table leaves out are the ones written in Erlang and
    [set_db_background_threads/3], a stub whose call can only raise
    [nif_not_loaded]. *)
Theorem table_matches_module :
  load_nif module_functions nif_funcs 0 = Loaded nif_funcs /\
  NoDup (map fn_key nif_funcs) /\
  (forall f, f ∈ nif_funcs -> dispatch nif_funcs (fn_name f) (fn_arity f) = Some (fn_fptr f)) /\
  (forall e, e ∈ exports ->
     (dispatch nif_funcs e.1 e.2 = None <->
      e ∈ erlang_functions \/ e = ("set_db_background_threads", 3%nat))).
Proof.
  split_and!.
  - vm_compute. reflexivity.
  - apply (bool_decide_eq_true (NoDup (map fn_key nif_funcs))). vm_compute. reflexivity.
  - intros f Hf%list_elem_of_In.
    assert (H : forallb (fun f => bool_decide (dispatch nif_funcs (fn_name f) (fn_arity f) = Some (fn_fptr f)))
              nif_funcs = true) by (vm_compute; reflexivity).
    rewrite forallb_forall in H. by apply (bool_decide_eq_true_1 _ (H f Hf)).
  - intros e He%list_elem_of_In.
    assert (H : forallb (fun e => Bool.eqb (bool_decide (dispatch nif_funcs e.1 e.2 = None))
                (bool_decide (e ∈ erlang_functions \/ e = ("set_db_background_threads", 3%nat))))
              exports = true) by (vm_compute; reflexivity).
    rewrite forallb_forall in H. specialize (H e He). apply Bool.eqb_prop in H.
    rewrite <- (bool_decide_eq_true (dispatch nif_funcs e.1 e.2 = None)), H.
    rewrite (bool_decide_eq_true (e ∈ erlang_functions \/ _)). reflexivity.
Qed.

(** [open_pessimistic_transaction_db/2] of [rocksdb.erl]: its Erlang body, which the
    library's own function of that arity replaces. *)
Definition default_descriptors : term := make_list [Ttuple [enif_make_string "default"; Tnil]].

(** [open_pessimistic_transaction_db/2] has an Erlang body, a call of the function
    of three arguments with the default family, that the table replaces by a native
    function: on every argument the native function does what the body would. *)
Theorem replaced_body_agrees ip ol lib_open (s : osys) (name opts : term) :
  dispatch nif_funcs "open_pessimistic_transaction_db" 2 = Some "OpenPessimisticTransactionDB" /\
  dispatch nif_funcs "open_pessimistic_transaction_db" 3 = Some "OpenPessimisticTransactionDB" /\
  OpenPessimisticTransactionDB ip ol lib_open s [name; opts] =
  OpenPessimisticTransactionDB ip ol lib_open s [name; opts; default_descriptors].
Proof.
  split_and!; [reflexivity | reflexivity |].
  unfold OpenPessimisticTransactionDB. cbn [elem lookup list_lookup obind length Nat.eqb].
  destruct (get_c_string 4096 name), (enif_is_list opts); [| reflexivity ..].
  destruct (fold (parse_db_option ip) opts []) as [[db_opts ?]|]; cbn [obind]; [| reflexivity].
  destruct (fold parse_txn_db_option opts []) as [[txn_opts ?]|]; cbn [obind]; reflexivity.
Qed.

(** A library mapped by a code upgrade keeps its statics zero: [on_upgrade] reports
    success, and no term is accepted as a resource of any kind and no variable holds
    an atom. *)
Theorem upgrade_leaves_unset (R : runtime) :
  let '((_, st), rc) := on_upgrade (R, unset) in
  rc = 0%Z /\ (forall k ty, accepts st k ty = false) /\ (forall x, s_atom st !! x = None).
Proof. split_and!; [done | done | intros x; apply lookup_empty]. Qed.

(** ** Witness *)

Module NifLoadWitness.
Import RefSystemWitness HandleNifWitness DbSafeWitness.

#[local] Existing Instance safe_lib.

(** [put/5] by its name, with a value that is not a binary. *)
Lemma table_calls_safe_witness :
  exists s' r, run_native (fun _ => false) (NData NPut) bad_put cf_sys = Ok (s', r) /\ INV (d_heap s') [] /\
    (forall d, NData NPut = NData d -> d_heap s' = d_heap cf_sys).
Proof.
  apply (table_calls_safe (fun _ => false) (NData NPut) "put" cf_sys [] bad_put).
  - vm_compute. reflexivity.
  - apply inv_cf.
  - vm_compute. reflexivity.
  - apply cf_native.
  - repeat (apply Forall_cons; split); try (intros k id [=]; fail); [| | by apply Forall_nil_2].
    + intros k id [= Hk <-]. exists (the_obj h_cf 0). split; [look |]. by destruct k.
    + intros k id [= Hk <-]. exists (the_obj h_cf 1). split; [look |]. by destruct k.
  - exact I.
Defined.

End NifLoadWitness.
